(* ===== verification/_CoqProject ===== *)
-Q . S2P
Prelude.v
Bytes.v
Sha256.v
Arch.v
Measure.v
Creator.v
Mage.v
Loader.v
LoaderSim.v
LoaderSpec.v
MageLoad.v
Pipeline.v
LoaderPages.v
Elf.v
GlobalData.v
Metadata.v
MetadataSpec.v
MetadataSafe.v
CmdLine.v
Signature.v
Compat.v
Dump.v
SignTool.v
Sample.v
MageTool.v
SignRun.v
SampleProps.v
Trts.v
Tcrypto.v
Seal.v
Thread.v
ThreadInv.v
ThreadSim.v
ThreadWake.v
ThreadProps.v
Lru.v
Pfs.v
PfsIo.v
PfsFile.v
PfsTree.v
PfsInv.v
PfsNode.v
PfsData.v
PfsFlush.v
PfsUpdate.v
PfsWrite.v
PfsGet.v
PfsStore.v
PfsRw.v
PfsSpec.v
PfsOpen.v
PfsReopen.v
PfsProps.v
