(* ===== verification/Prelude.v ===== *)
(** * Verification of SRAS-MAGE: enclave measurement, signing tool, loader,
    trusted runtime libraries and protected files

    The repository is the Intel SGX SDK with MAGE, a scheme by which enclaves
    of a group learn each other's measurements without a cycle of hashes.  The
    development translates the parts that take part in it, and the libraries an
    enclave is linked with, into Rocq definitions and proves what they promise.

    ** Parts of the program and where they are modelled

    Foundations
    - Prelude.v: outcomes of C++ functions ([res]: a value, an error, or [Stuck]
      for undefined behaviour and failed assertions), the monad [M] of a state
      with outcomes, list lemmas with [Z] indices, tactics and hints.
    - Bytes.v: machine integers as [Z] with wrap-around, little-endian fields,
      the page macros of common/inc/internal/util.h.
    - Arch.v: status codes, page flags, SECS, the metadata block as bytes
      (common/inc/sgx_error.h, common/inc/internal/arch.h, metadata.h).

    Measurement
    - Sha256.v: FIPS 180-4 and the SHA-256 of sdk/protected_code_loader/crypto.
    - Measure.v: the log of ECREATE, EADD and EEXTEND and its hash; OpenSSL's EVP
      and sgx_tcrypto as classes with laws.
    - Creator.v: EnclaveCreatorST (sdk/sign_tool/SignTool/enclave_creator_sign.cpp)
      against [TraceCreator], the creator that keeps the log.
    - Mage.v: sdk/mage/sgx_mage.cpp, the derivation inside an enclave.

    Loading
    - Loader.v, LoaderSim.v, LoaderSpec.v, LoaderPages.v, MageLoad.v:
      psw/urts/loader.cpp, for any creator and any parser.
    - Elf.v: psw/urts/parser/elfparser.cpp; GlobalData.v:
      psw/urts/parser/update_global_data.hxx.
    - Pipeline.v: load, intermediate hash, fill the section, derive.

    Signing tool (sdk/sign_tool/SignTool)
    - Metadata.v, MetadataSpec.v, MetadataSafe.v, Dump.v: manage_metadata.cpp.
    - CmdLine.v, Signature.v, Compat.v, SignTool.v: sign_tool.cpp with util_st.cpp
      and parse_key_file.cpp; the file system is a map from paths to contents.
    - Sample.v, SampleProps.v: a small enclave file on which everything is run.
    - MageTool.v, SignRun.v: the commands genmage, signmage and sign end to end.

    Inside the enclave
    - Trts.v: sdk/trts (address checks, OCALL buffers, dynamic pages).
    - Tcrypto.v, Seal.v: sdk/selib/sgx_get_key.cpp, the AES-GCM and CMAC wrappers
      of sdk/tlibcrypto/ipp, and sdk/tseal.
    - Thread.v, ThreadInv.v, ThreadSim.v, ThreadWake.v, ThreadProps.v:
      sdk/tlibthread with psw/urts/enclave_mutex.cpp and common/src/se_event.c, a
      machine whose threads interleave between critical sections.
    - Lru.v, Pfs.v, PfsIo.v, PfsFile.v: sdk/protected_fs/sgx_tprotected_fs, files
      that are encrypted and authenticated node by node with a Merkle tree; the
      calls to the untrusted side are the class [Ocalls].
    - PfsTree.v, PfsInv.v, PfsNode.v, PfsData.v, PfsFlush.v, PfsUpdate.v,
      PfsWrite.v, PfsGet.v, PfsStore.v, PfsRw.v: the invariant of an open file
      and that every operation keeps it; PfsSpec.v: the abstract file and the
      refinement; PfsOpen.v, PfsReopen.v: opening and closing; PfsProps.v: the
      resulting theorems.

    ** How the parts interact

    The tool parses an ELF file (Elf.v), builds metadata for it (Metadata.v), has
    the loader (Loader.v) feed every page to the signing creator (Creator.v),
    puts the hash into the signature structure (Signature.v) and writes the files
    (SignTool.v).  The loader sees the parser as the record [BinParser] and the
    creator as the class [EnclaveCreator]; LoaderSim.v carries facts about the
    log over to any creator that refines it.  Inside the enclave, sealing and
    protected files use the same [Platform] (allocator, RDRAND, EGETKEY) and
    cipher ([AesGcm], [AesGcmLaws]) of Tcrypto.v and the address checks of Trts.v.

    ** What the theorems show

    - MAGE: the measurement an enclave derives for a peer is the measurement that
      the tool signs for that peer; the section round trips; the derivation
      stays inside the section unless the size overflows, and what happens then.
    - Measurement: the C code of SHA-256 equals FIPS 180-4; the signing creator
      refines the log; the log holds each page once.
    - Loader and parser: accepted metadata describes disjoint regions inside the
      enclave, the recursive traversal of the layout terminates and is its
      expansion; sections are disjoint and inside the file; the relocation
      bitmap is exact.
    - Signing tool: the layout tiles the enclave, the metadata buffer is never
      left, the sign command produces a file whose signature verifies over the
      measurement the loader computes; the command line and the configuration
      are accepted exactly when they should be; which files change on failure.
    - Trusted runtime: OCALL buffers lie outside the enclave, dynamic pages are
      accepted once and only inside dynamic regions; unsealing returns what was
      sealed, and nothing that is not authentic.
    - Threads: mutual exclusion under every interleaving, and no lost wake-up
      unless a futex returns spuriously.
    - Protected files: an open file is an array of bytes even if the untrusted
      side answers reads with arbitrary nodes, and the contents survive closing
      and opening again.
    - Theorems that describe defects (the size overflow of MAGE, the tag table of
      the parser, the sum of the layout, the spurious futex, the order of the
      node cache) are stated on concrete runs.

    ** Bounds and fuel

    - Loops over a list or a buffer recurse on it or on the number of its
      entries, computed from the same variable as the bound of the loop.
    - The traversal of the layout table has [walk_fuel] turns, twice the entries
      plus two; a group refers only to entries before it that are not groups, so
      this is enough for every validated table (traversal_expansion).
    - load_enclave_ex makes at most four attempts, as the source.
    - In PfsIo.v the chain of parents has [depth_fuel] steps: each parent divides
      a node number by 32, so numbers below 2^64 need 13.  The write loop has a
      step per node touched, the traversal of the cache one per entry, the
      eviction loop two per entry of the cache; pfs_integrity shows that they
      suffice, because running out would be [Stuck].
    - Files in the theorems on protected files stay below 2^62 bytes, so that
      offsets, which are int64_t, do not overflow.

    ** Assumptions

    What is outside src is a parameter with its documented laws as a class:
    [EvpLaws], [TcryptoLaws], [OpenSslLaws], [AesGcmLaws], [Healthy] (allocations,
    IPP calls and RDRAND succeed), and for protected files [Setting] and
    [KeepsFile].  With [honest = false], [Setting] lets reads return any node of
    4096 bytes and takes tags as ideal; reads do not fail there, because a read
    that fails can lead to the state of stale_parent.  With [honest = true] it
    asks of the file system that it returns what was written, through the handles
    that are open on the file ([View]: the nodes on the disk, which handles are
    open and how, the name of the file), and nothing of the tags.  Each such
    theorem has a witness with a concrete instance.

    ** Not modelled, and why

    - The untrusted runtime outside the loader (psw/urts: driver calls, ECALL
      entry, signals), psw/enclave_common, psw/ae, the AESM service and
      switchless calls: device drivers, IPC, assembly and worker threads.
    - The ports of C and C++ libraries (sdk/tlibc, tlibcxx, cpprt, compiler-rt,
      gperftools, tsafecrt), external, and the OCaml program sdk/edger8r.
    - AES-GCM and CMAC of the protected code loader (assembly), the IPP and
      OpenSSL wrappers other than the ones named, key exchange libraries.
    - Of the modelled parts: trace and usage output; 32-bit enclaves; reading of
      PEM and XML text (the parsed key and tree are inputs); ECALL entry and
      exception handling of sdk/trts; simultaneous calls on one protected file
      (each call holds the mutex of the file). *)

From stdpp Require Export base option list numbers strings.
From Stdlib Require Export ZArith Lia ZifyNat ZifyBool.

#[local] Open Scope Z_scope.

(** ** Outcomes of C++ functions

    [Ok a]: the function returns [a]; [Err e]: it returns the error [e];
    [Stuck]: its behaviour is undefined or the process aborts (an access
    outside a buffer, a failed [assert]). *)
Inductive res (E A : Type) : Type :=
| Ok (a : A)
| Err (e : E)
| Stuck.
Arguments Ok {E A} a.
Arguments Err {E A} e.
Arguments Stuck {E A}.

#[export] Instance res_ret E : MRet (res E) := fun A a => Ok a.
#[export] Instance res_bind E : MBind (res E) := fun A B f m =>
  match m with Ok a => f a | Err e => Err e | Stuck => Stuck end.
#[export] Instance res_fmap E : FMap (res E) := fun A B f m =>
  match m with Ok a => Ok (f a) | Err e => Err e | Stuck => Stuck end.

(** A pointer dereference or array access that may be out of range. *)
Definition deref {E A} (o : option A) : res E A :=
  match o with Some a => Ok a | None => Stuck end.

(** [assert(b)] *)
Definition assertc {E} (b : bool) : res E unit := if b then Ok tt else Stuck.

(** ** State passing with errors: the state survives an error return. *)
Definition M (S E A : Type) : Type := S -> S * res E A.

#[export] Instance M_ret S E : MRet (M S E) := fun A a s => (s, Ok a).
#[export] Instance M_bind S E : MBind (M S E) := fun A B f m s =>
  match m s with
  | (s', Ok a) => f a s'
  | (s', Err e) => (s', Err e)
  | (s', Stuck) => (s', Stuck)
  end.

Definition mget {S E} : M S E S := fun s => (s, Ok s).
Definition mput {S E} (s' : S) : M S E unit := fun _ => (s', Ok tt).
Definition mmod {S E} (f : S -> S) : M S E unit := fun s => (f s, Ok tt).
Definition merr {S E A} (e : E) : M S E A := fun s => (s, Err e).
Definition mlift {S E A} (r : res E A) : M S E A := fun s => (s, r).

(** [m], then a continuation for its value or for its error. *)
Definition mcase {S E A B} (m : M S E A) (f : A -> M S E B) (g : E -> M S E B) : M S E B := fun s =>
  match m s with
  | (s', Ok a) => f a s'
  | (s', Err e) => g e s'
  | (s', Stuck) => (s', Stuck)
  end.

(** ** Simulation between stateful computations

    [sim R m n]: from states related by [R], the implementation [m] returns
    what the specification [n] returns (value or error) in related states;
    nothing is required where [n] is undefined. *)
Definition sim {S T E A} (R : S -> T -> Prop) (m : M S E A) (n : M T E A) : Prop :=
  forall s t, R s t ->
    match n t with
    | (_, Stuck) => True
    | (t', r) => exists s', m s = (s', r) /\ R s' t'
    end.

Lemma sim_ret {S T E A} (R : S -> T -> Prop) (a : A) : sim (E:=E) R (mret a) (mret a).
Proof. intros s t H. by exists s. Qed.

Lemma sim_err {S T E A} (R : S -> T -> Prop) (e : E) : sim (A:=A) R (merr e) (merr e).
Proof. intros s t H. by exists s. Qed.

Lemma sim_lift {S T E A} (R : S -> T -> Prop) (r : res E A) : sim R (mlift r) (mlift r).
Proof. intros s t H. destruct r; [by exists s..|done]. Qed.

Lemma sim_bind {S T E A B} (R : S -> T -> Prop) (m : M S E A) (n : M T E A)
    (f : A -> M S E B) (g : A -> M T E B) :
  sim R m n -> (forall a, sim R (f a) (g a)) -> sim R (m ≫= f) (n ≫= g).
Proof.
  intros Hm Hf s t HR. specialize (Hm s t HR). unfold mbind, M_bind.
  destruct (n t) as [t' [a|e|]]; [..|done]; destruct Hm as (s' & -> & HR').
  - by apply Hf.
  - by exists s'.
Qed.

Lemma sim_case {S T E A B} (R : S -> T -> Prop) (m : M S E A) (n : M T E A)
    (f : A -> M S E B) (f' : A -> M T E B) (g : E -> M S E B) (g' : E -> M T E B) :
  sim R m n -> (forall a, sim R (f a) (f' a)) -> (forall e, sim R (g e) (g' e)) ->
  sim R (mcase m f g) (mcase n f' g').
Proof.
  intros Hm Hf Hg s t HR. specialize (Hm s t HR). unfold mcase.
  destruct (n t) as [t' [a|e|]]; [..|done]; destruct Hm as (s' & -> & HR').
  - by apply Hf.
  - by apply Hg.
Qed.

Lemma sim_if {S T E A} (R : S -> T -> Prop) (b : bool) (m1 m2 : M S E A) (n1 n2 : M T E A) :
  sim R m1 n1 -> sim R m2 n2 -> sim R (if b then m1 else m2) (if b then n1 else n2).
Proof. by destruct b. Qed.

(** A successful specification run is matched by the implementation. *)
Lemma sim_Ok {S T E A} (R : S -> T -> Prop) (m : M S E A) (n : M T E A) s t t' a :
  sim R m n -> R s t -> n t = (t', Ok a) -> exists s', m s = (s', Ok a) /\ R s' t'.
Proof. intros H HR E'. specialize (H s t HR). by rewrite E' in H. Qed.

Lemma bind_Ok_inv {S E A B} (m : M S E A) (f : A -> M S E B) s s' b :
  (m ≫= f) s = (s', Ok b) -> exists a s1, m s = (s1, Ok a) /\ f a s1 = (s', Ok b).
Proof. unfold mbind, M_bind. destruct (m s) as [s1 [a|e|]]; [|done..]. eauto. Qed.

Lemma bind_Ok {S E A B} (m : M S E A) (f : A -> M S E B) s s1 a :
  m s = (s1, Ok a) -> (m ≫= f) s = f a s1.
Proof. unfold mbind, M_bind. by intros ->. Qed.

Lemma bind_lift_Ok {S E A B} (a : A) (f : A -> M S E B) : (mlift (Ok a) ≫= f) = f a.
Proof. reflexivity. Qed.

(** ** Generic automation *)

Create HintDb mage discriminated.
Create Rewrite HintDb zlist.

(** Split every conditional of the goal or of a hypothesis and turn its test
    into an arithmetic fact. *)
Ltac split_if :=
  match goal with
  | |- context [if ?b then _ else _] => destruct b eqn:?
  | H : context [if ?b then _ else _] |- _ => destruct b eqn:?
  end.
Ltac split_ifs := repeat (split_if; simplify_eq/=).

(** Boolean tests on [Z] to propositions. *)
Ltac zbool :=
  repeat match goal with
  | H : (_ && _)%bool = true |- _ => apply andb_true_iff in H as [? ?]
  | H : (_ || _)%bool = false |- _ => apply orb_false_iff in H as [? ?]
  | H : negb _ = true |- _ => apply negb_true_iff in H
  | H : negb _ = false |- _ => apply negb_false_iff in H
  | H : (_ <=? _) = true |- _ => apply Z.leb_le in H
  | H : (_ <=? _) = false |- _ => apply Z.leb_gt in H
  | H : (_ <? _) = true |- _ => apply Z.ltb_lt in H
  | H : (_ <? _) = false |- _ => apply Z.ltb_ge in H
  | H : (_ =? _) = true |- _ => apply Z.eqb_eq in H
  | H : (_ =? _) = false |- _ => apply Z.eqb_neq in H
  | H : (_ >? _) = _ |- _ => rewrite Z.gtb_ltb in H
  | H : (_ >=? _) = _ |- _ => rewrite Z.geb_leb in H
  end.

(** Linear arithmetic with [/] and [mod] by constants. *)
Ltac zlia := zify; Z.to_euclidean_division_equations; lia.
(** ** Lists indexed by [Z]

    The C++ code indexes with 64-bit integers; the functions recurse on the
    list, so that they evaluate on indices far outside it. *)

Abbreviation zlen l := (Z.of_nat (length l)).

Fixpoint ztake {A} (n : Z) (l : list A) : list A :=
  match l with
  | [] => []
  | x :: l' => if n <=? 0 then [] else x :: ztake (n - 1) l'
  end.

Fixpoint zdrop {A} (n : Z) (l : list A) : list A :=
  match l with
  | [] => []
  | x :: l' => if n <=? 0 then l else zdrop (n - 1) l'
  end.

Fixpoint znth {A} (l : list A) (i : Z) : option A :=
  match l with
  | [] => None
  | x :: l' => if i =? 0 then Some x else if i <? 0 then None else znth l' (i - 1)
  end.

(** [slice off n l]: the [n] elements of [l] from [off]. *)
Definition slice {A} (off n : Z) (l : list A) : list A := ztake n (zdrop off l).

(** [splice off src dst]: [dst] with [src] written over it from [off]. *)
Definition splice {A} (off : Z) (src dst : list A) : list A :=
  ztake off dst ++ src ++ zdrop (off + zlen src) dst.

(** [zreplicate n x]: [n] copies of [x]. *)
Definition zreplicate {A} (n : Z) (x : A) : list A := replicate (Z.to_nat n) x.

Section ZList.
Context {A : Type}.
Implicit Types (l : list A) (x : A) (n m off : Z).

Lemma ztake_take n l : ztake n l = take (Z.to_nat n) l.
Proof.
  revert n; induction l as [|x l IH]; intros n; simpl.
  - by rewrite take_nil.
  - destruct (n <=? 0) eqn:E; zbool.
    + by replace (Z.to_nat n) with 0%nat by lia.
    + replace (Z.to_nat n) with (S (Z.to_nat (n - 1))) by lia. simpl. by rewrite IH.
Qed.

Lemma zdrop_drop n l : zdrop n l = drop (Z.to_nat n) l.
Proof.
  revert n; induction l as [|x l IH]; intros n; simpl.
  - by rewrite drop_nil.
  - destruct (n <=? 0) eqn:E; zbool.
    + by replace (Z.to_nat n) with 0%nat by lia.
    + replace (Z.to_nat n) with (S (Z.to_nat (n - 1))) by lia. simpl. by rewrite IH.
Qed.

Lemma znth_lookup l n : znth l n = if n <? 0 then None else l !! Z.to_nat n.
Proof.
  revert n; induction l as [|x l IH]; intros n; simpl; [by destruct (n <? 0)|].
  destruct (Z.eqb_spec n 0) as [->|]; [done|].
  destruct (n <? 0) eqn:E; [done|]. zbool.
  rewrite IH. replace (n - 1 <? 0) with false by lia.
  by replace (Z.to_nat n) with (S (Z.to_nat (n - 1))) by lia.
Qed.

Lemma zlen_ztake n l : zlen (ztake n l) = Z.max 0 (Z.min n (zlen l)).
Proof. rewrite ztake_take, length_take. lia. Qed.

Lemma zlen_zdrop n l : zlen (zdrop n l) = zlen l - Z.max 0 (Z.min n (zlen l)).
Proof. rewrite zdrop_drop, length_drop. lia. Qed.

Lemma zlen_app l1 l2 : zlen (l1 ++ l2) = zlen l1 + zlen l2.
Proof. rewrite length_app. lia. Qed.

Lemma zlen_zreplicate n x : zlen (zreplicate n x) = Z.max 0 n.
Proof. unfold zreplicate. rewrite length_replicate. lia. Qed.

Lemma zlen_slice off n l :
  0 <= off -> 0 <= n -> off + n <= zlen l -> zlen (slice off n l) = n.
Proof. intros. unfold slice. rewrite zlen_ztake, zlen_zdrop. lia. Qed.

Lemma zlen_splice off src l :
  0 <= off -> off + zlen src <= zlen l -> zlen (splice off src l) = zlen l.
Proof.
  intros. unfold splice. rewrite !zlen_app, zlen_ztake, zlen_zdrop. lia.
Qed.

Lemma ztake_app_le n l1 l2 : n <= zlen l1 -> ztake n (l1 ++ l2) = ztake n l1.
Proof. intros. rewrite !ztake_take, take_app_le; [done|lia]. Qed.

Lemma ztake_app_ge n l1 l2 :
  zlen l1 <= n -> ztake n (l1 ++ l2) = l1 ++ ztake (n - zlen l1) l2.
Proof.
  intros. rewrite !ztake_take, take_app_ge by lia. do 2 f_equal. lia.
Qed.

Lemma zdrop_app_le n l1 l2 : n <= zlen l1 -> zdrop n (l1 ++ l2) = zdrop n l1 ++ l2.
Proof. intros. rewrite !zdrop_drop, drop_app_le; [done|lia]. Qed.

Lemma zdrop_app_ge n l1 l2 :
  zlen l1 <= n -> zdrop n (l1 ++ l2) = zdrop (n - zlen l1) l2.
Proof. intros. rewrite !zdrop_drop, drop_app_ge by lia. f_equal. lia. Qed.

Lemma ztake_ge n l : zlen l <= n -> ztake n l = l.
Proof. intros. rewrite ztake_take, take_ge; [done|lia]. Qed.

Lemma zdrop_ge n l : zlen l <= n -> zdrop n l = [].
Proof. intros. rewrite zdrop_drop, drop_ge; [done|lia]. Qed.

Lemma ztake_le0 n l : n <= 0 -> ztake n l = [].
Proof. intros. rewrite ztake_take. by replace (Z.to_nat n) with 0%nat by lia. Qed.

Lemma zdrop_le0 n l : n <= 0 -> zdrop n l = l.
Proof. intros. rewrite zdrop_drop. by replace (Z.to_nat n) with 0%nat by lia. Qed.

Lemma ztake_zdrop n l : ztake n l ++ zdrop n l = l.
Proof. rewrite ztake_take, zdrop_drop. apply take_drop. Qed.

Lemma zdrop_zdrop n m l : 0 <= n -> 0 <= m -> zdrop n (zdrop m l) = zdrop (m + n) l.
Proof. intros. rewrite !zdrop_drop, drop_drop. f_equal. lia. Qed.

Lemma ztake_ztake n m l : ztake n (ztake m l) = ztake (Z.min n m) l.
Proof. rewrite !ztake_take, take_take. f_equal. lia. Qed.

Lemma zdrop_ztake n m l :
  0 <= n -> zdrop n (ztake m l) = ztake (m - n) (zdrop n l).
Proof.
  intros. rewrite !ztake_take, !zdrop_drop, skipn_firstn_comm. f_equal. lia.
Qed.

Lemma slice_app_le off n l1 l2 :
  off + n <= zlen l1 -> 0 <= off -> slice off n (l1 ++ l2) = slice off n l1.
Proof.
  intros. unfold slice. destruct (decide (n <= 0)).
  { by rewrite !ztake_le0. }
  rewrite zdrop_app_le by lia. apply ztake_app_le. rewrite zlen_zdrop. lia.
Qed.

Lemma slice_app_ge off n l1 l2 :
  zlen l1 <= off -> slice off n (l1 ++ l2) = slice (off - zlen l1) n l2.
Proof. intros. unfold slice. by rewrite zdrop_app_ge. Qed.

Lemma slice_0 n l : slice 0 n l = ztake n l.
Proof. unfold slice. by rewrite zdrop_le0. Qed.

Lemma slice_all l : slice 0 (zlen l) l = l.
Proof. rewrite slice_0. by apply ztake_ge. Qed.

Lemma slice_slice off n off' n' l :
  0 <= off -> 0 <= off' -> off' + n' <= n ->
  slice off' n' (slice off n l) = slice (off + off') n' l.
Proof.
  intros. unfold slice. rewrite zdrop_ztake, ztake_ztake, zdrop_zdrop by lia.
  f_equal. lia.
Qed.

Lemma slice_add off n m l :
  0 <= off -> 0 <= n -> 0 <= m ->
  slice off (n + m) l = slice off n l ++ slice (off + n) m l.
Proof.
  intros. unfold slice. rewrite <- (ztake_zdrop n (zdrop off l)) at 1.
  rewrite zdrop_zdrop by lia.
  destruct (decide (zlen (zdrop off l) <= n)) as [Hle|Hgt].
  - rewrite (zdrop_ge (off + n)) by (rewrite zlen_zdrop in Hle; lia).
    rewrite app_nil_r. simpl. rewrite app_nil_r.
    rewrite ztake_ztake. f_equal. lia.
  - rewrite ztake_app_ge by (rewrite zlen_ztake; lia).
    do 2 f_equal. rewrite zlen_ztake. lia.
Qed.

Lemma splice_id off n l :
  0 <= off -> 0 <= n -> off + n <= zlen l -> splice off (slice off n l) l = l.
Proof.
  intros. unfold splice. rewrite zlen_slice by lia.
  rewrite <- (zdrop_zdrop n off) by lia. unfold slice.
  by rewrite ztake_zdrop, ztake_zdrop.
Qed.

(** Reading back what was written, and what was not touched. *)
Lemma slice_splice_same off src l :
  0 <= off -> off + zlen src <= zlen l -> slice off (zlen src) (splice off src l) = src.
Proof.
  intros. unfold splice.
  rewrite slice_app_ge by (rewrite zlen_ztake; lia).
  rewrite zlen_ztake. replace (off - _) with 0 by lia.
  rewrite slice_0, ztake_app_le by lia. by apply ztake_ge.
Qed.

Lemma slice_splice_before off src l a n :
  0 <= a -> a + n <= off -> off + zlen src <= zlen l ->
  slice a n (splice off src l) = slice a n l.
Proof.
  intros. unfold splice. destruct (decide (n <= 0)).
  { unfold slice. by rewrite !ztake_le0. }
  rewrite slice_app_le by (rewrite ?zlen_ztake; lia).
  unfold slice. rewrite zdrop_ztake, ztake_ztake by lia. f_equal. lia.
Qed.

Lemma slice_splice_after off src l a n :
  0 <= off -> off + zlen src <= a -> off + zlen src <= zlen l ->
  slice a n (splice off src l) = slice a n l.
Proof.
  intros. unfold splice.
  rewrite slice_app_ge by (rewrite zlen_ztake; lia).
  rewrite slice_app_ge by (rewrite zlen_ztake; lia).
  unfold slice. rewrite zdrop_zdrop by (rewrite ?zlen_ztake; lia).
  f_equal. f_equal. rewrite zlen_ztake. lia.
Qed.

(** Writing right after a known prefix. *)
Lemma splice_app (a b d : list A) :
  splice (zlen a) b (a ++ d) = a ++ b ++ zdrop (zlen b) d.
Proof.
  unfold splice. rewrite ztake_app_le, ztake_ge by lia.
  rewrite zdrop_app_ge by lia. do 3 f_equal. lia.
Qed.

Lemma splice_0 (b d : list A) : splice 0 b d = b ++ zdrop (zlen b) d.
Proof. apply (splice_app []). Qed.
Lemma zreplicate_add (a b : Z) (x : A) : 0 <= a -> 0 <= b -> zreplicate (a + b) x = zreplicate a x ++ zreplicate b x.
Proof. intros. unfold zreplicate. rewrite <- replicate_add. f_equal. lia. Qed.

Lemma zdrop_zreplicate n m (x : A) : 0 <= n -> n <= m -> zdrop n (zreplicate m x) = zreplicate (m - n) x.
Proof.
  intros. replace m with (n + (m - n)) at 1 by lia. rewrite zreplicate_add by lia.
  rewrite zdrop_app_ge by (rewrite zlen_zreplicate; lia). rewrite zlen_zreplicate.
  apply zdrop_le0. lia.
Qed.

Lemma ztake_zreplicate n m (x : A) : 0 <= n -> n <= m -> ztake n (zreplicate m x) = zreplicate n x.
Proof.
  intros. replace m with (n + (m - n)) at 1 by lia. rewrite zreplicate_add by lia.
  rewrite ztake_app_le by (rewrite zlen_zreplicate; lia). apply ztake_ge. rewrite zlen_zreplicate. lia.
Qed.

(** Elements of slices and of overwritten lists *)
Lemma znth_app i l1 l2 : 0 <= i -> znth (l1 ++ l2) i = if i <? zlen l1 then znth l1 i else znth l2 (i - zlen l1).
Proof.
  intros. rewrite !znth_lookup. rewrite (proj2 (Z.ltb_ge i 0)) by lia. destruct (i <? zlen l1) eqn:E; zbool.
  - rewrite lookup_app_l by lia. done.
  - rewrite (proj2 (Z.ltb_ge _ 0)) by lia. rewrite lookup_app_r by lia. f_equal. lia.
Qed.
Lemma znth_ztake i n l : i < n -> znth (ztake n l) i = znth l i.
Proof.
  intros. rewrite !znth_lookup, ztake_take. destruct (i <? 0) eqn:E; [done|]. zbool. apply lookup_take_lt. lia.
Qed.
Lemma znth_zdrop i n l : 0 <= i -> 0 <= n -> znth (zdrop n l) i = znth l (n + i).
Proof.
  intros. rewrite !znth_lookup, zdrop_drop, lookup_drop, !(proj2 (Z.ltb_ge _ 0)) by lia. f_equal. lia.
Qed.
Lemma znth_slice i off n l : 0 <= off -> 0 <= i < n -> znth (slice off n l) i = znth l (off + i).
Proof. intros. unfold slice. rewrite znth_ztake, znth_zdrop by lia. done. Qed.

Lemma znth_splice i off src l : 0 <= off <= zlen l -> 0 <= i ->
  znth (splice off src l) i = if (off <=? i) && (i <? off + zlen src) then znth src (i - off) else znth l i.
Proof.
  intros. unfold splice. rewrite znth_app, zlen_ztake by lia. destruct (i <? _) eqn:E; zbool.
  - rewrite znth_ztake by lia. by rewrite (proj2 (Z.leb_gt _ _)) by lia.
  - rewrite (proj2 (Z.leb_le _ _)), znth_app by lia. replace (i - Z.max 0 (Z.min off (zlen l))) with (i - off) by lia. cbn [andb].
    destruct (i - off <? zlen src) eqn:E2; zbool.
    + by rewrite (proj2 (Z.ltb_lt _ _)) by lia.
    + rewrite (proj2 (Z.ltb_ge _ _)), znth_zdrop by lia. f_equal. lia.
Qed.

Lemma znth_ext l l' : zlen l = zlen l' -> (forall i, 0 <= i < zlen l -> znth l i = znth l' i) -> l = l'.
Proof.
  intros Hl Hi. apply list_eq_same_length with (length l); [lia|done|]. intros i x y Hlt Hx Hy.
  specialize (Hi (Z.of_nat i) ltac:(lia)). rewrite !znth_lookup, !(proj2 (Z.ltb_ge _ 0)), Nat2Z.id, Hx, Hy in Hi by lia. congruence.
Qed.

End ZList.

#[export] Hint Rewrite @zlen_ztake @zlen_zdrop @zlen_app @zlen_zreplicate : zlist.
