(* ===== verification/Bytes.v ===== *)
(** * Machine integers, little-endian fields and page arithmetic

    Unsigned w-bit integers are [Z] values kept in range by explicit
    wrap-around; memory is a list of bytes ([Z] in [0,256)); structure fields
    are read and written little-endian at fixed offsets.  The page macros are
    those of common/inc/internal/util.h. *)
From S2P Require Import Prelude.

#[local] Open Scope Z_scope.

(** ** Unsigned integers of the C types *)
Definition u8 (x : Z) : Z := x mod 2 ^ 8.
Definition u16 (x : Z) : Z := x mod 2 ^ 16.
Definition u32 (x : Z) : Z := x mod 2 ^ 32.
Definition u64 (x : Z) : Z := x mod 2 ^ 64.

Definition is_u8 (x : Z) : Prop := 0 <= x < 2 ^ 8.
Definition is_u16 (x : Z) : Prop := 0 <= x < 2 ^ 16.
Definition is_u32 (x : Z) : Prop := 0 <= x < 2 ^ 32.
Definition is_u64 (x : Z) : Prop := 0 <= x < 2 ^ 64.

Lemma u8_range x : is_u8 (u8 x). Proof. unfold is_u8, u8. apply Z.mod_pos_bound. lia. Qed.
Lemma u16_range x : is_u16 (u16 x). Proof. unfold is_u16, u16. apply Z.mod_pos_bound. lia. Qed.
Lemma u32_range x : is_u32 (u32 x). Proof. unfold is_u32, u32. apply Z.mod_pos_bound. lia. Qed.
Lemma u64_range x : is_u64 (u64 x). Proof. unfold is_u64, u64. apply Z.mod_pos_bound. lia. Qed.
Lemma u16_id x : is_u16 x -> u16 x = x. Proof. intros. by apply Z.mod_small. Qed.
Lemma u32_id x : is_u32 x -> u32 x = x. Proof. intros. by apply Z.mod_small. Qed.
Lemma u64_id x : is_u64 x -> u64 x = x. Proof. intros. by apply Z.mod_small. Qed.
#[export] Hint Resolve u8_range u16_range u32_range u64_range : mage.

(** ** Bytes *)
Definition byte_ok (b : Z) : bool := (0 <=? b) && (b <? 256).
Definition bytes_ok (l : list Z) : Prop := Forall (fun b => 0 <= b < 256) l.

Lemma bytes_ok_app l1 l2 : bytes_ok (l1 ++ l2) <-> bytes_ok l1 /\ bytes_ok l2.
Proof. apply Forall_app. Qed.

Lemma bytes_ok_slice off n l : bytes_ok l -> bytes_ok (slice off n l).
Proof.
  intros H. unfold slice. rewrite ztake_take, zdrop_drop. by apply Forall_take, Forall_drop.
Qed.

Lemma bytes_ok_ztake n l : bytes_ok l -> bytes_ok (ztake n l).
Proof. intros H. rewrite ztake_take. by apply Forall_take. Qed.

Lemma bytes_ok_zdrop n l : bytes_ok l -> bytes_ok (zdrop n l).
Proof. intros H. rewrite zdrop_drop. by apply Forall_drop. Qed.

Lemma bytes_ok_splice off src l : bytes_ok src -> bytes_ok l -> bytes_ok (splice off src l).
Proof.
  intros. unfold splice. rewrite !bytes_ok_app.
  split_and!; auto using bytes_ok_ztake, bytes_ok_zdrop.
Qed.

Lemma bytes_ok_zreplicate n b : 0 <= b < 256 -> bytes_ok (zreplicate n b).
Proof. intros. by apply Forall_replicate. Qed.

#[export] Hint Resolve bytes_ok_slice bytes_ok_ztake bytes_ok_zdrop bytes_ok_splice : mage.

(** ** Little-endian encoding of an [n]-byte field *)
Fixpoint le_bytes (n : nat) (v : Z) : list Z :=
  match n with
  | O => []
  | S n' => v mod 256 :: le_bytes n' (v / 256)
  end.

Fixpoint le_val (l : list Z) : Z :=
  match l with
  | [] => 0
  | b :: l' => b + 256 * le_val l'
  end.

Lemma length_le_bytes n v : length (le_bytes n v) = n.
Proof. revert v; induction n; intros; simpl; auto. Qed.
#[export] Hint Rewrite length_le_bytes : zlist.

Lemma le_bytes_ok n v : bytes_ok (le_bytes n v).
Proof.
  revert v; induction n as [|n IH]; intros v; simpl; constructor; [|apply IH].
  apply Z.mod_pos_bound. lia.
Qed.
#[export] Hint Resolve le_bytes_ok : mage.

Lemma le_val_le_bytes n v : le_val (le_bytes n v) = v mod 256 ^ Z.of_nat n.
Proof.
  revert v; induction n as [|n IH]; intros v; cbn [le_bytes le_val].
  { by rewrite Z.mod_1_r. }
  rewrite IH, Nat2Z.inj_succ, Z.pow_succ_r by lia.
  rewrite Z.rem_mul_r; lia.
Qed.

Lemma le_val_range l : bytes_ok l -> 0 <= le_val l < 256 ^ zlen l.
Proof.
  induction 1 as [|b l Hb Hl IH]; cbn [le_val length]; [simpl; lia|].
  rewrite Nat2Z.inj_succ, Z.pow_succ_r by lia. lia.
Qed.

Lemma le_bytes_le_val l : bytes_ok l -> le_bytes (length l) (le_val l) = l.
Proof.
  induction 1 as [|b l Hb Hl IH]; cbn [le_val length le_bytes]; [done|].
  replace ((b + 256 * le_val l) mod 256) with b by zlia.
  replace ((b + 256 * le_val l) / 256) with (le_val l) by zlia.
  by rewrite IH.
Qed.

Lemma le_val_app l1 l2 : le_val (l1 ++ l2) = le_val l1 + 256 ^ zlen l1 * le_val l2.
Proof.
  induction l1 as [|b l1 IH]; cbn [le_val app length]; [simpl; lia|].
  rewrite IH, Nat2Z.inj_succ, Z.pow_succ_r by lia. ring.
Qed.

Lemma le_val_zeros n : le_val (replicate n 0) = 0.
Proof. induction n; simpl; lia. Qed.

Lemma le_bytes_add a b v :
  le_bytes (a + b) v = le_bytes a v ++ le_bytes b (v / 256 ^ Z.of_nat a).
Proof.
  revert v; induction a as [|a IH]; intros v; cbn [Nat.add le_bytes app].
  { by rewrite Z.div_1_r. }
  rewrite IH, Nat2Z.inj_succ, Z.pow_succ_r, Z.div_div by lia. done.
Qed.

Lemma le_bytes_mod n v : le_bytes n (v mod 256 ^ Z.of_nat n) = le_bytes n v.
Proof.
  rewrite <- le_val_le_bytes. rewrite <- (length_le_bytes n v) at 1.
  apply le_bytes_le_val, le_bytes_ok.
Qed.

Lemma le_bytes_inj n v v' :
  0 <= v < 256 ^ Z.of_nat n -> 0 <= v' < 256 ^ Z.of_nat n ->
  le_bytes n v = le_bytes n v' -> v = v'.
Proof.
  intros ? ? E%(f_equal le_val). rewrite !le_val_le_bytes, !Z.mod_small in E; done.
Qed.

(** ** Structure fields in a byte buffer *)

(** Read the [n]-byte unsigned field at [off]; [None] outside the buffer. *)
Definition rd (n : nat) (off : Z) (buf : list Z) : option Z :=
  if (0 <=? off) && (off + Z.of_nat n <=? zlen buf)
  then Some (le_val (slice off (Z.of_nat n) buf)) else None.

Abbreviation rd16 := (rd 2).
Abbreviation rd32 := (rd 4).
Abbreviation rd64 := (rd 8).

Lemma rd_Some n off buf v :
  rd n off buf = Some v ->
  0 <= off /\ off + Z.of_nat n <= zlen buf /\ v = le_val (slice off (Z.of_nat n) buf).
Proof. unfold rd. destruct (_ && _)%bool eqn:E; intros; zbool; simplify_eq; auto. Qed.

Lemma rd_range n off buf v : bytes_ok buf -> rd n off buf = Some v -> 0 <= v < 256 ^ Z.of_nat n.
Proof.
  intros Hok (? & ? & ->)%rd_Some.
  rewrite <- (zlen_slice off (Z.of_nat n) buf) at 3 by lia.
  apply le_val_range. auto with mage.
Qed.

(** A field written with [splice] reads back modulo its width. *)
Lemma rd_splice n off v buf :
  0 <= off -> off + Z.of_nat n <= zlen buf ->
  rd n off (splice off (le_bytes n v) buf) = Some (v mod 256 ^ Z.of_nat n).
Proof.
  intros. unfold rd.
  pose proof (length_le_bytes n v) as Hl.
  rewrite zlen_splice by (rewrite ?Hl; lia).
  replace (_ && _)%bool with true by lia.
  replace (slice off (Z.of_nat n) _) with (le_bytes n v).
  { by rewrite le_val_le_bytes. }
  symmetry. rewrite <- Hl at 1. apply slice_splice_same; rewrite ?Hl; lia.
Qed.

(** ** Page arithmetic (common/inc/internal/util.h, arch.h) *)
Definition SE_PAGE_SHIFT : Z := 12.
Definition SE_PAGE_SIZE : Z := 4096.
Definition SE_GUARD_PAGE_SHIFT : Z := 16.
Definition SE_GUARD_PAGE_SIZE : Z := Z.shiftl 1 SE_GUARD_PAGE_SHIFT.

Definition ROUND_TO (x align : Z) : Z := Z.land (u64 (x + (align - 1))) (u64 (Z.lnot (align - 1))).
Definition ROUND_TO_PAGE (x : Z) : Z := ROUND_TO x SE_PAGE_SIZE.
Definition TRIM_TO_PAGE (x : Z) : Z := Z.land x (u64 (Z.lnot (SE_PAGE_SIZE - 1))).
Definition PAGE_OFFSET (x : Z) : Z := Z.land x (SE_PAGE_SIZE - 1).
Definition IS_PAGE_ALIGNED (x : Z) : bool := Z.land x (SE_PAGE_SIZE - 1) =? 0.
Definition MIN (x y : Z) : Z := if x >? y then y else x.

Lemma MIN_min x y : MIN x y = Z.min x y.
Proof. unfold MIN. destruct (x >? y) eqn:E; zbool; lia. Qed.

Lemma PAGE_OFFSET_mod x : PAGE_OFFSET x = x mod SE_PAGE_SIZE.
Proof. unfold PAGE_OFFSET, SE_PAGE_SIZE. exact (Z.land_ones x 12 ltac:(lia)). Qed.

Lemma IS_PAGE_ALIGNED_spec x : IS_PAGE_ALIGNED x = true <-> x mod SE_PAGE_SIZE = 0.
Proof.
  unfold IS_PAGE_ALIGNED. change (Z.land x (SE_PAGE_SIZE - 1)) with (PAGE_OFFSET x).
  rewrite PAGE_OFFSET_mod. apply Z.eqb_eq.
Qed.

(** Clearing the [k] low bits of a 64-bit value. *)
Lemma land_clear_low k x :
  0 <= k <= 64 -> is_u64 x -> Z.land x (u64 (Z.lnot (2 ^ k - 1))) = x - x mod 2 ^ k.
Proof.
  intros Hk Hx. unfold is_u64 in Hx.
  replace (x - x mod 2 ^ k) with (Z.shiftl (Z.shiftr x k) k).
  2:{ rewrite Z.shiftl_mul_pow2, Z.shiftr_div_pow2 by lia.
      pose proof (Z.div_mod x (2 ^ k) ltac:(apply Z.pow_nonzero; lia)). lia. }
  unfold u64. rewrite <- Z.land_ones by lia.
  replace (2 ^ k - 1) with (Z.ones k) by (rewrite Z.ones_equiv; lia).
  apply Z.bits_inj'; intros i Hi.
  rewrite Z.shiftl_spec, !Z.land_spec by lia.
  rewrite Z.lnot_spec by lia.
  destruct (decide (i < k)).
  - rewrite (Z.testbit_neg_r _ (i - k)) by lia.
    rewrite Z.ones_spec_low by lia. simpl. by rewrite andb_false_r.
  - rewrite Z.shiftr_spec by lia. replace (i - k + k) with i by lia.
    rewrite (Z.ones_spec_high k) by lia. simpl.
    destruct (decide (i < 64)).
    + rewrite Z.ones_spec_low by lia. apply andb_true_r.
    + rewrite (Z.bits_above_log2 x i); [done|lia|].
      destruct (decide (x = 0)) as [->|]; [simpl; lia|].
      apply Z.log2_lt_pow2; [lia|]. eapply Z.lt_le_trans; [apply Hx|].
      apply Z.pow_le_mono_r; lia.
Qed.

Lemma TRIM_TO_PAGE_sub x : is_u64 x -> TRIM_TO_PAGE x = x - x mod SE_PAGE_SIZE.
Proof. intros. exact (land_clear_low 12 x ltac:(lia) H). Qed.

Lemma ROUND_TO_PAGE_spec x :
  is_u64 x -> x + 4095 < 2 ^ 64 -> ROUND_TO_PAGE x = (x + 4095) / 4096 * 4096.
Proof.
  intros [? ?] ?. unfold ROUND_TO_PAGE, ROUND_TO.
  change (SE_PAGE_SIZE - 1) with (2 ^ 12 - 1).
  rewrite land_clear_low by (auto with mage; lia).
  rewrite u64_id by (unfold is_u64; lia). change (2 ^ 12) with 4096. zlia.
Qed.

Lemma ROUND_TO_PAGE_aligned x : IS_PAGE_ALIGNED (ROUND_TO_PAGE x) = true.
Proof.
  apply IS_PAGE_ALIGNED_spec. unfold ROUND_TO_PAGE, ROUND_TO.
  change (SE_PAGE_SIZE - 1) with (2 ^ 12 - 1).
  rewrite land_clear_low by (auto with mage; lia).
  change SE_PAGE_SIZE with (2 ^ 12). change (2 ^ 12) with 4096. zlia.
Qed.

(** Rounding up in units of pages. *)
Lemma ROUND_TO_PAGE_div x n :
  0 <= x -> x + SE_PAGE_SIZE < 2 ^ 64 -> x <= SE_PAGE_SIZE * n < x + SE_PAGE_SIZE ->
  ROUND_TO_PAGE x = SE_PAGE_SIZE * Z.of_nat (Z.to_nat n).
Proof.
  unfold SE_PAGE_SIZE. intros. rewrite ROUND_TO_PAGE_spec by (unfold is_u64; lia). zlia.
Qed.
