(* ===== verification/Sha256.v ===== *)
(** * SHA-256 as implemented in sdk/protected_code_loader/crypto

    [Fips] is the reference function of FIPS 180-4 (message padding, the
    64-entry message schedule, right rotations).  [Pcl] translates the C code
    (pcl_sha256.c, pcl_md32_common.h, pcl_crypto.cpp): left rotations, a
    16-word circular schedule, a context with a bit counter split over two
    32-bit words, and an update that requires block-aligned earlier input.
    The theorems show that the two compute the same digest. *)
From S2P Require Import Prelude Bytes.

#[local] Open Scope Z_scope.

(** The chaining value: eight 32-bit words ([h[0..7]] or [a..h]). *)
Record words8 := W8 { w0 : Z; w1 : Z; w2 : Z; w3 : Z; w4 : Z; w5 : Z; w6 : Z; w7 : Z }.

Definition words8_list (h : words8) : list Z :=
  [w0 h; w1 h; w2 h; w3 h; w4 h; w5 h; w6 h; w7 h].

Definition words8_ok (h : words8) : Prop := Forall is_u32 (words8_list h).

#[export] Instance words8_eq_dec : EqDecision words8.
Proof. solve_decision. Defined.

Definition words8_add (x y : words8) : words8 :=
  W8 (u32 (w0 x + w0 y)) (u32 (w1 x + w1 y)) (u32 (w2 x + w2 y)) (u32 (w3 x + w3 y))
     (u32 (w4 x + w4 y)) (u32 (w5 x + w5 y)) (u32 (w6 x + w6 y)) (u32 (w7 x + w7 y)).

(** Big-endian 32-bit load and store ([HOST_c2l], [HOST_l2c]). *)
Definition be32 (b0 b1 b2 b3 : Z) : Z := ((b0 * 256 + b1) * 256 + b2) * 256 + b3.
Definition be32_bytes (w : Z) : list Z := rev (le_bytes 4 w).

Fixpoint be_words (l : list Z) : list Z :=
  match l with
  | b0 :: b1 :: b2 :: b3 :: l' => be32 b0 b1 b2 b3 :: be_words l'
  | _ => []
  end.

(** Consecutive 64-byte blocks; an incomplete tail is dropped. *)
Fixpoint blocks_of (fuel : nat) (l : list Z) : list (list Z) :=
  match fuel with
  | O => []
  | S k => if zlen l <? 64 then [] else ztake 64 l :: blocks_of k (zdrop 64 l)
  end.
Definition blocks (l : list Z) : list (list Z) := blocks_of (length l) l.

(** The round constants, common to the standard and to the code: eight rows
    of eight 32-bit words. *)
Definition row8 (w : Z) : list Z :=
  map (fun i => u32 (Z.shiftr w (32 * (7 - i)))) [0; 1; 2; 3; 4; 5; 6; 7].

Definition K256 : list Z := Eval cbv in concat (map row8 [
  0x428a2f9871374491b5c0fbcfe9b5dba53956c25b59f111f1923f82a4ab1c5ed5;
  0xd807aa9812835b01243185be550c7dc372be5d7480deb1fe9bdc06a7c19bf174;
  0xe49b69c1efbe47860fc19dc6240ca1cc2de92c6f4a7484aa5cb0a9dc76f988da;
  0x983e5152a831c66db00327c8bf597fc7c6e00bf3d5a7914706ca635114292967;
  0x27b70a852e1b21384d2c6dfc53380d13650a7354766a0abb81c2c92e92722c85;
  0xa2bfe8a1a81a664bc24b8b70c76c51a3d192e819d6990624f40e3585106aa070;
  0x19a4c1161e376c082748774c34b0bcb5391c0cb34ed8aa4a5b9cca4f682e6ff3;
  0x748f82ee78a5636f84c878148cc7020890befffaa4506cebbef9a3f7c67178f2]).

(** ** The standard *)
Module Fips.
Definition rotr (n x : Z) : Z := Z.lor (Z.shiftr x n) (u32 (Z.shiftl x (32 - n))).
Definition bsig0 x := Z.lxor (Z.lxor (rotr 2 x) (rotr 13 x)) (rotr 22 x).
Definition bsig1 x := Z.lxor (Z.lxor (rotr 6 x) (rotr 11 x)) (rotr 25 x).
Definition ssig0 x := Z.lxor (Z.lxor (rotr 7 x) (rotr 18 x)) (Z.shiftr x 3).
Definition ssig1 x := Z.lxor (Z.lxor (rotr 17 x) (rotr 19 x)) (Z.shiftr x 10).
Definition ch x y z := Z.lxor (Z.land x y) (Z.land (u32 (Z.lnot x)) z).
Definition maj x y z := Z.lxor (Z.lxor (Z.land x y) (Z.land x z)) (Z.land y z).

Definition IV : words8 :=
  W8 0x6a09e667 0xbb67ae85 0x3c6ef372 0xa54ff53a 0x510e527f 0x9b05688c 0x1f83d9ab 0x5be0cd19.

(** Entry [t >= 16] of the schedule from the entries before it. *)
Definition W_next (W : list Z) (t : nat) : Z :=
  u32 (ssig1 (nth (t - 2) W 0) + nth (t - 7) W 0 + ssig0 (nth (t - 15) W 0) + nth (t - 16) W 0).

Fixpoint extend (k t : nat) (W : list Z) : list Z :=
  match k with
  | O => W
  | S k' => extend k' (S t) (W ++ [W_next W t])
  end.

Definition schedule (M : list Z) : list Z := extend 48 16 M.

Definition round (r : words8) (kw : Z * Z) : words8 :=
  let '(W8 a b c d e f g h) := r in
  let T1 := u32 (h + bsig1 e + ch e f g + fst kw + snd kw) in
  let T2 := u32 (bsig0 a + maj a b c) in
  W8 (u32 (T1 + T2)) a b c (u32 (d + T1)) e f g.

Definition compress (H : words8) (block : list Z) : words8 :=
  words8_add H (fold_left round (zip K256 (schedule (be_words block))) H).

Definition pad (m : list Z) : list Z :=
  m ++ [0x80] ++ zreplicate ((55 - zlen m) mod 64) 0 ++ rev (le_bytes 8 (8 * zlen m)).

Definition digest_bytes (H : words8) : list Z := concat (map be32_bytes (words8_list H)).

Definition sha256 (m : list Z) : list Z :=
  digest_bytes (fold_left compress (blocks (pad m)) IV).
End Fips.

(** ** The code *)
Module Pcl.
(** asm("roll"), macros Sigma0 .. Maj *)
Definition ROTATE (a n : Z) : Z := Z.lor (u32 (Z.shiftl a n)) (Z.shiftr a (32 - n)).
Definition Sigma0 (x : Z) : Z := Z.lxor (Z.lxor (ROTATE x 30) (ROTATE x 19)) (ROTATE x 10).
Definition Sigma1 (x : Z) : Z := Z.lxor (Z.lxor (ROTATE x 26) (ROTATE x 21)) (ROTATE x 7).
Definition sigma0 (x : Z) : Z := Z.lxor (Z.lxor (ROTATE x 25) (ROTATE x 14)) (Z.shiftr x 3).
Definition sigma1 (x : Z) : Z := Z.lxor (Z.lxor (ROTATE x 15) (ROTATE x 13)) (Z.shiftr x 10).
Definition Ch (x y z : Z) : Z := Z.lxor (Z.land x y) (Z.land (u32 (Z.lnot x)) z).
Definition Maj (x y z : Z) : Z :=
  Z.lxor (Z.lxor (Z.land x y) (Z.land x z)) (Z.land y z).

(** SHA256_CTX; [data] is the 64-byte partial block. *)
Record SHA256_CTX := MkCtx {
  h : words8; Nl : Z; Nh : Z; data : list Z; num : Z; md_len : Z }.

Definition SHA_CBLOCK : Z := 64.
Definition SHA256_DIGEST_LENGTH : Z := 32.

Definition pcl_SHA256_Init : SHA256_CTX :=
  MkCtx (W8 0x6a09e667 0xbb67ae85 0x3c6ef372 0xa54ff53a 0x510e527f 0x9b05688c 0x1f83d9ab 0x5be0cd19)
        0 0 (zreplicate 64 0) 0 SHA256_DIGEST_LENGTH.

(** The tail shared by both loops: T1 has the schedule word, then the
    registers shift. *)
Definition step (r : words8) (w k : Z) : words8 :=
  let '(W8 a b c d e f g h) := r in
  let T1 := u32 (w + (h + Sigma1 e + Ch e f g + k)) in
  let T2 := u32 (Sigma0 a + Maj a b c) in
  W8 (u32 (T1 + T2)) a b c (u32 (d + T1)) e f g.

(** for (i = 0; i < 16; i++): load the words of the block into X. *)
Fixpoint loop_lo (words : list Z) (i : nat) (X : list Z) (r : words8) : list Z * words8 :=
  match words with
  | [] => (X, r)
  | l :: words' => loop_lo words' (S i) (<[i := l]> X) (step r l (nth i K256 0))
  end.

(** for (; i < 64; i++): X is used as a ring of 16 words. *)
Fixpoint loop_hi (n i : nat) (X : list Z) (r : words8) : words8 :=
  match n with
  | O => r
  | S n' =>
      let s0 := sigma0 (nth ((i + 1) mod 16) X 0) in
      let s1 := sigma1 (nth ((i + 14) mod 16) X 0) in
      let T1 := u32 (nth (i mod 16) X 0 + (s0 + s1 + nth ((i + 9) mod 16) X 0)) in
      loop_hi n' (S i) (<[(i mod 16)%nat := T1]> X) (step r T1 (nth i K256 0))
  end.

Definition block_data_order_1 (hh : words8) (block : list Z) : words8 :=
  let '(X, r) := loop_lo (be_words block) 0 (replicate 16 0) hh in
  words8_add hh (loop_hi 48 16 X r).

(** while (num--): [num] consecutive blocks of [inp]. *)
Fixpoint pcl_sha256_block_data_order (hh : words8) (inp : list Z) (n : nat) : words8 :=
  match n with
  | O => hh
  | S n' => pcl_sha256_block_data_order (block_data_order_1 hh (ztake 64 inp)) (zdrop 64 inp) n'
  end.

Definition pcl_SHA256_Update (c : SHA256_CTX) (dat : list Z) : SHA256_CTX :=
  let len := zlen dat in
  if len =? 0 then c else
  let l := u32 (Nl c + u32 (Z.shiftl (u32 len) 3)) in
  let nh := if l <? Nl c then u32 (Nh c + 1) else Nh c in
  let nh := u32 (nh + u32 (Z.shiftr len 29)) in
  let n := len / SHA_CBLOCK in
  let h' := if n >? 0 then pcl_sha256_block_data_order (h c) dat (Z.to_nat n) else h c in
  let dat' := if n >? 0 then zdrop (n * SHA_CBLOCK) dat else dat in
  let len' := if n >? 0 then len - n * SHA_CBLOCK else len in
  if len' =? 0 then MkCtx h' l nh (data c) (num c) (md_len c)
  else MkCtx h' l nh (splice 0 dat' (data c)) len' (md_len c).

(** memset(p + n, 0, k) on the 64-byte buffer *)
Definition memset0 (p : list Z) (n k : Z) : list Z := splice n (zreplicate k 0) p.

Definition pcl_SHA256_Final (c : SHA256_CTX) : list Z * SHA256_CTX :=
  let p := splice (num c) [0x80] (data c) in
  let n := num c + 1 in
  let '(hh, p, n) :=
    if n >? SHA_CBLOCK - 8 then
      let p := memset0 p n (SHA_CBLOCK - n) in
      (pcl_sha256_block_data_order (h c) p 1, p, 0)
    else (h c, p, n) in
  let p := memset0 p n (SHA_CBLOCK - 8 - n) in
  let p := splice (SHA_CBLOCK - 8) (be32_bytes (Nh c)) p in
  let p := splice (SHA_CBLOCK - 4) (be32_bytes (Nl c)) p in
  let hh := pcl_sha256_block_data_order hh p 1 in
  (concat (map be32_bytes (words8_list hh)),
   MkCtx hh (Nl c) (Nh c) (zreplicate 64 0) 0 (md_len c)).

(** pcl_crypto.cpp: pcl_sha256 *)
Definition pcl_sha256 (buf : list Z) : list Z :=
  fst (pcl_SHA256_Final (pcl_SHA256_Update pcl_SHA256_Init buf)).
End Pcl.

(** ** The code's round function is the standard's *)
Lemma ROTATE_rotr x m n : m = 32 - n -> Pcl.ROTATE x m = Fips.rotr n x.
Proof.
  intros ->. unfold Pcl.ROTATE, Fips.rotr. replace (32 - (32 - n)) with n by lia.
  apply Z.lor_comm.
Qed.

Lemma Sigma0_bsig0 x : Pcl.Sigma0 x = Fips.bsig0 x.
Proof.
  unfold Pcl.Sigma0, Fips.bsig0.
  by rewrite (ROTATE_rotr x 30 2), (ROTATE_rotr x 19 13), (ROTATE_rotr x 10 22) by lia.
Qed.

Lemma Sigma1_bsig1 x : Pcl.Sigma1 x = Fips.bsig1 x.
Proof.
  unfold Pcl.Sigma1, Fips.bsig1.
  by rewrite (ROTATE_rotr x 26 6), (ROTATE_rotr x 21 11), (ROTATE_rotr x 7 25) by lia.
Qed.

Lemma sigma0_ssig0 x : Pcl.sigma0 x = Fips.ssig0 x.
Proof.
  unfold Pcl.sigma0, Fips.ssig0. by rewrite (ROTATE_rotr x 25 7), (ROTATE_rotr x 14 18) by lia.
Qed.

Lemma sigma1_ssig1 x : Pcl.sigma1 x = Fips.ssig1 x.
Proof.
  unfold Pcl.sigma1, Fips.ssig1. by rewrite (ROTATE_rotr x 15 17), (ROTATE_rotr x 13 19) by lia.
Qed.

Lemma step_round r w k : Pcl.step r w k = Fips.round r (k, w).
Proof.
  destruct r as [a b c d e f g h]. unfold Pcl.step, Fips.round.
  rewrite Sigma0_bsig0, Sigma1_bsig1. cbn [fst snd].
  change (Pcl.Ch e f g) with (Fips.ch e f g). change (Pcl.Maj a b c) with (Fips.maj a b c).
  by replace (w + (h + Fips.bsig1 e + Fips.ch e f g + k))
    with (h + Fips.bsig1 e + Fips.ch e f g + k + w) by lia.
Qed.

(** ** The circular schedule holds the last 16 words of the schedule *)
Lemma length_extend k t W : length (Fips.extend k t W) = (length W + k)%nat.
Proof.
  revert t W; induction k as [|k IH]; intros t W; simpl; [lia|].
  rewrite IH, length_app. simpl. lia.
Qed.

Lemma extend_prefix k t W : exists V, Fips.extend k t W = W ++ V.
Proof.
  revert t W; induction k as [|k IH]; intros t W; simpl; [exists []; by rewrite app_nil_r|].
  destruct (IH (S t) (W ++ [Fips.W_next W t])) as [V ->].
  exists (Fips.W_next W t :: V). by rewrite <- app_assoc.
Qed.

Lemma extend_nth k t W :
  length W = t -> nth t (Fips.extend (S k) t W) 0 = Fips.W_next W t.
Proof.
  intros Ht. cbn [Fips.extend]. destruct (extend_prefix k (S t) (W ++ [Fips.W_next W t])) as [V ->].
  rewrite <- app_assoc, app_nth2 by lia. by rewrite Ht, Nat.sub_diag.
Qed.

Lemma drop_nth_cons (l : list Z) i :
  (i < length l)%nat -> drop i l = nth i l 0 :: drop (S i) l.
Proof.
  revert i; induction l as [|x l IH]; intros i; simpl; [lia|].
  destruct i; intros; [done|]. apply IH. lia.
Qed.

Lemma K256_len : length K256 = 64%nat. Proof. reflexivity. Qed.

Definition ring (i : nat) (X W : list Z) : Prop :=
  length X = 16%nat /\ length W = i /\
  forall j, (i - 16 <= j < i)%nat -> nth (j mod 16) X 0 = nth j W 0.

Lemma nth_insert_same (X : list Z) i v : (i < length X)%nat -> nth i (<[i := v]> X) 0 = v.
Proof.
  intros. rewrite nth_lookup, list_lookup_insert_eq by done. done.
Qed.

Lemma nth_insert_ne (X : list Z) i j v : i <> j -> nth j (<[i := v]> X) 0 = nth j X 0.
Proof. intros. by rewrite !nth_lookup, list_lookup_insert_ne. Qed.

Lemma ring_next i X W :
  (16 <= i)%nat -> ring i X W ->
  u32 (nth (i mod 16) X 0
       + (Pcl.sigma0 (nth ((i + 1) mod 16) X 0) + Pcl.sigma1 (nth ((i + 14) mod 16) X 0)
          + nth ((i + 9) mod 16) X 0)) = Fips.W_next W i.
Proof.
  intros Hi (HX & HW & Hr). unfold Fips.W_next.
  rewrite <- (Hr (i - 2)%nat), <- (Hr (i - 7)%nat), <- (Hr (i - 15)%nat), <- (Hr (i - 16)%nat) by lia.
  replace ((i - 2) mod 16)%nat with ((i + 14) mod 16)%nat by zlia.
  replace ((i - 7) mod 16)%nat with ((i + 9) mod 16)%nat by zlia.
  replace ((i - 15) mod 16)%nat with ((i + 1) mod 16)%nat by zlia.
  replace ((i - 16) mod 16)%nat with (i mod 16)%nat by zlia.
  rewrite sigma0_ssig0, sigma1_ssig1. f_equal. lia.
Qed.

Lemma ring_step i X W :
  (16 <= i)%nat -> ring i X W ->
  ring (S i) (<[(i mod 16)%nat := Fips.W_next W i]> X) (W ++ [Fips.W_next W i]).
Proof.
  intros Hi (HX & HW & Hr). split_and!.
  - by rewrite length_insert.
  - rewrite length_app. simpl. lia.
  - intros j Hj. destruct (decide (j = i)) as [->|Hne].
    + rewrite nth_insert_same by (rewrite HX; zlia).
      by rewrite app_nth2, HW, Nat.sub_diag by lia.
    + rewrite nth_insert_ne by zlia. rewrite app_nth1 by lia. apply Hr. lia.
Qed.

Lemma loop_hi_spec n i X W r :
  (16 <= i)%nat -> (i + n = 64)%nat -> ring i X W ->
  Pcl.loop_hi n i X r =
  fold_left Fips.round (zip (drop i K256) (drop i (Fips.extend n i W))) r.
Proof.
  revert i X W r; induction n as [|n IH]; intros i X W r Hi Hn Hring.
  { rewrite (drop_ge K256) by (rewrite K256_len; lia). done. }
  pose proof Hring as (_ & HW & _).
  rewrite (drop_nth_cons K256 i) by (rewrite K256_len; lia).
  rewrite (drop_nth_cons (Fips.extend _ _ _) i) by (rewrite length_extend; lia).
  rewrite extend_nth by done. cbn [zip zip_with fold_left Pcl.loop_hi Fips.extend].
  rewrite ring_next with (W := W) by done. rewrite step_round.
  apply IH; [lia|lia|]. by apply ring_step.
Qed.

Lemma loop_lo_spec ws i X r :
  (i + length ws <= 16)%nat -> length X = 16%nat ->
  Pcl.loop_lo ws i X r =
  (take i X ++ ws ++ drop (i + length ws) X, fold_left Fips.round (zip (drop i K256) ws) r).
Proof.
  revert i X r; induction ws as [|w ws IH]; intros i X r Hi HX; cbn [Pcl.loop_lo length] in *.
  { rewrite Nat.add_0_r, app_nil_l, take_drop. by rewrite zip_with_nil_r. }
  rewrite (drop_nth_cons K256 i) by (rewrite K256_len; lia).
  cbn [zip zip_with fold_left]. rewrite IH, step_round; [|lia|by rewrite length_insert].
  f_equal.
  assert (take (S i) (<[i:=w]> X) = take i X ++ [w]) as E.
  { rewrite (take_S_r _ _ w) by (rewrite list_lookup_insert_eq; [done|lia]).
    by rewrite take_insert_ge by lia. }
  rewrite E. rewrite drop_insert_lt by lia.
  rewrite <- app_assoc. by replace (S i + length ws)%nat with (i + S (length ws))%nat by lia.
Qed.

Lemma be_words_length n l : length l = (4 * n)%nat -> length (be_words l) = n.
Proof.
  revert l; induction n as [|n IH]; intros l Hl.
  { destruct l; [done|simpl in Hl; lia]. }
  destruct l as [|b0 [|b1 [|b2 [|b3 l]]]]; simpl in Hl; try lia.
  cbn [be_words length]. rewrite IH; lia.
Qed.

Lemma zip_split n (K W : list Z) :
  zip K W = zip (take n K) (take n W) ++ zip (drop n K) (drop n W).
Proof.
  revert K W; induction n as [|n IH]; intros K W; [done|].
  destruct K as [|k K]; [done|]. destruct W as [|w W]; [simpl; by rewrite zip_with_nil_r|].
  simpl. by rewrite IH.
Qed.

(** One application of the block function is the standard's compression. *)
Lemma block_data_order_compress hh block :
  length block = 64%nat -> Pcl.block_data_order_1 hh block = Fips.compress hh block.
Proof.
  intros Hb. unfold Pcl.block_data_order_1, Fips.compress, Fips.schedule.
  pose proof (be_words_length 16 block Hb) as Hw. set (ws := be_words block) in *.
  rewrite loop_lo_spec by (rewrite ?Hw; reflexivity || lia).
  rewrite drop_ge by (rewrite length_replicate; lia).
  rewrite take_0, app_nil_l, app_nil_r, drop_0. f_equal.
  rewrite (loop_hi_spec 48 16 ws ws); [|lia|lia|].
  2:{ split_and!; [done..|]. intros j Hj. by rewrite Nat.mod_small by lia. }
  rewrite <- fold_left_app. f_equal.
  rewrite (zip_split 16 K256 ws), (zip_split 16 K256 (Fips.extend 48 16 ws)).
  rewrite (drop_ge ws) by lia. rewrite zip_with_nil_r, app_nil_r. f_equal.
  destruct (extend_prefix 48 16 ws) as [V ->]. by rewrite take_app_le by lia.
Qed.

(** ** Splitting a message into blocks *)
Lemma blocks_of_fuel k1 k2 l :
  (length l <= k1)%nat -> (length l <= k2)%nat -> blocks_of k1 l = blocks_of k2 l.
Proof.
  revert k2 l; induction k1 as [|k1 IH]; intros k2 l H1 H2.
  { destruct l; [|simpl in H1; lia]. by destruct k2. }
  destruct k2 as [|k2]; [destruct l; [done|simpl in H2; lia]|].
  cbn [blocks_of]. destruct (zlen l <? 64) eqn:E; [done|]. zbool. f_equal.
  apply IH; rewrite zdrop_drop, length_drop; lia.
Qed.

Lemma blocks_nil : blocks [] = []. Proof. reflexivity. Qed.

Lemma blocks_cons b l : length b = 64%nat -> blocks (b ++ l) = b :: blocks l.
Proof.
  intros Hb. unfold blocks. rewrite length_app, Hb.
  change (64 + length l)%nat with (S (63 + length l)). cbn [blocks_of].
  replace (zlen (b ++ l) <? 64) with false by (rewrite length_app; lia).
  rewrite ztake_app_le, ztake_ge by lia. f_equal.
  rewrite zdrop_app_ge, zdrop_le0 by lia. apply blocks_of_fuel; lia.
Qed.

Lemma blocks_app l1 l2 :
  (length l1 mod 64 = 0)%nat -> blocks (l1 ++ l2) = blocks l1 ++ blocks l2.
Proof.
  intros Hm. remember (length l1 / 64)%nat as n eqn:Hn.
  assert (length l1 = 64 * n)%nat as Hl by zlia. clear Hn Hm.
  revert l1 Hl; induction n as [|n IH]; intros l1 Hl.
  { destruct l1; [done|simpl in Hl; lia]. }
  rewrite <- (take_drop 64 l1), <- app_assoc.
  rewrite blocks_cons by (rewrite length_take; lia).
  rewrite IH by (rewrite length_drop; lia).
  by rewrite blocks_cons by (rewrite length_take; lia).
Qed.

Lemma blocks_short l : zlen l < 64 -> blocks l = [].
Proof. intros. unfold blocks. destruct l; [done|]. cbn [blocks_of length] in *.
  by replace (_ <? 64) with true by lia. Qed.

Lemma block_order_blocks n hh inp :
  64 * Z.of_nat n <= zlen inp ->
  Pcl.pcl_sha256_block_data_order hh inp n =
  fold_left Fips.compress (blocks (ztake (64 * Z.of_nat n) inp)) hh.
Proof.
  revert hh inp; induction n as [|n IH]; intros hh inp Hn.
  { by rewrite ztake_le0 by lia. }
  cbn [Pcl.pcl_sha256_block_data_order].
  assert (length (ztake 64 inp) = 64%nat) as Hb.
  { pose proof (zlen_ztake 64 inp). lia. }
  rewrite IH by (rewrite zlen_zdrop; lia). rewrite block_data_order_compress by done.
  replace (ztake (64 * Z.of_nat (S n)) inp)
    with (ztake 64 inp ++ ztake (64 * Z.of_nat n) (zdrop 64 inp)).
  { by rewrite blocks_cons. }
  replace (64 * Z.of_nat (S n)) with (64 + 64 * Z.of_nat n) by lia.
  rewrite <- (slice_0 (64 + _)), slice_add by lia. by rewrite slice_0.
Qed.

(** ** Streaming: block-aligned updates *)

(** The context after hashing [n] bytes ([n] a multiple of 64) whose chaining
    value is [H]: the bit counter is [8 n] over 64 bits, no partial block. *)
Definition ctx_repr (c : Pcl.SHA256_CTX) (H : words8) (n : Z) : Prop :=
  Pcl.h c = H /\ Pcl.num c = 0 /\ length (Pcl.data c) = 64%nat /\
  0 <= Pcl.Nl c < 2 ^ 32 /\ 0 <= Pcl.Nh c < 2 ^ 32 /\
  Pcl.Nh c * 2 ^ 32 + Pcl.Nl c = (8 * n) mod 2 ^ 64.

Lemma ctx_repr_init : ctx_repr Pcl.pcl_SHA256_Init Fips.IV 0.
Proof. split_and!; try reflexivity; vm_compute; congruence. Qed.

(** The two-word bit counter of pcl_SHA256_Update adds modulo 2^64. *)
Lemma counter_add nl nh len :
  0 <= nl < 2 ^ 32 -> 0 <= nh < 2 ^ 32 -> 0 <= len ->
  let l := u32 (nl + u32 (Z.shiftl (u32 len) 3)) in
  let nh' := u32 ((if l <? nl then u32 (nh + 1) else nh) + u32 (Z.shiftr len 29)) in
  nh' * 2 ^ 32 + l = (nh * 2 ^ 32 + nl + 8 * len) mod 2 ^ 64.
Proof.
  intros Hl Hh Hlen. cbv zeta. rewrite Z.shiftl_mul_pow2, Z.shiftr_div_pow2 by lia.
  unfold u32. change (2 ^ 3) with 8. change (2 ^ 29) with 536870912.
  change (2 ^ 32) with 4294967296 in *. change (2 ^ 64) with 18446744073709551616.
  destruct (_ <? nl) eqn:E; zbool; revert E; zlia.
Qed.

(** What [pcl_SHA256_Update] leaves for the next call or for Final. *)
Definition tail_of (dat : list Z) : list Z := zdrop (64 * (zlen dat / 64)) dat.

Lemma zlen_tail dat : zlen (tail_of dat) = zlen dat mod 64.
Proof. unfold tail_of. rewrite zlen_zdrop. zlia. Qed.

Lemma blocks_tail dat : blocks dat = blocks (ztake (64 * (zlen dat / 64)) dat).
Proof.
  rewrite <- (ztake_zdrop (64 * (zlen dat / 64)) dat) at 1.
  rewrite blocks_app; [|pose proof (zlen_ztake (64 * (zlen dat / 64)) dat); zlia].
  fold (tail_of dat). rewrite (blocks_short (tail_of dat)), app_nil_r; [done|].
  pose proof (zlen_tail dat). zlia.
Qed.

(** One call of [pcl_SHA256_Update] on a block-aligned context. *)
Definition ctx_after (c' c : Pcl.SHA256_CTX) (H : words8) (n : Z) (dat : list Z) : Prop :=
  Pcl.h c' = fold_left Fips.compress (blocks dat) H /\
  Pcl.num c' = zlen (tail_of dat) /\
  Pcl.data c' = splice 0 (tail_of dat) (Pcl.data c) /\
  is_u32 (Pcl.Nl c') /\ is_u32 (Pcl.Nh c') /\
  Pcl.Nh c' * 2 ^ 32 + Pcl.Nl c' = (8 * (n + zlen dat)) mod 2 ^ 64.

Lemma update_spec c H n dat :
  0 <= n -> ctx_repr c H n -> ctx_after (Pcl.pcl_SHA256_Update c dat) c H n dat.
Proof.
  intros Hn (Hh & Hnum & Hd & Hnl & Hnh & Hc). unfold Pcl.pcl_SHA256_Update.
  destruct (zlen dat =? 0) eqn:E; zbool.
  { destruct dat; [|simpl in E; lia]. unfold ctx_after.
    rewrite Z.add_0_r, splice_0, zdrop_le0 by done. auto 8. }
  assert (8 * (n + zlen dat) = 8 * n + 8 * zlen dat) as E8 by lia.
  pose proof (counter_add (Pcl.Nl c) (Pcl.Nh c) (zlen dat) Hnl Hnh ltac:(lia)) as Hctr.
  cbv zeta in Hctr. rewrite Hc, Z.add_mod_idemp_l, <- E8 in Hctr by lia.
  unfold Pcl.SHA_CBLOCK.
  assert (Pcl.pcl_sha256_block_data_order (Pcl.h c) dat (Z.to_nat (zlen dat / 64)) =
          fold_left Fips.compress (blocks dat) H) as EB.
  { rewrite block_order_blocks by zlia. rewrite Z2Nat.id by zlia. by rewrite <- blocks_tail, Hh. }
  assert (tail_of dat = if zlen dat / 64 >? 0 then zdrop (zlen dat / 64 * 64) dat else dat) as ET.
  { unfold tail_of. rewrite Z.mul_comm. split_if; zbool; [done|]. by rewrite zdrop_le0 by zlia. }
  rewrite <- ET. unfold ctx_after. rewrite <- EB. pose proof (zlen_tail dat) as EZ.
  assert (zlen (tail_of dat) = if zlen dat / 64 >? 0 then zlen dat - zlen dat / 64 * 64 else zlen dat)
    as EL by (rewrite EZ; split_if; zlia).
  rewrite <- EL. destruct (zlen dat / 64 >? 0) eqn:E0.
  - destruct (zlen (tail_of dat) =? 0) eqn:E1; zbool; (split_and!; [..|exact Hctr]); simpl;
      auto using u32_range; try apply u32_range; try lia.
    destruct (tail_of dat); [by rewrite splice_0, zdrop_le0|simpl in E1; lia].
  - replace (zlen (tail_of dat) =? 0) with false by zlia.
    replace (Z.to_nat (zlen dat / 64)) with 0%nat by zlia.
    (split_and!; [..|exact Hctr]); simpl; auto using u32_range; apply u32_range.
Qed.

Lemma update_blocks c H n dat :
  0 <= n -> zlen dat mod 64 = 0 -> ctx_repr c H n ->
  ctx_repr (Pcl.pcl_SHA256_Update c dat) (fold_left Fips.compress (blocks dat) H) (n + zlen dat).
Proof.
  intros Hn Hm Hr. destruct (update_spec c H n dat Hn Hr) as (E1 & E2 & E3 & E4 & E5 & E6).
  destruct (tail_of dat) eqn:ET; [|pose proof (zlen_tail dat) as EZ; rewrite ET, Hm in EZ; simpl in EZ; lia].
  destruct Hr as (_ & _ & Hd & _). unfold ctx_repr. rewrite E3, splice_0, zdrop_le0 by done. auto 8.
Qed.

Lemma be_counter nh nl n :
  0 <= nl < 2 ^ 32 -> 0 <= nh < 2 ^ 32 -> nh * 2 ^ 32 + nl = (8 * n) mod 2 ^ 64 ->
  be32_bytes nh ++ be32_bytes nl = rev (le_bytes 8 (8 * n)).
Proof.
  intros Hl Hh E. unfold be32_bytes.
  rewrite <- (le_bytes_mod 8 (8 * n)). change (256 ^ Z.of_nat 8) with (2 ^ 64).
  rewrite <- E, (le_bytes_add 4 4). change (256 ^ Z.of_nat 4) with (2 ^ 32).
  rewrite rev_app_distr. do 2 f_equal.
  - f_equal. zlia.
  - rewrite <- (le_bytes_mod 4 (nh * 2 ^ 32 + nl)). f_equal.
    change (256 ^ Z.of_nat 4) with (2 ^ 32). zlia.
Qed.

(** The bytes appended to a message of [n] bytes. *)
Definition padding (n : Z) : list Z :=
  [0x80] ++ zreplicate ((55 - n) mod 64) 0 ++ rev (le_bytes 8 (8 * n)).

Lemma pad_padding m : Fips.pad m = m ++ padding (zlen m).
Proof. reflexivity. Qed.

(** The buffer of pcl_SHA256_Final: [rest], 0x80, then zeros up to [k]. *)
Lemma final_buffer rest (d : list Z) k :
  zlen rest < k -> k <= 64 -> length d = 64%nat ->
  Pcl.memset0 (splice (zlen rest) [0x80] (splice 0 rest d)) (zlen rest + 1) (k - (zlen rest + 1))
  = (rest ++ [0x80] ++ zreplicate (k - (zlen rest + 1)) 0) ++ zdrop k d.
Proof.
  intros H1 H2 Hd. unfold Pcl.memset0. rewrite splice_0, splice_app.
  rewrite app_assoc. replace (zlen rest + 1) with (zlen (rest ++ [0x80])) by (rewrite zlen_app; simpl; lia).
  rewrite splice_app, <- !app_assoc. do 3 f_equal.
  rewrite zlen_zreplicate, !zdrop_zdrop by (simpl; lia).
  f_equal. rewrite !zlen_app. simpl. lia.
Qed.

Lemma block_order_one hh p : length p = 64%nat ->
  Pcl.pcl_sha256_block_data_order hh p 1 = fold_left Fips.compress (blocks p) hh.
Proof.
  intros E. rewrite block_order_blocks by lia. by rewrite ztake_ge by lia.
Qed.

(** The last buffer of Final: zeros or message bytes [q], then the counter. *)
Lemma final_counter (q d b1 b2 : list Z) :
  zlen q = 56 -> zlen d = 8 -> zlen b1 = 4 -> zlen b2 = 4 ->
  splice 60 b2 (splice 56 b1 (q ++ d)) = q ++ b1 ++ b2.
Proof.
  intros Hq Hd H1 H2. rewrite <- Hq at 1. rewrite splice_app, app_assoc.
  replace 60 with (zlen (q ++ b1)) by (rewrite zlen_app; lia). rewrite splice_app, <- !app_assoc.
  rewrite zdrop_zdrop, zdrop_ge, app_nil_r by lia. done.
Qed.

Lemma final_spec c' c H n dat :
  0 <= n -> n mod 64 = 0 -> length (Pcl.data c) = 64%nat -> ctx_after c' c H n dat ->
  fst (Pcl.pcl_SHA256_Final c') =
  Fips.digest_bytes (fold_left Fips.compress (blocks (dat ++ padding (n + zlen dat))) H).
Proof.
  intros Hn Hm Hd (E1 & E2 & E3 & E4 & E5 & E6).
  pose proof (be_counter _ _ _ E4 E5 E6) as EC. clear E4 E5 E6. pose proof (zlen_tail dat) as EZ.
  unfold Pcl.pcl_SHA256_Final, Pcl.SHA_CBLOCK. rewrite E1, E2, E3.
  set (r := tail_of dat) in *. set (d := Pcl.data c) in *.
  assert (forall t, blocks (dat ++ t) = blocks dat ++ blocks (r ++ t)) as EB.
  { intros t. rewrite <- (ztake_zdrop (64 * (zlen dat / 64)) dat) at 1.
    rewrite <- app_assoc, blocks_app, <- blocks_tail; [done|].
    pose proof (zlen_ztake (64 * (zlen dat / 64)) dat). zlia. }
  rewrite EB, fold_left_app. unfold padding. rewrite <- EC. generalize (fold_left Fips.compress (blocks dat) H).
  intros G. change (64 - 8) with 56. change (64 - 4) with 60.
  assert (length (be32_bytes (Pcl.Nh c')) = 4%nat /\ length (be32_bytes (Pcl.Nl c')) = 4%nat) as [L1 L2] by done.
  destruct (zlen r + 1 >? 56) eqn:E56; zbool; cbv beta iota zeta; cbn [fst].
  - rewrite final_buffer, (zdrop_ge 64 d), app_nil_r by lia.
    set (q := r ++ [128] ++ zreplicate (64 - (zlen r + 1)) 0).
    assert (length q = 64%nat) as Lq.
    { clear EC EB Hm Hd. apply Nat2Z.inj. unfold q. rewrite !zlen_app, zlen_zreplicate.
      change (zlen [128]) with 1. lia. }
    rewrite (block_order_one _ q) by done. unfold Pcl.memset0. rewrite splice_0.
    rewrite final_counter by (rewrite ?zlen_zdrop, ?zlen_zreplicate; lia).
    rewrite block_order_one by (rewrite !length_app, L1, L2; reflexivity).
    rewrite <- fold_left_app, <- blocks_app by (rewrite Lq; done).
    unfold Fips.digest_bytes, q. do 5 f_equal. rewrite <- !app_assoc. do 2 f_equal.
    rewrite !app_assoc. do 2 f_equal. unfold zreplicate. rewrite <- replicate_add. f_equal. zlia.
  - rewrite final_buffer by lia. rewrite final_counter.
    + rewrite block_order_one.
      * unfold Fips.digest_bytes. do 5 f_equal. rewrite <- !app_assoc. do 4 f_equal. zlia.
      * pose proof (zlen_zreplicate (56 - (zlen r + 1)) 0).
        rewrite !length_app, L1, L2. simpl. lia.
    + rewrite !zlen_app, zlen_zreplicate. simpl. lia.
    + rewrite zlen_zdrop. lia.
    + lia.
    + lia.
Qed.

(** C5. The one-shot SHA-256 of the protected code loader computes the
    FIPS 180-4 digest, for every message. *)
Theorem pcl_sha256_correct buf : Pcl.pcl_sha256 buf = Fips.sha256 buf.
Proof.
  unfold Pcl.pcl_sha256, Fips.sha256. rewrite pad_padding.
  rewrite (final_spec _ Pcl.pcl_SHA256_Init Fips.IV 0 buf); [done..|].
  apply update_spec; [done|apply ctx_repr_init].
Qed.

(** Whole blocks may be passed in several calls. *)
Lemma updates_blocks chunks c H n :
  0 <= n -> Forall (fun x => zlen x mod 64 = 0) chunks -> ctx_repr c H n ->
  ctx_repr (fold_left Pcl.pcl_SHA256_Update chunks c)
    (fold_left Fips.compress (blocks (concat chunks)) H) (n + zlen (concat chunks)) /\
  zlen (concat chunks) mod 64 = 0.
Proof.
  intros Hn Hc. revert c H n Hn. induction Hc as [|x l Hx Hl IH]; intros c H n Hn Hr.
  { cbn [concat fold_left length]. by rewrite Z.add_0_r. }
  cbn [concat fold_left]. destruct (IH _ _ (n + zlen x) ltac:(lia) (update_blocks c H n x Hn Hx Hr)) as [H1 H2].
  rewrite blocks_app, fold_left_app, zlen_app, Z.add_assoc by zlia. split; [done|].
  by rewrite Z.add_mod, Hx, H2.
Qed.

(** C27. Streaming.  Any sequence of pcl_SHA256_Update calls on whole blocks,
    then one call on the rest of the message, of any length, and
    pcl_SHA256_Final give the FIPS 180-4 digest of the concatenation. *)
Theorem pcl_stream_correct chunks rest :
  Forall (fun x => zlen x mod 64 = 0) chunks ->
  fst (Pcl.pcl_SHA256_Final
         (Pcl.pcl_SHA256_Update (fold_left Pcl.pcl_SHA256_Update chunks Pcl.pcl_SHA256_Init) rest)) =
  Fips.sha256 (concat chunks ++ rest).
Proof.
  intros Hc. destruct (updates_blocks chunks _ _ 0 ltac:(done) Hc ctx_repr_init) as [Hr Hm].
  rewrite Z.add_0_l in Hr. rewrite (final_spec _ _ _ _ rest (Zle_0_nat _) Hm (proj1 (proj2 (proj2 Hr)))
    (update_spec _ _ _ rest (Zle_0_nat _) Hr)).
  unfold Fips.sha256. rewrite pad_padding, <- app_assoc, (blocks_app (concat chunks)), fold_left_app, zlen_app by zlia. done.
Qed.

Lemma pcl_stream_correct_witness :
  let b := zreplicate 64 7 in
  fst (Pcl.pcl_SHA256_Final (Pcl.pcl_SHA256_Update (Pcl.pcl_SHA256_Update (Pcl.pcl_SHA256_Update Pcl.pcl_SHA256_Init b) (b ++ b)) [1; 2])) =
  Fips.sha256 ((b ++ (b ++ b)) ++ [1; 2]).
Proof.
  intros b. rewrite <- (app_nil_r (b ++ b)) at 2.
  apply (pcl_stream_correct [b; b ++ b] [1; 2]). constructor; [done|]. by constructor.
Defined.
