(* ===== verification/Arch.v ===== *)
(** * Data shared by the signing tool and the loader

    Status codes (common/inc/sgx_error.h), page flags and attributes
    (common/inc/internal/arch.h, se_page_attr.h), the SECS, and the signed
    metadata block (common/inc/internal/metadata.h).  The metadata is kept as
    the byte buffer it is in the program; its scalar fields are named by
    offset and width, and the layout and patch tables inside it are decoded
    from the bytes, since the loader reaches them through offsets that are
    data themselves. *)
From S2P Require Import Prelude Bytes.

#[local] Open Scope Z_scope.

Inductive sgx_status_t : Set :=
| SGX_SUCCESS
| SGX_ERROR_UNEXPECTED
| SGX_ERROR_INVALID_PARAMETER
| SGX_ERROR_OUT_OF_MEMORY
| SGX_ERROR_ENCLAVE_LOST
| SGX_ERROR_INVALID_STATE
| SGX_ERROR_FEATURE_NOT_SUPPORTED
| SGX_ERROR_INVALID_FUNCTION
| SGX_ERROR_OUT_OF_TCS
| SGX_ERROR_ENCLAVE_CRASHED
| SGX_ERROR_ECALL_NOT_ALLOWED
| SGX_ERROR_OCALL_NOT_ALLOWED
| SGX_ERROR_STACK_OVERRUN
| SGX_ERROR_UNDEFINED_SYMBOL
| SGX_ERROR_INVALID_ENCLAVE
| SGX_ERROR_INVALID_ENCLAVE_ID
| SGX_ERROR_INVALID_SIGNATURE
| SGX_ERROR_NDEBUG_ENCLAVE
| SGX_ERROR_OUT_OF_EPC
| SGX_ERROR_NO_DEVICE
| SGX_ERROR_MEMORY_MAP_CONFLICT
| SGX_ERROR_INVALID_METADATA
| SGX_ERROR_DEVICE_BUSY
| SGX_ERROR_INVALID_VERSION
| SGX_ERROR_MODE_INCOMPATIBLE
| SGX_ERROR_ENCLAVE_FILE_ACCESS
| SGX_ERROR_INVALID_MISC
| SGX_ERROR_INVALID_LAUNCH_TOKEN
| SGX_ERROR_MAC_MISMATCH
| SGX_ERROR_INVALID_ATTRIBUTE
| SGX_ERROR_INVALID_CPUSVN
| SGX_ERROR_INVALID_ISVSVN
| SGX_ERROR_INVALID_KEYNAME
| SGX_ERROR_SERVICE_UNAVAILABLE
| SGX_ERROR_SERVICE_TIMEOUT
| SGX_ERROR_AE_INVALID_EPIDBLOB
| SGX_ERROR_SERVICE_INVALID_PRIVILEGE
| SGX_ERROR_EPID_MEMBER_REVOKED
| SGX_ERROR_UPDATE_NEEDED
| SGX_ERROR_NETWORK_FAILURE
| SGX_ERROR_AE_SESSION_INVALID
| SGX_ERROR_BUSY
| SGX_ERROR_MC_NOT_FOUND
| SGX_ERROR_MC_NO_ACCESS_RIGHT
| SGX_ERROR_MC_USED_UP
| SGX_ERROR_MC_OVER_QUOTA
| SGX_ERROR_KDF_MISMATCH
| SGX_ERROR_UNRECOGNIZED_PLATFORM
| SGX_ERROR_UNSUPPORTED_CONFIG
| SGX_ERROR_NO_PRIVILEGE
| SGX_ERROR_PCL_ENCRYPTED
| SGX_ERROR_PCL_NOT_ENCRYPTED
| SGX_ERROR_PCL_MAC_MISMATCH
| SGX_ERROR_PCL_SHA_MISMATCH
| SGX_ERROR_PCL_GUID_MISMATCH
| SGX_ERROR_FILE_BAD_STATUS
| SGX_ERROR_FILE_NO_KEY_ID
| SGX_ERROR_FILE_NAME_MISMATCH
| SGX_ERROR_FILE_NOT_SGX_FILE
| SGX_ERROR_FILE_CANT_OPEN_RECOVERY_FILE
| SGX_ERROR_FILE_CANT_WRITE_RECOVERY_FILE
| SGX_ERROR_FILE_RECOVERY_NEEDED
| SGX_ERROR_FILE_FLUSH_FAILED
| SGX_ERROR_FILE_CLOSE_FAILED
| SGX_ERROR_UNSUPPORTED_ATT_KEY_ID
| SGX_ERROR_ATT_KEY_CERTIFICATION_FAILURE
| SGX_ERROR_ATT_KEY_UNINITIALIZED
| SGX_ERROR_INVALID_ATT_KEY_CERT_DATA
| SGX_ERROR_PLATFORM_CERT_UNAVAILABLE
| SGX_INTERNAL_ERROR_ENCLAVE_CREATE_INTERRUPTED.

(** SGX_MK_ERROR *)
Definition sgx_status_code (s : sgx_status_t) : Z :=
  match s with
  | SGX_SUCCESS => 0x0000
  | SGX_ERROR_UNEXPECTED => 0x0001
  | SGX_ERROR_INVALID_PARAMETER => 0x0002
  | SGX_ERROR_OUT_OF_MEMORY => 0x0003
  | SGX_ERROR_ENCLAVE_LOST => 0x0004
  | SGX_ERROR_INVALID_STATE => 0x0005
  | SGX_ERROR_FEATURE_NOT_SUPPORTED => 0x0008
  | SGX_ERROR_INVALID_FUNCTION => 0x1001
  | SGX_ERROR_OUT_OF_TCS => 0x1003
  | SGX_ERROR_ENCLAVE_CRASHED => 0x1006
  | SGX_ERROR_ECALL_NOT_ALLOWED => 0x1007
  | SGX_ERROR_OCALL_NOT_ALLOWED => 0x1008
  | SGX_ERROR_STACK_OVERRUN => 0x1009
  | SGX_ERROR_UNDEFINED_SYMBOL => 0x2000
  | SGX_ERROR_INVALID_ENCLAVE => 0x2001
  | SGX_ERROR_INVALID_ENCLAVE_ID => 0x2002
  | SGX_ERROR_INVALID_SIGNATURE => 0x2003
  | SGX_ERROR_NDEBUG_ENCLAVE => 0x2004
  | SGX_ERROR_OUT_OF_EPC => 0x2005
  | SGX_ERROR_NO_DEVICE => 0x2006
  | SGX_ERROR_MEMORY_MAP_CONFLICT => 0x2007
  | SGX_ERROR_INVALID_METADATA => 0x2009
  | SGX_ERROR_DEVICE_BUSY => 0x200c
  | SGX_ERROR_INVALID_VERSION => 0x200d
  | SGX_ERROR_MODE_INCOMPATIBLE => 0x200e
  | SGX_ERROR_ENCLAVE_FILE_ACCESS => 0x200f
  | SGX_ERROR_INVALID_MISC => 0x2010
  | SGX_ERROR_INVALID_LAUNCH_TOKEN => 0x2011
  | SGX_ERROR_MAC_MISMATCH => 0x3001
  | SGX_ERROR_INVALID_ATTRIBUTE => 0x3002
  | SGX_ERROR_INVALID_CPUSVN => 0x3003
  | SGX_ERROR_INVALID_ISVSVN => 0x3004
  | SGX_ERROR_INVALID_KEYNAME => 0x3005
  | SGX_ERROR_SERVICE_UNAVAILABLE => 0x4001
  | SGX_ERROR_SERVICE_TIMEOUT => 0x4002
  | SGX_ERROR_AE_INVALID_EPIDBLOB => 0x4003
  | SGX_ERROR_SERVICE_INVALID_PRIVILEGE => 0x4004
  | SGX_ERROR_EPID_MEMBER_REVOKED => 0x4005
  | SGX_ERROR_UPDATE_NEEDED => 0x4006
  | SGX_ERROR_NETWORK_FAILURE => 0x4007
  | SGX_ERROR_AE_SESSION_INVALID => 0x4008
  | SGX_ERROR_BUSY => 0x400a
  | SGX_ERROR_MC_NOT_FOUND => 0x400c
  | SGX_ERROR_MC_NO_ACCESS_RIGHT => 0x400d
  | SGX_ERROR_MC_USED_UP => 0x400e
  | SGX_ERROR_MC_OVER_QUOTA => 0x400f
  | SGX_ERROR_KDF_MISMATCH => 0x4011
  | SGX_ERROR_UNRECOGNIZED_PLATFORM => 0x4012
  | SGX_ERROR_UNSUPPORTED_CONFIG => 0x4013
  | SGX_ERROR_NO_PRIVILEGE => 0x5002
  | SGX_ERROR_PCL_ENCRYPTED => 0x6001
  | SGX_ERROR_PCL_NOT_ENCRYPTED => 0x6002
  | SGX_ERROR_PCL_MAC_MISMATCH => 0x6003
  | SGX_ERROR_PCL_SHA_MISMATCH => 0x6004
  | SGX_ERROR_PCL_GUID_MISMATCH => 0x6005
  | SGX_ERROR_FILE_BAD_STATUS => 0x7001
  | SGX_ERROR_FILE_NO_KEY_ID => 0x7002
  | SGX_ERROR_FILE_NAME_MISMATCH => 0x7003
  | SGX_ERROR_FILE_NOT_SGX_FILE => 0x7004
  | SGX_ERROR_FILE_CANT_OPEN_RECOVERY_FILE => 0x7005
  | SGX_ERROR_FILE_CANT_WRITE_RECOVERY_FILE => 0x7006
  | SGX_ERROR_FILE_RECOVERY_NEEDED => 0x7007
  | SGX_ERROR_FILE_FLUSH_FAILED => 0x7008
  | SGX_ERROR_FILE_CLOSE_FAILED => 0x7009
  | SGX_ERROR_UNSUPPORTED_ATT_KEY_ID => 0x8001
  | SGX_ERROR_ATT_KEY_CERTIFICATION_FAILURE => 0x8002
  | SGX_ERROR_ATT_KEY_UNINITIALIZED => 0x8003
  | SGX_ERROR_INVALID_ATT_KEY_CERT_DATA => 0x8004
  | SGX_ERROR_PLATFORM_CERT_UNAVAILABLE => 0x8005
  | SGX_INTERNAL_ERROR_ENCLAVE_CREATE_INTERRUPTED => 0xF001
  end.

#[export] Instance sgx_status_eq_dec : EqDecision sgx_status_t.
Proof. solve_decision. Defined.

(** ** SEC_INFO flags and page attributes *)
Definition SI_FLAG_NONE : Z := 0x0.
Definition SI_FLAG_R : Z := 0x1.
Definition SI_FLAG_W : Z := 0x2.
Definition SI_FLAG_X : Z := 0x4.
Definition SI_FLAG_PT_MASK : Z := 0xFF00.
Definition SI_FLAG_TCS : Z := 0x100.
Definition SI_FLAG_REG : Z := 0x200.
Definition SI_FLAGS_EXTERNAL : Z :=
  Z.lor (Z.lor SI_FLAG_PT_MASK SI_FLAG_R) (Z.lor SI_FLAG_W SI_FLAG_X).
Definition SI_FLAGS_RW : Z := Z.lor (Z.lor SI_FLAG_R SI_FLAG_W) SI_FLAG_REG.
Definition SI_FLAGS_TCS : Z := SI_FLAG_TCS.
Definition SI_MASK_MEM_ATTRIBUTE : Z := 0x7.

Definition PAGE_ATTR_EADD : Z := Z.shiftl 1 0.
Definition PAGE_ATTR_EEXTEND : Z := Z.shiftl 1 1.
Definition PAGE_ATTR_EREMOVE : Z := Z.shiftl 1 2.
Definition PAGE_ATTR_POST_ADD : Z := Z.shiftl 1 3.
Definition PAGE_ATTR_POST_REMOVE : Z := Z.shiftl 1 4.
Definition PAGE_ATTR_DYN_THREAD : Z := Z.shiftl 1 5.
Definition PAGE_DIR_GROW_DOWN : Z := Z.shiftl 1 6.
Definition ADD_PAGE_ONLY : Z := PAGE_ATTR_EADD.
Definition ADD_EXTEND_PAGE : Z := Z.lor PAGE_ATTR_EADD PAGE_ATTR_EEXTEND.

(** [x & m] used as a truth value *)
Definition hasflag (x m : Z) : bool := negb (Z.land x m =? 0).

Record sec_info_t := MkSecInfo { si_flags_ : Z; si_reserved : list Z }.

(** memset(&sinfo, 0, sizeof(sinfo)); sinfo.flags = f *)
Definition mk_sinfo (f : Z) : sec_info_t := MkSecInfo f (replicate 7 0).

Definition sec_info_bytes (s : sec_info_t) : list Z :=
  le_bytes 8 (si_flags_ s) ++ concat (map (le_bytes 8) (si_reserved s)).

(** ** Attributes and SECS *)
Record sgx_attributes_t := MkAttr { at_flags : Z; at_xfrm : Z }.
Record sgx_misc_attribute_t := MkMisc { secs_attr : sgx_attributes_t; misc_select_ : Z }.

Definition SGX_FLAGS_INITTED : Z := 0x1.
Definition SGX_FLAGS_DEBUG : Z := 0x2.
Definition SGX_FLAGS_MODE64BIT : Z := 0x4.
Definition SGX_FLAGS_PROVISION_KEY : Z := 0x10.
Definition SGX_FLAGS_EINITTOKEN_KEY : Z := 0x20.
Definition SGX_FLAGS_KSS : Z := 0x80.
Definition SGX_XFRM_LEGACY : Z := 0x3.
Definition SGX_XFRM_AVX : Z := 0x6.
Definition SGX_XFRM_AVX512 : Z := 0xE6.
Definition SGX_XFRM_RESERVED : Z :=
  u64 (Z.lnot (Z.lor (Z.lor SGX_XFRM_LEGACY SGX_XFRM_AVX) SGX_XFRM_AVX512)).

(** secs_t without its reserved (zero) bytes *)
Record secs_t := MkSecs {
  secs_size : Z; secs_base : Z; secs_ssa_frame_size : Z; secs_misc_select : Z;
  secs_attributes : sgx_attributes_t; secs_mr_enclave : list Z;
  secs_config_id : list Z; secs_config_svn : Z }.

(** memset(&m_secs, 0, sizeof(secs_t)) *)
Definition secs_zero : secs_t :=
  MkSecs 0 0 0 0 (MkAttr 0 0) (zreplicate 32 0) (zreplicate 64 0) 0.

(** ** memcpy_s (common/inc/internal/se_memcpy.h)

    [dst] from the destination pointer on; a count above the destination size
    [n] returns -1 and copies nothing.  The read of [count] source bytes and
    the write are undefined outside the buffers. *)
Definition memcpy_s {E} (dst : list Z) (n : Z) (src : list Z) (count : Z) : res E (list Z * Z) :=
  if n <? count then Ok (dst, -1)
  else if (zlen src <? count) || (zlen dst <? count) then Stuck
  else Ok (splice 0 (ztake count src) dst, 0).

(** ** Fields of a packed structure *)
Record field := Fld { f_off : Z; f_width : nat }.

Definition fget (f : field) (buf : list Z) : Z := le_val (slice (f_off f) (Z.of_nat (f_width f)) buf).
Definition fset (f : field) (v : Z) (buf : list Z) : list Z := splice (f_off f) (le_bytes (f_width f) v) buf.

Definition f_end (f : field) : Z := f_off f + Z.of_nat (f_width f).

Lemma zlen_fset f v buf : 0 <= f_off f -> f_end f <= zlen buf -> zlen (fset f v buf) = zlen buf.
Proof.
  unfold f_end, fset. intros. apply zlen_splice; rewrite ?length_le_bytes; lia.
Qed.

Lemma fget_fset_same f v buf :
  0 <= f_off f -> f_end f <= zlen buf ->
  fget f (fset f v buf) = v mod 256 ^ Z.of_nat (f_width f).
Proof.
  unfold f_end, fget, fset. intros.
  rewrite <- (length_le_bytes (f_width f) v) at 1.
  rewrite slice_splice_same by (rewrite ?length_le_bytes; lia). apply le_val_le_bytes.
Qed.

(** Writing bytes outside a field leaves it unchanged. *)
Lemma fget_splice_other g off src buf :
  0 <= off -> 0 <= f_off g -> off + zlen src <= zlen buf ->
  f_end g <= off \/ off + zlen src <= f_off g ->
  fget g (splice off src buf) = fget g buf.
Proof.
  unfold f_end, fget. intros ? ? ? [?|?]; f_equal.
  - apply slice_splice_before; lia.
  - apply slice_splice_after; lia.
Qed.

Lemma fget_fset_other f g v buf :
  0 <= f_off f -> 0 <= f_off g -> f_end f <= zlen buf ->
  f_end g <= f_off f \/ f_end f <= f_off g ->
  fget g (fset f v buf) = fget g buf.
Proof.
  intros. unfold fset. apply fget_splice_other; unfold f_end in *; rewrite ?length_le_bytes; lia.
Qed.

Lemma fget_range f buf :
  bytes_ok buf -> 0 <= f_off f -> 0 <= fget f buf < 256 ^ Z.of_nat (f_width f).
Proof.
  intros Hb Ho. unfold fget.
  pose proof (le_val_range (slice (f_off f) (Z.of_nat (f_width f)) buf) (bytes_ok_slice _ _ _ Hb)).
  assert (zlen (slice (f_off f) (Z.of_nat (f_width f)) buf) <= Z.of_nat (f_width f)).
  { unfold slice. rewrite zlen_ztake. lia. }
  pose proof (Z.pow_le_mono_r 256 (zlen (slice (f_off f) (Z.of_nat (f_width f)) buf)) (Z.of_nat (f_width f))). lia.
Qed.

(** ** metadata_t *)
Definition METADATA_MAGIC : Z := 0x86A80294635D0E4C.
Definition METADATA_SIZE : Z := 0x5000.
Definition TCS_TEMPLATE_SIZE : Z := 72.
Definition TCS_POLICY_BIND : Z := 0.
Definition TCS_POLICY_UNBIND : Z := 1.
Definition MAX_SAVE_BUF_SIZE : Z := 2632.
Definition TCS_NUM_MIN : Z := 1.
Definition SSA_NUM_MIN : Z := 2.
Definition SSA_FRAME_SIZE_MIN : Z := 1.
Definition SSA_FRAME_SIZE_MAX : Z := 2.
Definition STACK_SIZE_MIN : Z := 0x2000.
Definition STACK_SIZE_MAX : Z := 0x40000.
Definition HEAP_SIZE_MIN : Z := 0x1000.
Definition HEAP_SIZE_MAX : Z := 0x1000000.
Definition RSRV_SIZE_MIN : Z := 0.
Definition RSRV_SIZE_MAX : Z := 0.
Definition DEFAULT_MISC_SELECT : Z := 0.
Definition DEFAULT_MISC_MASK : Z := 0xFFFFFFFF.
Definition ISVFAMILYID_MAX : Z := 0xFFFFFFFFFFFFFFFF.
Definition ISVEXTPRODID_MAX : Z := 0xFFFFFFFFFFFFFFFF.

Definition META_DATA_MAKE_VERSION (major minor : Z) : Z := Z.lor (Z.shiftl major 32) minor.
Definition MAJOR_VERSION_OF_METADATA (v : Z) : Z := Z.shiftr v 32.
Definition MINOR_VERSION_OF_METADATA (v : Z) : Z := Z.land v 0xFFFFFFFF.
Definition MAJOR_VERSION : Z := 2.
Definition MINOR_VERSION : Z := 4.
Definition SGX_1_5_MAJOR_VERSION : Z := 1.
Definition SGX_1_5_MINOR_VERSION : Z := 3.

Module Md.
Definition magic_num := Fld 0 8.
Definition version := Fld 8 8.
Definition size := Fld 16 4.
Definition tcs_policy := Fld 20 4.
Definition ssa_frame_size := Fld 24 4.
Definition max_save_buffer_size := Fld 28 4.
Definition desired_misc_select := Fld 32 4.
Definition tcs_min_pool := Fld 36 4.
Definition enclave_size := Fld 40 8.
Definition attributes_flags := Fld 48 8.
Definition attributes_xfrm := Fld 56 8.
(** enclave_css (offset 64) *)
Definition css_off : Z := 64.
Definition css_size : Z := 1808.
Definition dir_offset (i : Z) := Fld (1872 + 8 * i) 4.
Definition dir_size (i : Z) := Fld (1876 + 8 * i) 4.
(** offsetof(metadata_t, data) *)
Definition data_off : Z := 1888.
End Md.

Definition DIR_PATCH : Z := 0.
Definition DIR_LAYOUT : Z := 1.
Definition DIR_NUM : Z := 2.

(** enclave_css_t, offsets relative to the structure *)
Module Css.
Definition header_type := Fld 12 4.
Definition header_module_vendor := Fld 16 4.
Definition header_date := Fld 20 4.
Definition header_hw_version := Fld 40 4.
Definition key_modulus_off : Z := 128.
Definition key_exponent_off : Z := 512.
Definition key_signature_off : Z := 516.
Definition body_off : Z := 900.
Definition body_misc_select := Fld 900 4.
Definition body_misc_mask := Fld 904 4.
Definition body_isv_family_id_off : Z := 912.
Definition body_attributes_flags := Fld 928 8.
Definition body_attributes_xfrm := Fld 936 8.
Definition body_attribute_mask_flags := Fld 944 8.
Definition body_attribute_mask_xfrm := Fld 952 8.
Definition body_enclave_hash_off : Z := 960.
Definition body_isvext_prod_id_off : Z := 1008.
Definition body_isv_prod_id := Fld 1024 2.
Definition body_isv_svn := Fld 1026 2.
Definition buffer_q1_off : Z := 1040.
Definition buffer_q2_off : Z := 1424.
End Css.

(** [&m_metadata->enclave_css] *)
Definition md_css (md : list Z) : list Z := slice Md.css_off Md.css_size md.

(** ** Layout and patch tables *)
Definition GROUP_FLAG : Z := Z.shiftl 1 12.
Definition GROUP_ID (x : Z) : Z := Z.lor GROUP_FLAG x.
Definition IS_GROUP_ID (x : Z) : bool := hasflag x GROUP_FLAG.
Definition LAYOUT_ID_HEAP_MIN : Z := 1.
Definition LAYOUT_ID_HEAP_INIT : Z := 2.
Definition LAYOUT_ID_HEAP_MAX : Z := 3.
Definition LAYOUT_ID_TCS : Z := 4.
Definition LAYOUT_ID_TD : Z := 5.
Definition LAYOUT_ID_SSA : Z := 6.
Definition LAYOUT_ID_STACK_MAX : Z := 7.
Definition LAYOUT_ID_STACK_MIN : Z := 8.
Definition LAYOUT_ID_THREAD_GROUP : Z := GROUP_ID 9.
Definition LAYOUT_ID_GUARD : Z := 10.
Definition LAYOUT_ID_HEAP_DYN_MIN : Z := 11.
Definition LAYOUT_ID_HEAP_DYN_INIT : Z := 12.
Definition LAYOUT_ID_HEAP_DYN_MAX : Z := 13.
Definition LAYOUT_ID_TCS_DYN : Z := 14.
Definition LAYOUT_ID_TD_DYN : Z := 15.
Definition LAYOUT_ID_SSA_DYN : Z := 16.
Definition LAYOUT_ID_STACK_DYN_MAX : Z := 17.
Definition LAYOUT_ID_STACK_DYN_MIN : Z := 18.
Definition LAYOUT_ID_THREAD_GROUP_DYN : Z := GROUP_ID 19.
Definition LAYOUT_ID_RSRV_MIN : Z := 20.
Definition LAYOUT_ID_RSRV_INIT : Z := 21.
Definition LAYOUT_ID_RSRV_MAX : Z := 22.

(** layout_t is a union; the members of layout_entry_t and layout_group_t
    overlay exactly, so one record with aliases for the group view.  The
    group's reserved words overlay content_size .. si_flags. *)
Record layout_t := MkLayout {
  l_id : Z; l_attributes : Z; l_page_count : Z; l_rva : Z;
  l_content_size : Z; l_content_offset : Z; l_si_flags : Z }.
Definition g_entry_count (l : layout_t) : Z := l_attributes l.
Definition g_load_times (l : layout_t) : Z := l_page_count l.
Definition g_load_step (l : layout_t) : Z := l_rva l.

#[export] Instance layout_eq_dec : EqDecision layout_t.
Proof. solve_decision. Defined.

(** memset(&layout, 0, sizeof(layout)) *)
Definition layout_zero : layout_t := MkLayout 0 0 0 0 0 0 0.
Definition sizeof_layout : Z := 32.

Definition layout_ok (l : layout_t) : Prop :=
  is_u16 (l_id l) /\ is_u16 (l_attributes l) /\ is_u32 (l_page_count l) /\ is_u64 (l_rva l) /\
  is_u32 (l_content_size l) /\ is_u32 (l_content_offset l) /\ is_u64 (l_si_flags l).

Definition layout_bytes (l : layout_t) : list Z :=
  le_bytes 2 (l_id l) ++ le_bytes 2 (l_attributes l) ++ le_bytes 4 (l_page_count l) ++
  le_bytes 8 (l_rva l) ++ le_bytes 4 (l_content_size l) ++ le_bytes 4 (l_content_offset l) ++
  le_bytes 8 (l_si_flags l).

(** A layout_t at a pointer [off] into the buffer. *)
Definition layout_at (off : Z) (buf : list Z) : option layout_t :=
  if (off <? 0) || (zlen buf <? off + sizeof_layout) then None
  else let b := slice off sizeof_layout buf in
       Some (MkLayout (fget (Fld 0 2) b) (fget (Fld 2 2) b) (fget (Fld 4 4) b) (fget (Fld 8 8) b)
                      (fget (Fld 16 4) b) (fget (Fld 20 4) b) (fget (Fld 24 8) b)).

Record patch_entry_t := MkPatch { p_dst : Z; p_src : Z; p_size : Z }.
Definition sizeof_patch : Z := 32.

Definition patch_ok (p : patch_entry_t) : Prop :=
  is_u64 (p_dst p) /\ is_u32 (p_src p) /\ is_u32 (p_size p).

(** reserved[4] is zero *)
Definition patch_bytes (p : patch_entry_t) : list Z :=
  le_bytes 8 (p_dst p) ++ le_bytes 4 (p_src p) ++ le_bytes 4 (p_size p) ++ zreplicate 16 0.

Definition patch_at (off : Z) (buf : list Z) : option patch_entry_t :=
  if (off <? 0) || (zlen buf <? off + sizeof_patch) then None
  else let b := slice off sizeof_patch buf in
       Some (MkPatch (fget (Fld 0 8) b) (fget (Fld 8 4) b) (fget (Fld 12 4) b)).

(** [for (p = start; p < end; p++)] over a table of [sz]-byte records: the
    number of iterations is the size rounded up.  Each element is the read at
    its address, [None] when that lies outside the buffer. *)
Definition table_count (size sz : Z) : nat := Z.to_nat ((size + sz - 1) / sz).

Fixpoint table_from {A} (at_ : Z -> list Z -> option A) (sz off : Z) (n : nat) (buf : list Z)
  : list (option A) :=
  match n with
  | O => []
  | S n' => at_ off buf :: table_from at_ sz (off + sz) n' buf
  end.

Definition layout_table (md : list Z) : list (option layout_t) :=
  table_from layout_at sizeof_layout (fget (Md.dir_offset DIR_LAYOUT) md)
    (table_count (fget (Md.dir_size DIR_LAYOUT) md) sizeof_layout) md.

Definition patch_table (md : list Z) : list (option patch_entry_t) :=
  table_from patch_at sizeof_patch (fget (Md.dir_offset DIR_PATCH) md)
    (table_count (fget (Md.dir_size DIR_PATCH) md) sizeof_patch) md.

(** ** Encode/decode *)
Lemma zlen_layout_bytes l : zlen (layout_bytes l) = sizeof_layout. Proof. reflexivity. Qed.
Lemma zlen_patch_bytes p : zlen (patch_bytes p) = sizeof_patch. Proof. reflexivity. Qed.

Lemma layout_bytes_ok l : bytes_ok (layout_bytes l).
Proof. unfold layout_bytes. rewrite !bytes_ok_app. auto 10 using le_bytes_ok. Qed.

Lemma patch_bytes_ok p : bytes_ok (patch_bytes p).
Proof.
  unfold patch_bytes. rewrite !bytes_ok_app.
  repeat split; auto using le_bytes_ok. by apply bytes_ok_zreplicate.
Qed.

(** A field encoded between two known parts of a record. *)
Lemma fget_mid w (a c : list Z) v off :
  off = zlen a -> 0 <= v < 256 ^ Z.of_nat w -> fget (Fld off w) (a ++ le_bytes w v ++ c) = v.
Proof.
  intros -> Hv. unfold fget; cbn [f_off f_width]. rewrite slice_app_ge by lia.
  rewrite Z.sub_diag, slice_app_le, slice_0, ztake_ge by (rewrite ?length_le_bytes; lia).
  rewrite le_val_le_bytes. by apply Z.mod_small.
Qed.

Lemma layout_at_mid l a c off : layout_ok l -> off = zlen a ->
  layout_at off (a ++ layout_bytes l ++ c) = Some l.
Proof.
  intros (H1 & H2 & H3 & H4 & H5 & H6 & H7) ->. unfold layout_at.
  pose proof (zlen_layout_bytes l) as Hl. unfold sizeof_layout in *.
  replace (_ || _) with false by (rewrite !zlen_app, Hl; lia).
  rewrite slice_app_ge by lia. rewrite Z.sub_diag, slice_app_le, slice_0, ztake_ge by lia.
  destruct l as [i at_ pc rva cs co sf]; unfold layout_bytes; cbn [l_id l_attributes l_page_count
    l_rva l_content_size l_content_offset l_si_flags] in *. f_equal. f_equal.
  - by apply (fget_mid 2 []).
  - by apply (fget_mid 2 (le_bytes 2 i)).
  - by rewrite app_assoc; apply (fget_mid 4 (le_bytes 2 i ++ le_bytes 2 at_)).
  - by rewrite 2!app_assoc; apply (fget_mid 8 ((le_bytes 2 i ++ le_bytes 2 at_) ++ le_bytes 4 pc)).
  - by rewrite 3!app_assoc; apply (fget_mid 4 (((le_bytes 2 i ++ le_bytes 2 at_) ++ le_bytes 4 pc) ++ le_bytes 8 rva)).
  - by rewrite 4!app_assoc; apply (fget_mid 4 ((((le_bytes 2 i ++ le_bytes 2 at_) ++ le_bytes 4 pc) ++ le_bytes 8 rva) ++ le_bytes 4 cs)).
  - rewrite <- (app_nil_r (le_bytes 8 sf)), 5!app_assoc.
    by apply (fget_mid 8 (((((le_bytes 2 i ++ le_bytes 2 at_) ++ le_bytes 4 pc) ++ le_bytes 8 rva) ++ le_bytes 4 cs) ++ le_bytes 4 co)).
Qed.

Lemma patch_at_mid p a c off : patch_ok p -> off = zlen a ->
  patch_at off (a ++ patch_bytes p ++ c) = Some p.
Proof.
  intros (H1 & H2 & H3) ->. unfold patch_at.
  pose proof (zlen_patch_bytes p) as Hl. unfold sizeof_patch in *.
  replace (_ || _) with false by (rewrite !zlen_app, Hl; lia).
  rewrite slice_app_ge by lia. rewrite Z.sub_diag, slice_app_le, slice_0, ztake_ge by lia.
  destruct p as [d s z]; unfold patch_bytes; cbn [p_dst p_src p_size] in *. f_equal. f_equal.
  - by apply (fget_mid 8 []).
  - by apply (fget_mid 4 (le_bytes 8 d)).
  - by rewrite app_assoc; apply (fget_mid 4 (le_bytes 8 d ++ le_bytes 4 s)).
Qed.

(** A table of records written consecutively is read back. *)
Lemma table_from_concat {A} (at_ : Z -> list Z -> option A) (enc : A -> list Z) (ok : A -> Prop) sz l a c off :
  (forall x, zlen (enc x) = sz) ->
  (forall x a c off, ok x -> off = zlen a -> at_ off (a ++ enc x ++ c) = Some x) ->
  Forall ok l -> off = zlen a ->
  table_from at_ sz off (length l) (a ++ concat (map enc l) ++ c) = map Some l.
Proof.
  intros Hsz Hat Hok. revert a off. induction Hok as [|x l Hx Hl IH]; intros a off ->; [done|].
  cbn [length map concat table_from]. rewrite <- app_assoc. f_equal.
  - by apply Hat.
  - rewrite (app_assoc a (enc x)). apply IH. rewrite zlen_app, Hsz. done.
Qed.
