(* ===== verification/Measure.v ===== *)
(** * The enclave measurement, and the hash libraries behind it

    The measurement of an enclave is the SHA-256 of a log of the
    instructions that build it.  [mevent] is one instruction of the log and
    [event_bytes] its encoding in 64-byte blocks.

    The signing tool hashes the log with OpenSSL's EVP digests, the enclave
    with the SDK's sgx_tcrypto.  Both libraries are outside
    the sources and appear here as interfaces: [Evp] and [Tcrypto] are the
    operations, [EvpLaws] and [TcryptoLaws] what the callers rely on, stated
    against a Merkle-Damgard function [HashFn].  [sha256_hash_fn] is SHA-256;
    [PclEvp] shows that the SHA-256 code of the protected code loader meets
    the interface. *)
From S2P Require Import Prelude Bytes Sha256.

#[local] Open Scope Z_scope.

Definition DATA_BLOCK_SIZE : Z := 64.
Definition SIZE_NAMED_VALUE : Z := 8.
Definition EEXTEND_TIME : Z := 4.
Definition SGX_HASH_SIZE : Z := 32.

(** The 8-byte names that tag the blocks of the log. *)
Definition ecreat_val : list Z := [0x45; 0x43; 0x52; 0x45; 0x41; 0x54; 0x45; 0].
Definition eadd_val : list Z := [0x45; 0x41; 0x44; 0x44; 0; 0; 0; 0].
Definition eextend_val : list Z := [0x45; 0x45; 0x58; 0x54; 0x45; 0x4E; 0x44; 0].

(** ** The log *)
Inductive mevent :=
| ECREATE (ssa_frame_size size : Z)
| EADD (offset : Z) (secinfo : list Z)      (* the first 48 bytes of SECINFO *)
| EEXTEND (offset : Z) (chunk : list Z).    (* 256 bytes of the page *)

#[export] Instance mevent_eq_dec : EqDecision mevent.
Proof. solve_decision. Defined.

Definition event_bytes (e : mevent) : list Z :=
  match e with
  | ECREATE ssa size => ecreat_val ++ le_bytes 4 ssa ++ le_bytes 8 size ++ zreplicate 44 0
  | EADD off si => eadd_val ++ le_bytes 8 off ++ si
  | EEXTEND off chunk => eextend_val ++ le_bytes 8 off ++ zreplicate 48 0 ++ chunk
  end.

Definition event_ok (e : mevent) : bool :=
  match e with
  | ECREATE _ _ => true
  | EADD _ si => zlen si =? 48
  | EEXTEND _ chunk => zlen chunk =? 256
  end.

Definition trace_bytes (t : list mevent) : list Z := concat (map event_bytes t).

Lemma trace_bytes_app t1 t2 : trace_bytes (t1 ++ t2) = trace_bytes t1 ++ trace_bytes t2.
Proof. unfold trace_bytes. by rewrite map_app, concat_app. Qed.

Lemma event_bytes_aligned e : event_ok e = true -> zlen (event_bytes e) mod 64 = 0.
Proof.
  destruct e; simpl event_ok; intros H; zbool; cbn [event_bytes].
  - reflexivity.
  - rewrite !zlen_app, H, length_le_bytes. reflexivity.
  - rewrite !zlen_app, H, length_le_bytes, zlen_zreplicate. reflexivity.
Qed.

Lemma trace_bytes_aligned t : forallb event_ok t = true -> zlen (trace_bytes t) mod 64 = 0.
Proof.
  unfold trace_bytes. induction t as [|e t IH]; cbn [forallb map concat]; intros H; [done|].
  apply andb_true_iff in H as [He%event_bytes_aligned Ht%IH].
  rewrite zlen_app, Z.add_mod, He, Ht by lia. done.
Qed.

(** ** Hash function *)

(** A Merkle-Damgard hash: [hf_compress] on 64-byte blocks from [hf_iv], and
    [hf_finish] the digest of a state after [n] hashed bytes. *)
Class HashFn := {
  hf_iv : words8;
  hf_compress : words8 -> list Z -> words8;
  hf_finish : words8 -> Z -> list Z;
  hf_iv_ok : words8_ok hf_iv;
  hf_compress_ok h b : words8_ok (hf_compress h b) }.

(** The chaining value after a message of whole blocks. *)
Definition hf_state {HF : HashFn} (m : list Z) : words8 := fold_left hf_compress (blocks m) hf_iv.
Definition hf_hash {HF : HashFn} (m : list Z) : list Z := hf_finish (hf_state m) (zlen m).

(** The eight words as they lie in memory on a little-endian machine. *)
Definition words8_le (h : words8) : list Z := concat (map (le_bytes 4) (words8_list h)).

Lemma zlen_words8_le h : zlen (words8_le h) = 32. Proof. by destruct h. Qed.

Lemma words8_le_ok h : bytes_ok (words8_le h).
Proof.
  unfold words8_le. induction (words8_list h); cbn [map concat]; [constructor|].
  apply bytes_ok_app. auto using le_bytes_ok.
Qed.

(** MRENCLAVE of a log *)
Definition mrenclave {HF : HashFn} (t : list mevent) : list Z := hf_hash (trace_bytes t).

Lemma hf_state_ok {HF : HashFn} m : words8_ok (hf_state m).
Proof.
  unfold hf_state. generalize hf_iv hf_iv_ok.
  induction (blocks m) as [|b l IH]; intros h Hh; cbn [fold_left]; [done|].
  apply IH, hf_compress_ok.
Qed.

Lemma hf_state_app {HF : HashFn} m1 m2 :
  zlen m1 mod 64 = 0 -> hf_state (m1 ++ m2) = fold_left hf_compress (blocks m2) (hf_state m1).
Proof. intros. unfold hf_state. rewrite blocks_app by zlia. apply fold_left_app. Qed.

(** ** OpenSSL: EVP_MD_CTX_create, EVP_DigestInit_ex(EVP_sha256()),
    EVP_DigestUpdate, EVP_DigestFinal_ex; [None] is a failure return.
    [evp_md_data] is the first 32 bytes at [ctx->md_data]. *)
Class Evp (C : Type) := {
  evp_create : option C;
  evp_init : C -> option C;
  evp_update : C -> list Z -> option C;
  evp_final : C -> option (C * list Z);
  evp_md_data : C -> list Z }.

(** A working OpenSSL: [evp_repr c m] says that [c] has hashed [m].  Only
    updates by whole 64-byte blocks are used; then md_data starts with the
    chaining value. *)
Class EvpLaws {HF : HashFn} (C : Type) {E : Evp C} := {
  evp_repr : C -> list Z -> Prop;
  evp_create_law : is_Some evp_create;
  evp_init_law c : exists c', evp_init c = Some c' /\ evp_repr c' [];
  evp_update_law c m d : zlen m mod 64 = 0 -> zlen d mod 64 = 0 -> evp_repr c m ->
    exists c', evp_update c d = Some c' /\ evp_repr c' (m ++ d);
  evp_final_law c m : zlen m mod 64 = 0 -> evp_repr c m ->
    exists c', evp_final c = Some (c', hf_hash m);
  evp_md_data_law c m : zlen m mod 64 = 0 -> evp_repr c m ->
    evp_md_data c = words8_le (hf_state m) }.

(** ** sgx_tcrypto: sgx_sha256_init, _update, _get_hash and _close.
    [sha_poke h off bytes] is a memory write at [handle + off]. *)
Class Tcrypto (H : Type) := {
  sha_init : option H;
  sha_update : H -> list Z -> option H;
  sha_get_hash : H -> option (list Z);
  sha_poke : H -> Z -> list Z -> H }.

Definition HANDLE_SIZE_OFFSET : Z := 152.
Definition HANDLE_HASH_OFFSET : Z := 168.

(** SHA-256 hashes messages of less than 2^64 bits. *)
Definition MAX_MSG : Z := 2 ^ 61.

(** What the derivation relies on: besides hashing, the context keeps the
    byte count at offset 152 and the chaining value at offset 168, so that
    writing both over a fresh context resumes the hash of [m]. *)
Class TcryptoLaws {HF : HashFn} (H : Type) {T : Tcrypto H} := {
  sha_repr : H -> list Z -> Prop;
  sha_init_law : exists h, sha_init = Some h /\ sha_repr h [];
  sha_update_law h m d : zlen m mod 64 = 0 -> zlen d mod 64 = 0 -> zlen m + zlen d < MAX_MSG ->
    sha_repr h m ->
    exists h', sha_update h d = Some h' /\ sha_repr h' (m ++ d);
  sha_get_hash_law h m : zlen m mod 64 = 0 -> sha_repr h m -> sha_get_hash h = Some (hf_hash m);
  sha_resume_law h m : sha_repr h [] -> zlen m mod 64 = 0 -> zlen m < MAX_MSG ->
    sha_repr (sha_poke (sha_poke h HANDLE_HASH_OFFSET (words8_le (hf_state m)))
                       HANDLE_SIZE_OFFSET (le_bytes 8 (zlen m))) m }.

(** A context with the layout [TcryptoLaws] describes: 200 bytes of memory in
    which the byte count and the chaining value lie at the two offsets. *)
Module RawCtx.
Definition word (raw : list Z) (i : Z) : Z := le_val (slice (HANDLE_HASH_OFFSET + 4 * i) 4 raw).
Definition words (raw : list Z) : words8 :=
  W8 (word raw 0) (word raw 1) (word raw 2) (word raw 3)
     (word raw 4) (word raw 5) (word raw 6) (word raw 7).
Definition count (raw : list Z) : Z := le_val (slice HANDLE_SIZE_OFFSET 8 raw).
Definition put (raw : list Z) (h : words8) (n : Z) : list Z :=
  splice HANDLE_SIZE_OFFSET (le_bytes 8 n) (splice HANDLE_HASH_OFFSET (words8_le h) raw).

Lemma word_le w : is_u32 w -> le_val (le_bytes 4 w) = w.
Proof. intros. rewrite le_val_le_bytes. by apply Z.mod_small. Qed.

Lemma put_length raw h n : zlen raw = 200 -> zlen (put raw h n) = 200.
Proof.
  intros. unfold put, HANDLE_SIZE_OFFSET, HANDLE_HASH_OFFSET.
  assert (zlen (splice 168 (words8_le h) raw) = 200) by (rewrite zlen_splice; rewrite ?zlen_words8_le; lia).
  rewrite zlen_splice by (rewrite ?length_le_bytes; lia). done.
Qed.

Lemma count_put raw h n : zlen raw = 200 -> 0 <= n < 2 ^ 64 -> count (put raw h n) = n.
Proof.
  intros Hr Hn. unfold count, put, HANDLE_SIZE_OFFSET, HANDLE_HASH_OFFSET.
  assert (zlen (splice 168 (words8_le h) raw) = 200) by (rewrite zlen_splice; rewrite ?zlen_words8_le; lia).
  change 8 with (Z.of_nat 8) at 1. rewrite <- (length_le_bytes 8 n) at 1.
  rewrite slice_splice_same by (rewrite ?length_le_bytes; lia).
  rewrite le_val_le_bytes. by apply Z.mod_small.
Qed.

Lemma slice_put raw h n i : zlen raw = 200 -> 0 <= i < 8 ->
  slice (HANDLE_HASH_OFFSET + 4 * i) 4 (put raw h n) = slice (4 * i) 4 (words8_le h).
Proof.
  intros Hr Hi. unfold put, HANDLE_SIZE_OFFSET, HANDLE_HASH_OFFSET.
  assert (zlen (splice 168 (words8_le h) raw) = 200) by (rewrite zlen_splice; rewrite ?zlen_words8_le; lia).
  rewrite slice_splice_after by (rewrite ?length_le_bytes; lia).
  pose proof (zlen_words8_le h). unfold splice. rewrite slice_app_ge by (rewrite zlen_ztake; lia).
  rewrite zlen_ztake. replace (168 + 4 * i - _) with (4 * i) by lia.
  by rewrite slice_app_le by lia.
Qed.

Lemma words_put raw h n : zlen raw = 200 -> words8_ok h -> words (put raw h n) = h.
Proof.
  intros Hr Hh. unfold words, word. rewrite !slice_put by lia.
  destruct h as [a b c d e f g i]. unfold words8_ok, words8_list in Hh. simpl in Hh.
  repeat match goal with H : Forall _ (_ :: _) |- _ => inversion_clear H end.
  f_equal; apply word_le; assumption.
Qed.
End RawCtx.

#[export] Instance RawTcrypto {HF : HashFn} : Tcrypto (list Z) := {|
  sha_init := Some (RawCtx.put (zreplicate 200 0) hf_iv 0);
  sha_update raw d :=
    Some (RawCtx.put raw (fold_left hf_compress (blocks d) (RawCtx.words raw)) (RawCtx.count raw + zlen d));
  sha_get_hash raw := Some (hf_finish (RawCtx.words raw) (RawCtx.count raw));
  sha_poke raw off b := splice off b raw |}.

#[export] Program Instance RawTcryptoLaws {HF : HashFn} : TcryptoLaws (list Z) := {|
  sha_repr raw m := zlen raw = 200 /\ RawCtx.words raw = hf_state m /\ RawCtx.count raw = zlen m |}.
Next Obligation.
  intros HF. eexists; split; [done|]. split_and!.
  - by apply RawCtx.put_length.
  - by apply RawCtx.words_put, hf_iv_ok.
  - by apply RawCtx.count_put.
Qed.
Next Obligation.
  intros HF raw m d Hm Hd Hl (Hr & Hw & Hc). unfold MAX_MSG in Hl. eexists; split; [done|]. simpl.
  rewrite Hw, Hc, <- hf_state_app, <- zlen_app by done. split_and!.
  - by apply RawCtx.put_length.
  - apply RawCtx.words_put; [done|apply hf_state_ok].
  - apply RawCtx.count_put; [done|]. rewrite zlen_app. lia.
Qed.
Next Obligation. intros HF raw m Hm (Hr & Hw & Hc). simpl. by rewrite Hw, Hc. Qed.
Next Obligation.
  intros HF raw m (Hr & _ & _) Hm Hl. unfold MAX_MSG in Hl. simpl.
  change (splice _ _ (splice _ _ _)) with (RawCtx.put raw (hf_state m) (zlen m)). split_and!.
  - by apply RawCtx.put_length.
  - apply RawCtx.words_put; [done|apply hf_state_ok].
  - apply RawCtx.count_put; [done|]. lia.
Qed.

(** ** SHA-256 *)
Lemma words8_add_ok x y : words8_ok (words8_add x y).
Proof. unfold words8_ok, words8_add. repeat constructor; apply u32_range. Qed.

Lemma fips_iv_ok : words8_ok Fips.IV.
Proof. repeat constructor; vm_compute; congruence. Qed.

Definition sha256_hash_fn : HashFn := {|
  hf_iv := Fips.IV;
  hf_compress := Fips.compress;
  hf_finish H n := Fips.digest_bytes (fold_left Fips.compress (blocks (padding n)) H);
  hf_iv_ok := fips_iv_ok;
  hf_compress_ok H b := words8_add_ok _ _ |}.

#[local] Existing Instance sha256_hash_fn.

(** On whole blocks the interface instance is SHA-256. *)
Lemma sha256_hash_fn_correct m : zlen m mod 64 = 0 -> hf_hash m = Fips.sha256 m.
Proof.
  intros. unfold hf_hash, hf_state, Fips.sha256. simpl. rewrite pad_padding, blocks_app by zlia.
  by rewrite fold_left_app.
Qed.

(** ** The protected code loader's SHA-256 meets the interface *)
#[export] Instance PclEvp : Evp Pcl.SHA256_CTX := {|
  evp_create := Some Pcl.pcl_SHA256_Init;
  evp_init _ := Some Pcl.pcl_SHA256_Init;
  evp_update c d := Some (Pcl.pcl_SHA256_Update c d);
  evp_final c := let '(d, c') := Pcl.pcl_SHA256_Final c in Some (c', d);
  evp_md_data c := words8_le (Pcl.h c) |}.

Lemma pcl_final_aligned c m :
  zlen m mod 64 = 0 -> ctx_repr c (hf_state m) (zlen m) -> fst (Pcl.pcl_SHA256_Final c) = hf_hash m.
Proof.
  intros Hm Hr. pose proof (update_spec c (hf_state m) (zlen m) [] ltac:(lia) Hr) as Ha.
  change (Pcl.pcl_SHA256_Update c []) with c in Ha.
  destruct Hr as (_ & _ & Hd & _).
  pose proof (final_spec _ c (hf_state m) (zlen m) [] ltac:(lia) Hm Hd Ha) as E.
  unfold hf_hash. rewrite E. cbn [length app]. by rewrite Z.add_0_r.
Qed.

#[export] Program Instance PclEvpLaws : EvpLaws (HF:=sha256_hash_fn) Pcl.SHA256_CTX := {|
  evp_repr c m := ctx_repr c (hf_state m) (zlen m) |}.
Next Obligation. by eexists. Qed.
Next Obligation. intros c. eexists; split; [done|]. apply ctx_repr_init. Qed.
Next Obligation.
  intros c m d Hm Hd Hr. eexists; split; [done|].
  rewrite zlen_app, hf_state_app by done. apply update_blocks; [lia|done|done].
Qed.
Next Obligation.
  intros c m Hm Hr. pose proof (pcl_final_aligned c m Hm Hr) as E. simpl.
  destruct (Pcl.pcl_SHA256_Final c) as [d c']. simpl in E. subst. by eexists.
Qed.
Next Obligation. intros c m Hm (E & _). simpl. by rewrite E. Qed.
