(* ===== verification/Creator.v ===== *)
(** * Enclave creators

    [EnclaveCreator] is the abstract class of
    common/inc/internal/enclave_creator.h, the interface between the loader
    and what builds the enclave.  [SignST] translates the signing tool's
    implementation EnclaveCreatorST
    (sdk/sign_tool/SignTool/enclave_creator_sign.cpp), which hashes the
    measurement log instead of calling the driver.  [TraceCreator] is its
    abstract specification: it records the log.  [st_refines] relates the
    two, operation by operation. *)
From S2P Require Import Prelude Bytes Sha256 Arch Measure.

#[local] Open Scope Z_scope.

(** ** The interface

    A pointer argument is the list of bytes from the address on, [None] for a
    null pointer.  The launch token and the production CSS file are passed
    through as bytes. *)
Class EnclaveCreator (C : Type) := {
  create_enclave : secs_t -> bool -> M C sgx_status_t (Z * Z);
  add_enclave_page : Z -> option (list Z) -> Z -> sec_info_t -> Z -> M C sgx_status_t unit;
  init_enclave : Z -> list Z -> option (list Z) -> option (list Z) -> M C sgx_status_t unit;
  destroy_enclave : Z -> Z -> M C sgx_status_t unit;
  initialize : Z -> M C sgx_status_t unit;
  use_se_hw : C -> bool;
  is_EDMM_supported : Z -> C -> bool;
  is_driver_compatible : C -> bool;
  is_in_kernel_driver : C -> bool;
  get_misc_attr : list Z -> option (list Z) -> Z -> M C sgx_status_t sgx_misc_attribute_t;
  get_plat_cap : C -> bool;
  emodpr : Z -> Z -> Z -> M C sgx_status_t unit;
  mktcs : Z -> M C sgx_status_t unit;
  trim_range : Z -> Z -> M C sgx_status_t unit;
  trim_accept : Z -> M C sgx_status_t unit;
  remove_range : Z -> Z -> M C sgx_status_t unit }.

(** sgx_mage_entry_t (common/inc/sgx_mage.h) *)
Record sgx_mage_entry_t := MkMage { me_size : Z; me_offset : Z; me_digest : list Z }.
Definition sizeof_mage_entry : Z := 48.
Definition mage_zero : sgx_mage_entry_t := MkMage 0 0 (zreplicate 32 0).
Definition mage_entry_bytes (e : sgx_mage_entry_t) : list Z :=
  le_bytes 8 (me_size e) ++ le_bytes 8 (me_offset e) ++ me_digest e.

Definition EID : Z := 0x44444444.

(** ** The signing tool's creator *)
Module SignST.
Section SignST.
Context {C : Type} {EV : Evp C}.

Record ST := MkST {
  m_hash_valid_flag : bool; m_enclave_hash : list Z; m_ctx : option C; m_eid : Z;
  m_quota : Z; m_mage : sgx_mage_entry_t }.

Definition EnclaveCreatorST : ST := MkST false (zreplicate SGX_HASH_SIZE 0) None EID 0 mage_zero.

Definition set_ctx (c : option C) (s : ST) : ST :=
  MkST (m_hash_valid_flag s) (m_enclave_hash s) c (m_eid s) (m_quota s) (m_mage s).
Definition set_hash (v : bool) (h : list Z) (s : ST) : ST :=
  MkST v h (m_ctx s) (m_eid s) (m_quota s) (m_mage s).
Definition set_quota (q : Z) (s : ST) : ST :=
  MkST (m_hash_valid_flag s) (m_enclave_hash s) (m_ctx s) (m_eid s) q (m_mage s).
Definition set_mage (m : sgx_mage_entry_t) (s : ST) : ST :=
  MkST (m_hash_valid_flag s) (m_enclave_hash s) (m_ctx s) (m_eid s) (m_quota s) m.

(** EVP_DigestUpdate of one data block, then m_mage.size += DATA_BLOCK_SIZE *)
Definition digest_block (data_block : list Z) : M ST sgx_status_t unit :=
  s ← mget;
  c ← mlift (deref (m_ctx s));
  match evp_update c data_block with
  | None => merr SGX_ERROR_UNEXPECTED
  | Some c' =>
      mput (set_mage (MkMage (u64 (me_size (m_mage s) + DATA_BLOCK_SIZE)) (me_offset (m_mage s))
                             (me_digest (m_mage s)))
             (set_ctx (Some c') s))
  end.

Definition create_enclave (secs : secs_t) (ae : bool) : M ST sgx_status_t (Z * Z) :=
  mmod (fun s => set_hash (m_hash_valid_flag s) (zreplicate SGX_HASH_SIZE 0) s) ;;
  match evp_create with
  | None => mmod (set_ctx None) ;; merr SGX_ERROR_UNEXPECTED
  | Some c =>
      mmod (set_ctx (Some c)) ;;
      match evp_init c with
      | None => merr SGX_ERROR_UNEXPECTED
      | Some c =>
          mmod (set_ctx (Some c)) ;;
          let data_block := zreplicate DATA_BLOCK_SIZE 0 in
          let data_block := splice 0 ecreat_val data_block in
          let offset := SIZE_NAMED_VALUE in
          let data_block := splice offset (le_bytes 4 (secs_ssa_frame_size secs)) data_block in
          let offset := offset + 4 in
          let data_block := splice offset (le_bytes 8 (secs_size secs)) data_block in
          digest_block data_block ;;
          s ← mget;
          mret (m_eid s, secs_base secs)
      end
  end.

(** The inner loop (EEXTEND_TIME data blocks from [pdata]). *)
Fixpoint eextend_data (n : nat) (pdata : list Z) (page_offset : Z)
  : M ST sgx_status_t (list Z * Z) :=
  match n with
  | O => mret (pdata, page_offset)
  | S n' =>
      mlift (assertc (DATA_BLOCK_SIZE <=? zlen pdata)) ;;
      digest_block (ztake DATA_BLOCK_SIZE pdata) ;;
      eextend_data n' (zdrop DATA_BLOCK_SIZE pdata) (u64 (page_offset + DATA_BLOCK_SIZE))
  end.

(** for (i = 0; i < SE_PAGE_SIZE; i += DATA_BLOCK_SIZE * EEXTEND_TIME) *)
Fixpoint eextend_loop (n : nat) (pdata : list Z) (page_offset : Z) : M ST sgx_status_t unit :=
  match n with
  | O => mret tt
  | S n' =>
      let data_block := zreplicate DATA_BLOCK_SIZE 0 in
      let data_block := splice 0 eextend_val data_block in
      let data_block := splice SIZE_NAMED_VALUE (le_bytes 8 page_offset) data_block in
      digest_block data_block ;;
      r ← eextend_data (Z.to_nat EEXTEND_TIME) pdata page_offset;
      eextend_loop n' (fst r) (snd r)
  end.

Definition add_enclave_page (enclave_id : Z) (src : option (list Z)) (offset : Z)
    (sinfo : sec_info_t) (attr : Z) : M ST sgx_status_t unit :=
  s ← mget;
  _ ← mlift (deref (m_ctx s));
  let source := default (zreplicate SE_PAGE_SIZE 0) src in
  if existsb (fun r => negb (r =? 0)) (si_reserved sinfo) then merr SGX_ERROR_UNEXPECTED
  else if hasflag (si_flags_ sinfo) (u64 (Z.lnot SI_FLAGS_EXTERNAL)) then merr SGX_ERROR_UNEXPECTED
  else if negb (hasflag attr PAGE_ATTR_EADD) then mret tt
  else
    let page_offset := offset in
    let data_block := zreplicate DATA_BLOCK_SIZE 0 in
    let data_block := splice 0 eadd_val data_block in
    let db_offset := SIZE_NAMED_VALUE in
    let data_block := splice db_offset (le_bytes 8 page_offset) data_block in
    let db_offset := db_offset + 8 in
    let data_block :=
      splice db_offset (ztake (DATA_BLOCK_SIZE - db_offset) (sec_info_bytes sinfo)) data_block in
    digest_block data_block ;;
    (if Z.land attr ADD_EXTEND_PAGE =? ADD_EXTEND_PAGE then
       eextend_loop (Z.to_nat (SE_PAGE_SIZE / (DATA_BLOCK_SIZE * EEXTEND_TIME))) source page_offset
     else mret tt) ;;
    mmod (fun s => set_quota (u64 (m_quota s + SE_PAGE_SIZE)) s).

Definition init_enclave (enclave_id : Z) (enclave_css : list Z) (lc prd_css_file : option (list Z))
  : M ST sgx_status_t unit :=
  s ← mget;
  c ← mlift (deref (m_ctx s));
  mmod (fun s => set_mage (MkMage (me_size (m_mage s)) (me_offset (m_mage s)) (evp_md_data c)) s) ;;
  match evp_final c with
  | None => merr SGX_ERROR_UNEXPECTED
  | Some (c', temp_hash) => mmod (fun s => set_hash true temp_hash (set_ctx (Some c') s))
  end.

Definition get_misc_attr (metadata : list Z) (lc : option (list Z)) (flag : Z)
  : M ST sgx_status_t sgx_misc_attribute_t := mret (MkMisc (MkAttr 0 0) 0).

Definition destroy_enclave (enclave_id enclave_size : Z) : M ST sgx_status_t unit :=
  mmod (set_ctx None).

(** get_enclave_info: hash, quota and the MAGE entry.  [size] is the size of
    the hash buffer, [mage_t] whether an entry buffer is given. *)
Definition get_enclave_info (size : Z) (want_mage : bool)
  : M ST sgx_status_t (list Z * Z * option sgx_mage_entry_t) :=
  s ← mget;
  if negb (size =? SGX_HASH_SIZE) || negb (m_hash_valid_flag s) then merr SGX_ERROR_UNEXPECTED
  else mret (m_enclave_hash s, m_quota s, if want_mage then Some (m_mage s) else None).

#[global] Instance SignCreator : EnclaveCreator ST := {|
  Creator.create_enclave := create_enclave;
  Creator.add_enclave_page := add_enclave_page;
  Creator.init_enclave := init_enclave;
  Creator.destroy_enclave := destroy_enclave;
  initialize _ := mret tt;
  use_se_hw _ := false;
  is_EDMM_supported _ _ := false;
  is_driver_compatible _ := true;
  is_in_kernel_driver _ := false;
  Creator.get_misc_attr := get_misc_attr;
  get_plat_cap _ := false;
  emodpr _ _ _ := mret tt;
  mktcs _ := mret tt;
  trim_range _ _ := mret tt;
  trim_accept _ := mret tt;
  remove_range _ _ := mret tt |}.
End SignST.
Arguments ST : clear implicits.
End SignST.

(** ** The abstract creator: the log of the enclave under construction *)

(** The EEXTEND events of [n] chunks of [page] from [offset] on. *)
Fixpoint eextend_events (n : nat) (offset : Z) (page : list Z) : list mevent :=
  match n with
  | O => []
  | S n' => EEXTEND offset (ztake 256 page) :: eextend_events n' (u64 (offset + 256)) (zdrop 256 page)
  end.

(** What adding a page with the given attributes contributes to the log. *)
Definition page_events (page : list Z) (offset : Z) (sinfo : sec_info_t) (attr : Z) : list mevent :=
  if hasflag attr PAGE_ATTR_EADD then
    EADD offset (ztake 48 (sec_info_bytes sinfo)) ::
    (if Z.land attr ADD_EXTEND_PAGE =? ADD_EXTEND_PAGE then eextend_events 16 offset page else [])
  else [].

(** sinfo as the creators require it: reserved words zero, no internal flags *)
Definition sinfo_valid (sinfo : sec_info_t) : bool :=
  negb (existsb (fun r => negb (r =? 0)) (si_reserved sinfo)) &&
  negb (hasflag (si_flags_ sinfo) (u64 (Z.lnot SI_FLAGS_EXTERNAL))).

Module TraceCreator.
Section TraceCreator.
Context {HF : HashFn}.

(** No context; a log being extended; a measured enclave. *)
Inductive ctx := NoCtx | Open (t : list mevent) | Done (t : list mevent).

(** [ts_base] is the byte counter when the log was opened. *)
Record TS := MkTS {
  ts_ctx : ctx; ts_base : Z; ts_valid : bool; ts_hash : list Z; ts_quota : Z;
  ts_mage : sgx_mage_entry_t }.

Definition initial : TS := MkTS NoCtx 0 false (zreplicate SGX_HASH_SIZE 0) 0 mage_zero.

(** Append events to the log and count their bytes. *)
Definition log (t evs : list mevent) (q : Z) (s : TS) : TS :=
  MkTS (Open (t ++ evs)) (ts_base s) (ts_valid s) (ts_hash s) (u64 (ts_quota s + q))
       (MkMage (u64 (me_size (ts_mage s) + zlen (trace_bytes evs))) (me_offset (ts_mage s))
               (me_digest (ts_mage s))).

Definition create_enclave (secs : secs_t) (ae : bool) : M TS sgx_status_t (Z * Z) :=
  mmod (fun s =>
    log [] [ECREATE (secs_ssa_frame_size secs) (secs_size secs)] 0
      (MkTS (ts_ctx s) (me_size (ts_mage s)) (ts_valid s) (zreplicate SGX_HASH_SIZE 0) (ts_quota s)
         (ts_mage s))) ;;
  mret (EID, secs_base secs).

Definition add_enclave_page (enclave_id : Z) (src : option (list Z)) (offset : Z)
    (sinfo : sec_info_t) (attr : Z) : M TS sgx_status_t unit := fun s =>
  let page := default (zreplicate SE_PAGE_SIZE 0) src in
  match ts_ctx s with
  | Open t =>
      if negb (sinfo_valid sinfo) then (s, Err SGX_ERROR_UNEXPECTED)
      else if negb (hasflag attr PAGE_ATTR_EADD) then (s, Ok tt)
      else if (Z.land attr ADD_EXTEND_PAGE =? ADD_EXTEND_PAGE) && (zlen page <? SE_PAGE_SIZE) then (s, Stuck)
      else if negb (length (si_reserved sinfo) =? 7)%nat then (s, Stuck)
      else (log t (page_events page offset sinfo attr) SE_PAGE_SIZE s, Ok tt)
  | _ => (s, Stuck)
  end.

Definition init_enclave (enclave_id : Z) (enclave_css : list Z) (lc prd_css_file : option (list Z))
  : M TS sgx_status_t unit := fun s =>
  match ts_ctx s with
  | Open t =>
      (MkTS (Done t) (ts_base s) true (mrenclave t) (ts_quota s)
         (MkMage (me_size (ts_mage s)) (me_offset (ts_mage s)) (words8_le (hf_state (trace_bytes t)))), Ok tt)
  | _ => (s, Stuck)
  end.

Definition get_enclave_info (size : Z) (want_mage : bool)
  : M TS sgx_status_t (list Z * Z * option sgx_mage_entry_t) := fun s =>
  if negb (size =? SGX_HASH_SIZE) || negb (ts_valid s) then (s, Err SGX_ERROR_UNEXPECTED)
  else (s, Ok (ts_hash s, ts_quota s, if want_mage then Some (ts_mage s) else None)).

#[global] Instance TraceEnclaveCreator : EnclaveCreator TS := {|
  Creator.create_enclave := create_enclave;
  Creator.add_enclave_page := add_enclave_page;
  Creator.init_enclave := init_enclave;
  Creator.destroy_enclave _ _ :=
    mmod (fun s => MkTS NoCtx (ts_base s) (ts_valid s) (ts_hash s) (ts_quota s) (ts_mage s));
  initialize _ := mret tt;
  use_se_hw _ := false;
  is_EDMM_supported _ _ := false;
  is_driver_compatible _ := true;
  is_in_kernel_driver _ := false;
  Creator.get_misc_attr _ _ _ := mret (MkMisc (MkAttr 0 0) 0);
  get_plat_cap _ := false;
  emodpr _ _ _ := mret tt;
  mktcs _ := mret tt;
  trim_range _ _ := mret tt;
  trim_accept _ := mret tt;
  remove_range _ _ := mret tt |}.
End TraceCreator.
End TraceCreator.

(** ** Refinement between creators: every operation is simulated.

    [PageRefines] is what holds while one enclave is built. *)
Class PageRefines {C1 C2 : Type} (R : C1 -> C2 -> Prop) {I1 : EnclaveCreator C1} {I2 : EnclaveCreator C2} := {
  cr_add id src off si attr :
    sim R (add_enclave_page (C:=C1) id src off si attr) (add_enclave_page (C:=C2) id src off si attr);
  cr_init id css lc prd : sim R (init_enclave (C:=C1) id css lc prd) (init_enclave (C:=C2) id css lc prd);
  cr_destroy id sz : sim R (destroy_enclave (C:=C1) id sz) (destroy_enclave (C:=C2) id sz);
  cr_misc md lc fl : sim R (get_misc_attr (C:=C1) md lc fl) (get_misc_attr (C:=C2) md lc fl);
  cr_emodpr a s f : sim R (emodpr (C:=C1) a s f) (emodpr (C:=C2) a s f);
  cr_trim_range a b : sim R (trim_range (C:=C1) a b) (trim_range (C:=C2) a b);
  cr_trim_accept a : sim R (trim_accept (C:=C1) a) (trim_accept (C:=C2) a);
  cr_hw c1 c2 : R c1 c2 -> use_se_hw c1 = use_se_hw c2;
  cr_edmm id c1 c2 : R c1 c2 -> is_EDMM_supported id c1 = is_EDMM_supported id c2 }.

Class CreatorRefines {C1 C2 : Type} (R : C1 -> C2 -> Prop) {I1 : EnclaveCreator C1} {I2 : EnclaveCreator C2} := {
  cr_pages :: PageRefines R;
  cr_create secs ae : sim R (create_enclave (C:=C1) secs ae) (create_enclave (C:=C2) secs ae) }.

(** ** The signing creator implements the log *)
Section Refinement.
Context {HF : HashFn} {C : Type} {EV : Evp C} {EL : EvpLaws C}.
Import SignST.

(** The SHA context has hashed [m]. *)
Definition st_bytes (s : ST C) (m : list Z) : Prop :=
  is_u64 (me_size (m_mage s)) /\ exists c, m_ctx s = Some c /\ evp_repr c m.

(** [s'] is [s] but for the context and [k] more measured bytes. *)
Definition st_frame (s s' : ST C) (k : Z) : Prop :=
  m_hash_valid_flag s' = m_hash_valid_flag s /\ m_enclave_hash s' = m_enclave_hash s /\
  m_eid s' = m_eid s /\ m_quota s' = m_quota s /\
  m_mage s' = MkMage (u64 (me_size (m_mage s) + k)) (me_offset (m_mage s)) (me_digest (m_mage s)).

Lemma u64_add_u64 a b c : u64 (u64 (a + b) + c) = u64 (a + (b + c)).
Proof. unfold u64. rewrite Z.add_mod_idemp_l by lia. f_equal. lia. Qed.

Lemma st_frame_trans s1 s2 s3 a b : st_frame s1 s2 a -> st_frame s2 s3 b -> st_frame s1 s3 (a + b).
Proof.
  intros (H1 & H2 & H3 & H4 & H5) (G1 & G2 & G3 & G4 & G5). unfold st_frame.
  rewrite G1, G2, G3, G4, G5, H5. simpl. by rewrite u64_add_u64.
Qed.

(** [hashes m d a]: [m] succeeds with [a] and hashes exactly [d]. *)
Definition hashes {A} (m : M (ST C) sgx_status_t A) (d : list Z) (a : A) : Prop :=
  forall s x, st_bytes s x -> zlen x mod 64 = 0 ->
    exists s', m s = (s', Ok a) /\ st_bytes s' (x ++ d) /\ st_frame s s' (zlen d).

Lemma hashes_block b : zlen b = 64 -> hashes (digest_block b) b tt.
Proof.
  intros Hb s x (Hu & c & Hc & Hr) Hx. unfold digest_block, mbind, M_bind, mget, mlift, deref. rewrite Hc.
  destruct (evp_update_law c x b Hx ltac:(rewrite Hb; done) Hr) as (c' & -> & Hr').
  eexists; split; [done|]. split; [split; [apply u64_range|by eexists]|].
  split_and!; try done. by rewrite Hb.
Qed.

Lemma hashes_bind {A B} (m : M (ST C) sgx_status_t A) (f : A -> M (ST C) sgx_status_t B) d1 d2 a b :
  zlen d1 mod 64 = 0 -> hashes m d1 a -> hashes (f a) d2 b -> hashes (m ≫= f) (d1 ++ d2) b.
Proof.
  intros Hd Hm Hf s x Hs Hx. destruct (Hm s x Hs Hx) as (s1 & E1 & Hs1 & F1).
  destruct (Hf s1 (x ++ d1) Hs1) as (s2 & E2 & Hs2 & F2).
  { rewrite zlen_app, Z.add_mod, Hx, Hd by lia. done. }
  exists s2. unfold mbind, M_bind. rewrite E1. split; [done|]. rewrite app_assoc, zlen_app.
  eauto using st_frame_trans.
Qed.

Lemma hashes_ret {A} (a : A) : hashes (mret a) [] a.
Proof.
  intros s x Hs Hx. exists s. rewrite app_nil_r. split; [done|]. split; [done|]. split_and!; try done.
  destruct Hs as (Hu & _). destruct (m_mage s). cbn [me_size me_offset me_digest] in *.
  change (zlen (@nil Z)) with 0. by rewrite Z.add_0_r, u64_id.
Qed.

Fixpoint u64_iter (n : nat) (off : Z) : Z :=
  match n with O => off | S n' => u64_iter n' (u64 (off + 64)) end.

Lemma hashes_data n pdata off :
  64 * Z.of_nat n <= zlen pdata ->
  hashes (eextend_data n pdata off) (ztake (64 * Z.of_nat n) pdata)
    (zdrop (64 * Z.of_nat n) pdata, u64_iter n off).
Proof.
  revert pdata off. induction n as [|n IH]; intros pdata off Hl.
  { rewrite ztake_le0, zdrop_le0 by lia. apply hashes_ret. }
  cbn [eextend_data]. unfold DATA_BLOCK_SIZE, assertc.
  replace (64 <=? zlen pdata) with true by lia.
  replace (ztake (64 * Z.of_nat (S n)) pdata)
    with (ztake 64 pdata ++ ztake (64 * Z.of_nat n) (zdrop 64 pdata)).
  2:{ rewrite <- (ztake_zdrop 64 pdata) at 3. rewrite ztake_app_ge by (rewrite zlen_ztake; lia).
      rewrite zlen_ztake. do 2 f_equal. lia. }
  replace (zdrop (64 * Z.of_nat (S n)) pdata) with (zdrop (64 * Z.of_nat n) (zdrop 64 pdata)).
  2:{ rewrite zdrop_zdrop by lia. f_equal. lia. }
  change (mlift (Ok tt) ≫= ?f) with (f tt). cbv beta.
  eapply hashes_bind; [| |apply IH]; rewrite ?zlen_ztake, ?zlen_zdrop.
  - rewrite Z.max_r, Z.min_l by lia. done.
  - apply hashes_block. rewrite zlen_ztake. lia.
  - lia.
Qed.

Lemma splice_block v off : zlen v = 8 ->
  splice SIZE_NAMED_VALUE (le_bytes 8 off) (splice 0 v (zreplicate DATA_BLOCK_SIZE 0))
  = v ++ le_bytes 8 off ++ zreplicate 48 0.
Proof.
  intros Hv. rewrite splice_0, Hv. unfold SIZE_NAMED_VALUE. rewrite <- Hv at 1.
  rewrite splice_app. do 2 f_equal.
Qed.

Lemma hashes_extend n pdata off :
  256 * Z.of_nat n <= zlen pdata ->
  hashes (eextend_loop n pdata off) (trace_bytes (eextend_events n off pdata)) tt.
Proof.
  revert pdata off. induction n as [|n IH]; intros pdata off Hl; [apply hashes_ret|].
  cbn [eextend_loop eextend_events]. rewrite splice_block by done.
  change (trace_bytes (?e :: ?t)) with (event_bytes e ++ trace_bytes t). cbn [event_bytes].
  replace ((eextend_val ++ _) ++ _)
    with ((eextend_val ++ le_bytes 8 off ++ zreplicate 48 0) ++ ztake 256 pdata ++
          trace_bytes (eextend_events n (u64 (off + 256)) (zdrop 256 pdata)))
    by (by rewrite <- !app_assoc).
  eapply hashes_bind; [|apply hashes_block|]; [done..|].
  eapply hashes_bind; [|apply (hashes_data 4)|].
  - rewrite zlen_ztake, Z.max_r, Z.min_l by lia. done.
  - lia.
  - cbn [fst snd u64_iter]. rewrite !u64_add_u64. apply IH. rewrite zlen_zdrop. lia.
Qed.

Lemma eextend_events_ok n off page :
  256 * Z.of_nat n <= zlen page -> forallb event_ok (eextend_events n off page) = true.
Proof.
  revert off page. induction n as [|n IH]; intros off page Hl; [done|].
  cbn [eextend_events forallb event_ok]. rewrite zlen_ztake, IH by (rewrite zlen_zdrop; lia).
  rewrite andb_true_r. lia.
Qed.

(** The states of the two creators correspond. *)
Definition st_refines (s : ST C) (t : TraceCreator.TS) : Prop :=
  m_hash_valid_flag s = TraceCreator.ts_valid t /\
  m_enclave_hash s = TraceCreator.ts_hash t /\
  m_eid s = EID /\
  m_quota s = TraceCreator.ts_quota t /\
  m_mage s = TraceCreator.ts_mage t /\
  is_u64 (m_quota s) /\ is_u64 (me_size (m_mage s)) /\
  match TraceCreator.ts_ctx t with
  | TraceCreator.NoCtx => m_ctx s = None
  | TraceCreator.Open tr => st_bytes s (trace_bytes tr) /\ forallb event_ok tr = true
  | TraceCreator.Done _ => True
  end.

Lemma st_refines_init : st_refines EnclaveCreatorST TraceCreator.initial.
Proof. repeat (split; try done). Qed.

Lemma sinfo_block off sinfo : length (si_reserved sinfo) = 7%nat ->
  splice (SIZE_NAMED_VALUE + 8)
    (ztake (DATA_BLOCK_SIZE - (SIZE_NAMED_VALUE + 8)) (sec_info_bytes sinfo))
    (splice SIZE_NAMED_VALUE (le_bytes 8 off) (splice 0 eadd_val (zreplicate DATA_BLOCK_SIZE 0)))
  = event_bytes (EADD off (ztake 48 (sec_info_bytes sinfo))) /\
  zlen (ztake 48 (sec_info_bytes sinfo)) = 48.
Proof.
  intros H7. rewrite splice_block by done. destruct sinfo as [f r]; simpl in H7.
  do 7 (destruct r as [|? r]; [discriminate|]). destruct r; [|discriminate]. done.
Qed.

Lemma hashes_eadd off sinfo : length (si_reserved sinfo) = 7%nat ->
  hashes (digest_block (event_bytes (EADD off (ztake 48 (sec_info_bytes sinfo)))))
    (event_bytes (EADD off (ztake 48 (sec_info_bytes sinfo)))) tt.
Proof.
  intros H7. apply hashes_block. cbn [event_bytes].
  rewrite !zlen_app, (proj2 (sinfo_block 0 sinfo H7)), length_le_bytes. done.
Qed.

Lemma page_events_ok page off sinfo attr :
  length (si_reserved sinfo) = 7%nat ->
  ((Z.land attr ADD_EXTEND_PAGE =? ADD_EXTEND_PAGE) && (zlen page <? SE_PAGE_SIZE)) = false ->
  forallb event_ok (page_events page off sinfo attr) = true.
Proof.
  intros H7 Hp. unfold page_events. destruct (hasflag attr PAGE_ATTR_EADD); [|done].
  destruct (_ =? _) eqn:E.
  - apply andb_true_intro. split; [by apply Z.eqb_eq, sinfo_block|].
    apply (eextend_events_ok 16). unfold SE_PAGE_SIZE in Hp. lia.
  - apply andb_true_intro. split; [by apply Z.eqb_eq, sinfo_block|done].
Qed.

Lemma hashes_page page off sinfo attr :
  length (si_reserved sinfo) = 7%nat -> hasflag attr PAGE_ATTR_EADD = true ->
  ((Z.land attr ADD_EXTEND_PAGE =? ADD_EXTEND_PAGE) && (zlen page <? SE_PAGE_SIZE)) = false ->
  hashes (digest_block (event_bytes (EADD off (ztake 48 (sec_info_bytes sinfo)))) ;;
          if Z.land attr ADD_EXTEND_PAGE =? ADD_EXTEND_PAGE then eextend_loop 16 page off else mret tt)
    (trace_bytes (page_events page off sinfo attr)) tt.
Proof.
  intros H7 Ha Hp. unfold page_events. rewrite Ha.
  change (trace_bytes (?e :: ?t)) with (event_bytes e ++ trace_bytes t).
  apply hashes_bind with tt; [|by apply hashes_eadd|].
  - by apply event_bytes_aligned, Z.eqb_eq, sinfo_block.
  - destruct (_ =? _); [|apply hashes_ret]. unfold SE_PAGE_SIZE in Hp. apply (hashes_extend 16). lia.
Qed.

(** Appending hashed events on both sides keeps the states related. *)
Lemma st_refines_log {A} (m : M (ST C) sgx_status_t A) (a : A) s t tr evs q :
  st_refines s t -> TraceCreator.ts_ctx t = TraceCreator.Open tr ->
  forallb event_ok evs = true -> hashes m (trace_bytes evs) a ->
  exists s', m s = (s', Ok a) /\ m_quota s' = m_quota s /\
    st_refines (set_quota (u64 (m_quota s' + q)) s') (TraceCreator.log tr evs q t).
Proof.
  intros (H1 & H2 & H3 & H4 & H5 & H6 & H7 & Hc) Et Hev Hh. rewrite Et in Hc. destruct Hc as [Hb Hok].
  destruct (Hh s (trace_bytes tr) Hb (trace_bytes_aligned _ Hok)) as (s' & E & Hb' & F1 & F2 & F3 & F4 & F5).
  exists s'. split; [done|]. split; [done|]. unfold st_refines, TraceCreator.log. simpl.
  rewrite F1, F2, F3, F4, F5, <- H5, <- H4.
  do 5 (split; [done|]). do 2 (split; [apply u64_range|]).
  rewrite trace_bytes_app, forallb_app, Hok, Hev. split; [|done].
  destruct Hb' as (Hu & c & Hm & Hr). split; [done|]. by exists c.
Qed.

Lemma sim_create secs ae :
  sim st_refines (SignST.create_enclave secs ae) (TraceCreator.create_enclave secs ae).
Proof.
  intros s t Hs. destruct evp_create_law as [c0 Ec0]. destruct (evp_init_law c0) as (c & Ec & Hr).
  pose (s0 := set_ctx (Some c) (set_hash (m_hash_valid_flag s) (zreplicate SGX_HASH_SIZE 0) s)).
  pose (t0 := TraceCreator.MkTS (TraceCreator.Open []) (me_size (TraceCreator.ts_mage t))
                (TraceCreator.ts_valid t)
                (zreplicate SGX_HASH_SIZE 0) (TraceCreator.ts_quota t) (TraceCreator.ts_mage t)).
  destruct Hs as (H1 & H2 & H3 & H4 & H5 & H6 & H7 & Hc).
  assert (st_refines s0 t0) as H0.
  { do 7 (split; [done|]). split; [|done]. split; [done|]. by exists c. }
  set (e := ECREATE (secs_ssa_frame_size secs) (secs_size secs)).
  destruct (st_refines_log (digest_block (event_bytes e)) tt s0 t0 [] [e] 0 H0)
    as (s' & E & Eq & HR); [done..| |].
  { change (trace_bytes [e]) with (event_bytes e ++ []). rewrite app_nil_r. by apply hashes_block. }
  pose proof HR as (_ & _ & He & _ & _ & Hq & _ & _). simpl in He, Hq.
  cbn -[SignST.create_enclave]. exists s'. split.
  - unfold SignST.create_enclave, mmod, mbind, M_bind. rewrite Ec0. cbv beta iota. rewrite Ec.
    cbv beta iota. change (set_ctx (Some c) _) with s0.
    change (splice (SIZE_NAMED_VALUE + 4) _ _) with (event_bytes e).
    rewrite E. unfold mget, mret, M_ret. cbv beta iota. by rewrite He.
  - rewrite Eq, Z.add_0_r in HR. change (m_quota s0) with (m_quota s) in *.
    rewrite u64_id, <- Eq in HR by done. by destruct s'.
Qed.

Lemma sim_add id src off sinfo attr :
  sim st_refines (SignST.add_enclave_page id src off sinfo attr)
    (TraceCreator.add_enclave_page id src off sinfo attr).
Proof.
  intros s t Hs. unfold TraceCreator.add_enclave_page. set (page := default _ src).
  destruct (TraceCreator.ts_ctx t) as [|tr|] eqn:Et; [done| |done].
  assert (exists c, m_ctx s = Some c) as [c Ec].
  { destruct Hs as (_ & _ & _ & _ & _ & _ & _ & Hc). rewrite Et in Hc.
    destruct Hc as [(_ & c & Hc & _) _]. eauto. }
  unfold SignST.add_enclave_page, sinfo_valid. fold page.
  unfold mget, mlift, deref, merr, mret, M_ret, mbind, M_bind. rewrite Ec. cbv beta iota zeta.
  destruct (existsb _ _); cbn [negb andb]; [by exists s|].
  destruct (hasflag (si_flags_ sinfo) _); cbn [negb andb]; [by exists s|].
  destruct (hasflag attr PAGE_ATTR_EADD) eqn:Ha; cbn [negb]; [|by exists s].
  destruct (_ && _) eqn:Hp; [done|]. destruct (_ =? 7)%nat eqn:E7; cbn [negb]; [|done].
  apply Nat.eqb_eq in E7. rewrite (proj1 (sinfo_block off sinfo E7)).
  destruct (st_refines_log _ tt s t tr (page_events page off sinfo attr) SE_PAGE_SIZE Hs Et
              (page_events_ok _ _ _ _ E7 Hp) (hashes_page _ _ _ _ E7 Ha Hp)) as (s' & E & _ & HR).
  eexists; split; [|exact HR]. revert E. unfold mret, M_ret, mbind, M_bind.
  destruct (digest_block _ s) as [s1 [[]|?|]]; [|discriminate..].
  intros E. change (Z.to_nat (SE_PAGE_SIZE / _)) with 16%nat. by rewrite E.
Qed.

Lemma sim_init id css lc prd :
  sim st_refines (SignST.init_enclave id css lc prd) (TraceCreator.init_enclave id css lc prd).
Proof.
  intros s t Hs. unfold TraceCreator.init_enclave.
  destruct (TraceCreator.ts_ctx t) as [|tr|] eqn:Et; [done| |done].
  destruct Hs as (H1 & H2 & H3 & H4 & H5 & H6 & H7 & Hc). rewrite Et in Hc.
  destruct Hc as [(Hu & c & Ec & Hr) Hok]. pose proof (trace_bytes_aligned _ Hok) as Hal.
  destruct (evp_final_law c _ Hal Hr) as [c' Ef].
  unfold SignST.init_enclave, mget, mlift, deref, mmod, mbind, M_bind. rewrite Ec. cbv beta iota.
  rewrite Ef, (evp_md_data_law c _ Hal Hr). eexists; split; [done|].
  unfold st_refines. cbn. rewrite H5 in *. by do 7 (split; [done|]).
Qed.

Lemma sim_destroy id sz :
  sim st_refines (SignST.destroy_enclave id sz) (Creator.destroy_enclave (C:=TraceCreator.TS) id sz).
Proof.
  intros s t (H1 & H2 & H3 & H4 & H5 & H6 & H7 & Hc). eexists; split; [done|].
  by do 7 (split; [done|]).
Qed.

#[export] Instance sign_refines_trace : CreatorRefines st_refines.
Proof.
  constructor; [constructor|exact sim_create];
    [exact sim_add|exact sim_init|exact sim_destroy|..]; intros; first [apply sim_ret|done].
Qed.

Lemma sim_get_info size want :
  sim st_refines (SignST.get_enclave_info size want) (TraceCreator.get_enclave_info size want).
Proof.
  intros s t Hs. pose proof Hs as (H1 & H2 & H3 & H4 & H5 & _).
  unfold SignST.get_enclave_info, TraceCreator.get_enclave_info, mget, mbind, M_bind.
  rewrite <- H1, <- H2, <- H4, <- H5. destruct (_ || _); by exists s.
Qed.
End Refinement.

(** ** Well-formed logs

    The byte counter counts the log since it was opened, and a measured
    enclave has the hash and the intermediate state of its log. *)
Section TraceInvariant.
Context {HF : HashFn}.
Import TraceCreator.

Definition ts_wf (s : TS) : Prop :=
  is_u64 (me_size (ts_mage s)) /\
  match ts_ctx s with
  | NoCtx => True
  | Open t => forallb event_ok t = true /\
              me_size (ts_mage s) = u64 (ts_base s + zlen (trace_bytes t))
  | Done t => forallb event_ok t = true /\
              me_size (ts_mage s) = u64 (ts_base s + zlen (trace_bytes t)) /\
              ts_valid s = true /\ ts_hash s = mrenclave t /\
              me_digest (ts_mage s) = words8_le (hf_state (trace_bytes t))
  end.

Lemma ts_wf_initial : ts_wf initial.
Proof. by split. Qed.

Lemma ts_wf_log s t evs q :
  ts_wf s -> ts_ctx s = Open t -> forallb event_ok evs = true -> ts_wf (log t evs q s).
Proof.
  intros [Hu Hc] E Hev. rewrite E in Hc. destruct Hc as [Hok Hsz]. unfold ts_wf, log. cbn.
  split; [apply u64_range|]. rewrite forallb_app, Hok, Hev. split; [done|].
  by rewrite Hsz, u64_add_u64, <- zlen_app, <- trace_bytes_app.
Qed.

(** Identity on well-formed states. *)
Definition wf_eq (s t : TS) : Prop := s = t /\ ts_wf s.

(** While an enclave is built the start of its count stays the same. *)
Definition wf_from (b : Z) (s t : TS) : Prop := wf_eq s t /\ ts_base s = b.

#[export] Instance trace_pages_wf b : PageRefines (wf_from b).
Proof.
  constructor; try (intros; by destruct H as [[-> _] _]); try (intros; apply sim_ret).
  - intros id src off si attr s t [[-> Hwf] Hb]. cbn. unfold add_enclave_page.
    destruct (ts_ctx t) as [|tr|] eqn:Et; [done| |done].
    destruct (sinfo_valid si); cbn [negb]; [|by eexists].
    destruct (hasflag attr PAGE_ATTR_EADD) eqn:Ha; cbn [negb]; [|by eexists].
    destruct (_ && _) eqn:Hp; [done|]. destruct (_ =? 7)%nat eqn:E7; cbn [negb]; [|done].
    eexists; split; [done|]. split; [|done]. split; [done|]. apply ts_wf_log; auto.
    apply Nat.eqb_eq in E7. by apply page_events_ok.
  - intros id css lc prd s t [[-> Hwf] Hb]. cbn. unfold init_enclave.
    destruct (ts_ctx t) as [|tr|] eqn:Et; [done| |done].
    destruct Hwf as [Hu Hc]. rewrite Et in Hc. destruct Hc as [Hok Hsz].
    eexists; split; [done|]. split; [|done]. split; [done|]. by split_and!.
  - intros id sz s t [[-> Hwf] Hb]. eexists; split; [done|]. split; [|done]. split; [done|]. by destruct Hwf.
Qed.

(** Opening a log makes any state with a sane counter well-formed. *)
Lemma open_wf ssa size s b :
  ts_base s = b -> me_size (ts_mage s) = b ->
  wf_from b (log [] [ECREATE ssa size] 0 s) (log [] [ECREATE ssa size] 0 s).
Proof.
  intros <- E. split; [|done]. split; [done|]. split; [apply u64_range|]. split; [done|].
  cbn [log ts_mage me_size ts_base app]. by rewrite E.
Qed.

(** The log does not depend on what the creator did before. *)
Definition ctx_eq (s t : TS) : Prop := ts_ctx s = ts_ctx t.

#[export] Instance trace_ctx_only : CreatorRefines ctx_eq.
Proof.
  constructor; [constructor|]; try (intros; apply sim_ret); try done.
  - intros id src off si attr s t E. cbn. unfold add_enclave_page. unfold ctx_eq in E. rewrite E.
    destruct (ts_ctx t) as [|tr|] eqn:Et; [done| |done].
    destruct (sinfo_valid si); cbn [negb]; [|eexists; split; [done|]; by unfold ctx_eq; rewrite Et].
    destruct (hasflag attr PAGE_ATTR_EADD) eqn:Ha; cbn [negb];
      [|eexists; split; [done|]; by unfold ctx_eq; rewrite Et].
    destruct (_ && _) eqn:Hp; [done|]. destruct (_ =? 7)%nat eqn:E7; cbn [negb]; [|done]. by eexists.
  - intros id css lc prd s t E. cbn. unfold init_enclave. unfold ctx_eq in E. rewrite E.
    destruct (ts_ctx t) as [|tr|] eqn:Et; [done| |done]. by eexists.
  - intros id sz s t E. by eexists.
  - intros secs ae s t E. by eexists.
Qed.
End TraceInvariant.

(** ** A whole measurement

    The calls of the loader: create the enclave, add pages, initialize it,
    and the query of the signing tool. *)
Record page_args := MkPage { pg_src : option (list Z); pg_offset : Z; pg_sinfo : sec_info_t; pg_attr : Z }.

Definition pg_bytes (p : page_args) : list Z := default (zreplicate SE_PAGE_SIZE 0) (pg_src p).
Definition pg_events (p : page_args) : list mevent := page_events (pg_bytes p) (pg_offset p) (pg_sinfo p) (pg_attr p).
Definition pg_quota (p : page_args) : Z := if hasflag (pg_attr p) PAGE_ATTR_EADD then SE_PAGE_SIZE else 0.

(** A whole page of memory and a valid SECINFO *)
Definition pg_valid (p : page_args) : Prop :=
  sinfo_valid (pg_sinfo p) = true /\ length (si_reserved (pg_sinfo p)) = 7%nat /\ SE_PAGE_SIZE <= zlen (pg_bytes p).

Fixpoint add_pages {C} {I : EnclaveCreator C} (id : Z) (ps : list page_args) : M C sgx_status_t unit :=
  match ps with
  | [] => mret tt
  | p :: ps' => add_enclave_page id (pg_src p) (pg_offset p) (pg_sinfo p) (pg_attr p) ;; add_pages id ps'
  end.

Definition measured_trace (secs : secs_t) (ps : list page_args) : list mevent :=
  ECREATE (secs_ssa_frame_size secs) (secs_size secs) :: concat (map pg_events ps).

Section Measurement.
Context {HF : HashFn} {C : Type} {EV : Evp C} {EL : EvpLaws C}.

Lemma sim_add_pages {C1 C2} (R : C1 -> C2 -> Prop) {I1 : EnclaveCreator C1} {I2 : EnclaveCreator C2} {P : PageRefines R} id ps :
  sim R (add_pages (C:=C1) id ps) (add_pages (C:=C2) id ps).
Proof. induction ps; cbn [add_pages]; [apply sim_ret|]. apply sim_bind; [apply cr_add|]. by intros _. Qed.

Lemma log_log tr e1 e2 q1 q2 t :
  TraceCreator.log (tr ++ e1) e2 q2 (TraceCreator.log tr e1 q1 t) = TraceCreator.log tr (e1 ++ e2) (q1 + q2) t.
Proof.
  unfold TraceCreator.log. cbn. by rewrite !u64_add_u64, app_assoc, trace_bytes_app, zlen_app.
Qed.

Lemma trace_add_page id p tr t :
  pg_valid p -> TraceCreator.ts_ctx t = TraceCreator.Open tr -> is_u64 (TraceCreator.ts_quota t) ->
  is_u64 (me_size (TraceCreator.ts_mage t)) ->
  TraceCreator.add_enclave_page id (pg_src p) (pg_offset p) (pg_sinfo p) (pg_attr p) t =
    (TraceCreator.log tr (pg_events p) (pg_quota p) t, Ok tt).
Proof.
  intros (Hs & H7 & Hp) Et Hq Hm. unfold TraceCreator.add_enclave_page, pg_events, pg_quota, page_events, pg_bytes in *.
  rewrite Et, Hs, H7. cbn [negb]. destruct (hasflag _ _) eqn:Ha; cbn [negb].
  - replace (zlen _ <? SE_PAGE_SIZE) with false by lia. by rewrite andb_false_r.
  - unfold TraceCreator.log. cbn. rewrite app_nil_r, !Z.add_0_r, !u64_id by done.
    destruct t as [? ? ? ? ? [? ? ?]]; cbn in *. by subst.
Qed.

Lemma trace_add_pages id ps tr t :
  Forall pg_valid ps -> TraceCreator.ts_ctx t = TraceCreator.Open tr -> is_u64 (TraceCreator.ts_quota t) ->
  is_u64 (me_size (TraceCreator.ts_mage t)) ->
  add_pages (C:=TraceCreator.TS) id ps t =
    (TraceCreator.log tr (concat (map pg_events ps)) (foldr Z.add 0 (map pg_quota ps)) t, Ok tt).
Proof.
  intros Hp. revert tr t. induction Hp as [|p ps Hp Hps IH]; intros tr t Et Hq Hm; cbn [add_pages map concat foldr].
  { unfold TraceCreator.log. rewrite app_nil_r, !Z.add_0_r, !u64_id by done.
    destruct t as [? ? ? ? ? [? ? ?]]; cbn in *. by subst. }
  rewrite (bind_Ok _ _ _ _ _ (trace_add_page id p tr t Hp Et Hq Hm)).
  rewrite (IH (tr ++ pg_events p)) by (done || apply u64_range). by rewrite log_log.
Qed.

(** C12. The signing creator measures what it is given.  For any enclave and
    any list of whole pages, creating the enclave, adding the pages and
    initializing it succeed, and get_enclave_info returns the hash of the
    ECREATE, EADD and EEXTEND records of these calls, the size of the added
    pages and the intermediate hash state.  Both counters continue from the
    creator's previous enclave. *)
Theorem sign_creator_measures (s : SignST.ST C) secs ae id ps css lc prd :
  SignST.m_eid s = EID -> is_u64 (SignST.m_quota s) -> is_u64 (me_size (SignST.m_mage s)) -> Forall pg_valid ps ->
  let tr := measured_trace secs ps in
  exists s',
    (SignST.create_enclave secs ae ≫= fun _ => add_pages id ps ;; SignST.init_enclave id css lc prd ;;
     SignST.get_enclave_info SGX_HASH_SIZE true) s =
    (s', Ok (mrenclave tr, u64 (SignST.m_quota s + foldr Z.add 0 (map pg_quota ps)),
             Some (MkMage (u64 (me_size (SignST.m_mage s) + zlen (trace_bytes tr))) (me_offset (SignST.m_mage s))
                     (words8_le (hf_state (trace_bytes tr)))))).
Proof.
  intros He Hq Hm Hps tr.
  set (t := TraceCreator.MkTS (TraceCreator.Done []) 0 (SignST.m_hash_valid_flag s) (SignST.m_enclave_hash s)
              (SignST.m_quota s) (SignST.m_mage s)).
  assert (st_refines s t) as Hst by (by split_and!).
  set (n := TraceCreator.create_enclave secs ae ≫= fun _ => add_pages id ps ;;
            TraceCreator.init_enclave id css lc prd ;; TraceCreator.get_enclave_info SGX_HASH_SIZE true).
  assert (sim st_refines (SignST.create_enclave secs ae ≫= fun _ => add_pages id ps ;;
            SignST.init_enclave id css lc prd ;; SignST.get_enclave_info SGX_HASH_SIZE true) n) as Hsim.
  { apply sim_bind; [apply sim_create|]. intros _. apply sim_bind; [apply (sim_add_pages st_refines)|]. intros _.
    apply sim_bind; [apply sim_init|]. intros _. apply sim_get_info. }
  assert (exists t', n t = (t', Ok (mrenclave tr, u64 (SignST.m_quota s + foldr Z.add 0 (map pg_quota ps)),
             Some (MkMage (u64 (me_size (SignST.m_mage s) + zlen (trace_bytes tr))) (me_offset (SignST.m_mage s))
                     (words8_le (hf_state (trace_bytes tr))))))) as (t' & En).
  { unfold n. erewrite bind_Ok by reflexivity.
    erewrite bind_Ok by (apply trace_add_pages; [done|reflexivity|apply u64_range..]).
    rewrite log_log. eexists. cbn -[mrenclave trace_bytes zlen]. reflexivity. }
  destruct (sim_Ok _ _ _ _ _ _ _ Hsim Hst En) as (s' & E' & _). by exists s'.
Qed.
End Measurement.

Lemma sign_creator_measures_witness :
  let HF := sha256_hash_fn in let EV := PclEvp in
  let p := MkPage None 0x1000 (mk_sinfo SI_FLAGS_RW) ADD_EXTEND_PAGE in
  exists s' e,
    (SignST.create_enclave secs_zero false ≫= fun _ => add_pages 0 [p] ;; SignST.init_enclave 0 [] None None ;;
     SignST.get_enclave_info SGX_HASH_SIZE true) SignST.EnclaveCreatorST =
    (s', Ok (mrenclave (measured_trace secs_zero [p]), u64 (0 + 4096), Some e)).
Proof.
  intros HF EV p.
  destruct (sign_creator_measures (EL:=PclEvpLaws) SignST.EnclaveCreatorST secs_zero false 0 [p] [] None None) as (s' & E).
  - reflexivity.
  - by split.
  - by split.
  - constructor; [|constructor]. by split_and!.
  - eexists s', _. exact E.
Defined.
