(* ===== verification/Mage.v ===== *)
(** * Derivation of peer measurements inside an enclave

    sdk/mage/sgx_mage.cpp and common/inc/sgx_mage.h.  Every enclave of a
    group carries the same .sgx_mage section: a count and one entry per peer
    with the SHA-256 state of the peer's measurement before its own .sgx_mage
    pages are added.  [sgx_mage_derive_measurement] resumes that hash over
    the section the enclave carries itself. *)
From S2P Require Import Prelude Bytes Sha256 Arch Measure Creator.

#[local] Open Scope Z_scope.

Definition SGX_MAGE_SEC_SIZE : Z := 4096.
(** sizeof(sgx_mage_t): the count, entries[] is a flexible array *)
Definition sizeof_mage_t : Z := 8.
Definition SHA256_DIGEST_SIZE : Z := 32.

(** The SECINFO of the section's pages as written in the code. *)
Definition mage_sinfo : list Z := [0x01; 0x02] ++ zreplicate 62 0.

Section Mage.
Context {H : Type} {T : Tcrypto H}.

(** [sec] is sgx_mage_sec_buf. *)
Definition sgx_mage_get_size (sec : list Z) : Z :=
  let mage_size := le_val (slice 0 8 sec) in
  if u64 (u64 (mage_size * sizeof_mage_entry) + sizeof_mage_t) >? SGX_MAGE_SEC_SIZE then 0
  else mage_size.

Definition unexpected {A} (o : option A) : res sgx_status_t A :=
  match o with Some a => Ok a | None => Err SGX_ERROR_UNEXPECTED end.

(** [mage_hdr->entries + mage_idx], read field by field *)
Definition mage_entry_at (sec : list Z) (mage_idx : Z) : option sgx_mage_entry_t :=
  let p := u64 (sizeof_mage_t + mage_idx * sizeof_mage_entry) in
  if zlen sec <? p + sizeof_mage_entry then None
  else Some (MkMage (le_val (slice p 8 sec)) (le_val (slice (p + 8) 8 sec)) (slice (p + 16) 32 sec)).

Fixpoint derive_data (n : nat) (source : list Z) (page_offset : Z) (h : H)
  : res sgx_status_t (list Z * Z * H) :=
  match n with
  | O => Ok (source, page_offset, h)
  | S n' =>
      assertc (DATA_BLOCK_SIZE <=? zlen source) ;;
      h' ← unexpected (sha_update h (ztake DATA_BLOCK_SIZE source));
      derive_data n' (zdrop DATA_BLOCK_SIZE source) (u64 (page_offset + DATA_BLOCK_SIZE)) h'
  end.

(** for (i = 0; i < SE_PAGE_SIZE; i += DATA_BLOCK_SIZE * EEXTEND_TIME) *)
Fixpoint derive_extend (n : nat) (source : list Z) (page_offset : Z) (h : H)
  : res sgx_status_t (list Z * Z * H) :=
  match n with
  | O => Ok (source, page_offset, h)
  | S n' =>
      let data_block := zreplicate DATA_BLOCK_SIZE 0 in
      let data_block := splice 0 eextend_val data_block in
      let data_block := splice SIZE_NAMED_VALUE (le_bytes 8 page_offset) data_block in
      h1 ← unexpected (sha_update h data_block);
      r ← derive_data (Z.to_nat EEXTEND_TIME) source page_offset h1;
      derive_extend n' (fst (fst r)) (snd (fst r)) (snd r)
  end.

(** while (source < mage_sec_end_addr); [source] is what is left of the
    section, each turn consumes a page. *)
Fixpoint derive_pages (fuel : nat) (source : list Z) (page_offset : Z) (h : H)
  : res sgx_status_t H :=
  match fuel with
  | O => Stuck
  | S k =>
      if zlen source =? 0 then Ok h
      else
        let data_block := zreplicate DATA_BLOCK_SIZE 0 in
        let data_block := splice 0 eadd_val data_block in
        let db_offset := SIZE_NAMED_VALUE in
        let data_block := splice db_offset (le_bytes 8 page_offset) data_block in
        let db_offset := db_offset + 8 in
        let data_block :=
          splice db_offset (ztake (DATA_BLOCK_SIZE - db_offset) mage_sinfo) data_block in
        h1 ← unexpected (sha_update h data_block);
        r ← derive_extend (Z.to_nat (SE_PAGE_SIZE / (DATA_BLOCK_SIZE * EEXTEND_TIME)))
              source page_offset h1;
        derive_pages k (fst (fst r)) (snd (fst r)) (snd r)
  end.

(** [mr_null]: the output pointer is NULL *)
Definition sgx_mage_derive_measurement (sec : list Z) (mage_idx : Z) (mr_null : bool)
  : res sgx_status_t (list Z) :=
  let mage_size := le_val (slice 0 8 sec) in
  if (u64 (u64 (mage_size * sizeof_mage_entry) + sizeof_mage_t) >? SGX_MAGE_SEC_SIZE)
     || (mage_size <=? mage_idx) || mr_null
  then Err SGX_ERROR_UNEXPECTED
  else
    mage ← deref (mage_entry_at sec mage_idx);
    sha_handle ← unexpected sha_init;
    let sha_handle := sha_poke sha_handle HANDLE_HASH_OFFSET (me_digest mage) in
    let sha_handle := sha_poke sha_handle HANDLE_SIZE_OFFSET (le_bytes 8 (me_size mage)) in
    h ← derive_pages (S (length sec)) sec (me_offset mage) sha_handle;
    unexpected (sha_get_hash h).
End Mage.

(** ** What is hashed *)

(** The log entries of the section's pages, from [offset] on. *)
Fixpoint mage_events (fuel : nat) (source : list Z) (offset : Z) : list mevent :=
  match fuel with
  | O => []
  | S k =>
      if zlen source =? 0 then []
      else page_events source offset (mk_sinfo 0x201) ADD_EXTEND_PAGE ++
           mage_events k (zdrop SE_PAGE_SIZE source) (u64 (offset + SE_PAGE_SIZE))
  end.

Section Derive.
Context {HF : HashFn} {H : Type} {T : Tcrypto H} {TL : TcryptoLaws H}.

(** [f h] succeeds on a context that has hashed [x] and hashes [d] more. *)
Definition extends {A} (f : H -> res sgx_status_t (A * H)) (d : list Z) (a : A) : Prop :=
  forall h x, sha_repr h x -> zlen x mod 64 = 0 -> zlen x + zlen d < MAX_MSG ->
    exists h', f h = Ok (a, h') /\ sha_repr h' (x ++ d).

Lemma derive_data_ok n source off :
  64 * Z.of_nat n <= zlen source ->
  extends (derive_data n source off) (ztake (64 * Z.of_nat n) source)
    (zdrop (64 * Z.of_nat n) source, u64_iter n off).
Proof.
  revert source off. induction n as [|n IH]; intros source off Hl h x Hr Hx Hm.
  { exists h. by rewrite ztake_le0, zdrop_le0, app_nil_r by lia. }
  cbn [derive_data u64_iter]. unfold DATA_BLOCK_SIZE, assertc.
  replace (64 <=? zlen source) with true by lia. rewrite zlen_ztake in Hm.
  assert (zlen (ztake 64 source) = 64) as L64 by (rewrite zlen_ztake; lia).
  destruct (sha_update_law h x (ztake 64 source) Hx ltac:(by rewrite L64) ltac:(lia) Hr) as (h1 & E1 & Hr1).
  destruct (IH (zdrop 64 source) (u64 (off + 64)) ltac:(rewrite zlen_zdrop; lia) h1 (x ++ ztake 64 source) Hr1)
    as (h2 & E2 & Hr2).
  { rewrite zlen_app, L64, Z.add_mod, Hx by lia. done. }
  { rewrite zlen_app, L64, zlen_ztake, zlen_zdrop. lia. }
  exists h2. unfold mbind, res_bind. rewrite E1. cbn [unexpected]. rewrite E2. split.
  - rewrite zdrop_zdrop by lia. do 3 f_equal. f_equal. lia.
  - replace (ztake (64 * Z.of_nat (S n)) source)
      with (ztake 64 source ++ ztake (64 * Z.of_nat n) (zdrop 64 source)); [by rewrite app_assoc|].
    rewrite <- (ztake_zdrop 64 source) at 3. rewrite ztake_app_ge by lia.
    do 2 f_equal. lia.
Qed.

Fixpoint u64_steps (n : nat) (off : Z) : Z :=
  match n with O => off | S n' => u64_steps n' (u64 (off + 256)) end.

Lemma zlen_trace_cons e t : zlen (trace_bytes (e :: t)) = zlen (event_bytes e) + zlen (trace_bytes t).
Proof. change (trace_bytes (e :: t)) with (event_bytes e ++ trace_bytes t). apply zlen_app. Qed.

Lemma derive_extend_ok n source off :
  256 * Z.of_nat n <= zlen source ->
  extends (derive_extend n source off) (trace_bytes (eextend_events n off source))
    (zdrop (256 * Z.of_nat n) source, u64_steps n off).
Proof.
  revert source off. induction n as [|n IH]; intros source off Hl h x Hr Hx Hm.
  { exists h. by rewrite zdrop_le0, app_nil_r by lia. }
  cbn [derive_extend eextend_events u64_steps] in *. rewrite splice_block by done.
  rewrite zlen_trace_cons in Hm. cbn [event_bytes] in Hm.
  set (b := eextend_val ++ le_bytes 8 off ++ zreplicate 48 0) in *.
  assert (zlen b = 64) as Lb by done.
  assert (zlen (ztake 256 source) = 256) as L256 by (rewrite zlen_ztake; lia).
  assert (zlen (eextend_val ++ le_bytes 8 off ++ zreplicate 48 0 ++ ztake 256 source) = 320) as Le.
  { rewrite !zlen_app, L256. done. }
  rewrite Le in Hm.
  destruct (sha_update_law h x b Hx ltac:(by rewrite Lb) ltac:(lia) Hr) as (h1 & E1 & Hr1).
  assert (zlen (x ++ b) mod 64 = 0) as Hx1 by (rewrite zlen_app, Lb, Z.add_mod, Hx by lia; done).
  destruct (derive_data_ok 4 source off ltac:(lia) h1 (x ++ b) Hr1 Hx1) as (h2 & E2 & Hr2).
  { rewrite zlen_app, Lb. change (64 * Z.of_nat 4) with 256. lia. }
  change (64 * Z.of_nat 4) with 256 in *.
  assert (zlen ((x ++ b) ++ ztake 256 source) mod 64 = 0) as Hx2
    by (rewrite zlen_app, L256, Z.add_mod, Hx1 by lia; done).
  destruct (IH (zdrop 256 source) (u64 (off + 256)) ltac:(rewrite zlen_zdrop; lia) h2 _ Hr2 Hx2)
    as (h3 & E3 & Hr3).
  { rewrite !zlen_app, Lb, L256. lia. }
  exists h3. unfold mbind, res_bind. rewrite E1. cbn [unexpected].
  change (Z.to_nat EEXTEND_TIME) with 4%nat. rewrite E2. cbn [fst snd u64_iter].
  rewrite !u64_add_u64. split.
  - change (64 + (64 + (64 + 64))) with 256. rewrite E3, zdrop_zdrop by lia. do 3 f_equal. f_equal. lia.
  - change (trace_bytes (?e :: ?t)) with (event_bytes e ++ trace_bytes t). cbn [event_bytes].
    unfold b in Hr3. by rewrite <- !app_assoc in Hr3 |- *.
Qed.

Lemma u64_steps_16 off : u64_steps 16 off = u64 (off + SE_PAGE_SIZE).
Proof. cbn [u64_steps]. by rewrite !u64_add_u64. Qed.

(** The EADD block of the derivation is the loader's for the same page. *)
Lemma mage_eadd_block off :
  splice (SIZE_NAMED_VALUE + 8) (ztake (DATA_BLOCK_SIZE - (SIZE_NAMED_VALUE + 8)) mage_sinfo)
    (splice SIZE_NAMED_VALUE (le_bytes 8 off) (splice 0 eadd_val (zreplicate DATA_BLOCK_SIZE 0)))
  = event_bytes (EADD off (ztake 48 (sec_info_bytes (mk_sinfo 0x201)))).
Proof. rewrite <- (proj1 (sinfo_block off (mk_sinfo 0x201) eq_refl)). reflexivity. Qed.

Lemma derive_pages_ok k source off h x :
  zlen source = SE_PAGE_SIZE * Z.of_nat k ->
  sha_repr h x -> zlen x mod 64 = 0 ->
  forall fuel, (k < fuel)%nat ->
  zlen x + zlen (trace_bytes (mage_events fuel source off)) < MAX_MSG ->
  exists h', derive_pages fuel source off h = Ok h' /\
    sha_repr h' (x ++ trace_bytes (mage_events fuel source off)) /\
    forallb event_ok (mage_events fuel source off) = true.
Proof.
  unfold SE_PAGE_SIZE. revert source off h x. induction k as [|k IH];
    intros source off h x Hk Hr Hx [|fuel] Hf Hm; try lia; cbn [derive_pages mage_events] in *;
    unfold SE_PAGE_SIZE in *.
  { replace (zlen source =? 0) with true by lia. exists h. by rewrite app_nil_r. }
  replace (zlen source =? 0) with false in * by lia. rewrite mage_eadd_block.
  unfold page_events in *. change (hasflag ADD_EXTEND_PAGE PAGE_ATTR_EADD) with true in *.
  change (Z.land ADD_EXTEND_PAGE ADD_EXTEND_PAGE =? ADD_EXTEND_PAGE) with true in *. cbv iota in *.
  set (e := EADD off _) in *. assert (zlen (event_bytes e) = 64) as Le by done.
  rewrite <- app_comm_cons in *. rewrite zlen_trace_cons, trace_bytes_app, zlen_app, Le in Hm.
  destruct (sha_update_law h x (event_bytes e) Hx ltac:(by rewrite Le) ltac:(lia) Hr) as (h1 & E1 & Hr1).
  assert (zlen (x ++ event_bytes e) mod 64 = 0) as Hx1 by (rewrite zlen_app, Le, Z.add_mod, Hx by lia; done).
  destruct (derive_extend_ok 16 source off ltac:(lia) h1 _ Hr1 Hx1) as (h2 & E2 & Hr2).
  { rewrite zlen_app, Le. lia. }
  pose proof (eextend_events_ok 16 off source ltac:(lia)) as Hok.
  assert (zlen ((x ++ event_bytes e) ++ trace_bytes (eextend_events 16 off source)) mod 64 = 0) as Hx2.
  { rewrite zlen_app, Z.add_mod, Hx1, (trace_bytes_aligned _ Hok) by lia. done. }
  destruct (IH (zdrop 4096 source) (u64 (off + 4096)) h2 _ ltac:(rewrite zlen_zdrop; lia) Hr2 Hx2 fuel)
    as (h3 & E3 & Hr3 & Hok3); [lia|rewrite !zlen_app, Le; lia|].
  exists h3. unfold mbind, res_bind. rewrite E1. cbn [unexpected].
  change (Z.to_nat (4096 / _)) with 16%nat. rewrite E2. cbn [fst snd].
  rewrite u64_steps_16. unfold SE_PAGE_SIZE. change (256 * Z.of_nat 16) with 4096. split; [done|]. split.
  - change (trace_bytes (?e :: ?t)) with (event_bytes e ++ trace_bytes t).
    by rewrite trace_bytes_app, !app_assoc in *.
  - change (forallb event_ok (e :: ?t)) with (forallb event_ok t). by rewrite forallb_app, Hok, Hok3.
Qed.

Lemma forallb_app_2 {A} (f : A -> bool) l1 l2 :
  forallb f l1 = true -> forallb f l2 = true -> forallb f (l1 ++ l2) = true.
Proof. rewrite forallb_app. by intros -> ->. Qed.

Lemma eextend_bytes_length n off page :
  256 * Z.of_nat n <= zlen page -> zlen (trace_bytes (eextend_events n off page)) = 320 * Z.of_nat n.
Proof.
  revert off page. induction n as [|n IH]; intros off page Hl; [done|].
  cbn [eextend_events]. rewrite zlen_trace_cons, IH by (rewrite zlen_zdrop; lia). cbn [event_bytes].
  rewrite !zlen_app, zlen_ztake, length_le_bytes, zlen_zreplicate. change (zlen eextend_val) with 8. lia.
Qed.

(** An added and extended page contributes 81 blocks. *)
Lemma page_bytes_length page off :
  SE_PAGE_SIZE <= zlen page ->
  zlen (trace_bytes (page_events page off (mk_sinfo 0x201) ADD_EXTEND_PAGE)) = 5184.
Proof.
  unfold SE_PAGE_SIZE. intros Hp.
  change (page_events _ _ _ _) with
    (EADD off (ztake 48 (sec_info_bytes (mk_sinfo 0x201))) :: eextend_events 16 off page).
  rewrite zlen_trace_cons, eextend_bytes_length by lia. reflexivity.
Qed.

Definition mage_count (sec : list Z) : Z := le_val (slice 0 8 sec).

Lemma mage_count_check n :
  0 <= n -> n * sizeof_mage_entry + sizeof_mage_t <= SGX_MAGE_SEC_SIZE ->
  (u64 (u64 (n * sizeof_mage_entry) + sizeof_mage_t) >? SGX_MAGE_SEC_SIZE) = false.
Proof.
  unfold sizeof_mage_entry, sizeof_mage_t, SGX_MAGE_SEC_SIZE. intros.
  rewrite !u64_id by (unfold is_u64; rewrite ?u64_id by (unfold is_u64; lia); lia). lia.
Qed.

Lemma derive_measurement_spec sec idx tr e :
  zlen sec = SGX_MAGE_SEC_SIZE ->
  0 <= mage_count sec ->
  mage_count sec * sizeof_mage_entry + sizeof_mage_t <= SGX_MAGE_SEC_SIZE ->
  idx < mage_count sec ->
  mage_entry_at sec idx = Some e ->
  forallb event_ok tr = true ->
  me_digest e = words8_le (hf_state (trace_bytes tr)) ->
  me_size e = zlen (trace_bytes tr) ->
  zlen (trace_bytes tr) + 5184 < MAX_MSG ->
  sgx_mage_derive_measurement sec idx false =
    Ok (mrenclave (tr ++ page_events sec (me_offset e) (mk_sinfo 0x201) ADD_EXTEND_PAGE)).
Proof.
  intros Hsec Hn0 Hn Hidx He Hok Hd Hs Hm. unfold sgx_mage_derive_measurement.
  fold (mage_count sec). rewrite mage_count_check by done.
  replace (mage_count sec <=? idx) with false by lia. cbn [orb]. rewrite He. cbn [deref mbind res_bind].
  destruct sha_init_law as (h0 & -> & Hr0). cbn [unexpected mbind res_bind].
  pose proof (trace_bytes_aligned _ Hok) as Hal. rewrite Hd, Hs.
  pose proof (sha_resume_law h0 _ Hr0 Hal ltac:(lia)) as Hr.
  set (h1 := sha_poke _ _ _) in *.
  assert (mage_events (S (length sec)) sec (me_offset e) =
          page_events sec (me_offset e) (mk_sinfo 0x201) ADD_EXTEND_PAGE) as Eev.
  { cbn [mage_events]. unfold SGX_MAGE_SEC_SIZE in Hsec. replace (zlen sec =? 0) with false by lia.
    rewrite zdrop_ge by (unfold SE_PAGE_SIZE; lia). destruct (length sec) as [|k]; [lia|].
    cbn [mage_events]. by rewrite app_nil_r. }
  pose proof (derive_pages_ok 1 sec (me_offset e) h1 _ ltac:(unfold SGX_MAGE_SEC_SIZE, SE_PAGE_SIZE in *; lia)
                Hr Hal (S (length sec)) ltac:(unfold SGX_MAGE_SEC_SIZE in Hsec; lia)) as Hp.
  rewrite Eev in Hp. destruct Hp as (h2 & E2 & Hr2 & Hok2).
  { rewrite (page_bytes_length sec); [lia|unfold SGX_MAGE_SEC_SIZE, SE_PAGE_SIZE in *; lia]. }
  rewrite E2. cbn [mbind res_bind]. rewrite <- trace_bytes_app in Hr2.
  rewrite (sha_get_hash_law h2 _ (trace_bytes_aligned _ (forallb_app_2 _ _ _ Hok Hok2)) Hr2). done.
Qed.
End Derive.

(** ** The section written by the signing tool: a count and the entries *)
Definition mage_section (entries : list sgx_mage_entry_t) : list Z :=
  le_bytes 8 (zlen entries) ++ concat (map mage_entry_bytes entries).

Definition mage_entry_ok (e : sgx_mage_entry_t) : Prop :=
  is_u64 (me_size e) /\ is_u64 (me_offset e) /\ zlen (me_digest e) = 32.

Lemma zlen_mage_entry e : mage_entry_ok e -> zlen (mage_entry_bytes e) = sizeof_mage_entry.
Proof.
  intros (_ & _ & Hd). unfold mage_entry_bytes. rewrite !zlen_app, !length_le_bytes, Hd. done.
Qed.

Lemma zlen_mage_section entries :
  Forall mage_entry_ok entries -> zlen (mage_section entries) = sizeof_mage_t + zlen entries * sizeof_mage_entry.
Proof.
  intros Hok. unfold mage_section. rewrite zlen_app, length_le_bytes.
  assert (zlen (concat (map mage_entry_bytes entries)) = zlen entries * sizeof_mage_entry) as ->.
  { induction Hok as [|e l He Hl IH]; [done|]. cbn [map concat length].
    rewrite zlen_app, IH, zlen_mage_entry by done. unfold sizeof_mage_entry. lia. }
  unfold sizeof_mage_t. lia.
Qed.

Lemma mage_count_section entries rest :
  is_u64 (zlen entries) -> mage_count (mage_section entries ++ rest) = zlen entries.
Proof.
  intros Hu. unfold mage_count, mage_section. rewrite <- app_assoc.
  rewrite slice_app_le by (rewrite ?length_le_bytes; lia).
  rewrite slice_0, ztake_ge by (rewrite length_le_bytes; lia).
  rewrite le_val_le_bytes. by apply Z.mod_small.
Qed.

(** An entry read back from anywhere in a buffer *)
Lemma mage_entry_mid e a c i :
  mage_entry_ok e -> zlen a = sizeof_mage_t + i * sizeof_mage_entry -> 0 <= i -> is_u64 (zlen a) ->
  mage_entry_at (a ++ mage_entry_bytes e ++ c) i = Some e.
Proof.
  intros He Ha Hi Hu. pose proof (zlen_mage_entry e He) as Hl. unfold mage_entry_at.
  rewrite <- Ha, u64_id by done. rewrite !zlen_app, Hl.
  replace (_ <? _) with false by lia.
  destruct e as [sz off dg], He as (H1 & H2 & H3). unfold mage_entry_bytes.
  cbn [me_size me_offset me_digest] in *.
  assert (forall k n, 0 <= k -> 0 <= n -> k + n <= 48 ->
    slice (zlen a + k) n (a ++ (le_bytes 8 sz ++ le_bytes 8 off ++ dg) ++ c) =
    slice k n (le_bytes 8 sz ++ le_bytes 8 off ++ dg)) as Hs.
  { intros k n Hk Hn Hkn. rewrite slice_app_ge by lia.
    replace (zlen a + k - zlen a) with k by lia.
    apply slice_app_le; rewrite ?zlen_app, ?length_le_bytes, ?H3; lia. }
  f_equal. f_equal.
  - replace (zlen a) with (zlen a + 0) by lia. rewrite Hs by lia.
    rewrite slice_app_le, slice_0, ztake_ge by (rewrite ?length_le_bytes; lia).
    rewrite le_val_le_bytes. by apply Z.mod_small.
  - rewrite Hs by lia. rewrite slice_app_ge by (rewrite length_le_bytes; lia).
    rewrite length_le_bytes. change (8 - Z.of_nat 8) with 0.
    rewrite slice_app_le, slice_0, ztake_ge by (rewrite ?length_le_bytes; lia).
    rewrite le_val_le_bytes. by apply Z.mod_small.
  - rewrite Hs by lia. do 2 rewrite slice_app_ge by (rewrite !length_le_bytes; lia).
    rewrite !length_le_bytes. change (16 - Z.of_nat 8 - Z.of_nat 8) with 0. by rewrite slice_0, ztake_ge by lia.
Qed.

Lemma mage_entry_section entries rest i e :
  Forall mage_entry_ok entries -> is_u64 (sizeof_mage_t + zlen entries * sizeof_mage_entry) ->
  entries !! i = Some e -> mage_entry_at (mage_section entries ++ rest) (Z.of_nat i) = Some e.
Proof.
  intros Hok Hu Hi. pose proof (list_elem_of_split_length _ _ _ Hi) as (l1 & l2 & -> & ->).
  apply Forall_app in Hok as [Hok1 Hok2]. inversion_clear Hok2.
  unfold mage_section. rewrite map_app, concat_app. cbn [map concat]. rewrite <- !app_assoc.
  rewrite (app_assoc (le_bytes 8 _)).
  assert (zlen (le_bytes 8 (zlen (l1 ++ e :: l2)) ++ concat (map mage_entry_bytes l1)) =
          sizeof_mage_t + Z.of_nat (length l1) * sizeof_mage_entry) as E.
  { rewrite <- (zlen_mage_section l1) by done. unfold mage_section. by rewrite !zlen_app, !length_le_bytes. }
  apply mage_entry_mid; auto; [lia|]. rewrite E. revert Hu. rewrite zlen_app. unfold is_u64, sizeof_mage_t, sizeof_mage_entry. lia.
Qed.

(** C25. Round trip of the section.  A section with a list of entries that
    fits and any bytes behind it, as the signing tool writes it, is read back
    inside the enclave: sgx_mage_get_size is the number of entries and the
    entry at each index is the one written; no entry is read past the list. *)
Theorem mage_section_roundtrip entries rest :
  Forall mage_entry_ok entries -> zlen (mage_section entries) <= SGX_MAGE_SEC_SIZE ->
  sgx_mage_get_size (mage_section entries ++ rest) = zlen entries /\
  forall i e, entries !! i = Some e -> mage_entry_at (mage_section entries ++ rest) (Z.of_nat i) = Some e.
Proof.
  intros Hok Hfit. rewrite zlen_mage_section in Hfit by done.
  unfold sizeof_mage_t, sizeof_mage_entry, SGX_MAGE_SEC_SIZE in Hfit. split.
  - unfold sgx_mage_get_size. fold (mage_count (mage_section entries ++ rest)).
    rewrite mage_count_section by (unfold is_u64; lia).
    by rewrite mage_count_check by (unfold sizeof_mage_t, sizeof_mage_entry, SGX_MAGE_SEC_SIZE; lia).
  - intros i e. apply mage_entry_section; [done|]. unfold is_u64, sizeof_mage_t, sizeof_mage_entry. lia.
Qed.

Lemma mage_section_roundtrip_witness :
  let es := [MkMage 36416 0x1000 (zreplicate 32 1); MkMage 64 0x2000 (zreplicate 32 2)] in
  sgx_mage_get_size (mage_section es ++ [0]) = 2 /\
  mage_entry_at (mage_section es ++ [0]) 1 = Some (MkMage 64 0x2000 (zreplicate 32 2)).
Proof.
  intros es. destruct (mage_section_roundtrip es [0]) as [H1 H2].
  - repeat (constructor; [by split_and!|]). constructor.
  - done.
  - split; [exact H1|]. by apply (H2 1%nat).
Defined.

Section Bounds.
Context {H : Type} {T : Tcrypto H}.

(** C26. Bounds.  As long as the size computed from the count does not
    overflow 64 bits, sgx_mage_get_size reports only entries that lie in the
    section, and the derivation refuses a NULL output, an index past the
    count and a count that does not fit, before it reads an entry; an index
    it does not refuse names an entry inside the section. *)
Theorem mage_bounds sec idx mr_null :
  zlen sec = SGX_MAGE_SEC_SIZE -> bytes_ok sec -> 0 <= idx ->
  mage_count sec * sizeof_mage_entry + sizeof_mage_t < 2 ^ 64 ->
  sgx_mage_get_size sec * sizeof_mage_entry + sizeof_mage_t <= SGX_MAGE_SEC_SIZE /\
  (sgx_mage_get_size sec <= idx \/ mr_null = true ->
     sgx_mage_derive_measurement sec idx mr_null = Err SGX_ERROR_UNEXPECTED) /\
  (idx < sgx_mage_get_size sec -> is_Some (mage_entry_at sec idx)).
Proof.
  intros Hsec Hok Hi Hn. pose proof (le_val_range (slice 0 8 sec) (bytes_ok_slice 0 8 _ Hok)) as [Hn0 _].
  unfold mage_count in Hn. unfold sgx_mage_get_size, sgx_mage_derive_measurement, mage_entry_at.
  unfold sizeof_mage_entry, sizeof_mage_t, SGX_MAGE_SEC_SIZE in *. set (n := le_val _) in *.
  rewrite (u64_id (n * 48)) by (unfold is_u64; lia). rewrite (u64_id (n * 48 + 8)) by (unfold is_u64; lia).
  destruct (n * 48 + 8 >? 4096) eqn:E; zbool; [split_and!; [lia|done|lia]|]. split_and!; [lia| |].
  - intros [Hx| ->]; [replace (n <=? idx) with true by lia; done|]. by rewrite orb_true_r.
  - intros Hx. rewrite u64_id by (unfold is_u64; lia). replace (zlen sec <? _) with false by lia. done.
Qed.

End Bounds.

Lemma mage_bounds_witness :
  let sec := le_bytes 8 2 ++ zreplicate 4088 0 in
  sgx_mage_derive_measurement (T:=RawTcrypto (HF:=sha256_hash_fn)) sec 2 false = Err SGX_ERROR_UNEXPECTED /\ is_Some (mage_entry_at sec 1).
Proof.
  intros sec.
  assert (bytes_ok sec) as Hok by (apply bytes_ok_app; split; [apply le_bytes_ok|by apply bytes_ok_zreplicate]).
  destruct (mage_bounds (T:=RawTcrypto (HF:=sha256_hash_fn)) sec 2 false) as (_ & H2 & _); [done..|].
  destruct (mage_bounds (T:=RawTcrypto (HF:=sha256_hash_fn)) sec 1 false) as (_ & _ & H3); [done..|].
  split; [apply H2; left; vm_compute; discriminate|apply H3; reflexivity].
Defined.
