(* ===== verification/Loader.v ===== *)
(** * The enclave loader

    psw/urts/loader.cpp: [validate_metadata] checks the signed metadata,
    [build_image] feeds every page of the enclave to an [EnclaveCreator].
    The parser the loader talks to is the record [BinParser] (the class of
    psw/urts/parser/binparser.h, implemented by the ELF parser).  Pointers
    into the mapped enclave file are suffixes of [ls_image], pointers into
    the metadata byte offsets; a read outside either buffer is [Stuck]. *)
From S2P Require Import Prelude Bytes Sha256 Arch Measure Creator.

#[local] Open Scope Z_scope.

(** ** Section and the parser interface *)

(** class Section; [s_raw_data] is m_start_addr as an offset in the mapped
    file. *)
Record Section_ := MkSection {
  s_raw_data : Z; s_raw_data_size : Z; s_virtual_size : Z; s_rva : Z; s_offset : Z; s_si_flags : Z }.

Record BinParser := MkBinParser {
  bp_enclave_max_size : Z;
  bp_sections : list Section_;
  bp_mage_section : option Section_;
  bp_for_sign : bool;
  bp_reloc_bitmap : list Z -> res sgx_status_t (list Z);
  bp_set_memory_protection : list Z -> Z -> bool -> res sgx_status_t bool;
  bp_pages_to_protect : list Z -> Z -> res sgx_status_t (list (Z * Z * Z)) }.

(** get_mage_section_ex: the MAGE pages are left out while signing. *)
Definition bp_mage_section_ex (bp : BinParser) : option Section_ :=
  if bp_for_sign bp then None else bp_mage_section bp.

(** section_info_t; [raw_data] is the memory from the pointer on. *)
Record section_info_t := MkSecRange {
  raw_data : list Z; raw_data_size : Z; sr_rva : Z; virtual_size : Z; flag : Z; bitmap : option (list Z) }.

(** ** Loader state *)
Record LS (C : Type) := MkLS {
  ls_creator : C; ls_image : list Z; m_enclave_id : Z; m_start_addr : Z;
  m_tcs_list : list (Z * bool); m_secs : secs_t }.
Arguments MkLS {C}. Arguments ls_creator {C}. Arguments ls_image {C}. Arguments m_enclave_id {C}.
Arguments m_start_addr {C}. Arguments m_tcs_list {C}. Arguments m_secs {C}.

Definition INTEL_VENDOR_ID : Z := 0x8086.
Definition AE_PRODUCT_ID : Z := 0x1.

(** is_ae: the CSS identifies an Intel architectural enclave *)
Definition is_ae (css : list Z) : bool :=
  (fget Css.header_module_vendor css =? INTEL_VENDOR_ID) && (fget Css.body_isv_prod_id css =? AE_PRODUCT_ID).

Definition is_relocation_page (rva : Z) (bitmap : option (list Z)) : bool :=
  let page_frame := Z.shiftr rva SE_PAGE_SHIFT in
  let index := page_frame / 8 in
  match bitmap with
  | Some bm =>
      match znth bm index with
      | Some b => hasflag b (Z.shiftl 1 (page_frame mod 8))
      | None => false
      end
  | None => false
  end.

(** ** Metadata validation *)
Section Validate.
Context (md : list Z).

Definition is_metadata_buffer (offset size : Z) : bool :=
  if (Md.data_off >? offset) || (offset >=? fget Md.size md) then false
  else
    let end_ := u32 (offset + size) in
    negb ((end_ <? offset) || (end_ <? size) || (end_ >? fget Md.size md)).

Definition is_enclave_buffer (offset size : Z) : bool :=
  if offset >=? fget Md.enclave_size md then false
  else
    let end_ := u64 (offset + size) in
    negb ((end_ <? offset) || (end_ <? size) || (end_ >? fget Md.enclave_size md)).

Definition rva_pair (l : layout_t) (delta : Z) : Z * Z :=
  (u64 (l_rva l + delta), Z.shiftl (l_page_count l) SE_PAGE_SHIFT).

(** for (entry = &layout[-entry_count]; entry < layout; entry++) *)
Fixpoint group_entries (n : nat) (p load_step : Z) : res sgx_status_t (list (Z * Z)) :=
  match n with
  | O => Ok []
  | S n' =>
      entry ← deref (layout_at p md);
      if IS_GROUP_ID (l_id entry) then Err SGX_ERROR_INVALID_METADATA
      else rest ← group_entries n' (p + sizeof_layout) load_step;
           Ok (rva_pair entry load_step :: rest)
  end.

(** for (i = 0; i < load_times; i++) *)
Fixpoint group_loads (times : nat) (group : layout_t) (p load_step : Z)
  : res sgx_status_t (list (Z * Z)) :=
  match times with
  | O => Ok []
  | S n' =>
      let load_step := u64 (load_step + g_load_step group) in
      if load_step >? fget Md.enclave_size md then Err SGX_ERROR_INVALID_METADATA
      else
        v ← group_entries (Z.to_nat (g_entry_count group))
              (p - sizeof_layout * g_entry_count group) load_step;
        rest ← group_loads n' group p load_step;
        Ok (v ++ rest)
  end.

(** The first loop of validate_layout_table: [n] entries from [p]. *)
Fixpoint collect_rvas (n : nat) (start p : Z) : res sgx_status_t (list (Z * Z)) :=
  match n with
  | O => Ok []
  | S n' =>
      layout ← deref (layout_at p md);
      v ← (if negb (IS_GROUP_ID (l_id layout)) then
             if negb (l_content_offset layout =? 0) &&
                negb (is_metadata_buffer (l_content_offset layout) (l_content_size layout))
             then Err SGX_ERROR_INVALID_METADATA
             else Ok [(l_rva layout, Z.shiftl (l_page_count layout) SE_PAGE_SHIFT)]
           else
             if g_entry_count layout >? u32 ((p - start) / sizeof_layout)
             then Err SGX_ERROR_INVALID_METADATA
             else group_loads (Z.to_nat (g_load_times layout)) layout p 0);
      rest ← collect_rvas n' start (p + sizeof_layout);
      Ok (v ++ rest)
  end.

(** The second loop, over the sorted vector. *)
Fixpoint check_rvas (v : list (Z * Z)) : res sgx_status_t unit :=
  match v with
  | [] => Ok tt
  | (first, second) :: v' =>
      if negb (IS_PAGE_ALIGNED first) then Err SGX_ERROR_INVALID_METADATA
      else if negb (is_enclave_buffer first second) then Err SGX_ERROR_INVALID_METADATA
      else match v' with
           | (next, _) :: _ =>
               if u64 (first + second) >? next then Err SGX_ERROR_INVALID_METADATA else check_rvas v'
           | [] => check_rvas v'
           end
  end.

(** std::sort on pairs (lexicographic order) *)
Definition pair_leb (x y : Z * Z) : bool :=
  (fst x <? fst y) || ((fst x =? fst y) && (snd x <=? snd y)).

Fixpoint insert_pair (x : Z * Z) (l : list (Z * Z)) : list (Z * Z) :=
  match l with
  | [] => [x]
  | y :: l' => if pair_leb x y then x :: l else y :: insert_pair x l'
  end.

Fixpoint sort_pairs (l : list (Z * Z)) : list (Z * Z) :=
  match l with
  | [] => []
  | x :: l' => insert_pair x (sort_pairs l')
  end.

(** Number of turns of the loop over a table. *)
Definition dir_count (i sz : Z) : nat := table_count (fget (Md.dir_size i) md) sz.

Definition validate_layout_table : res sgx_status_t unit :=
  let start := fget (Md.dir_offset DIR_LAYOUT) md in
  v ← collect_rvas (dir_count DIR_LAYOUT sizeof_layout) start start;
  check_rvas (sort_pairs v).

Fixpoint validate_patches (n : nat) (p : Z) : res sgx_status_t unit :=
  match n with
  | O => Ok tt
  | S n' =>
      patch ← deref (patch_at p md);
      if negb (is_metadata_buffer (p_src patch) (p_size patch)) then Err SGX_ERROR_INVALID_METADATA
      else if negb (is_enclave_buffer (p_dst patch) (p_size patch)) then Err SGX_ERROR_INVALID_METADATA
      else validate_patches n' (p + sizeof_patch)
  end.

Definition validate_patch_table : res sgx_status_t unit :=
  validate_patches (dir_count DIR_PATCH sizeof_patch) (fget (Md.dir_offset DIR_PATCH) md).

(** while ((size != 0) && ((size & 1) != 1)) size = size >> 1 *)
Fixpoint strip_zeros (fuel : nat) (size : Z) : Z :=
  match fuel with
  | O => size
  | S k =>
      if negb (size =? 0) && negb (Z.land size 1 =? 1) then strip_zeros k (Z.shiftr size 1) else size
  end.

Definition check_dirs : bool :=
  forallb (fun i => is_metadata_buffer (fget (Md.dir_offset i) md) (fget (Md.dir_size i) md))
    [DIR_PATCH; DIR_LAYOUT].

Definition validate_metadata (enclave_max_size : Z) : res sgx_status_t unit :=
  let urts_version := META_DATA_MAKE_VERSION MAJOR_VERSION MINOR_VERSION in
  if MAJOR_VERSION_OF_METADATA urts_version <? MAJOR_VERSION_OF_METADATA (fget Md.version md)
  then Err SGX_ERROR_INVALID_VERSION
  else if fget Md.tcs_policy md >? TCS_POLICY_UNBIND then Err SGX_ERROR_INVALID_METADATA
  else if (fget Md.ssa_frame_size md <? SSA_FRAME_SIZE_MIN) ||
          (fget Md.ssa_frame_size md >? SSA_FRAME_SIZE_MAX) then Err SGX_ERROR_INVALID_METADATA
  else
    let size := fget Md.enclave_size md in
    if size >? enclave_max_size then Err SGX_ERROR_INVALID_METADATA
    else if negb (strip_zeros 64 size =? 1) then Err SGX_ERROR_INVALID_METADATA
    else if negb check_dirs then Err SGX_ERROR_INVALID_METADATA
    else validate_layout_table ;; validate_patch_table.
End Validate.

(** ** Traversal of the layout table

    The loop shared by build_contexts, post_init_action,
    post_init_action_commit and set_context_protection: [f delta entry] for
    each entry, and for a group the recursive call on its entries, once per
    load with the accumulated step.  Pointers are offsets into the metadata.
    [fuel] bounds the turns of a run, nested ones included. *)
Section Walk.
Context {S_ : Type} (f : Z -> layout_t -> M S_ sgx_status_t unit) (md : list Z).

Fixpoint repeat_loads (times : nat) (load_step step : Z) (body : Z -> M S_ sgx_status_t unit)
  : M S_ sgx_status_t unit :=
  match times with
  | O => mret tt
  | S n' =>
      let step := u64 (step + load_step) in
      body step ;; repeat_loads n' load_step step body
  end.

Fixpoint layout_walk (fuel : nat) (p layout_end delta : Z) : M S_ sgx_status_t unit :=
  match fuel with
  | O => mlift Stuck
  | S k =>
      if layout_end <=? p then mret tt
      else
        layout ← mlift (deref (layout_at p md));
        (if negb (IS_GROUP_ID (l_id layout)) then f delta layout
         else repeat_loads (Z.to_nat (g_load_times layout)) (g_load_step layout) 0
                (fun step => layout_walk k (p - sizeof_layout * g_entry_count layout) p step)) ;;
        layout_walk k (p + sizeof_layout) layout_end delta
  end.

(** A table of [n] entries without nested groups takes at most [2 n + 2]
    turns in depth. *)
Definition walk_fuel (size : Z) : nat := 2 * table_count size sizeof_layout + 2.

Definition walk_layout : M S_ sgx_status_t unit :=
  let start := fget (Md.dir_offset DIR_LAYOUT) md in
  let size := fget (Md.dir_size DIR_LAYOUT) md in
  layout_walk (walk_fuel size) start (start + size) 0.
End Walk.

(** ** Building the enclave *)
Section Build.
Context {C : Type} {EC : EnclaveCreator C}.
Context (bp : BinParser) (md : list Z).
(** mprotect(2): the result for (address, length, protection) *)
Context (mprotect : Z -> Z -> Z -> Z).

Abbreviation L := (M (LS C) sgx_status_t).

Definition with_creator {A} (m : M C sgx_status_t A) : L A := fun s =>
  let '(c', r) := m (ls_creator s) in
  (MkLS c' (ls_image s) (m_enclave_id s) (m_start_addr s) (m_tcs_list s) (m_secs s), r).

Definition set_secs (x : secs_t) (s : LS C) : LS C :=
  MkLS (ls_creator s) (ls_image s) (m_enclave_id s) (m_start_addr s) (m_tcs_list s) x.
Definition set_image (i : list Z) (s : LS C) : LS C :=
  MkLS (ls_creator s) i (m_enclave_id s) (m_start_addr s) (m_tcs_list s) (m_secs s).
Definition set_ids (id addr : Z) (s : LS C) : LS C :=
  MkLS (ls_creator s) (ls_image s) id addr (m_tcs_list s) (m_secs s).
Definition push_tcs (x : Z * bool) (s : LS C) : LS C :=
  MkLS (ls_creator s) (ls_image s) (m_enclave_id s) (m_start_addr s) (m_tcs_list s ++ [x]) (m_secs s).

(** ENCLAVE_ID_IOCTL (hardware and signing builds): the start address *)
Definition ENCLAVE_ID_IOCTL (s : LS C) : Z := m_start_addr s.

(** The loop of build_pages: [n] pages from [rva]; pages that meet
    [skip_rva, skip_rva + skip_size) are not added. *)
Fixpoint build_pages_loop (n : nat) (rva skip_rva skip_size : Z) (source : option (list Z))
    (sinfo : sec_info_t) (attr : Z) : L unit :=
  match n with
  | O => mret tt
  | S n' =>
      (if (rva >=? u64 (skip_rva + skip_size)) || (u64 (rva + SE_PAGE_SIZE) <=? skip_rva) then
         s ← mget;
         with_creator (add_enclave_page (ENCLAVE_ID_IOCTL s) source rva sinfo attr)
       else mret tt) ;;
      build_pages_loop n' (u64 (rva + SE_PAGE_SIZE)) skip_rva skip_size source sinfo attr
  end.

Definition build_pages (start_rva size : Z) (source : option (list Z)) (sinfo : sec_info_t) (attr : Z)
  : L unit :=
  mlift (assertc (IS_PAGE_ALIGNED start_rva && IS_PAGE_ALIGNED size)) ;;
  let '(skip_rva, skip_size) :=
    match bp_mage_section bp with
    | Some sec => (s_rva sec, s_virtual_size sec)
    | None => (0, 0)
    end in
  build_pages_loop (Z.to_nat (size / SE_PAGE_SIZE)) start_rva skip_rva skip_size source sinfo attr.

Definition build_partial_page (rva size : Z) (source : list Z) (sinfo : sec_info_t) (attr : Z) : L unit :=
  let offset := PAGE_OFFSET rva in
  let page_data := zreplicate SE_PAGE_SIZE 0 in
  r ← mlift (memcpy_s (zdrop offset page_data) (SE_PAGE_SIZE - offset) source size);
  let page_data := ztake offset page_data ++ fst r in
  build_pages (TRIM_TO_PAGE rva) SE_PAGE_SIZE (Some page_data) sinfo attr.

(** The page flags inside a section: a relocation page is made writable. *)
Definition region_page_flags (sec_info : section_info_t) (rva : Z) : L Z :=
  if is_relocation_page rva (bitmap sec_info) && negb (hasflag (flag sec_info) SI_FLAG_W) then
    let fl := Z.lor (flag sec_info) SI_FLAG_W in
    s ← mget;
    (if use_se_hw (ls_creator s) then
       if mprotect (u64 (TRIM_TO_PAGE rva + m_start_addr s)) SE_PAGE_SIZE (Z.land fl SI_MASK_MEM_ATTRIBUTE) =? 0
       then mret tt else merr SGX_ERROR_UNEXPECTED
     else mret tt) ;;
    mret fl
  else mret (flag sec_info).

(** while (offset < raw_data_size); returns the final offset *)
Fixpoint region_raw_loop (fuel : nat) (sec_info : section_info_t) (offset : Z) : L Z :=
  match fuel with
  | O => mlift Stuck
  | S k =>
      if raw_data_size sec_info <=? offset then mret offset
      else
        let rva := u64 (sr_rva sec_info + offset) in
        let size := MIN (SE_PAGE_SIZE - PAGE_OFFSET rva) (raw_data_size sec_info - offset) in
        flags ← region_page_flags sec_info rva;
        let source := zdrop offset (raw_data sec_info) in
        (if size =? SE_PAGE_SIZE then build_pages rva size (Some source) (mk_sinfo flags) ADD_EXTEND_PAGE
         else build_partial_page rva size source (mk_sinfo flags) ADD_EXTEND_PAGE) ;;
        region_raw_loop k sec_info (u64 (offset + (SE_PAGE_SIZE - PAGE_OFFSET rva)))
  end.

(** Every turn but the first advances by a page. *)
Definition region_fuel (sec_info : section_info_t) : nat :=
  Z.to_nat (raw_data_size sec_info / SE_PAGE_SIZE + 3).

Definition build_mem_region (sec_info : section_info_t) : L unit :=
  offset ← region_raw_loop (region_fuel sec_info) sec_info 0;
  if virtual_size sec_info >? offset then
    let rva := u64 (sr_rva sec_info + offset) in
    let size := ROUND_TO_PAGE (u64 (virtual_size sec_info - offset + PAGE_OFFSET rva)) in
    build_pages (TRIM_TO_PAGE rva) size None (mk_sinfo (flag sec_info)) ADD_EXTEND_PAGE
  else mret tt.

Definition is_version_1_5 : bool :=
  META_DATA_MAKE_VERSION SGX_1_5_MAJOR_VERSION SGX_1_5_MINOR_VERSION =? fget Md.version md.

(** The extra page a 1.5 signing tool counted after an unaligned section. *)
Definition extra_page_gap (s : Section_) : bool :=
  ROUND_TO_PAGE (u64 (s_virtual_size s + s_rva s)) <?
  ROUND_TO_PAGE (u64 (ROUND_TO_PAGE (s_virtual_size s) + s_rva s)).

Definition build_extra_page (s : Section_) : L unit :=
  build_pages (ROUND_TO_PAGE (u64 (s_rva s + s_virtual_size s))) SE_PAGE_SIZE None
    (mk_sinfo (s_si_flags s)) ADD_EXTEND_PAGE.

(** for (i = 0; i < sections.size(); i++) with max_rva and last_section *)
Fixpoint build_sections_loop (sections : list Section_) (max_rva : Z) (last_section : option Section_)
    (bm : list Z) : L (option Section_) :=
  match sections with
  | [] => mret last_section
  | sec :: rest =>
      (match last_section with
       | Some ls =>
           if is_version_1_5 && extra_page_gap ls &&
              (ROUND_TO_PAGE (u64 (s_rva ls + s_virtual_size ls)) <? TRIM_TO_PAGE (s_rva sec))
           then build_extra_page ls else mret tt
       | None => mret tt
       end) ;;
      let '(max_rva, last_section) :=
        if s_rva sec >? max_rva then (s_rva sec, Some sec) else (max_rva, last_section) in
      s ← mget;
      build_mem_region (MkSecRange (zdrop (s_raw_data sec) (ls_image s)) (s_raw_data_size sec) (s_rva sec)
                          (s_virtual_size sec) (s_si_flags sec) (Some bm)) ;;
      build_sections_loop rest max_rva last_section bm
  end.

Definition build_sections (bm : list Z) : L unit :=
  last_section ← build_sections_loop (bp_sections bp) 0 None bm;
  match last_section with
  | Some ls => if is_version_1_5 && extra_page_gap ls then build_extra_page ls else mret tt
  | None => mret tt
  end.

(** The loop of build_mage_pages. *)
Fixpoint build_mage_loop (n : nat) (rva : Z) (source : list Z) (sinfo : sec_info_t) (attr : Z) : L unit :=
  match n with
  | O => mret tt
  | S n' =>
      s ← mget;
      with_creator (add_enclave_page (ENCLAVE_ID_IOCTL s) (Some source) rva sinfo attr) ;;
      build_mage_loop n' (u64 (rva + SE_PAGE_SIZE)) source sinfo attr
  end.

Definition build_mage_pages : L unit :=
  match bp_mage_section_ex bp with
  | None => mret tt
  | Some sec =>
      let rva := s_rva sec in
      let size := s_virtual_size sec in
      s ← mget;
      let source := zdrop (s_raw_data sec) (ls_image s) in
      mlift (assertc (IS_PAGE_ALIGNED rva && IS_PAGE_ALIGNED size)) ;;
      build_mage_loop (Z.to_nat (size / SE_PAGE_SIZE)) rva source (mk_sinfo 0x201) 3
  end.

(** tcs_t: ossa, ofs_base and ogs_base are relocated by the page's rva. *)
Definition tcs_relocate (rva : Z) (page : list Z) : list Z :=
  let bump f p := fset f (u64 (fget f p + rva)) p in
  bump (Fld 56 8) (bump (Fld 48 8) (bump (Fld 16 8) page)).

Definition build_context (start_rva : Z) (layout : layout_t) : L unit :=
  let rva := u64 (start_rva + l_rva layout) in
  let size := Z.shiftl (l_page_count layout) SE_PAGE_SHIFT in
  mlift (assertc (IS_PAGE_ALIGNED rva)) ;;
  (if hasflag (l_attributes layout) PAGE_ATTR_EADD then
     let attributes := l_attributes layout in
     if negb (l_content_offset layout =? 0) then
       let content := zdrop (l_content_offset layout) md in
       if l_si_flags layout =? SI_FLAGS_TCS then
         r ← mlift (memcpy_s (zreplicate SE_PAGE_SIZE 0) SE_PAGE_SIZE content (l_content_size layout));
         let added_page := tcs_relocate rva (fst r) in
         (if negb (hasflag attributes PAGE_ATTR_EREMOVE)
          then mmod (fun s => push_tcs (u64 (m_start_addr s + rva), false) s) else mret tt) ;;
         build_pages rva size (Some added_page) (mk_sinfo (l_si_flags layout)) attributes
       else
         build_mem_region (MkSecRange content (l_content_size layout) rva size (l_si_flags layout) None)
     else if negb (l_si_flags layout =? SI_FLAG_NONE) then
       let source :=
         if negb (l_content_size layout =? 0)
         then Some (concat (replicate 1024 (le_bytes 4 (l_content_size layout)))) else None in
       build_pages rva size source (mk_sinfo (l_si_flags layout)) attributes
     else mret tt
   else mret tt) ;;
  (if hasflag (l_attributes layout) PAGE_ATTR_POST_ADD && (l_id layout =? LAYOUT_ID_TCS_DYN)
   then mmod (fun s => push_tcs (u64 (m_start_addr s + rva), true) s) else mret tt).

Definition build_contexts : L unit := walk_layout build_context md.

Definition build_secs (secs_attr_ : sgx_attributes_t) (config_id : option (list Z)) (config_svn : Z)
    (misc_attr : sgx_misc_attribute_t) : L unit :=
  let secs := MkSecs (fget Md.enclave_size md) 0 (fget Md.ssa_frame_size md) (misc_select_ misc_attr)
                secs_attr_ (zreplicate 32 0)
                (default (zreplicate 64 0) config_id) config_svn in
  let hash := slice (Md.css_off + Css.body_enclave_hash_off) 32 md in
  let secs' := MkSecs (secs_size secs) (secs_base secs) (secs_ssa_frame_size secs)
                 (secs_misc_select secs) (secs_attributes secs) hash
                 (secs_config_id secs) (secs_config_svn secs) in
  mmod (set_secs secs) ;;
  mcase (with_creator (create_enclave secs (is_ae (md_css md))))
    (fun r => mmod (set_ids (fst r) (snd r)) ;; mmod (set_secs secs'))
    (fun e => mmod (set_secs secs') ;; merr e).

(** for (patch = patch_start; patch < patch_end; patch++) memcpy_s(...) *)
Fixpoint apply_patches (n : nat) (p : Z) (image : list Z) : res sgx_status_t (list Z) :=
  match n with
  | O => Ok image
  | S n' =>
      patch ← deref (patch_at p md);
      r ← memcpy_s (zdrop (p_dst patch) image) (p_size patch) (zdrop (p_src patch) md) (p_size patch);
      apply_patches n' (p + sizeof_patch) (ztake (p_dst patch) image ++ fst r)
  end.

Definition patch_image : L unit :=
  s ← mget;
  image ← mlift (apply_patches (dir_count md DIR_PATCH sizeof_patch)
                   (fget (Md.dir_offset DIR_PATCH) md) (ls_image s));
  mmod (set_image image).

(** The protection of one layout entry after EINIT (not a simulation build). *)
Definition entry_prot (layout : layout_t) : Z :=
  if l_si_flags layout =? SI_FLAG_NONE then Z.land SI_FLAG_NONE SI_MASK_MEM_ATTRIBUTE
  else if hasflag (l_attributes layout) PAGE_ATTR_EADD && hasflag (l_attributes layout) PAGE_ATTR_EREMOVE
  then Z.land SI_FLAG_NONE SI_MASK_MEM_ATTRIBUTE
  else Z.land SI_FLAGS_RW SI_MASK_MEM_ATTRIBUTE.

Definition set_context_protection : L unit :=
  walk_layout (fun delta layout =>
    s ← mget;
    if mprotect (u64 (m_start_addr s + u64 (l_rva layout + delta)))
         (Z.shiftl (l_page_count layout) SE_PAGE_SHIFT) (entry_prot layout) =? 0
    then mret tt else merr SGX_ERROR_UNEXPECTED) md.

Fixpoint emodpr_all (pages : list (Z * Z * Z)) : L unit :=
  match pages with
  | [] => mret tt
  | (start, len, perm) :: rest =>
      mcase (with_creator (emodpr start len perm))
        (fun _ => emodpr_all rest) (fun _ => merr SGX_ERROR_UNEXPECTED)
  end.

Definition set_memory_protection (is_after_initialization : bool) : L unit :=
  s ← mget;
  ok ← mlift (bp_set_memory_protection bp (ls_image s) (m_start_addr s) is_after_initialization);
  if negb ok then merr SGX_ERROR_UNEXPECTED
  else
    (if is_after_initialization &&
        (META_DATA_MAKE_VERSION MAJOR_VERSION MINOR_VERSION <=? fget Md.version md) &&
        is_EDMM_supported (m_enclave_id s) (ls_creator s)
     then pages ← mlift (bp_pages_to_protect bp (ls_image s) (m_start_addr s)); emodpr_all pages
     else mret tt) ;;
    set_context_protection.

Definition post_init_action : L unit :=
  walk_layout (fun delta layout =>
    if hasflag (l_attributes layout) PAGE_ATTR_POST_REMOVE then
      s ← mget;
      let start_addr := u64 (u64 (l_rva layout + delta) + m_start_addr s) in
      with_creator (trim_range start_addr (u64 (start_addr + Z.shiftl (l_page_count layout) SE_PAGE_SHIFT)))
    else mret tt) md.

Fixpoint trim_accept_loop (n : nat) (i start_addr : Z) : L unit :=
  match n with
  | O => mret tt
  | S n' =>
      with_creator (trim_accept (u64 (start_addr + Z.shiftl i SE_PAGE_SHIFT))) ;;
      trim_accept_loop n' (i + 1) start_addr
  end.

Definition post_init_action_commit : L unit :=
  walk_layout (fun delta layout =>
    if hasflag (l_attributes layout) PAGE_ATTR_POST_REMOVE then
      s ← mget;
      trim_accept_loop (Z.to_nat (l_page_count layout)) 0 (u64 (u64 (l_rva layout + delta) + m_start_addr s))
    else mret tt) md.

(** On an error the enclave is destroyed and the error returned. *)
Definition or_destroy (m : L unit) : L unit :=
  mcase m (fun _ => mret tt)
    (fun e =>
       s ← mget;
       mcase (with_creator (destroy_enclave (ENCLAVE_ID_IOCTL s) (secs_size (m_secs s))))
         (fun _ => merr e) (fun _ => merr e)).

(** get_reloc_bitmap on the file before it is patched *)
Definition reloc_bitmap : L (list Z) :=
  s ← mget;
  mcase (mlift (bp_reloc_bitmap bp (ls_image s))) mret (fun _ => merr SGX_ERROR_INVALID_ENCLAVE).

Definition build_image (lc : option (list Z)) (secs_attr_ : sgx_attributes_t) (config_id : option (list Z))
    (config_svn : Z) (prd_css_file : option (list Z)) (misc_attr : sgx_misc_attribute_t) : L unit :=
  build_secs secs_attr_ config_id config_svn misc_attr ;;
  bm ← reloc_bitmap;
  patch_image ;;
  or_destroy (
    build_sections bm ;;
    build_contexts ;;
    build_mage_pages ;;
    s ← mget;
    with_creator (init_enclave (ENCLAVE_ID_IOCTL s) (md_css md) lc prd_css_file)) ;;
  s ← mget;
  if use_se_hw (ls_creator s) then
    mcase (set_memory_protection false) (fun _ => mret tt) (fun _ => mret tt)
  else mret tt.

(** load_enclave; returns the attributes stored in misc_attr *)
Definition load_enclave (lc : option (list Z)) (debug : Z) (config_id : option (list Z)) (config_svn : Z)
    (prd_css_file : option (list Z)) : L sgx_misc_attribute_t :=
  mlift (validate_metadata md (bp_enclave_max_size bp)) ;;
  misc ← with_creator (get_misc_attr md lc debug);
  build_image lc (secs_attr misc) config_id config_svn prd_css_file misc ;;
  let attr := MkAttr (Z.lor (at_flags (secs_attr misc)) SGX_FLAGS_INITTED) (at_xfrm (secs_attr misc)) in
  mmod (fun s => let x := m_secs s in
    set_secs (MkSecs (secs_size x) (secs_base x) (secs_ssa_frame_size x) (secs_misc_select x) attr
                (secs_mr_enclave x) (secs_config_id x) (secs_config_svn x)) s) ;;
  mret (MkMisc attr (misc_select_ misc)).

(** while (retry): lost enclaves are retried without bound, mapping
    conflicts [conflicts] times. *)
Fixpoint load_retry {A} (fuel : nat) (conflicts : nat) (load : L A) : L A :=
  match fuel with
  | O => mlift Stuck
  | S k =>
      mcase load mret (fun ret =>
        match ret with
        | SGX_ERROR_ENCLAVE_LOST => load_retry k conflicts load
        | SGX_ERROR_MEMORY_MAP_CONFLICT =>
            match conflicts with
            | O => merr ret
            | S c => load_retry k c load
            end
        | _ => merr ret
        end)
  end.

Definition load_enclave_ex (fuel : nat) (lc : option (list Z)) (debug : bool) (config_id : option (list Z))
    (config_svn : Z) (prd_css_file : option (list Z)) : L sgx_misc_attribute_t :=
  load_retry fuel 3 (load_enclave lc (Z.b2z debug) config_id config_svn prd_css_file).

Definition destroy_enclave_ : L unit :=
  s ← mget; with_creator (destroy_enclave (ENCLAVE_ID_IOCTL s) (secs_size (m_secs s))).
End Build.
