(* ===== verification/LoaderSim.v ===== *)
(** * The loader is parametric in the creator

    If one creator refines another, loading with the first refines loading
    with the second: the loader returns the same results and leaves related
    creators.  With [sign_refines_trace] this carries every fact about the
    log of [TraceCreator] over to the hashes of the signing tool. *)
From S2P Require Import Prelude Bytes Arch Measure Creator Loader.

#[local] Open Scope Z_scope.

Section LoaderSim.
Context {C1 C2 : Type} (R : C1 -> C2 -> Prop) {I1 : EnclaveCreator C1} {I2 : EnclaveCreator C2}
        {CR : PageRefines R}.
Context (Q : list Z -> list Z -> Prop).

(** Creators related by [R], file images by [Q], everything else equal. *)
Record ls_rel (s : LS C1) (t : LS C2) : Prop := MkRel {
  rel_creator : R (ls_creator s) (ls_creator t);
  rel_image : Q (ls_image s) (ls_image t);
  rel_id : m_enclave_id s = m_enclave_id t;
  rel_addr : m_start_addr s = m_start_addr t;
  rel_tcs : m_tcs_list s = m_tcs_list t;
  rel_secs : m_secs s = m_secs t }.

Lemma sim_with_creator {A} (m : M C1 sgx_status_t A) (n : M C2 sgx_status_t A) :
  sim R m n -> sim ls_rel (with_creator m) (with_creator n).
Proof.
  intros H s t [Hc Hi Hd Ha Ht Hs]. specialize (H _ _ Hc). unfold with_creator.
  destruct (n (ls_creator t)) as [c' r]. destruct r; [..|done]; destruct H as (s' & -> & HR);
    eexists; (split; [done|]); by constructor.
Qed.

Lemma sim_get {A} (f : LS C1 -> M (LS C1) sgx_status_t A) (g : LS C2 -> M (LS C2) sgx_status_t A) :
  (forall s t, ls_rel s t -> sim ls_rel (f s) (g t)) -> sim ls_rel (mget ≫= f) (mget ≫= g).
Proof. intros H s t Hr. by apply (H s t Hr). Qed.

Lemma sim_mod (f : LS C1 -> LS C1) (g : LS C2 -> LS C2) :
  (forall s t, ls_rel s t -> ls_rel (f s) (g t)) ->
  sim (E:=sgx_status_t) ls_rel (mmod f) (mmod g).
Proof. intros H s t Hr. eexists; split; [done|]. by apply H. Qed.

Lemma rel_set_secs x s t : ls_rel s t -> ls_rel (set_secs x s) (set_secs x t).
Proof. by intros []; constructor. Qed.
Lemma rel_set_image x y s t : Q x y -> ls_rel s t -> ls_rel (set_image x s) (set_image y t).
Proof. by intros ? []; constructor. Qed.
Lemma rel_set_ids x y s t : ls_rel s t -> ls_rel (set_ids x y s) (set_ids x y t).
Proof. by intros []; constructor. Qed.
Lemma rel_push_tcs x y s t :
  ls_rel s t -> ls_rel (push_tcs (u64 (m_start_addr s + x), y) s) (push_tcs (u64 (m_start_addr t + x), y) t).
Proof.
  intros [Hc Hi Hd Ha Ht Hs]. constructor; unfold push_tcs; cbn; try done. by rewrite Ha, Ht.
Qed.
End LoaderSim.

#[export] Hint Resolve sim_ret sim_err sim_lift sim_with_creator sim_mod
  rel_set_secs rel_set_image rel_set_ids rel_push_tcs : mage.
#[export] Hint Resolve cr_pages cr_create cr_add cr_init cr_destroy cr_misc cr_emodpr cr_trim_range cr_trim_accept : mage.

(** Split a simulation goal along the structure of the two programs. *)
Ltac sim_step :=
  match goal with
  | |- sim _ (mget ≫= _) (mget ≫= _) => apply sim_get; intros ? ? [? ? ? ? ? ?]
  | |- sim _ (_ ≫= _) (_ ≫= _) => apply sim_bind; [|intros ?]
  | |- sim _ (mcase _ _ _) (mcase _ _ _) => apply sim_case; [|intros ?|intros ?]
  | |- sim _ (if ?b then _ else _) (if ?b then _ else _) => apply sim_if
  | |- sim _ (match ?x with _ => _ end) (match ?x with _ => _ end) => destruct x
  | H : m_start_addr ?s = m_start_addr ?t |- context [m_start_addr ?s] => rewrite H
  | H : ls_image ?s = ls_image ?t |- context [ls_image ?s] => rewrite H
  | HQ : forall a b, ?Q a b -> a = b, H : ?Q (ls_image ?s) (ls_image ?t) |- context [ls_image ?s] =>
      rewrite (HQ _ _ H)
  | H : m_enclave_id ?s = m_enclave_id ?t |- context [m_enclave_id ?s] => rewrite H
  | H : m_secs ?s = m_secs ?t |- context [m_secs ?s] => rewrite H
  | H : ?R (ls_creator ?s) (ls_creator ?t) |- context [use_se_hw (ls_creator ?s)] =>
      rewrite (cr_hw (R:=R) _ _ H)
  | H : ?R (ls_creator ?s) (ls_creator ?t) |- context [is_EDMM_supported ?i (ls_creator ?s)] =>
      rewrite (cr_edmm (R:=R) i _ _ H)
  end.
Ltac sim_auto := repeat first [sim_step | solve [auto 4 with mage]].

Section LoaderSim2.
Context {C1 C2 : Type} (R : C1 -> C2 -> Prop) {I1 : EnclaveCreator C1} {I2 : EnclaveCreator C2}
        {CR : PageRefines R}.
Context (Q : list Z -> list Z -> Prop).
Context (bp : BinParser) (md : list Z) (mprotect : Z -> Z -> Z -> Z).
Abbreviation rel := (ls_rel R Q).

Lemma sim_build_pages_loop n rva skr sks src si attr :
  sim rel (build_pages_loop n rva skr sks src si attr) (build_pages_loop n rva skr sks src si attr).
Proof.
  revert rva. induction n as [|n IH]; intros rva; cbn [build_pages_loop]; [auto with mage|].
  unfold ENCLAVE_ID_IOCTL. sim_auto.
Qed.

Lemma sim_build_pages rva size src si attr :
  sim rel (build_pages bp rva size src si attr) (build_pages bp rva size src si attr).
Proof.
  unfold build_pages. sim_step; [auto with mage|]. destruct (bp_mage_section bp); apply sim_build_pages_loop.
Qed.
#[local] Hint Resolve sim_build_pages : mage.

Lemma sim_build_partial_page rva size src si attr :
  sim rel (build_partial_page bp rva size src si attr) (build_partial_page bp rva size src si attr).
Proof. unfold build_partial_page. sim_auto. Qed.
#[local] Hint Resolve sim_build_partial_page : mage.

Lemma sim_region_page_flags si rva :
  sim rel (region_page_flags mprotect si rva) (region_page_flags mprotect si rva).
Proof. unfold region_page_flags. sim_auto. Qed.
#[local] Hint Resolve sim_region_page_flags : mage.

Lemma sim_region_raw_loop fuel si off :
  sim rel (region_raw_loop bp mprotect fuel si off) (region_raw_loop bp mprotect fuel si off).
Proof.
  revert off. induction fuel as [|k IH]; intros off; cbn [region_raw_loop]; [auto with mage|]. sim_auto.
Qed.
#[local] Hint Resolve sim_region_raw_loop : mage.

Lemma sim_build_mem_region si :
  sim rel (build_mem_region bp mprotect si) (build_mem_region bp mprotect si).
Proof. unfold build_mem_region. sim_auto. Qed.
#[local] Hint Resolve sim_build_mem_region : mage.

Lemma sim_build_mage_loop n rva src si attr :
  sim rel (build_mage_loop n rva src si attr) (build_mage_loop n rva src si attr).
Proof.
  revert rva. induction n as [|n IH]; intros rva; cbn [build_mage_loop]; [auto with mage|].
  unfold ENCLAVE_ID_IOCTL. sim_auto.
Qed.
#[local] Hint Resolve sim_build_mage_loop : mage.

Lemma sim_build_context delta l :
  sim rel (build_context bp md mprotect delta l) (build_context bp md mprotect delta l).
Proof. unfold build_context. sim_auto. Qed.
#[local] Hint Resolve sim_build_context : mage.

Lemma sim_repeat_loads n ls st b1 b2 :
  (forall x, sim rel (b1 x) (b2 x)) -> sim rel (repeat_loads n ls st b1) (repeat_loads n ls st b2).
Proof.
  intros Hb. revert st. induction n as [|n IH]; intros st; cbn [repeat_loads]; [auto with mage|].
  apply sim_bind; auto.
Qed.

Lemma sim_walk f1 f2 fuel p e delta :
  (forall d l, sim rel (f1 d l) (f2 d l)) ->
  sim rel (layout_walk f1 md fuel p e delta) (layout_walk f2 md fuel p e delta).
Proof.
  intros Hf. revert p e delta. induction fuel as [|k IH]; intros p e delta; cbn [layout_walk];
    [auto with mage|].
  sim_step; [auto with mage|]. sim_step; [auto with mage|].
  apply sim_bind; [|auto]. sim_step; [auto|]. by apply sim_repeat_loads.
Qed.

Lemma sim_walk_layout f1 f2 :
  (forall d l, sim rel (f1 d l) (f2 d l)) -> sim rel (walk_layout f1 md) (walk_layout f2 md).
Proof. intros Hf. by apply sim_walk. Qed.

Lemma sim_build_contexts : sim rel (build_contexts bp md mprotect) (build_contexts bp md mprotect).
Proof. apply sim_walk_layout. auto with mage. Qed.

Lemma sim_emodpr_all pages : sim rel (emodpr_all pages) (emodpr_all pages).
Proof. induction pages as [|[[? ?] ?] rest IH]; cbn [emodpr_all]; sim_auto. Qed.
#[local] Hint Resolve sim_emodpr_all : mage.

Lemma sim_set_context_protection :
  sim rel (set_context_protection md mprotect) (set_context_protection md mprotect).
Proof. apply sim_walk_layout. intros d l. sim_auto. Qed.
#[local] Hint Resolve sim_set_context_protection : mage.

Lemma sim_or_destroy m1 m2 : sim rel m1 m2 -> sim rel (or_destroy m1) (or_destroy m2).
Proof. intros H. unfold or_destroy, ENCLAVE_ID_IOCTL. sim_auto. Qed.
End LoaderSim2.

#[export] Hint Resolve sim_build_pages sim_build_partial_page sim_region_page_flags sim_region_raw_loop
  sim_build_mem_region sim_build_mage_loop sim_build_context sim_emodpr_all sim_set_context_protection
  sim_build_contexts sim_or_destroy : mage.

(** ** Functions that read the file: equal images *)
Section LoaderSim3.
Context {C1 C2 : Type} (R : C1 -> C2 -> Prop) {I1 : EnclaveCreator C1} {I2 : EnclaveCreator C2}
        {CR : PageRefines R}.
Context (Q : list Z -> list Z -> Prop) (HQ : forall a b, Q a b -> a = b).
Context (bp : BinParser) (md : list Z) (mprotect : Z -> Z -> Z -> Z).
Abbreviation rel := (ls_rel R Q).

Lemma sim_build_sections_loop secs mx lst bm :
  sim rel (build_sections_loop bp md mprotect secs mx lst bm) (build_sections_loop bp md mprotect secs mx lst bm).
Proof.
  revert mx lst. induction secs as [|sec rest IH]; intros mx lst; cbn [build_sections_loop]; [auto with mage|].
  unfold build_extra_page. sim_auto.
Qed.
#[local] Hint Resolve sim_build_sections_loop : mage.

Lemma sim_build_sections bm : sim rel (build_sections bp md mprotect bm) (build_sections bp md mprotect bm).
Proof. unfold build_sections, build_extra_page. sim_auto. Qed.

Lemma sim_build_mage_pages : sim rel (build_mage_pages bp) (build_mage_pages bp).
Proof. unfold build_mage_pages. sim_auto. Qed.

Lemma sim_reloc_bitmap : sim rel (reloc_bitmap bp) (reloc_bitmap bp).
Proof. unfold reloc_bitmap. sim_auto. Qed.

Lemma sim_set_memory_protection b :
  sim rel (set_memory_protection bp md mprotect b) (set_memory_protection bp md mprotect b).
Proof. unfold set_memory_protection. sim_auto. Qed.

End LoaderSim3.

#[export] Hint Resolve sim_build_sections sim_build_mage_pages sim_reloc_bitmap sim_set_memory_protection : mage.

(** ** The enclave after its creation *)
Section LoaderSim3b.
Context {C1 C2 : Type} (R : C1 -> C2 -> Prop) {I1 : EnclaveCreator C1} {I2 : EnclaveCreator C2}
        {CR : PageRefines R}.
Context (bp : BinParser) (md : list Z) (mprotect : Z -> Z -> Z -> Z).
Abbreviation rel := (ls_rel R eq).

Lemma sim_patch_image : sim rel (patch_image md) (patch_image md).
Proof. unfold patch_image. sim_auto. Qed.

#[local] Hint Resolve sim_patch_image : mage.

(** What build_image does once the enclave is created. *)
Definition build_rest {C} {I : EnclaveCreator C} (lc prd : option (list Z)) : M (LS C) sgx_status_t unit :=
  bm ← reloc_bitmap bp;
  patch_image md ;;
  or_destroy (
    build_sections bp md mprotect bm ;;
    build_contexts bp md mprotect ;;
    build_mage_pages bp ;;
    s ← mget;
    with_creator (init_enclave (ENCLAVE_ID_IOCTL s) (md_css md) lc prd)) ;;
  s ← mget;
  if use_se_hw (ls_creator s) then
    mcase (set_memory_protection bp md mprotect false) (fun _ => mret tt) (fun _ => mret tt)
  else mret tt.

Lemma sim_build_rest lc prd : sim rel (build_rest lc prd) (build_rest lc prd).
Proof.
  unfold build_rest, ENCLAVE_ID_IOCTL. do 2 (apply sim_bind; [auto with mage|intros ?]).
  apply sim_bind; [apply sim_or_destroy|intros ?]; sim_auto.
Qed.
End LoaderSim3b.

(** ** Creating and loading *)
Section LoaderSim4.
Context {C1 C2 : Type} (R : C1 -> C2 -> Prop) {I1 : EnclaveCreator C1} {I2 : EnclaveCreator C2}
        {CR : CreatorRefines R}.
Context (bp : BinParser) (md : list Z) (mprotect : Z -> Z -> Z -> Z).
Abbreviation rel := (ls_rel R eq).

Lemma sim_build_secs a ci cs mi : sim rel (build_secs md a ci cs mi) (build_secs md a ci cs mi).
Proof. unfold build_secs. sim_auto. Qed.

Lemma sim_build_image lc a ci cs prd mi :
  sim rel (build_image bp md mprotect lc a ci cs prd mi) (build_image bp md mprotect lc a ci cs prd mi).
Proof.
  apply (sim_bind _ _ _ (fun _ => build_rest bp md mprotect lc prd) (fun _ => build_rest bp md mprotect lc prd));
    [apply sim_build_secs|intros _; apply sim_build_rest, _].
Qed.
#[local] Hint Resolve sim_build_image : mage.

Lemma sim_load_enclave lc dbg ci cs prd :
  sim rel (load_enclave bp md mprotect lc dbg ci cs prd) (load_enclave bp md mprotect lc dbg ci cs prd).
Proof.
  unfold load_enclave. do 3 (apply sim_bind; [auto with mage|intros ?]).
  apply sim_bind; [|auto with mage]. apply sim_mod. intros s t H.
  rewrite (rel_secs _ _ _ _ H). auto with mage.
Qed.

Lemma sim_load_retry {A} fuel conflicts (l1 : M (LS C1) sgx_status_t A) l2 :
  sim rel l1 l2 -> sim rel (load_retry fuel conflicts l1) (load_retry fuel conflicts l2).
Proof.
  intros H. revert conflicts. induction fuel as [|k IH]; intros conflicts; cbn [load_retry];
    [auto with mage|].
  apply sim_case; [done|auto with mage|]. intros []; auto with mage.
  destruct conflicts; auto with mage.
Qed.

Lemma sim_load_enclave_ex fuel lc dbg ci cs prd :
  sim rel (load_enclave_ex bp md mprotect fuel lc dbg ci cs prd)
          (load_enclave_ex bp md mprotect fuel lc dbg ci cs prd).
Proof. apply sim_load_retry, sim_load_enclave. Qed.
End LoaderSim4.
