(* ===== verification/LoaderSpec.v ===== *)
(** * What metadata validation guarantees

    [expand_table] is the load order the comment in metadata.h describes: the
    entries of the layout table, with each group replaced by its entries once
    per load.  A table that passes [validate_layout_table] expands to regions
    that are page aligned, inside the enclave and pairwise disjoint, and the
    recursive traversals of the loader visit exactly that expansion. *)
From Stdlib Require Import Sorting.Sorted.
From S2P Require Import Prelude Bytes Arch Measure Creator Loader.

#[local] Open Scope Z_scope.

(** ** Sorting *)
Definition pair_le (x y : Z * Z) : Prop := pair_leb x y = true.

Lemma pair_leb_spec x y : pair_leb x y = true <-> fst x < fst y \/ (fst x = fst y /\ snd x <= snd y).
Proof. unfold pair_leb. lia. Qed.

Lemma insert_pair_perm x l : insert_pair x l ≡ₚ x :: l.
Proof.
  induction l as [|y l IH]; cbn [insert_pair]; [done|]. destruct (pair_leb x y); [done|].
  rewrite IH. apply Permutation_swap.
Qed.

Lemma sort_pairs_perm l : sort_pairs l ≡ₚ l.
Proof. induction l as [|x l IH]; cbn [sort_pairs]; [done|]. by rewrite insert_pair_perm, IH. Qed.

Lemma insert_pair_sorted x l : StronglySorted pair_le l -> StronglySorted pair_le (insert_pair x l).
Proof.
  unfold pair_le. induction 1 as [|y l Hl IH Hy]; cbn [insert_pair]; [repeat constructor|].
  destruct (pair_leb x y) eqn:E.
  - constructor; [by constructor|]. constructor; [done|].
    eapply Forall_impl; [exact Hy|]. cbn. intros z. rewrite !pair_leb_spec in *. lia.
  - constructor; [done|]. rewrite insert_pair_perm. constructor; [|done].
    apply pair_leb_spec. apply not_true_iff_false in E. rewrite pair_leb_spec in E. lia.
Qed.

Lemma sort_pairs_sorted l : StronglySorted pair_le (sort_pairs l).
Proof. induction l; cbn [sort_pairs]; [constructor|by apply insert_pair_sorted]. Qed.

(** ** Regions that pass the checks *)
Section Regions.
Context (md : list Z) (Hmd : bytes_ok md).

Definition esize : Z := fget Md.enclave_size md.

Lemma esize_range : 0 <= esize < 2 ^ 64.
Proof. apply fget_range; [done|cbn; lia]. Qed.

(** The region [(rva, size)] is page aligned and inside the enclave. *)
Definition region_ok (r : Z * Z) : Prop :=
  fst r mod SE_PAGE_SIZE = 0 /\ fst r < esize /\ fst r + snd r <= esize.

Definition disjoint_regions (x y : Z * Z) : Prop :=
  fst x + snd x <= fst y \/ fst y + snd y <= fst x.

Lemma is_enclave_buffer_spec off size :
  is_u64 off -> is_u64 size ->
  is_enclave_buffer md off size = true <-> off < esize /\ off + size <= esize.
Proof.
  unfold is_u64, is_enclave_buffer. fold esize. pose proof esize_range. intros Ho Hs.
  destruct (off >=? esize) eqn:E; zbool; [split; [done|lia]|]. unfold u64.
  rewrite negb_true_iff, !orb_false_iff. split; intros; zbool; zlia.
Qed.

Definition pair_range (r : Z * Z) : Prop := is_u64 (fst r) /\ is_u64 (snd r).

(** The loop over the sorted vector establishes the ordering of all pairs. *)
Lemma check_rvas_spec v :
  Forall pair_range v -> StronglySorted pair_le v -> check_rvas md v = Ok tt ->
  Forall region_ok v /\ StronglySorted (fun x y => fst x + snd x <= fst y) v.
Proof.
  intros Hr Hs. induction Hs as [|[a n] v Hs IH Hle]; cbn [check_rvas]; [by split; constructor|].
  apply Forall_cons in Hr as [[Ha Hn] Hr]. cbn [fst snd] in *.
  destruct (IS_PAGE_ALIGNED a) eqn:Ea; cbn [negb]; [|done].
  destruct (is_enclave_buffer md a n) eqn:Eb; cbn [negb]; [|done].
  apply is_enclave_buffer_spec in Eb as [Eb1 Eb2]; [|done..]. apply IS_PAGE_ALIGNED_spec in Ea.
  pose proof esize_range. assert (region_ok (a, n)) as Hreg by done.
  destruct v as [|[b m] v]; [intros _; split; repeat constructor; apply Hreg|].
  destruct (u64 (a + n) >? b) eqn:Eg; [done|]. intros E. destruct (IH Hr E) as [H1 H2].
  rewrite u64_id in Eg by (unfold is_u64 in *; lia). zbool.
  split; [by constructor|]. constructor; [done|]. constructor; [cbn; lia|].
  inversion_clear Hs as [|? ? _ Hle']. eapply Forall_impl; [exact Hle'|].
  unfold pair_le. intros z. rewrite pair_leb_spec. cbn [fst snd] in *. lia.
Qed.

(** The conclusion for an unsorted vector: any two positions are disjoint. *)
Definition all_disjoint (v : list (Z * Z)) : Prop :=
  ForallOrdPairs disjoint_regions v.

Lemma ford_perm {A} (P : A -> A -> Prop) l l' :
  (forall x y, P x y -> P y x) -> l ≡ₚ l' -> ForallOrdPairs P l -> ForallOrdPairs P l'.
Proof.
  intros Hsym Hp. induction Hp as [|x l l' Hp IH|x y l|l1 l2 l3 _ IH1 _ IH2]; intros H; auto.
  - inversion_clear H as [|? ? Hx Hl]. constructor; [|by apply IH]. by rewrite <- Hp.
  - inversion_clear H as [|? ? Hx Hl]. inversion_clear Hl as [|? ? Hy Hl'].
    apply Forall_cons in Hx as [Hxy Hx]. repeat constructor; auto.
Qed.

Lemma check_sorted_disjoint v :
  Forall pair_range v -> check_rvas md (sort_pairs v) = Ok tt ->
  Forall region_ok v /\ all_disjoint v.
Proof.
  intros Hr Hc. destruct (check_rvas_spec (sort_pairs v)) as [H1 H2].
  - by rewrite sort_pairs_perm.
  - apply sort_pairs_sorted.
  - done.
  - rewrite sort_pairs_perm in H1. split; [done|]. unfold all_disjoint.
    apply (ford_perm _ (sort_pairs v)); [unfold disjoint_regions; tauto|apply sort_pairs_perm|].
    clear - H2. induction H2 as [|x l H2 IH Hx]; constructor; [|done].
    eapply Forall_impl; [exact Hx|]. intros y. by left.
Qed.
End Regions.

(** ** The expansion of a layout table *)

(** The accumulated step of each load of a group. *)
Fixpoint group_deltas (times : nat) (load_step acc : Z) : list Z :=
  match times with
  | O => []
  | S n => u64 (acc + load_step) :: group_deltas n load_step (u64 (acc + load_step))
  end.

Definition last_n {A} (n : Z) (l : list A) : list A := zdrop (zlen l - n) l.

(** The entries in load order with their displacement; [pre] is the part of
    the table already passed. *)
Fixpoint expand_table (pre tbl : list layout_t) : list (Z * layout_t) :=
  match tbl with
  | [] => []
  | l :: rest =>
      (if IS_GROUP_ID (l_id l)
       then concat (map (fun d => map (pair d) (last_n (g_entry_count l) pre))
                        (group_deltas (Z.to_nat (g_load_times l)) (g_load_step l) 0))
       else [(0, l)]) ++ expand_table (pre ++ [l]) rest
  end.

Definition not_group (l : layout_t) : Prop := IS_GROUP_ID (l_id l) = false.

(** Groups refer to preceding entries, which are not groups themselves. *)
Fixpoint table_valid (pre tbl : list layout_t) : Prop :=
  match tbl with
  | [] => True
  | l :: rest =>
      (IS_GROUP_ID (l_id l) = true ->
         0 <= g_entry_count l <= zlen pre /\
         (0 < g_load_times l -> Forall not_group (last_n (g_entry_count l) pre))) /\
      table_valid (pre ++ [l]) rest
  end.

Definition region_of (x : Z * layout_t) : Z * Z := rva_pair (snd x) (fst x).

Section Table.
Context (md : list Z) (Hmd : bytes_ok md).

(** The records [l] lie consecutively at [p]. *)
Definition reads (p : Z) (l : list layout_t) : Prop :=
  table_from layout_at sizeof_layout p (length l) md = map Some l.

Lemma reads_cons p x l : reads p (x :: l) <-> layout_at p md = Some x /\ reads (p + sizeof_layout) l.
Proof.
  unfold reads. cbn [length table_from map]. split; [by intros [= -> ->]|by intros [-> ->]].
Qed.

Lemma reads_app p l1 l2 :
  reads p (l1 ++ l2) <-> reads p l1 /\ reads (p + sizeof_layout * zlen l1) l2.
Proof.
  revert p. induction l1 as [|x l1 IH]; intros p.
  - cbn [app length]. rewrite Z.mul_0_r, Z.add_0_r. unfold reads at 2. tauto.
  - rewrite <- app_comm_cons, !reads_cons, IH.
    replace (p + sizeof_layout + sizeof_layout * zlen l1)
      with (p + sizeof_layout * zlen (x :: l1)) by (cbn [length]; lia). tauto.
Qed.

Lemma reads_det p l1 l2 : reads p l1 -> reads p l2 -> length l1 = length l2 -> l1 = l2.
Proof.
  unfold reads. intros H1 H2 E. rewrite E in H1. rewrite H1 in H2.
  revert H2. generalize l1 l2. clear. induction l1 as [|x l1 IH]; intros [|y l2]; try done.
  cbn [map]. intros [= -> E]. f_equal. by apply IH.
Qed.

Lemma layout_at_ok p l : layout_at p md = Some l -> layout_ok l.
Proof.
  unfold layout_at. destruct (_ || _); [done|]. intros [= <-].
  pose proof (bytes_ok_slice p sizeof_layout _ Hmd) as Hb.
  repeat split; cbn [l_id l_attributes l_page_count l_rva l_content_size l_content_offset l_si_flags];
    apply fget_range; cbn; done || lia.
Qed.

Lemma group_entries_ok n p step v :
  group_entries md n p step = Ok v ->
  exists es, length es = n /\ reads p es /\ Forall not_group es /\ v = map (fun e => rva_pair e step) es.
Proof.
  revert p v. induction n as [|n IH]; intros p v; cbn [group_entries].
  { intros [= <-]. exists []. by repeat split. }
  unfold mbind, res_bind, deref. destruct (layout_at p md) as [e|] eqn:E; [|done].
  destruct (IS_GROUP_ID (l_id e)) eqn:Eg; [done|].
  destruct (group_entries md n _ step) as [v'| |] eqn:Ev; [|done..]. intros [= <-].
  destruct (IH _ _ Ev) as (es & Hl & Hr & Hn & ->).
  exists (e :: es). rewrite reads_cons. cbn. split_and!; auto.
Qed.

(** The entries a group names are the last ones before it. *)
Lemma reads_last_n start pre n :
  reads start pre -> 0 <= n <= zlen pre ->
  reads (start + sizeof_layout * zlen pre - sizeof_layout * n) (last_n n pre) /\
  zlen (last_n n pre) = n.
Proof.
  intros Hr Hn. unfold last_n. rewrite <- (ztake_zdrop (zlen pre - n) pre) in Hr at 1.
  apply reads_app in Hr as [_ Hr]. rewrite zlen_ztake, zlen_zdrop in *. split; [|lia].
  replace (_ - sizeof_layout * n) with (start + sizeof_layout * Z.max 0 (Z.min (zlen pre - n) (zlen pre)));
    [done|unfold sizeof_layout; lia].
Qed.

Lemma group_loads_ok times g start pre acc v :
  reads start pre -> 0 <= g_entry_count g <= zlen pre ->
  group_loads md times g (start + sizeof_layout * zlen pre) acc = Ok v ->
  ((0 < times)%nat -> Forall not_group (last_n (g_entry_count g) pre)) /\
  v = map region_of (concat (map (fun d => map (pair d) (last_n (g_entry_count g) pre))
                                 (group_deltas times (g_load_step g) acc))).
Proof.
  intros Hr Hec. destruct (reads_last_n start pre _ Hr Hec) as [Hrl Hll].
  revert acc v. induction times as [|n IH]; intros acc v; cbn [group_loads group_deltas].
  { intros [= <-]. split; [lia|done]. }
  destruct (_ >? _); [done|]. unfold mbind, res_bind.
  destruct (group_entries _ _ _ _) as [v1| |] eqn:E1; [|done..].
  destruct (group_loads _ _ _ _ _) as [v2| |] eqn:E2; [|done..]. intros [= <-].
  destruct (group_entries_ok _ _ _ _ E1) as (es & Hl & Hre & Hn & ->).
  assert (es = last_n (g_entry_count g) pre) as -> by (eapply reads_det; [exact Hre|exact Hrl|lia]).
  destruct (IH _ _ E2) as [_ ->]. split; [done|].
  cbn [map concat]. rewrite map_app, map_map. done.
Qed.

Lemma collect_rvas_ok n start pre v :
  reads start pre ->
  collect_rvas md n start (start + sizeof_layout * zlen pre) = Ok v ->
  exists tbl, length tbl = n /\ reads (start + sizeof_layout * zlen pre) tbl /\
    table_valid pre tbl /\ v = map region_of (expand_table pre tbl).
Proof.
  revert pre v. induction n as [|n IH]; intros pre v Hr; cbn [collect_rvas].
  { intros [= <-]. exists []. by split_and!. }
  unfold mbind, res_bind, deref.
  destruct (layout_at _ md) as [l|] eqn:El; [|done]. pose proof (layout_at_ok _ _ El) as Hl.
  set (m := if negb (IS_GROUP_ID (l_id l)) then _ else _).
  assert (forall v1, m = Ok v1 ->
    (IS_GROUP_ID (l_id l) = true -> 0 <= g_entry_count l <= zlen pre /\
       (0 < g_load_times l -> Forall not_group (last_n (g_entry_count l) pre))) /\
    v1 = map region_of
           (if IS_GROUP_ID (l_id l)
            then concat (map (fun d => map (pair d) (last_n (g_entry_count l) pre))
                             (group_deltas (Z.to_nat (g_load_times l)) (g_load_step l) 0))
            else [(0, l)])) as Hm.
  { intros v1. unfold m. destruct (IS_GROUP_ID (l_id l)); cbn [negb].
    - destruct (_ >? _) eqn:Eg; [done|]. zbool. destruct Hl as (_ & Ha & _). unfold is_u16 in Ha.
      assert (0 <= g_entry_count l <= zlen pre) as Hec.
      { unfold g_entry_count in *. split; [lia|]. revert Eg. unfold sizeof_layout, u32. zlia. }
      intros E. destruct (group_loads_ok _ _ _ _ _ _ Hr Hec E) as [H1 H2]. split; [|done].
      intros _. split; [done|]. intros. apply H1. lia.
    - destruct (_ && _); [done|]. intros [= <-]. split; [done|]. cbn [map]. unfold region_of, rva_pair.
      cbn [fst snd]. rewrite Z.add_0_r, u64_id by apply Hl. done. }
  destruct m as [v1| |]; [|done..]. destruct (Hm v1 eq_refl) as [Hv1 Ev1].
  assert (reads start (pre ++ [l])) as Hr'.
  { apply reads_app. split; [done|]. by apply reads_cons. }
  assert (start + sizeof_layout * zlen pre + sizeof_layout = start + sizeof_layout * zlen (pre ++ [l])) as Ep
    by (rewrite zlen_app; cbn [length]; lia).
  rewrite Ep. destruct (collect_rvas _ _ _ _) as [v2| |] eqn:E2; [|done..]. intros [= <-].
  destruct (IH _ _ Hr' E2) as (tbl & Htl & Htr & Htv & ->). exists (l :: tbl).
  rewrite reads_cons, Ep. cbn [length table_valid expand_table].
  rewrite map_app, Ev1. split_and!; auto; lia.
Qed.

Lemma reads_ok p l : reads p l -> Forall layout_ok l.
Proof.
  revert p. induction l as [|x l IH]; intros p; [constructor|].
  rewrite reads_cons. intros [H1%layout_at_ok H2%IH]. by constructor.
Qed.

Lemma expand_table_ok pre tbl :
  Forall layout_ok pre -> Forall layout_ok tbl ->
  Forall (fun x => layout_ok (snd x)) (expand_table pre tbl).
Proof.
  intros Hp Ht. revert pre Hp. induction Ht as [|l tbl Hl Ht IH]; intros pre Hp; cbn [expand_table]; [constructor|].
  apply Forall_app. split; [|apply IH, Forall_app; rewrite Forall_singleton; auto].
  destruct (IS_GROUP_ID (l_id l)); [|by apply Forall_singleton].
  induction (group_deltas _ _ _) as [|d ds IHd]; cbn [map concat]; [constructor|].
  apply Forall_app. split; [|done]. apply Forall_map. unfold last_n. rewrite zdrop_drop.
  by apply Forall_drop.
Qed.

Lemma region_of_range x : layout_ok (snd x) -> pair_range (region_of x).
Proof.
  intros (_ & _ & Hp & _). unfold region_of, rva_pair, pair_range. cbn [fst snd].
  split; [apply u64_range|]. unfold is_u32, is_u64, SE_PAGE_SHIFT in *.
  rewrite Z.shiftl_mul_pow2 by lia. lia.
Qed.

(** The layout table of a metadata block. *)
Definition table_of (tbl : list layout_t) : Prop :=
  reads (fget (Md.dir_offset DIR_LAYOUT) md) tbl /\ length tbl = dir_count md DIR_LAYOUT sizeof_layout.

Lemma validate_layout_table_sound :
  validate_layout_table md = Ok tt ->
  exists tbl, table_of tbl /\ table_valid [] tbl /\
    Forall (region_ok md) (map region_of (expand_table [] tbl)) /\
    all_disjoint (map region_of (expand_table [] tbl)).
Proof.
  unfold validate_layout_table, mbind, res_bind.
  set (start := fget (Md.dir_offset DIR_LAYOUT) md).
  replace start with (start + sizeof_layout * zlen (@nil layout_t)) at 2 by (cbn; lia).
  destruct (collect_rvas _ _ _ _) as [v| |] eqn:E; [|done..]. intros Hc.
  destruct (collect_rvas_ok _ start [] v eq_refl E) as (tbl & Hl & Hr & Hv & ->).
  cbn [length] in Hr. rewrite Z.mul_0_r, Z.add_0_r in Hr.
  destruct (check_sorted_disjoint md Hmd (map region_of (expand_table [] tbl))) as [H1 H2].
  - apply Forall_map. eapply Forall_impl; [|intros x; apply region_of_range].
    apply expand_table_ok; [constructor|]. by eapply reads_ok.
  - done.
  - by exists tbl.
Qed.
End Table.

(** ** The traversals follow the expansion *)
Fixpoint mseq {S E} (l : list (M S E unit)) : M S E unit :=
  match l with
  | [] => mret tt
  | m :: l' => m ;; mseq l'
  end.

Lemma mbind_ext {S E A B} (m m' : M S E A) (f f' : A -> M S E B) s :
  m s = m' s -> (forall a s', f a s' = f' a s') -> (m ≫= f) s = (m' ≫= f') s.
Proof. intros H1 H2. unfold mbind, M_bind. rewrite H1. destruct (m' s) as [s' []]; auto. Qed.

Lemma mseq_app {S E} (l1 l2 : list (M S E unit)) s : mseq (l1 ++ l2) s = (mseq l1 ;; mseq l2) s.
Proof.
  revert s. induction l1 as [|m l1 IH]; intros s; [done|]. cbn [app mseq]. unfold mbind, M_bind.
  destruct (m s) as [s' []]; [|done..]. apply IH.
Qed.

Section WalkSpec.
Context {S_ : Type} (f : Z -> layout_t -> M S_ sgx_status_t unit) (md : list Z).

Lemma repeat_loads_seq n step acc (body : Z -> M S_ sgx_status_t unit) s :
  repeat_loads n step acc body s = mseq (map body (group_deltas n step acc)) s.
Proof.
  revert acc s. induction n as [|n IH]; intros acc s; [done|].
  cbn [repeat_loads group_deltas map mseq]. by apply mbind_ext.
Qed.

Lemma walk_entries fuel p es d s :
  reads md p es -> Forall not_group es -> (length es < fuel)%nat ->
  layout_walk f md fuel p (p + sizeof_layout * zlen es) d s = mseq (map (f d) es) s.
Proof.
  revert p es s. induction fuel as [|k IH]; intros p es s Hr Hn Hf; [lia|]. cbn [layout_walk].
  destruct es as [|e es].
  { cbn [length]. rewrite Z.mul_0_r, Z.add_0_r. by rewrite Z.leb_refl. }
  apply reads_cons in Hr as [He Hr]. apply Forall_cons in Hn as [Hne Hn]. unfold not_group in Hne.
  cbn [length map mseq] in *. unfold sizeof_layout in *.
  replace (_ <=? p) with false by lia. rewrite He. cbn [deref].
  change ((mlift (Ok e) ≫= ?g) s) with (g e s). cbv beta. rewrite Hne. cbn [negb].
  apply mbind_ext; [done|]. intros _ s'.
  replace (p + 32 * Z.of_nat (S (length es))) with (p + 32 + 32 * zlen es) by lia. apply IH; auto; lia.
Qed.

Lemma mseq_concat_map {A} (g : A -> list (M S_ sgx_status_t unit)) (ds : list A) s :
  mseq (map (fun d => mseq (g d)) ds) s = mseq (concat (map g ds)) s.
Proof.
  revert s. induction ds as [|d ds IH]; intros s; [done|]. cbn [map mseq concat].
  rewrite mseq_app. by apply mbind_ext.
Qed.

Lemma mseq_ext {A} (g g' : A -> M S_ sgx_status_t unit) (ds : list A) s :
  (forall d s', g d s' = g' d s') -> mseq (map g ds) s = mseq (map g' ds) s.
Proof.
  intros H. revert s. induction ds as [|d ds IH]; intros s; [done|]. cbn [map mseq]. by apply mbind_ext.
Qed.

Definition run_entry (x : Z * layout_t) : M S_ sgx_status_t unit := f (fst x) (snd x).

Lemma walk_expand start fuel pre tbl e s :
  reads md start (pre ++ tbl) -> table_valid pre tbl -> Forall layout_ok tbl ->
  (2 * length tbl + length pre + 1 <= fuel)%nat ->
  0 <= start + sizeof_layout * zlen (pre ++ tbl) - e < sizeof_layout ->
  layout_walk f md fuel (start + sizeof_layout * zlen pre) e 0 s =
  mseq (map run_entry (expand_table pre tbl)) s.
Proof.
  revert pre tbl s. induction fuel as [|k IH]; intros pre tbl s Hr Hv Hok Hf He; [lia|].
  cbn [layout_walk]. rewrite zlen_app in He. destruct tbl as [|l tbl].
  { cbn [length] in He. unfold sizeof_layout in *. by replace (e <=? _) with true by lia. }
  pose proof Hr as Hr0. apply reads_app in Hr as [Hpre Hr]. apply reads_cons in Hr as [Hl _].
  destruct Hv as [Hg Hv]. apply Forall_cons in Hok as [Hlok Hok]. cbn [length] in *.
  unfold sizeof_layout in *. replace (e <=? _) with false by lia.
  rewrite Hl. cbn [deref]. change ((mlift (Ok l) ≫= ?g) s) with (g l s). cbv beta.
  cbn [expand_table]. rewrite map_app, mseq_app. apply mbind_ext.
  - destruct (IS_GROUP_ID (l_id l)) eqn:El; cbn [negb]; [|].
    + destruct (Hg eq_refl) as [Hec Hng]. rewrite repeat_loads_seq, concat_map, map_map.
      rewrite <- mseq_concat_map.
      destruct (Z.to_nat (g_load_times l)) as [|t] eqn:Et; [done|].
      specialize (Hng ltac:(lia)).
      destruct (reads_last_n md start pre _ Hpre Hec) as [Hrl Hll]. unfold sizeof_layout in *.
      apply mseq_ext. intros d s'. rewrite map_map.
      replace (start + 32 * zlen pre) with
        (start + 32 * zlen pre - 32 * g_entry_count l + 32 * zlen (last_n (g_entry_count l) pre)) at 2
        by lia.
      rewrite walk_entries; [done|done|done|lia].
    + cbn [map mseq]. unfold run_entry. cbn [fst snd]. unfold mbind, M_bind.
      by destruct (f 0 l s) as [s' [[]| |]].
  - intros _ s'.
    replace (start + 32 * zlen pre + 32) with (start + 32 * zlen (pre ++ [l]))
      by (rewrite zlen_app; cbn [length]; lia).
    apply IH; auto; rewrite <- ?app_assoc, ?zlen_app, ?length_app; cbn [length]; done || lia.
Qed.
End WalkSpec.

(** For a validated table the traversal is the sequence of its expansion;
    the chosen fuel never runs out. *)
Lemma walk_layout_expand {S_} (f : Z -> layout_t -> M S_ sgx_status_t unit) md tbl s :
  bytes_ok md -> table_of md tbl -> table_valid [] tbl ->
  walk_layout f md s = mseq (map (run_entry f) (expand_table [] tbl)) s.
Proof.
  intros Hmd [Hr Hl] Hv. unfold walk_layout, walk_fuel, dir_count, table_count, sizeof_layout in *.
  set (start := fget (Md.dir_offset DIR_LAYOUT) md) in *.
  set (size := fget (Md.dir_size DIR_LAYOUT) md) in *.
  assert (0 <= size) by (by apply fget_range).
  replace start with (start + sizeof_layout * zlen (@nil layout_t)) at 1 by (cbn; lia).
  apply walk_expand; auto.
  - by eapply reads_ok.
  - rewrite Hl. cbn [length]. lia.
  - cbn [app]. unfold sizeof_layout. rewrite Hl, Z2Nat.id by zlia. zlia.
Qed.

(** ** The whole validation *)
Lemma strip_zeros_pow2 fuel size :
  0 <= size -> strip_zeros fuel size = 1 -> exists k, 0 <= k <= Z.of_nat fuel /\ size = 2 ^ k.
Proof.
  revert size. induction fuel as [|n IH]; intros size Hs; cbn [strip_zeros].
  { intros ->. by exists 0. }
  destruct (_ && _) eqn:E; [|intros ->; exists 0; split; [lia|done]].
  rewrite Z.shiftr_div_pow2 by lia. change (2 ^ 1) with 2. intros Hk.
  destruct (IH (size / 2) ltac:(zlia) Hk) as (k & Hk1 & Hk2). exists (k + 1). split; [lia|].
  pose proof (Z.land_ones size 1 ltac:(lia)) as Hl. change (Z.ones 1) with 1 in Hl. rewrite Hl in E.
  change (2 ^ 1) with 2 in *. rewrite Z.pow_add_r, <- Hk2 by lia. zbool. zlia.
Qed.

Section ValidateAll.
Context (md : list Z) (Hmd : bytes_ok md).

Lemma is_metadata_buffer_spec off size :
  is_u32 off -> is_u32 size -> is_metadata_buffer md off size = true ->
  Md.data_off <= off < fget Md.size md /\ off + size <= fget Md.size md.
Proof.
  unfold is_u32, is_metadata_buffer. intros Ho Hs.
  assert (0 <= fget Md.size md < 2 ^ 32) by (by apply fget_range).
  destruct (_ || _) eqn:E; zbool; [done|]. unfold u32.
  rewrite negb_true_iff, !orb_false_iff. intros; zbool. destruct H2 as [[? ?] ?]; zbool. zlia.
Qed.

Lemma patch_at_range p pt : patch_at p md = Some pt -> is_u64 (p_dst pt) /\ is_u32 (p_src pt) /\ is_u32 (p_size pt).
Proof.
  unfold patch_at. destruct (_ || _); [done|]. intros [= <-]. cbn [p_dst p_src p_size].
  pose proof (bytes_ok_slice p sizeof_patch _ Hmd). split_and!; by apply fget_range.
Qed.

(** A patch copies from the data of the metadata into the enclave. *)
Definition patch_inside (o : option patch_entry_t) : Prop :=
  match o with
  | Some p => Md.data_off <= p_src p /\ p_src p + p_size p <= fget Md.size md /\ p_dst p + p_size p <= esize md
  | None => False
  end.

Lemma validate_patches_inside n p :
  validate_patches md n p = Ok tt -> Forall patch_inside (table_from patch_at sizeof_patch p n md).
Proof.
  revert p. induction n as [|n IH]; intros p; cbn [validate_patches table_from]; [constructor|].
  unfold mbind, res_bind, deref. destruct (patch_at p md) as [pt|] eqn:Ep; [|done].
  destruct (patch_at_range p pt Ep) as (Hd & Hs & Hz).
  destruct (is_metadata_buffer _ _ _) eqn:E1; cbn [negb]; [|done].
  destruct (is_enclave_buffer _ _ _) eqn:E2; cbn [negb]; [|done]. intros H. constructor; [|by apply IH].
  apply is_metadata_buffer_spec in E1; [|done..]. unfold is_u32, is_u64 in *.
  apply is_enclave_buffer_spec in E2; [|done|done|unfold is_u64; lia]. cbn [patch_inside]. lia.
Qed.

(** C6. Metadata the loader accepts is safe to load.  The enclave size is a
    power of two within the parser's limit; the regions of the expanded
    layout table, groups included, are page aligned, inside the enclave and
    pairwise disjoint; groups repeat entries before them; every patch copies
    from the metadata's data into the enclave. *)
Theorem validate_metadata_sound max :
  validate_metadata md max = Ok tt ->
  (exists k, 0 <= k <= 64 /\ esize md = 2 ^ k) /\ esize md <= max /\
  SSA_FRAME_SIZE_MIN <= fget Md.ssa_frame_size md <= SSA_FRAME_SIZE_MAX /\
  (exists tbl, table_of md tbl /\ table_valid [] tbl /\
    Forall (region_ok md) (map region_of (expand_table [] tbl)) /\
    all_disjoint (map region_of (expand_table [] tbl))) /\
  Forall patch_inside (patch_table md).
Proof.
  unfold validate_metadata. destruct (MAJOR_VERSION_OF_METADATA _ <? _); [done|].
  destruct (_ >? TCS_POLICY_UNBIND); [done|]. destruct (_ || _) eqn:E1; [done|].
  destruct (_ >? max) eqn:E2; [done|]. destruct (negb (_ =? 1)) eqn:E3; [done|].
  destruct (negb (check_dirs md)); [done|]. zbool.
  unfold mbind, res_bind. destruct (validate_layout_table md) as [[]| |] eqn:El; [|done..]. intros Ep.
  split_and!; try lia.
  - apply (strip_zeros_pow2 64) in E3; [done|]. apply (esize_range md Hmd).
  - unfold esize. lia.
  - by apply validate_layout_table_sound.
  - by apply validate_patches_inside in Ep.
Qed.

(** C13. The traversals of a validated table.  Whatever is done per entry
    (adding its pages, protecting them, trimming them), the recursive
    traversal of the layout table is the run of that operation over the
    expanded table in order, with the accumulated displacement of each load
    of a group; the recursion ends. *)
Theorem traversal_expansion :
  validate_layout_table md = Ok tt ->
  exists tbl, table_of md tbl /\
    forall S_ (f : Z -> layout_t -> M S_ sgx_status_t unit) s,
      walk_layout f md s = mseq (map (run_entry f) (expand_table [] tbl)) s.
Proof.
  intros Hv. destruct (validate_layout_table_sound md Hmd Hv) as (tbl & Ht & Hv' & _).
  exists tbl. split; [done|]. intros S_ f s. by apply walk_layout_expand.
Qed.
End ValidateAll.
