(* ===== verification/MageLoad.v ===== *)
(** * Loading does not depend on the content of the MAGE section

    build_pages leaves out every page that meets the .sgx_mage section, so
    the log before the MAGE pages is the same for two files that differ only
    inside that section.  This is what lets one tool run (genmage) fix the
    intermediate hash state before the contents of the sections are known. *)
From S2P Require Import Prelude Bytes Sha256 Arch Measure Creator Mage Loader LoaderSim.

#[local] Open Scope Z_scope.
#[local] Hint Resolve trace_ctx_only : mage.

(** Equal length, and equal outside [lo, hi). *)
Definition agree (lo hi : Z) (a b : list Z) : Prop :=
  zlen a = zlen b /\ forall i : nat, Z.of_nat i < lo \/ hi <= Z.of_nat i -> a !! i = b !! i.

Lemma agree_slice lo hi a b o n :
  0 <= o -> agree lo hi a b -> o + n <= lo \/ hi <= o ->
  ztake n (zdrop o a) = ztake n (zdrop o b).
Proof.
  intros Ho (Hl & Hi) H. rewrite !ztake_take, !zdrop_drop. apply list_eq. intros i.
  destruct (decide (i < Z.to_nat n)%nat).
  - rewrite !lookup_take_lt, !lookup_drop by done. apply Hi. lia.
  - by rewrite !lookup_take_ge by lia.
Qed.

(** The same bytes written at the same place keep two files in agreement. *)
Lemma agree_splice lo hi d (w a b : list Z) :
  0 <= d -> d + zlen w <= zlen b -> agree lo hi a b -> agree lo hi (splice d w a) (splice d w b).
Proof.
  intros Hd Hw (Hl & Hi). split; [rewrite !zlen_splice; lia|].
  intros i H. unfold splice. rewrite !ztake_take, !zdrop_drop, !lookup_app, !length_take, !lookup_drop.
  assert (length a = length b) as E by lia. rewrite E.
  destruct (decide (i < Z.to_nat d)%nat).
  - rewrite !lookup_take_lt by done. rewrite (Hi i H).
    by destruct (lookup_lt_is_Some_2 b i) as [x ->]; [lia|].
  - rewrite !lookup_take_ge by lia. destruct (w !! _) eqn:Ew; [done|].
    apply lookup_ge_None in Ew. rewrite Hi; [done|]. lia.
Qed.

(** The first page behind two pointers is the same. *)
Definition src_eq (a b : list Z) : Prop :=
  zlen a = zlen b /\ ztake SE_PAGE_SIZE a = ztake SE_PAGE_SIZE b.

Lemma eextend_events_take n off a b :
  ztake (256 * Z.of_nat n) a = ztake (256 * Z.of_nat n) b -> eextend_events n off a = eextend_events n off b.
Proof.
  revert off a b. induction n as [|n IH]; intros off a b E; [done|]. cbn [eextend_events].
  assert (ztake 256 a = ztake 256 b) as E1.
  { apply (f_equal (ztake 256)) in E. rewrite !ztake_ztake, !Z.min_l in E by lia. done. }
  rewrite E1. f_equal. apply IH.
  apply (f_equal (zdrop 256)) in E. rewrite !zdrop_ztake in E by lia.
  by replace (256 * Z.of_nat (S n) - 256) with (256 * Z.of_nat n) in E by lia.
Qed.

Lemma page_events_take a b off si attr :
  ztake SE_PAGE_SIZE a = ztake SE_PAGE_SIZE b -> page_events a off si attr = page_events b off si attr.
Proof. intros E. unfold page_events. by rewrite (eextend_events_take 16 off a b) by exact E. Qed.

Lemma page_events_src a b off si attr : src_eq a b -> page_events a off si attr = page_events b off si attr.
Proof. intros [_ E]. by apply page_events_take. Qed.

Section MageLoad.
Context {HF : HashFn}.
Context (bp : BinParser) (md : list Z) (mprotect : Z -> Z -> Z -> Z).

(** The MAGE section: file range and address range. *)
Context (ms : Section_).
Abbreviation lo := (s_raw_data ms).
Abbreviation hi := (s_raw_data ms + s_virtual_size ms).

(** A section of the file maps the MAGE file range to the MAGE addresses,
    or does not contain it. *)
Definition section_maps_mage (sec : Section_) : Prop :=
  0 <= s_raw_data sec /\ 0 <= s_rva sec /\ 0 <= s_raw_data_size sec /\
  s_rva sec + s_raw_data_size sec + SE_PAGE_SIZE < 2 ^ 64 /\
  (s_raw_data ms - s_raw_data sec = s_rva ms - s_rva sec \/
   s_raw_data sec + s_raw_data_size sec <= lo \/ hi <= s_raw_data sec).

Context (Hbp : bp_mage_section bp = Some ms).
Context (Hms : 0 <= s_raw_data ms /\ 0 <= s_rva ms /\ 0 <= s_virtual_size ms /\
               s_rva ms + s_virtual_size ms < 2 ^ 64).

Abbreviation rel := (ls_rel ctx_eq (agree lo hi)).

(** The page at [rva] is added by build_pages. *)
Definition added (rva : Z) : bool :=
  (rva >=? u64 (s_rva ms + s_virtual_size ms)) || (u64 (rva + SE_PAGE_SIZE) <=? s_rva ms).

Lemma sim_add_src id a b off si attr :
  src_eq a b ->
  sim ctx_eq (add_enclave_page (C:=TraceCreator.TS) id (Some a) off si attr)
            (add_enclave_page id (Some b) off si attr).
Proof.
  intros He s t Hst. pose proof (cr_add (R:=ctx_eq) id (Some b) off si attr s t Hst) as H.
  assert (add_enclave_page id (Some a) off si attr s = add_enclave_page id (Some b) off si attr s) as ->; [|done].
  change (TraceCreator.add_enclave_page id (Some a) off si attr s =
          TraceCreator.add_enclave_page id (Some b) off si attr s).
  unfold TraceCreator.add_enclave_page. unfold default, Datatypes.id.
  by rewrite (page_events_src a b off si attr He), (proj1 He).
Qed.

Lemma sim_one_page rva a b si attr :
  (added rva = true -> src_eq a b) ->
  sim rel (build_pages bp rva SE_PAGE_SIZE (Some a) si attr)
          (build_pages bp rva SE_PAGE_SIZE (Some b) si attr).
Proof.
  intros Hs. unfold build_pages. apply sim_bind; [auto with mage|intros _]. rewrite Hbp.
  change (Z.to_nat (SE_PAGE_SIZE / SE_PAGE_SIZE)) with 1%nat. cbn [build_pages_loop].
  fold (added rva). apply sim_bind; [|auto with mage]. destruct (added rva); [|auto with mage].
  apply sim_get. intros s t [? ? ? Ha ? ?]. unfold ENCLAVE_ID_IOCTL. rewrite Ha.
  apply sim_with_creator, sim_add_src. by apply Hs.
Qed.

(** File bytes that a section loads outside the MAGE pages are unaffected. *)
Lemma added_window sec img1 img2 o n page :
  section_maps_mage sec -> agree lo hi img1 img2 ->
  0 <= o -> 0 <= n -> o + n <= s_raw_data_size sec ->
  0 <= page -> page <= s_rva sec + o -> s_rva sec + o + n <= page + SE_PAGE_SIZE ->
  added page = true ->
  ztake n (zdrop o (zdrop (s_raw_data sec) img1)) = ztake n (zdrop o (zdrop (s_raw_data sec) img2)).
Proof.
  intros (H1 & H2 & H3 & H4 & H5) Ha Ho Hn Hon Hp0 Hp1 Hp2 Hadd.
  destruct (Z.eq_dec n 0) as [->|]; [by rewrite !ztake_le0 by lia|].
  rewrite !zdrop_zdrop by lia. apply (agree_slice lo hi); [lia|done|].
  unfold added, SE_PAGE_SIZE in *. rewrite !u64_id in Hadd by (unfold is_u64; lia). lia.
Qed.

Definition region (sec : Section_) (img bm : list Z) : section_info_t :=
  MkSecRange (zdrop (s_raw_data sec) img) (s_raw_data_size sec) (s_rva sec) (s_virtual_size sec)
    (s_si_flags sec) (Some bm).

(** One turn of the raw-data loop. *)
Lemma sim_region_page sec bm img1 img2 o flags :
  section_maps_mage sec -> agree lo hi img1 img2 -> 0 <= o < s_raw_data_size sec ->
  let rva := u64 (s_rva sec + o) in
  let size := MIN (SE_PAGE_SIZE - PAGE_OFFSET rva) (s_raw_data_size sec - o) in
  let src img := zdrop o (raw_data (region sec img bm)) in
  sim rel
    (if size =? SE_PAGE_SIZE then build_pages bp rva size (Some (src img1)) (mk_sinfo flags) ADD_EXTEND_PAGE
     else build_partial_page bp rva size (src img1) (mk_sinfo flags) ADD_EXTEND_PAGE)
    (if size =? SE_PAGE_SIZE then build_pages bp rva size (Some (src img2)) (mk_sinfo flags) ADD_EXTEND_PAGE
     else build_partial_page bp rva size (src img2) (mk_sinfo flags) ADD_EXTEND_PAGE).
Proof.
  intros Hsec Ha Ho. cbv zeta. cbn [raw_data region].
  pose proof Hsec as (H1 & H2 & H3 & H4 & _). unfold SE_PAGE_SIZE in H4.
  assert (zlen (zdrop o (zdrop (s_raw_data sec) img1)) = zlen (zdrop o (zdrop (s_raw_data sec) img2))) as Hz.
  { rewrite !zlen_zdrop, (proj1 Ha). done. }
  rewrite u64_id by (unfold is_u64; lia). rewrite MIN_min, PAGE_OFFSET_mod.
  set (rva := s_rva sec + o). set (size := Z.min _ _).
  assert (0 <= size <= s_raw_data_size sec - o /\ rva mod SE_PAGE_SIZE + size <= SE_PAGE_SIZE) as Hsz.
  { unfold size, SE_PAGE_SIZE. zlia. }
  destruct (size =? SE_PAGE_SIZE) eqn:E; zbool.
  - rewrite E. apply sim_one_page. intros Hadd. split; [done|].
    rewrite <- E. apply (added_window sec _ _ o size rva); auto; unfold rva, SE_PAGE_SIZE in *; lia.
  - unfold build_partial_page. rewrite PAGE_OFFSET_mod, TRIM_TO_PAGE_sub by (unfold is_u64, rva; lia).
    set (page := rva - rva mod SE_PAGE_SIZE).
    assert (0 <= page /\ page <= rva) by (unfold page, SE_PAGE_SIZE; unfold rva in *; zlia).
    unfold memcpy_s. rewrite Hz. destruct (_ <? size) eqn:E1; zbool; [unfold SE_PAGE_SIZE in *; lia|].
    destruct (_ || _); [intros s t _; done|].
    change (mlift (Ok ?x) ≫= ?k) with (k x). cbv beta. cbn [fst].
    apply sim_one_page. intros Hadd.
    rewrite (added_window sec img1 img2 o size page); auto; clear Hadd;
      unfold page, rva, SE_PAGE_SIZE in *; by split || lia.
Qed.

Lemma sim_region_loop sec bm img1 img2 fuel o :
  section_maps_mage sec -> agree lo hi img1 img2 -> 0 <= o ->
  sim rel (region_raw_loop bp mprotect fuel (region sec img1 bm) o)
          (region_raw_loop bp mprotect fuel (region sec img2 bm) o).
Proof.
  intros Hsec Ha. revert o. induction fuel as [|k IH]; intros o Ho; cbn [region_raw_loop]; [auto with mage|].
  cbn [raw_data_size sr_rva region]. destruct (s_raw_data_size sec <=? o) eqn:E; [auto with mage|]. zbool.
  apply sim_bind; [apply (sim_region_page_flags ctx_eq (agree lo hi) mprotect (region sec img2 bm))|].
  intros flags. apply sim_bind; [apply sim_region_page; auto with lia; lia|]. intros _. apply IH.
  apply u64_range.
Qed.

Lemma sim_section_region sec bm img1 img2 :
  section_maps_mage sec -> agree lo hi img1 img2 ->
  sim rel (build_mem_region bp mprotect (region sec img1 bm))
          (build_mem_region bp mprotect (region sec img2 bm)).
Proof.
  intros Hsec Ha. unfold build_mem_region. apply sim_bind; [by apply sim_region_loop|].
  intros off. cbn [virtual_size sr_rva flag region]. sim_auto.
Qed.

Lemma sim_mage_sections_loop secs mx lst bm :
  Forall section_maps_mage secs ->
  sim rel (build_sections_loop bp md mprotect secs mx lst bm)
          (build_sections_loop bp md mprotect secs mx lst bm).
Proof.
  intros Hs. revert mx lst. induction Hs as [|sec rest Hsec Hs IH]; intros mx lst;
    cbn [build_sections_loop]; [auto with mage|].
  unfold build_extra_page. apply sim_bind; [sim_auto|intros _].
  destruct (if _ >? _ then _ else _) as [mx' lst'].
  apply sim_get. intros s t [_ Hq _ _ _ _].
  apply sim_bind; [by apply sim_section_region|intros _; apply IH].
Qed.

Lemma sim_mage_sections bm :
  Forall section_maps_mage (bp_sections bp) ->
  sim rel (build_sections bp md mprotect bm) (build_sections bp md mprotect bm).
Proof.
  intros Hs. unfold build_sections, build_extra_page.
  apply sim_bind; [by apply sim_mage_sections_loop|intros lst]. sim_auto.
Qed.

Lemma agree_memcpy d n src count a b :
  0 <= d -> agree lo hi a b ->
  match memcpy_s (E:=sgx_status_t) (zdrop d a) n src count, memcpy_s (E:=sgx_status_t) (zdrop d b) n src count with
  | Ok (x, _), Ok (y, _) => agree lo hi (ztake d a ++ x) (ztake d b ++ y)
  | Stuck, Stuck => True
  | _, _ => False
  end.
Proof.
  intros Hd Ha. pose proof (proj1 Ha) as Hl. unfold memcpy_s. rewrite !zlen_zdrop, Hl.
  destruct (n <? count) eqn:E1; [by rewrite !ztake_zdrop|].
  destruct (_ || _) eqn:E2; [done|]. zbool. rewrite !splice_0.
  set (w := ztake count src). assert (zlen w = Z.max 0 count) as Hw by (unfold w; rewrite zlen_ztake; lia).
  rewrite !zdrop_zdrop by lia. destruct (Z.le_gt_cases (zlen b) d) as [Hdb|Hdb].
  - assert (w = []) as -> by (destruct w; [done|cbn [length] in Hw; lia]).
    cbn [app length]. by rewrite Z.add_0_r, !ztake_zdrop.
  - apply (agree_splice lo hi d w); [done|lia|done].
Qed.

Lemma agree_patches n p a b :
  bytes_ok md -> agree lo hi a b ->
  match apply_patches md n p a, apply_patches md n p b with
  | Ok x, Ok y => agree lo hi x y
  | Err e, Err e' => e = e'
  | Stuck, Stuck => True
  | _, _ => False
  end.
Proof.
  intros Hmd. revert p a b. induction n as [|n IH]; intros p a b Ha; cbn [apply_patches]; [done|].
  unfold mbind, res_bind, deref. destruct (patch_at p md) as [pt|] eqn:Ep; [|done].
  pose proof (agree_memcpy (p_dst pt) (p_size pt) (zdrop (p_src pt) md) (p_size pt) a b) as H.
  assert (0 <= p_dst pt).
  { unfold patch_at in Ep. destruct (_ || _); [done|]. injection Ep as <-. cbn [p_dst].
    apply fget_range; [by apply bytes_ok_slice|done]. }
  specialize (H ltac:(done) Ha).
  destruct (memcpy_s (zdrop (p_dst pt) a) _ _ _) as [[x ?]| |];
    destruct (memcpy_s (zdrop (p_dst pt) b) _ _ _) as [[y ?]| |]; try done.
  by apply IH.
Qed.

Lemma sim_mage_patch : bytes_ok md -> sim rel (patch_image md) (patch_image md).
Proof.
  intros Hmd. unfold patch_image. apply sim_get. intros s t Hr. pose proof (rel_image _ _ _ _ Hr) as Hq.
  intros s1 t1 Hr1. pose proof (agree_patches (dir_count md DIR_PATCH sizeof_patch)
    (fget (Md.dir_offset DIR_PATCH) md) _ _ Hmd Hq) as H.
  unfold mbind, M_bind, mlift, mmod.
  destruct (apply_patches _ _ _ (ls_image t)) as [y|e|];
    destruct (apply_patches _ _ _ (ls_image s)) as [x|e'|]; try done.
  - eexists; split; [done|]. by apply rel_set_image.
  - subst. by eexists.
Qed.

(** ** The log of the MAGE pages *)
Fixpoint mage_loop_events (n : nat) (rva : Z) (source : list Z) : list mevent :=
  match n with
  | O => []
  | S n' => page_events source rva (mk_sinfo 0x201) ADD_EXTEND_PAGE ++
            mage_loop_events n' (u64 (rva + SE_PAGE_SIZE)) source
  end.

Definition open_log (s : LS TraceCreator.TS) (tr : list mevent) : Prop :=
  TraceCreator.ts_ctx (ls_creator s) = TraceCreator.Open tr.

Lemma build_mage_loop_log n rva source s tr :
  SE_PAGE_SIZE <= zlen source -> open_log s tr ->
  exists s', build_mage_loop n rva source (mk_sinfo 0x201) 3 s = (s', Ok tt) /\
    open_log s' (tr ++ mage_loop_events n rva source) /\ ls_image s' = ls_image s.
Proof.
  intros Hs. revert rva s tr. induction n as [|n IH]; intros rva s tr Ho; cbn [build_mage_loop mage_loop_events].
  { exists s. by rewrite app_nil_r. }
  unfold mget, with_creator. unfold mbind at 1 2, M_bind at 1 2. cbn [add_enclave_page TraceCreator.TraceEnclaveCreator].
  unfold TraceCreator.add_enclave_page. unfold open_log in Ho. rewrite Ho.
  change (negb (sinfo_valid (mk_sinfo 0x201))) with false.
  change (negb (hasflag 3 PAGE_ATTR_EADD)) with false.
  change (negb (length (si_reserved (mk_sinfo 0x201)) =? 7)%nat) with false.
  unfold default, Datatypes.id.
  replace (zlen source <? SE_PAGE_SIZE) with false by lia. rewrite andb_false_r. cbv iota.
  rewrite app_assoc. set (s1 := MkLS _ _ _ _ _ _).
  destruct (IH (u64 (rva + SE_PAGE_SIZE)) s1 _ eq_refl) as (s' & E & Ho' & Hi).
  exists s'. by rewrite E.
Qed.

Definition set_for_sign (b : bool) : BinParser :=
  MkBinParser (bp_enclave_max_size bp) (bp_sections bp) (bp_mage_section bp) b (bp_reloc_bitmap bp)
    (bp_set_memory_protection bp) (bp_pages_to_protect bp).

(** Everything up to the MAGE pages. *)
Definition build_before_mage (b : BinParser) (bm : list Z) : M (LS TraceCreator.TS) sgx_status_t unit :=
  build_sections b md mprotect bm ;; build_contexts b md mprotect.

Lemma before_mage_for_sign b bm : build_before_mage (set_for_sign b) bm = build_before_mage bp bm.
Proof. reflexivity. Qed.

Lemma or_destroy_Ok (m : M (LS TraceCreator.TS) sgx_status_t unit) s s' :
  or_destroy m s = (s', Ok tt) <-> m s = (s', Ok tt).
Proof.
  unfold or_destroy, mcase, mret, M_ret. destruct (m s) as [s1 [[]|e|]]; [done| |done].
  split; [|done]. unfold mget, mbind, M_bind. by destruct (with_creator _ s1) as [? []].
Qed.

Definition finish_enclave (b : BinParser) (lc prd : option (list Z)) : M (LS TraceCreator.TS) sgx_status_t unit :=
  build_mage_pages b ;;
  s ← mget;
  with_creator (init_enclave (ENCLAVE_ID_IOCTL s) (md_css md) lc prd).

(** The stages of a successful build_image. *)
Lemma build_image_Ok b lc a ci cs prd mi s s' :
  build_image b md mprotect lc a ci cs prd mi s = (s', Ok tt) <->
  exists s1 bm s2 s3 s4,
    build_secs md a ci cs mi s = (s1, Ok tt) /\ reloc_bitmap b s1 = (s2, Ok bm) /\
    patch_image md s2 = (s3, Ok tt) /\
    build_before_mage b bm s3 = (s4, Ok tt) /\ finish_enclave b lc prd s4 = (s', Ok tt).
Proof.
  unfold build_image. split.
  - intros (? & s1 & E1 & H)%bind_Ok_inv. destruct x.
    apply bind_Ok_inv in H as (bm & s2 & E2 & H). apply bind_Ok_inv in H as ([] & s3 & E3 & H).
    apply bind_Ok_inv in H as ([] & s4 & E4 & H). apply (proj1 (or_destroy_Ok _ _ _)) in E4.
    apply bind_Ok_inv in E4 as ([] & s5 & E5 & E6). apply bind_Ok_inv in E6 as ([] & s6 & E6 & E7).
    injection H as <-. exists s1, bm, s2, s3, s6. split_and!; try done.
    unfold build_before_mage. by rewrite (bind_Ok _ _ _ _ _ E5).
  - intros (s1 & bm & s2 & s3 & s4 & E1 & E2 & E3 & E4 & E5).
    rewrite (bind_Ok _ _ _ _ _ E1), (bind_Ok _ _ _ _ _ E2), (bind_Ok _ _ _ _ _ E3).
    apply bind_Ok_inv in E4 as ([] & s5 & E4 & E4').
    erewrite bind_Ok; [reflexivity|]. apply or_destroy_Ok.
    by rewrite (bind_Ok _ _ _ _ _ E4), (bind_Ok _ _ _ _ _ E4').
Qed.

Lemma finish_sign lc prd t t' :
  finish_enclave (set_for_sign true) lc prd t = (t', Ok tt) ->
  exists tr, open_log t tr /\ ls_image t' = ls_image t /\
    TraceCreator.ts_ctx (ls_creator t') = TraceCreator.Done tr /\
    TraceCreator.ts_base (ls_creator t') = TraceCreator.ts_base (ls_creator t).
Proof.
  unfold finish_enclave, build_mage_pages, open_log. cbn [bp_mage_section_ex set_for_sign bp_for_sign].
  rewrite (bind_Ok _ _ _ t tt eq_refl). unfold mget, mbind, M_bind, with_creator.
  cbn [init_enclave TraceCreator.TraceEnclaveCreator]. unfold TraceCreator.init_enclave.
  destruct (TraceCreator.ts_ctx (ls_creator t)) as [|tr|] eqn:E; [done| |done].
  intros [= <-]. by exists tr.
Qed.

Lemma finish_load lc prd s tr :
  IS_PAGE_ALIGNED (s_rva ms) = true -> IS_PAGE_ALIGNED (s_virtual_size ms) = true ->
  SE_PAGE_SIZE <= zlen (zdrop lo (ls_image s)) -> open_log s tr ->
  exists s', finish_enclave (set_for_sign false) lc prd s = (s', Ok tt) /\ ls_image s' = ls_image s /\
    TraceCreator.ts_ctx (ls_creator s') =
      TraceCreator.Done (tr ++ mage_loop_events (Z.to_nat (s_virtual_size ms / SE_PAGE_SIZE)) (s_rva ms)
                                 (zdrop lo (ls_image s))).
Proof.
  intros Ha1 Ha2 Hl Ho. unfold finish_enclave, build_mage_pages, bp_mage_section_ex.
  cbn [set_for_sign bp_for_sign bp_mage_section]. rewrite Hbp.
  destruct (build_mage_loop_log (Z.to_nat (s_virtual_size ms / SE_PAGE_SIZE)) (s_rva ms)
              (zdrop lo (ls_image s)) s tr Hl Ho) as (s1 & E1 & Ho1 & Hi1).
  erewrite bind_Ok.
  2:{ unfold mget. unfold mbind at 1 2, M_bind at 1 2. rewrite Ha1, Ha2. exact E1. }
  unfold mget, mbind, M_bind, with_creator. cbn [init_enclave TraceCreator.TraceEnclaveCreator].
  unfold TraceCreator.init_enclave. unfold open_log in Ho1. rewrite Ho1. by eexists.
Qed.

(** build_secs opens a new log whatever the creator held. *)
Lemma build_secs_rel a ci cs mi s t t' :
  ls_rel (fun _ _ => True) (agree lo hi) s t -> build_secs md a ci cs mi t = (t', Ok tt) ->
  exists s', build_secs md a ci cs mi s = (s', Ok tt) /\ rel s' t' /\
    ls_image s' = ls_image s /\ ls_image t' = ls_image t.
Proof.
  intros [_ Hq Hi Ha Ht Hs] [= <-]. eexists; split; [reflexivity|]. split; [by constructor|done].
Qed.

(** The relocation bitmap of two files with the same relocations *)
Lemma reloc_bitmap_eq b s t t' bm :
  rel s t -> bp_reloc_bitmap b (ls_image s) = bp_reloc_bitmap b (ls_image t) ->
  reloc_bitmap b t = (t', Ok bm) -> exists s', reloc_bitmap b s = (s', Ok bm) /\ rel s' t'.
Proof.
  intros Hr E. unfold reloc_bitmap, mget, mcase, mlift, mbind, M_bind. rewrite E.
  destruct (bp_reloc_bitmap b (ls_image t)); intros [= <- <-]; by eexists.
Qed.

(** If the enclave loads while the MAGE pages are left out, it also loads
    from a file that differs inside the MAGE section, and the log is the
    first one followed by the MAGE pages. *)
Lemma build_image_mage lc a ci cs prd mi s t t' :
  bytes_ok md -> Forall section_maps_mage (bp_sections bp) ->
  bp_reloc_bitmap bp (ls_image s) = bp_reloc_bitmap bp (ls_image t) ->
  IS_PAGE_ALIGNED (s_rva ms) = true -> IS_PAGE_ALIGNED (s_virtual_size ms) = true ->
  ls_rel (fun _ _ => True) (agree lo hi) s t ->
  build_image (set_for_sign true) md mprotect lc a ci cs prd mi t = (t', Ok tt) ->
  SE_PAGE_SIZE <= zlen (zdrop lo (ls_image t')) ->
  exists s' tr,
    build_image (set_for_sign false) md mprotect lc a ci cs prd mi s = (s', Ok tt) /\
    agree lo hi (ls_image s') (ls_image t') /\
    TraceCreator.ts_ctx (ls_creator t') = TraceCreator.Done tr /\
    TraceCreator.ts_ctx (ls_creator s') =
      TraceCreator.Done (tr ++ mage_loop_events (Z.to_nat (s_virtual_size ms / SE_PAGE_SIZE)) (s_rva ms)
                                 (zdrop lo (ls_image s'))).
Proof.
  intros Hmd Hsec Hrel Ha1 Ha2 Hst Hb Hl.
  apply build_image_Ok in Hb as (t1 & bm & t2 & t3 & t4 & E1 & E2 & E3 & E4 & E5).
  rewrite before_mage_for_sign in E4.
  destruct (build_secs_rel a ci cs mi s t t1 Hst E1) as (s1 & F1 & H1 & Is & It).
  rewrite <- Is, <- It in Hrel.
  destruct (reloc_bitmap_eq (set_for_sign true) s1 t1 t2 bm H1 Hrel E2) as (s2 & F2 & H2).
  destruct (sim_Ok _ _ _ _ _ _ _ (sim_mage_patch Hmd) H2 E3) as (s3 & F3 & H3).
  assert (sim rel (build_before_mage bp bm) (build_before_mage bp bm)) as Hsim.
  { apply sim_bind; [by apply sim_mage_sections|intros _]. apply sim_build_contexts. apply trace_ctx_only. }
  destruct (sim_Ok _ _ _ _ _ _ _ Hsim H3 E4) as (s4 & F4 & [Hc Hq _ _ _ _]).
  destruct (finish_sign lc prd t4 t' E5) as (tr & Ho & Hi & Hd & _).
  unfold open_log in Ho. unfold ctx_eq in Hc. rewrite <- Hc in Ho. rewrite Hi in Hl |- *.
  destruct (finish_load lc prd s4 tr Ha1 Ha2) as (s' & F5 & Hi' & Hd').
  { rewrite zlen_zdrop, (proj1 Hq), <- zlen_zdrop. done. }
  { done. }
  exists s', tr. rewrite Hi'. split_and!; try done.
  apply build_image_Ok. exists s1, bm, s2, s3, s4. split_and!; try done.
Qed.
End MageLoad.
