(* ===== verification/Pipeline.v ===== *)
(** * Mutual measurement: genmage, signmage and derive

    The end-to-end property.  [enclave_log] is the reference measurement of a
    file: the log of loading it into [TraceCreator].  The signing tool's
    loads return its hash and intermediate state ([sign_load]); the log of a
    file with a filled MAGE section is the log without its MAGE pages followed
    by those pages ([enclave_log_mage]); resuming the hash over the section
    inside an enclave gives the measurement of the signed peer. *)
From S2P Require Import Prelude Bytes Sha256 Arch Measure Creator Mage Loader LoaderSim MageLoad.

#[local] Open Scope Z_scope.

(** ** The reference measurement *)
Section Log.
Context {HF : HashFn} (mprotect : Z -> Z -> Z -> Z).

(** CLoader with no launch token, no debug flag, no KSS configuration: the
    call of the signing tool *)
Definition tool_load {C} {I : EnclaveCreator C} (bp : BinParser) (md : list Z)
    : M (LS C) sgx_status_t sgx_misc_attribute_t := load_enclave bp md mprotect None 0 None 0 None.
Definition start {C} (c : C) (img : list Z) : LS C := MkLS c img 0 0 [] secs_zero.

Definition enclave_run (bp : BinParser) (md img : list Z)
    : LS TraceCreator.TS * res sgx_status_t sgx_misc_attribute_t := tool_load bp md (start TraceCreator.initial img).

(** The measurement log and the patched file it was taken from *)
Definition enclave_log (bp : BinParser) (md img : list Z) : option (list mevent * list Z) :=
  match enclave_run bp md img with
  | (s, Ok _) =>
      match TraceCreator.ts_ctx (ls_creator s) with
      | TraceCreator.Done tr => Some (tr, ls_image s)
      | _ => None
      end
  | _ => None
  end.

(** A successful load is validation, then build_image. *)
Lemma tool_load_Ok bp md (s s' : LS TraceCreator.TS) m :
  tool_load bp md s = (s', Ok m) <->
  validate_metadata md (bp_enclave_max_size bp) = Ok tt /\ m = MkMisc (MkAttr 1 0) 0 /\
  exists s1, build_image bp md mprotect None (MkAttr 0 0) None 0 None (MkMisc (MkAttr 0 0) 0) s = (s1, Ok tt) /\
    s' = set_secs (let x := m_secs s1 in
           MkSecs (secs_size x) (secs_base x) (secs_ssa_frame_size x) (secs_misc_select x) (MkAttr 1 0)
             (secs_mr_enclave x) (secs_config_id x) (secs_config_svn x)) s1.
Proof.
  unfold tool_load, load_enclave. unfold mbind, M_bind, mlift.
  destruct (validate_metadata md _) as [[]| |]; [|split; [done|by intros (? & _)]..].
  unfold with_creator. cbn [get_misc_attr TraceCreator.TraceEnclaveCreator mret M_ret secs_attr misc_select_].
  replace (MkLS (ls_creator s) _ _ _ _ _) with s by (by destruct s).
  destruct (build_image _ _ _ _ _ _ _ _ _ s) as [s1 [[]|e|]].
  - unfold mmod, mret, M_ret. cbn [at_flags at_xfrm].
    change (Z.lor 0 SGX_FLAGS_INITTED) with 1. split.
    + intros [= <- <-]. split; [done|]. split; [done|]. by eexists.
    + intros (_ & -> & ? & [= <-] & ->). done.
  - split; [done|]. by intros (_ & _ & ? & ? & _).
  - split; [done|]. by intros (_ & _ & ? & ? & _).
Qed.

(** Loading does not depend on what the creator did before; the result is a
    well-formed log counted from the creator's byte counter. *)
Lemma tool_load_any bp md img (c : TraceCreator.TS) t' m :
  is_u64 (me_size (TraceCreator.ts_mage c)) ->
  tool_load bp md (start TraceCreator.initial img) = (t', Ok m) ->
  exists s', tool_load bp md (start c img) = (s', Ok m) /\
    TraceCreator.ts_ctx (ls_creator s') = TraceCreator.ts_ctx (ls_creator t') /\
    ls_image s' = ls_image t' /\ wf_from (me_size (TraceCreator.ts_mage c)) (ls_creator s') (ls_creator s').
Proof.
  intros Hu (Hv & -> & t1 & Hb & ->)%tool_load_Ok.
  apply bind_Ok_inv in Hb as ([] & t2 & Hs & Hr).
  injection Hs as Ht2.
  destruct (build_secs md (MkAttr 0 0) None 0 (MkMisc (MkAttr 0 0) 0) (start c img)) as [s2 r] eqn:Es.
  pose proof Es as [= Hs2 <-].
  assert (ls_rel ctx_eq eq s2 t2) as Hrel by (rewrite <- Hs2, <- Ht2; by constructor).
  assert (ls_rel (wf_from (me_size (TraceCreator.ts_mage c))) eq s2 s2) as Hwf.
  { rewrite <- Hs2. constructor; try done. by apply open_wf. }
  destruct (sim_Ok _ _ _ _ _ _ _ (sim_build_rest ctx_eq bp md mprotect None None) Hrel Hr)
    as (s1 & Hr1 & [Hc Hi _ _ _ _]).
  destruct (sim_Ok _ _ _ _ _ _ _ (sim_build_rest (wf_from _) bp md mprotect None None) Hwf Hr1)
    as (s1' & Hr1' & [Hw _ _ _ _ _]).
  rewrite Hr1 in Hr1'. injection Hr1' as <-.
  eexists (set_secs _ s1). split; [|split; [exact Hc|split; [exact Hi|exact Hw]]].
  apply tool_load_Ok. split; [done|]. split; [done|]. exists s1. split; [|reflexivity].
  unfold build_image. rewrite (bind_Ok _ _ _ _ _ Es). exact Hr1.
Qed.
End Log.

(** ** The signing tool's loads *)
Section SignLoad.
Context {HF : HashFn} {C : Type} {EV : Evp C} {EL : EvpLaws C}.
Context (mprotect : Z -> Z -> Z -> Z).

(** What holds of the creator object between two loads. *)
Definition creator_ok (c : SignST.ST C) : Prop :=
  SignST.m_eid c = EID /\ is_u64 (SignST.m_quota c) /\ is_u64 (me_size (SignST.m_mage c)).

Lemma creator_ok_new : creator_ok SignST.EnclaveCreatorST.
Proof. by repeat split. Qed.

(** A load whose log is [tr] succeeds, and the creator reports the hash and
    the intermediate state of [tr]. *)
Lemma sign_load bp md img c tr img' :
  creator_ok c -> enclave_log mprotect bp md img = Some (tr, img') ->
  exists s' m, tool_load mprotect bp md (start c img) = (s', Ok m) /\ ls_image s' = img' /\
    creator_ok (ls_creator s') /\ forallb event_ok tr = true /\
    forall want, exists q e,
      SignST.get_enclave_info SGX_HASH_SIZE want (ls_creator s') =
        (ls_creator s', Ok (mrenclave tr, q, if want : bool then Some e else None)) /\
      me_size e = u64 (me_size (SignST.m_mage c) + zlen (trace_bytes tr)) /\
      me_digest e = words8_le (hf_state (trace_bytes tr)).
Proof.
  intros (Heid & Hq & Hsz) Hlog. unfold enclave_log, enclave_run in Hlog.
  destruct (tool_load mprotect bp md (start TraceCreator.initial img)) as [t' [m| |]] eqn:Et; [|done..].
  destruct (TraceCreator.ts_ctx (ls_creator t')) as [| |tr'] eqn:Ec; [done..|]. injection Hlog as -> <-.
  set (t0 := TraceCreator.MkTS (TraceCreator.Done []) 0 (SignST.m_hash_valid_flag c) (SignST.m_enclave_hash c)
               (SignST.m_quota c) (SignST.m_mage c)).
  destruct (tool_load_any mprotect bp md img t0 t' m Hsz Et) as (s1 & E1 & Hc & Hi & Hw & Hbase).
  assert (ls_rel st_refines eq (start c img) (start t0 img)) as Hrel.
  { by constructor. }
  destruct (sim_Ok _ _ _ _ _ _ _ (sim_load_enclave st_refines bp md mprotect None 0 None 0 None) Hrel E1)
    as (s' & E' & [Hst Hi' _ _ _ _]).
  destruct Hw as [_ [_ Hwf]]. rewrite Hc, Ec in Hwf. destruct Hwf as (Hok & Hsize & Hv & Hh & Hd).
  pose proof Hst as (Hv' & Hh' & He' & Hq' & Hm' & Hu1 & Hu2 & _).
  exists s', m. split; [exact E'|]. split; [by rewrite Hi'|]. split; [by split_and!|]. split; [done|].
  intros want. exists (SignST.m_quota (ls_creator s')), (SignST.m_mage (ls_creator s')).
  rewrite Hm', Hsize, Hbase. split; [|done].
  unfold SignST.get_enclave_info, mget, mbind, M_bind. rewrite Hv', Hv, Hh', Hh, Hm'. done.
Qed.

(** load_enclave_ex returns the result of the first load that succeeds. *)
Lemma load_ex_first bp md k (s s' : LS (SignST.ST C)) m :
  tool_load mprotect bp md s = (s', Ok m) ->
  load_enclave_ex bp md mprotect (S k) None false None 0 None s = (s', Ok m).
Proof. intros E. unfold load_enclave_ex. cbn [load_retry]. unfold mcase.
  change (Z.b2z false) with 0. unfold tool_load in E. by rewrite E. Qed.
End SignLoad.

(** ** Filling the MAGE section *)

(** No patch writes into [lo, hi). *)
Definition patches_avoid (md : list Z) (lo hi : Z) : Prop :=
  Forall (fun o => match o with Some p => p_dst p + p_size p <= lo \/ hi <= p_dst p | None => True end)
    (patch_table md).

Lemma apply_patches_slice md lo hi n p img img' :
  bytes_ok md -> 0 <= lo ->
  Forall (fun o => match o with Some p => p_dst p + p_size p <= lo \/ hi <= p_dst p | None => True end)
    (table_from patch_at sizeof_patch p n md) ->
  apply_patches md n p img = Ok img' ->
  zlen img' = zlen img /\ (hi <= zlen img -> slice lo (hi - lo) img' = slice lo (hi - lo) img).
Proof.
  intros Hmd Hlo. revert p img. induction n as [|n IH]; intros p img Hf; cbn [apply_patches].
  { by intros [= ->]. }
  cbn [table_from] in Hf. inversion_clear Hf as [|? ? Hp Hf'].
  unfold mbind, res_bind, deref. destruct (patch_at p md) as [pt|] eqn:Ep; [|done].
  assert (0 <= p_dst pt /\ 0 <= p_size pt) as [Hd Hs].
  { unfold patch_at in Ep. destruct (_ || _); [done|]. injection Ep as <-. cbn [p_dst p_size].
    split; apply fget_range; by try apply bytes_ok_slice. }
  unfold memcpy_s. rewrite Z.ltb_irrefl. destruct (_ || _) eqn:E; [done|]. zbool.
  cbn [fst]. intros Hap. specialize (IH _ _ Hf' Hap). clear Hap Hf'.
  rewrite !zlen_zdrop in *. set (w := ztake (p_size pt) (zdrop (p_src pt) md)) in *.
  assert (zlen w = p_size pt) as Hw by (unfold w; rewrite zlen_ztake, zlen_zdrop; lia).
  rewrite splice_0, zdrop_zdrop in IH by lia. fold (splice (p_dst pt) w img) in IH.
  destruct (Z.eq_dec (p_size pt) 0) as [Hz|Hz].
  { assert (w = []) as E0 by (destruct w; [done|cbn [length] in Hw; lia]).
    unfold splice in IH. rewrite E0, app_nil_l in IH. cbn [length] in IH. rewrite Z.add_0_r, ztake_zdrop in IH. exact IH. }
  rewrite zlen_splice in IH by lia. destruct IH as [IH1 IH2]. split; [done|].
  intros Hhi. rewrite IH2 by lia. destruct Hp as [Hp|Hp].
  - apply slice_splice_after; lia.
  - apply slice_splice_before; lia.
Qed.

Section FillMage.
Context {HF : HashFn} (mprotect : Z -> Z -> Z -> Z).
Context (bp : BinParser) (md : list Z) (ms : Section_).
Abbreviation lo := (s_raw_data ms).
Abbreviation hi := (s_raw_data ms + s_virtual_size ms).

(** What the layout of the file must satisfy: the MAGE section is whole
    pages inside the file; no segment maps it elsewhere; no patch touches it. *)
Record mage_layout (img : list Z) : Prop := {
  ml_section : bp_mage_section bp = Some ms;
  ml_range : 0 <= s_raw_data ms /\ 0 <= s_rva ms /\ 0 <= s_virtual_size ms /\
             s_rva ms + s_virtual_size ms < 2 ^ 64;
  ml_file : SE_PAGE_SIZE <= s_virtual_size ms /\ hi <= zlen img;
  ml_aligned : IS_PAGE_ALIGNED (s_rva ms) = true /\ IS_PAGE_ALIGNED (s_virtual_size ms) = true;
  ml_segments : Forall (section_maps_mage ms) (bp_sections bp);
  ml_md : bytes_ok md;
  ml_patches : patches_avoid md lo hi }.

(** Computations that only read the file leave it unchanged. *)
Lemma sim_keeps_image {A} (m : M (LS TraceCreator.TS) sgx_status_t A) s s' a :
  (forall Q, (forall a b, Q a b -> a = b) -> sim (ls_rel ctx_eq Q) m m) ->
  m s = (s', Ok a) -> ls_image s' = ls_image s.
Proof.
  intros Hs E. set (Q := fun a b : list Z => a = b /\ a = ls_image s).
  assert (HQ : forall a b, Q a b -> a = b) by (by intros ? ? []).
  destruct (sim_Ok _ _ _ s s s' a (Hs Q HQ)) as (s2 & E2 & [_ [_ Hi] _ _ _ _]); [by constructor|done|].
  rewrite E in E2. by injection E2 as ->.
Qed.

Lemma before_mage_image b bm s s' :
  build_before_mage md mprotect b bm s = (s', Ok tt) -> ls_image s' = ls_image s.
Proof.
  apply sim_keeps_image. intros Q HQ. apply sim_bind; [by apply sim_build_sections; try apply trace_ctx_only|].
  intros _. apply sim_build_contexts, trace_ctx_only.
Qed.

Lemma finish_image b lc prd s s' :
  finish_enclave md b lc prd s = (s', Ok tt) -> ls_image s' = ls_image s.
Proof.
  apply sim_keeps_image. intros Q HQ. apply sim_bind; [by apply sim_build_mage_pages; try apply trace_ctx_only|].
  intros _. apply sim_get. intros s1 t1 Hr. unfold ENCLAVE_ID_IOCTL. rewrite (rel_addr _ _ _ _ Hr).
  apply sim_with_creator, cr_init.
Qed.

(** The image after a build is the patched file. *)
Lemma build_image_patched b lc a ci cs prd mi (s s' : LS TraceCreator.TS) img :
  ls_image s = img -> mage_layout img -> 
  build_image (set_for_sign bp b) md mprotect lc a ci cs prd mi s = (s', Ok tt) ->
  zlen (ls_image s') = zlen img /\ slice lo (hi - lo) (ls_image s') = slice lo (hi - lo) img.
Proof.
  intros Hi [_ Hr Hf _ _ Hmd Hp] (s1 & bm & s2 & s3 & s4 & E1 & E2 & E3 & E4 & E5)%build_image_Ok.
  assert (ls_image s2 = img) as Hi2.
  { injection E1 as <-. unfold reloc_bitmap, mget, mcase, mlift, mbind, M_bind in E2.
    destruct (bp_reloc_bitmap _ _); injection E2 as <-; done. }
  apply bind_Ok_inv in E3 as (? & ? & [= <- <-] & E3). apply bind_Ok_inv in E3 as (img3 & s2' & E3 & E3').
  injection E3' as <-. injection E3 as <- Ea. rewrite Hi2 in Ea.
  destruct (apply_patches_slice md lo hi _ _ _ _ Hmd ltac:(lia) Hp Ea) as [Hz Hs].
  apply before_mage_image in E4. apply finish_image in E5.
  change (ls_image (set_image img3 s2)) with img3 in E4. rewrite E5, E4. split; [done|]. apply Hs. lia.
Qed.

(** Filling the section: the log continues with its pages, read from the
    filled file. *)
Lemma enclave_log_mage img img2 tr p :
  mage_layout img -> agree lo hi img2 img -> bp_reloc_bitmap bp img2 = bp_reloc_bitmap bp img ->
  enclave_log mprotect (set_for_sign bp true) md img = Some (tr, p) ->
  exists p2,
    enclave_log mprotect (set_for_sign bp false) md img2 =
      Some (tr ++ mage_loop_events (Z.to_nat (s_virtual_size ms / SE_PAGE_SIZE)) (s_rva ms) (zdrop lo p2), p2) /\
    zlen p2 = zlen img2 /\ slice lo (hi - lo) p2 = slice lo (hi - lo) img2.
Proof.
  intros Hl Ha Hrel Hlog. pose proof Hl as [Hsec Hr Hf [Ha1 Ha2] Hseg Hmd Hp].
  unfold enclave_log, enclave_run in *.
  destruct (tool_load _ _ _ _) as [t' [m| |]] eqn:Et; [|done..].
  apply tool_load_Ok in Et as (Hv & -> & t1 & Hb & ->).
  change (ls_creator (set_secs _ t1)) with (ls_creator t1) in Hlog.
  change (ls_image (set_secs _ t1)) with (ls_image t1) in Hlog.
  destruct (build_image_patched true _ _ _ _ _ _ (start TraceCreator.initial img) _ img eq_refl Hl Hb) as [Hz _].
  destruct (build_image_mage bp md mprotect ms Hsec Hr None (MkAttr 0 0) None 0 None (MkMisc (MkAttr 0 0) 0)
              (start TraceCreator.initial img2) (start TraceCreator.initial img) t1 Hmd Hseg Hrel Ha1 Ha2) as (s1 & tr' & Hb' & Hag & Hd & Hd').
  { by constructor. }
  { done. }
  { rewrite zlen_zdrop, Hz. unfold SE_PAGE_SIZE in *. lia. }
  rewrite Hd in Hlog. injection Hlog as -> _.
  assert (mage_layout img2) as Hl2.
  { constructor; try done. by rewrite (proj1 Ha). }
  destruct (build_image_patched false _ _ _ _ _ _ (start TraceCreator.initial img2) _ img2 eq_refl Hl2 Hb')
    as [Hz2 Hs2].
  exists (ls_image s1). split; [|done].
  match goal with |- context [tool_load ?mp ?b ?m ?s] =>
    pose proof (proj2 (tool_load_Ok mp b m s _ _) (conj Hv (conj eq_refl (ex_intro _ s1 (conj Hb' eq_refl))))) as El
  end.
  rewrite El. change (ls_creator (set_secs _ s1)) with (ls_creator s1). by rewrite Hd'.
Qed.
End FillMage.

(** ** Properties of the pipeline *)
Section Properties.
Context {HF : HashFn} {C : Type} {EV : Evp C} {EL : EvpLaws C}.
Context (mprotect : Z -> Z -> Z -> Z).

(** C11. The tool measures the reference log.  Whatever the creator object was
    used for before, loading a file whose reference log is [tr] succeeds at
    the first attempt; the creator then reports the MRENCLAVE of [tr] and, as
    the MAGE entry, the intermediate hash state of [tr] and its length added
    to the byte counter the creator had. *)
Theorem tool_measures_log bp md img c tr img' fuel :
  creator_ok c -> enclave_log mprotect bp md img = Some (tr, img') ->
  exists s' m, load_enclave_ex bp md mprotect (S fuel) None false None 0 None (start c img) = (s', Ok m) /\
    ls_image s' = img' /\ creator_ok (ls_creator s') /\
    exists q e, SignST.get_enclave_info SGX_HASH_SIZE true (ls_creator s') =
                  (ls_creator s', Ok (mrenclave tr, q, Some e)) /\
      me_size e = u64 (me_size (SignST.m_mage c) + zlen (trace_bytes tr)) /\
      me_digest e = words8_le (hf_state (trace_bytes tr)).
Proof.
  intros Hc Hlog. destruct (sign_load mprotect bp md img c tr img' Hc Hlog) as (s' & m & E & Hi & Hc' & _ & Hinfo).
  exists s', m. split; [by apply load_ex_first|]. split_and!; [done..|]. apply (Hinfo true).
Qed.

(** C10. The signing creator can stand for the log in every load, failing ones
    included: when the load into the log-keeping creator returns a value or
    an error, the load into the signing creator returns the same one, with
    the same patched image, thread list and SECS, in a state that refines
    the log. *)
Theorem tool_load_refines bp md img fuel lc dbg cid csvn prd t' r :
  load_enclave_ex bp md mprotect fuel lc dbg cid csvn prd (start TraceCreator.initial img) = (t', r) -> r <> Stuck ->
  exists s', load_enclave_ex bp md mprotect fuel lc dbg cid csvn prd (start SignST.EnclaveCreatorST img) = (s', r) /\
    ls_image s' = ls_image t' /\ m_tcs_list s' = m_tcs_list t' /\ m_secs s' = m_secs t' /\
    st_refines (ls_creator s') (ls_creator t').
Proof.
  intros E Hr. assert (ls_rel st_refines eq (start SignST.EnclaveCreatorST img) (start TraceCreator.initial img)) as H0.
  { by constructor. }
  pose proof (sim_load_enclave_ex st_refines bp md mprotect fuel lc dbg cid csvn prd _ _ H0) as H. rewrite E in H.
  destruct r; [| |done]; destruct H as (s' & E' & [H1 H2 H3 H4 H5 H6]); by exists s'.
Qed.

(** C9. The content of the MAGE section enters the measurement last.  Let the
    section be laid out as [mage_layout] says and [tr] be the log of the file
    loaded for signing, without the section's pages.  Loading any file that
    differs from it only inside the section gives [tr] followed by the log
    of the section's pages, read from the filled file. *)
Theorem filled_log_appends bp md ms img img2 tr p :
  mage_layout bp md ms img -> agree (s_raw_data ms) (s_raw_data ms + s_virtual_size ms) img2 img ->
  bp_reloc_bitmap bp img2 = bp_reloc_bitmap bp img ->
  enclave_log mprotect (set_for_sign bp true) md img = Some (tr, p) ->
  exists p2, enclave_log mprotect (set_for_sign bp false) md img2 =
      Some (tr ++ mage_loop_events (Z.to_nat (s_virtual_size ms / SE_PAGE_SIZE)) (s_rva ms) (zdrop (s_raw_data ms) p2), p2) /\
    slice (s_raw_data ms) (s_virtual_size ms) p2 = slice (s_raw_data ms) (s_virtual_size ms) img2.
Proof.
  intros Hl Ha Hb Hlog. destruct (enclave_log_mage mprotect bp md ms img img2 tr p Hl Ha Hb Hlog) as (p2 & E & _ & Hs).
  exists p2. split; [done|]. by replace (s_raw_data ms + s_virtual_size ms - s_raw_data ms) with (s_virtual_size ms) in Hs by lia.
Qed.
End Properties.

(** ** Retries of load_enclave_ex *)
Section Retry.
Context {C : Type} {EC : EnclaveCreator C} {A : Type}.

(** [load] run on [s0] returns SGX_ERROR_MEMORY_MAP_CONFLICT [k] times in a
    row, leaving [s]. *)
Inductive conflicts (load : M (LS C) sgx_status_t A) : nat -> LS C -> LS C -> Prop :=
| conflicts_0 s : conflicts load 0 s s
| conflicts_S k s0 s1 s : load s0 = (s1, Err SGX_ERROR_MEMORY_MAP_CONFLICT) -> conflicts load k s1 s ->
    conflicts load (S k) s0 s.

Lemma retry_conflicts load k c fuel s0 s :
  conflicts load k s0 s -> load_retry (k + fuel) (k + c) load s0 = load_retry fuel c load s.
Proof.
  induction 1 as [|k s0 s1 s E _ IH]; [done|]. cbn [Nat.add load_retry]. unfold mcase. by rewrite E.
Qed.

(** Retries.  load_enclave_ex tries a conflicting mapping again, at most
    three times: after up to three conflicts the result of the next load is
    returned, whatever it is unless a conflict or a lost enclave; after a
    fourth conflict the conflict is returned. *)
Theorem load_retry_conflicts (load : M (LS C) sgx_status_t A) k s0 s s' r fuel :
  conflicts load k s0 s -> (k <= 3)%nat -> load s = (s', r) -> r <> Stuck -> r <> Err SGX_ERROR_ENCLAVE_LOST ->
  (r = Err SGX_ERROR_MEMORY_MAP_CONFLICT -> k = 3%nat) ->
  load_retry (S (k + fuel)) 3 load s0 = (s', r).
Proof.
  intros Hc Hk E Hs Hl Hm. replace (S (k + fuel)) with (k + S fuel)%nat by lia.
  replace 3%nat with (k + (3 - k))%nat at 1 by lia. rewrite (retry_conflicts _ _ _ _ _ _ Hc).
  cbn [load_retry]. unfold mcase. rewrite E. destruct r as [a|e|]; [done| |done].
  destruct e; try done. by rewrite (Hm eq_refl).
Qed.
End Retry.

Lemma load_retry_conflicts_witness :
  let load : M (LS nat) sgx_status_t Z := fun s =>
    (MkLS (S (ls_creator s)) [] 0 0 [] secs_zero, if (ls_creator s <? 3)%nat then Err SGX_ERROR_MEMORY_MAP_CONFLICT else Ok 7) in
  let st n := MkLS (n : nat) [] 0 0 [] secs_zero in
  load_retry 4 3 load (st 0%nat) = (st 4%nat, Ok 7).
Proof.
  intros load st. apply (load_retry_conflicts load 3 (st 0%nat) (st 3%nat) (st 4%nat) (Ok 7) 0).
  - apply (conflicts_S load 2 _ (st 1%nat)); [reflexivity|]. apply (conflicts_S load 1 _ (st 2%nat)); [reflexivity|].
    apply (conflicts_S load 0 _ (st 3%nat)); [reflexivity|]. constructor.
  - lia.
  - reflexivity.
  - discriminate.
  - discriminate.
  - discriminate.
Defined.
