(* ===== verification/LoaderPages.v ===== *)
(** * The pages of a memory region

    [region_log] says what loading a section or a layout entry with content
    must add to the log: the region's memory image (zeros up to the start
    address, the initialised data, zeros up to the end of the last page), cut
    into pages, each added once at its address; pages of the MAGE section are
    left out and relocation pages are writable.  [build_mem_region] adds
    exactly that. *)
From S2P Require Import Prelude Bytes Sha256 Arch Measure Creator Loader MageLoad.

#[local] Open Scope Z_scope.

(** build_pages adds the page at [rva] (it does not meet the MAGE section). *)
Definition page_added (bp : BinParser) (rva : Z) : bool :=
  match bp_mage_section bp with
  | Some ms => (rva >=? u64 (s_rva ms + s_virtual_size ms)) || (u64 (rva + SE_PAGE_SIZE) <=? s_rva ms)
  | None => true
  end.

Definition page_log (bp : BinParser) (rva : Z) (page : list Z) (flags : Z) : list mevent :=
  if page_added bp rva then page_events page rva (mk_sinfo flags) ADD_EXTEND_PAGE else [].

(** The log of consecutive pages of a memory image. *)
Fixpoint image_log (bp : BinParser) (n : nat) (rva : Z) (mem : list Z) (flags : Z -> Z) : list mevent :=
  match n with
  | O => []
  | S n' => page_log bp rva (ztake SE_PAGE_SIZE mem) (flags rva) ++
            image_log bp n' (rva + SE_PAGE_SIZE) (zdrop SE_PAGE_SIZE mem) flags
  end.

(** The memory image of a region of [n] pages. *)
Definition region_mem (si : section_info_t) (n : Z) : list Z :=
  zreplicate (sr_rva si mod SE_PAGE_SIZE) 0 ++
  ztake (raw_data_size si) (raw_data si) ++
  zreplicate (n * SE_PAGE_SIZE - sr_rva si mod SE_PAGE_SIZE - raw_data_size si) 0.

Definition region_start (si : section_info_t) : Z := sr_rva si - sr_rva si mod SE_PAGE_SIZE.
Definition region_end (si : section_info_t) : Z :=
  sr_rva si + Z.max (raw_data_size si) (virtual_size si).

(** Number of pages from the first address to the last. *)
Definition region_pages (si : section_info_t) : Z :=
  if Z.max (raw_data_size si) (virtual_size si) =? 0 then 0
  else (region_end si - region_start si + SE_PAGE_SIZE - 1) / SE_PAGE_SIZE.

(** Relocation pages with initialised data are writable. *)
Definition region_flags (si : section_info_t) (page : Z) : Z :=
  if (0 <? raw_data_size si) && (page <? sr_rva si + raw_data_size si) &&
     is_relocation_page page (bitmap si) && negb (hasflag (flag si) SI_FLAG_W)
  then Z.lor (flag si) SI_FLAG_W else flag si.

Definition region_log (bp : BinParser) (si : section_info_t) : list mevent :=
  image_log bp (Z.to_nat (region_pages si)) (region_start si) (region_mem si (region_pages si)) (region_flags si).

Section Emits.
Context {HF : HashFn} (bp : BinParser) (mprotect : Z -> Z -> Z -> Z).

(** [m] succeeds and appends [evs] to the log, leaving the file alone. *)
Definition emits {A} (m : M (LS TraceCreator.TS) sgx_status_t A) (evs : list mevent) (a : A) : Prop :=
  forall s tr, open_log s tr ->
    exists s', m s = (s', Ok a) /\ open_log s' (tr ++ evs) /\ ls_image s' = ls_image s.

Lemma emits_ret {A} (a : A) : emits (mret a) [] a.
Proof. intros s tr H. exists s. by rewrite app_nil_r. Qed.

Lemma emits_bind {A B} (m : M (LS TraceCreator.TS) sgx_status_t A) f e1 e2 a (b : B) :
  emits m e1 a -> emits (f a) e2 b -> emits (m ≫= f) (e1 ++ e2) b.
Proof.
  intros Hm Hf s tr Ho. destruct (Hm s tr Ho) as (s1 & E1 & Ho1 & Hi1).
  destruct (Hf s1 _ Ho1) as (s2 & E2 & Ho2 & Hi2). exists s2.
  rewrite (bind_Ok _ _ _ _ _ E1), E2, Hi2, Hi1, app_assoc. done.
Qed.

Definition flags_ok (f : Z) : Prop := hasflag f (u64 (Z.lnot SI_FLAGS_EXTERNAL)) = false.

(** What a source pointer gives for a page. *)
Definition source_page (src : option (list Z)) (page : list Z) : Prop :=
  src_eq page (default (zreplicate SE_PAGE_SIZE 0) src) /\ SE_PAGE_SIZE <= zlen page.

Lemma emits_add rva src page f :
  flags_ok f -> ztake SE_PAGE_SIZE (default (zreplicate SE_PAGE_SIZE 0) src) = ztake SE_PAGE_SIZE page ->
  SE_PAGE_SIZE <= zlen (default (zreplicate SE_PAGE_SIZE 0) src) ->
  emits (s ← mget; with_creator (add_enclave_page (ENCLAVE_ID_IOCTL s) src rva (mk_sinfo f) ADD_EXTEND_PAGE))
    (page_events page rva (mk_sinfo f) ADD_EXTEND_PAGE) tt.
Proof.
  intros Hf Hs Hl s tr Ho. unfold mget, with_creator. unfold mbind, M_bind.
  cbn [add_enclave_page TraceCreator.TraceEnclaveCreator]. unfold TraceCreator.add_enclave_page.
  unfold open_log in Ho. rewrite Ho. unfold sinfo_valid. cbn [mk_sinfo si_flags_ si_reserved].
  unfold flags_ok in Hf. rewrite Hf. change (existsb _ _) with false. cbn [negb andb].
  change (hasflag ADD_EXTEND_PAGE PAGE_ATTR_EADD) with true. cbn [negb].
  replace (zlen _ <? SE_PAGE_SIZE) with false by lia. rewrite andb_false_r.
  change (negb (length (replicate 7 0) =? 7)%nat) with false. cbv iota.
  eexists; split; [done|]. split; [|done]. unfold open_log. cbn.
  unfold page_events. by rewrite (eextend_events_take 16 rva _ page) by exact Hs.
Qed.

(** A run of pages with the same source. *)
Fixpoint same_pages (n : nat) (rva : Z) (page : list Z) (f : Z) : list mevent :=
  match n with
  | O => []
  | S n' => page_log bp rva page f ++ same_pages n' (rva + SE_PAGE_SIZE) page f
  end.

Lemma emits_build_pages n rva src page f :
  flags_ok f -> ztake SE_PAGE_SIZE (default (zreplicate SE_PAGE_SIZE 0) src) = ztake SE_PAGE_SIZE page ->
  SE_PAGE_SIZE <= zlen (default (zreplicate SE_PAGE_SIZE 0) src) ->
  0 <= rva -> rva + SE_PAGE_SIZE * Z.of_nat n < 2 ^ 64 -> rva mod SE_PAGE_SIZE = 0 ->
  emits (build_pages bp rva (SE_PAGE_SIZE * Z.of_nat n) src (mk_sinfo f) ADD_EXTEND_PAGE)
    (same_pages n rva page f) tt.
Proof.
  intros Hf Hs Hl Hr Hb Hal. unfold build_pages.
  assert (IS_PAGE_ALIGNED rva = true /\ IS_PAGE_ALIGNED (SE_PAGE_SIZE * Z.of_nat n) = true) as [-> ->].
  { rewrite !IS_PAGE_ALIGNED_spec. split; [done|]. rewrite Z.mul_comm. by apply Z.mod_mul. }
  change (same_pages n rva page f) with ([] ++ same_pages n rva page f).
  eapply emits_bind; [apply emits_ret|]. unfold SE_PAGE_SIZE at 1.
  rewrite (Z.mul_comm 4096), Z.div_mul by done. rewrite Nat2Z.id.
  set (sk := match bp_mage_section bp with Some _ => _ | None => _ end).
  assert (forall r, is_u64 r ->
    (r >=? u64 (fst sk + snd sk)) || (u64 (r + SE_PAGE_SIZE) <=? fst sk) = page_added bp r) as Hsk.
  { intros r Hr'. unfold page_added, sk. destruct (bp_mage_section bp); [done|]. cbn [fst snd].
    unfold is_u64 in Hr'. change (u64 (0 + 0)) with 0. lia. }
  destruct sk as [skr sks]. cbn [fst snd] in Hsk. clear Hal.
  revert rva Hr Hb. induction n as [|n IH]; intros rva Hr Hb; cbn [build_pages_loop same_pages];
    [apply emits_ret|].
  unfold SE_PAGE_SIZE in Hb. rewrite Hsk by (unfold is_u64; lia).
  eapply emits_bind.
  - unfold page_log. destruct (page_added bp rva); [by apply emits_add|apply emits_ret].
  - rewrite u64_id by (unfold is_u64, SE_PAGE_SIZE; lia). apply IH; unfold SE_PAGE_SIZE; lia.
Qed.

(** ** Memory images *)

(** [r] zeros, the data, zeros up to [k] pages *)
Definition raw_mem (r : Z) (data : list Z) (k : Z) : list Z :=
  zreplicate r 0 ++ data ++ zreplicate (k * SE_PAGE_SIZE - r - zlen data) 0.

(** The first page of an image and the rest. *)
Lemma raw_mem_page r data k :
  0 <= r < SE_PAGE_SIZE -> r + zlen data <= k * SE_PAGE_SIZE -> 1 <= k ->
  ztake SE_PAGE_SIZE (raw_mem r data k) =
    zreplicate r 0 ++ ztake (SE_PAGE_SIZE - r) data ++
    zreplicate (SE_PAGE_SIZE - r - zlen (ztake (SE_PAGE_SIZE - r) data)) 0 /\
  zdrop SE_PAGE_SIZE (raw_mem r data k) = raw_mem 0 (zdrop (SE_PAGE_SIZE - r) data) (k - 1).
Proof.
  unfold raw_mem, SE_PAGE_SIZE. intros Hr Hd Hk. rewrite zlen_ztake, zlen_zdrop. split.
  - rewrite ztake_app_ge, zlen_zreplicate by (rewrite zlen_zreplicate; lia). f_equal.
    rewrite Z.max_r by lia. destruct (Z.le_gt_cases (4096 - r) (zlen data)).
    + rewrite ztake_app_le by lia.
      replace (4096 - r - _) with 0 by lia. by rewrite app_nil_r.
    + rewrite ztake_app_ge, (ztake_ge _ data) by lia. f_equal. rewrite ztake_zreplicate by lia. f_equal. lia.
  - rewrite zdrop_app_ge, zlen_zreplicate by (rewrite zlen_zreplicate; lia).
    rewrite Z.max_r by lia. change (zreplicate 0 0) with (@nil Z). cbn [app].
    destruct (Z.le_gt_cases (4096 - r) (zlen data)).
    + rewrite zdrop_app_le by lia. f_equal. f_equal. lia.
    + rewrite zdrop_app_ge, (zdrop_ge _ data) by lia. cbn [app]. rewrite zdrop_zreplicate by lia. f_equal. lia.
Qed.

Lemma reloc_page_frame rva bm :
  0 <= rva -> is_relocation_page rva bm = is_relocation_page (rva - rva mod SE_PAGE_SIZE) bm.
Proof.
  intros H. unfold is_relocation_page, SE_PAGE_SHIFT, SE_PAGE_SIZE.
  rewrite !Z.shiftr_div_pow2 by lia. change (2 ^ 12) with 4096.
  replace ((rva - rva mod 4096) / 4096) with (rva / 4096) by zlia. done.
Qed.

Context (si : section_info_t).
Context (Hlen : raw_data_size si <= zlen (raw_data si)) (Hraw : 0 <= raw_data_size si) (Hrva : 0 <= sr_rva si).
Context (Hvs : 0 <= virtual_size si).
Context (Hmax : region_end si + SE_PAGE_SIZE < 2 ^ 64).
Context (Hflag : flags_ok (flag si)) (HflagW : flags_ok (Z.lor (flag si) SI_FLAG_W)).

Lemma emits_flags rva :
  sr_rva si <= rva < sr_rva si + raw_data_size si ->
  emits (region_page_flags mprotect si rva) [] (region_flags si (rva - rva mod SE_PAGE_SIZE)).
Proof.
  intros Hr. unfold region_page_flags, region_flags. rewrite <- reloc_page_frame by lia.
  replace (0 <? raw_data_size si) with true by lia.
  replace (_ <? sr_rva si + raw_data_size si) with true by (unfold SE_PAGE_SIZE; zlia).
  cbn [andb]. destruct (is_relocation_page rva (bitmap si) && _); [|apply emits_ret].
  intros s tr Ho. exists s. rewrite app_nil_r. by split_and!.
Qed.

Lemma region_flags_ok p : flags_ok (region_flags si p).
Proof. unfold region_flags. by destruct (_ && _ && _ && _). Qed.

(** One turn of the loop adds the next page of the image. *)
Lemma emits_raw_page o n :
  0 <= o < raw_data_size si -> let rva := sr_rva si + o in let r := rva mod SE_PAGE_SIZE in
  let size := MIN (SE_PAGE_SIZE - PAGE_OFFSET rva) (raw_data_size si - o) in
  let data := zdrop o (ztake (raw_data_size si) (raw_data si)) in
  let fl := region_flags si (rva - r) in
  1 <= n -> r + zlen data <= n * SE_PAGE_SIZE ->
  emits (if size =? SE_PAGE_SIZE
         then build_pages bp rva size (Some (zdrop o (raw_data si))) (mk_sinfo fl) ADD_EXTEND_PAGE
         else build_partial_page bp rva size (zdrop o (raw_data si)) (mk_sinfo fl) ADD_EXTEND_PAGE)
    (page_log bp (rva - r) (ztake SE_PAGE_SIZE (raw_mem r data n)) fl) tt.
Proof.
  intros Ho. cbv zeta. intros Hn Hd. rewrite MIN_min, PAGE_OFFSET_mod. set (rva := sr_rva si + o) in *.
  assert (0 <= rva mod SE_PAGE_SIZE < SE_PAGE_SIZE) as Hr by (unfold SE_PAGE_SIZE; zlia).
  unfold region_end in Hmax. rewrite (proj1 (raw_mem_page _ _ _ Hr Hd Hn)).
  set (r := rva mod SE_PAGE_SIZE) in *. set (fl := region_flags si (rva - r)).
  assert (zlen (zdrop o (ztake (raw_data_size si) (raw_data si))) = raw_data_size si - o) as Hdl.
  { rewrite zlen_zdrop, zlen_ztake. lia. }
  assert (forall k, 0 <= k <= raw_data_size si - o ->
    ztake k (zdrop o (ztake (raw_data_size si) (raw_data si))) = ztake k (zdrop o (raw_data si))) as Hk.
  { intros k Hk'. rewrite zdrop_ztake, ztake_ztake by lia. f_equal. lia. }
  set (data := zdrop o (ztake (raw_data_size si) (raw_data si))) in *.
  match goal with |- context [page_log bp (rva - r) ?x fl] =>
    replace (page_log bp (rva - r) x fl) with (same_pages 1 (rva - r) x fl) by apply app_nil_r end.
  destruct (_ =? SE_PAGE_SIZE) eqn:E; zbool.
  - assert (r = 0) as Er by (unfold SE_PAGE_SIZE in *; lia). rewrite E, Er in *. rewrite Z.sub_0_r.
    rewrite Z.sub_0_r in *. replace SE_PAGE_SIZE with (SE_PAGE_SIZE * Z.of_nat 1) at 1 by done.
    apply emits_build_pages; try apply region_flags_ok; unfold default, Datatypes.id;
      try (unfold rva, SE_PAGE_SIZE in *; lia).
    + rewrite Hk by (unfold SE_PAGE_SIZE in *; lia). change (zreplicate 0 0) with (@nil Z). cbn [app].
      rewrite ztake_app_le by (rewrite zlen_ztake, zlen_zdrop; unfold SE_PAGE_SIZE in *; lia).
      by rewrite ztake_ztake, Z.min_id.
    + rewrite zlen_zdrop. unfold SE_PAGE_SIZE in *. lia.
  - unfold build_partial_page. rewrite PAGE_OFFSET_mod, TRIM_TO_PAGE_sub by (unfold is_u64, rva, SE_PAGE_SIZE in *; lia).
    fold r. set (size := Z.min _ _) in *.
    assert (0 <= size <= SE_PAGE_SIZE - r) by (unfold size; lia).
    assert (zlen (ztake size (zdrop o (raw_data si))) = size) as Hts by (rewrite zlen_ztake, zlen_zdrop; lia).
    unfold memcpy_s. replace (_ <? size) with false by lia.
    replace (_ || _) with false by (rewrite !zlen_zdrop, zlen_zreplicate; unfold SE_PAGE_SIZE in *; lia).
    rewrite bind_lift_Ok. cbn [fst]. rewrite splice_0, Hts, ztake_zreplicate, zdrop_zdrop, zdrop_zreplicate by lia.
    assert (ztake (SE_PAGE_SIZE - r) data = ztake size (zdrop o (raw_data si))) as ->.
    { destruct (Z.le_gt_cases (SE_PAGE_SIZE - r) (raw_data_size si - o)).
      - rewrite Hk by lia. f_equal. lia.
      - rewrite <- Hk by lia. rewrite !ztake_ge by lia. done. }
    rewrite Hts. replace (SE_PAGE_SIZE - (r + size)) with (SE_PAGE_SIZE - r - size) by lia.
    change (build_pages bp (rva - r) SE_PAGE_SIZE ?x) with (build_pages bp (rva - r) (SE_PAGE_SIZE * Z.of_nat 1) x).
    apply emits_build_pages; try apply region_flags_ok; unfold default, Datatypes.id; try done.
    + rewrite !zlen_app, !zlen_zreplicate, Hts. unfold SE_PAGE_SIZE in *. lia.
    + unfold r, SE_PAGE_SIZE in *. zlia.
    + unfold r, rva, SE_PAGE_SIZE in *. zlia.
    + unfold r, SE_PAGE_SIZE. zlia.
Qed.

(** Pages still to be added by the raw-data loop at offset [o]. *)
Definition raw_pages (o : Z) : Z :=
  if raw_data_size si <=? o then 0
  else ((sr_rva si + o) mod SE_PAGE_SIZE + (raw_data_size si - o) + SE_PAGE_SIZE - 1) / SE_PAGE_SIZE.

Lemma emits_raw_loop fuel o :
  0 <= o -> raw_pages o < Z.of_nat fuel ->
  let r := (sr_rva si + o) mod SE_PAGE_SIZE in
  emits (region_raw_loop bp mprotect fuel si o)
    (image_log bp (Z.to_nat (raw_pages o)) (sr_rva si + o - r)
       (raw_mem r (zdrop o (ztake (raw_data_size si) (raw_data si))) (raw_pages o)) (region_flags si))
    (if raw_pages o =? 0 then o else o + raw_pages o * SE_PAGE_SIZE - r).
Proof.
  revert o. induction fuel as [|k IH]; intros o Ho Hf; cbv zeta.
  { exfalso. clear Hmax. unfold raw_pages, SE_PAGE_SIZE in *. destruct (_ <=? o) eqn:E; zbool; zlia. }
  cbn [region_raw_loop]. unfold region_end in Hmax.
  set (r := (sr_rva si + o) mod SE_PAGE_SIZE).
  assert (0 <= r < SE_PAGE_SIZE) as Hr by (unfold r, SE_PAGE_SIZE; zlia).
  destruct (raw_data_size si <=? o) eqn:E.
  { unfold raw_pages. rewrite E. apply emits_ret. }
  assert (raw_pages o = (r + (raw_data_size si - o) + SE_PAGE_SIZE - 1) / SE_PAGE_SIZE) as En.
  { unfold raw_pages. by rewrite E. }
  zbool. set (n := raw_pages o) in *.
  assert (1 <= n /\ r + (raw_data_size si - o) <= n * SE_PAGE_SIZE /\
          n * SE_PAGE_SIZE < r + (raw_data_size si - o) + SE_PAGE_SIZE) as (Hn1 & Hn2 & Hn3).
  { unfold SE_PAGE_SIZE in *. clear Hmax. zlia. }
  clear En. rewrite (u64_id (sr_rva si + o)) by (unfold is_u64, SE_PAGE_SIZE in *; lia).
  set (data := zdrop o (ztake (raw_data_size si) (raw_data si))).
  assert (zlen data = raw_data_size si - o) as Hdl by (unfold data; rewrite zlen_zdrop, zlen_ztake; lia).
  replace (Z.to_nat n) with (S (Z.to_nat (n - 1))) by lia. cbn [image_log].
  change (?a ++ ?b) with ([] ++ (a ++ b)).
  apply emits_bind with (region_flags si (sr_rva si + o - r)); [apply emits_flags; lia|].
  apply emits_bind with tt; [apply emits_raw_page; fold data; fold r; lia|].
  rewrite (proj2 (raw_mem_page r data n Hr ltac:(lia) Hn1)).
  assert (PAGE_OFFSET (sr_rva si + o) = r) as -> by apply PAGE_OFFSET_mod.
  rewrite u64_id by (unfold is_u64, SE_PAGE_SIZE in *; lia).
  set (o' := o + (SE_PAGE_SIZE - r)).
  assert ((sr_rva si + o') mod SE_PAGE_SIZE = 0) as Er'.
  { unfold o', r, SE_PAGE_SIZE. clear. zlia. }
  assert (raw_pages o' = n - 1) as En'.
  { unfold raw_pages. rewrite Er'. unfold o' in *. destruct (_ <=? _) eqn:E'; zbool; unfold SE_PAGE_SIZE in *; zlia. }
  assert (0 <= o') as Ho' by (unfold o'; lia).
  pose proof (IH o' Ho' ltac:(lia)) as H. cbv zeta in H. rewrite Er', En' in H.
  replace (sr_rva si + o - r + SE_PAGE_SIZE) with (sr_rva si + o' - 0) by (unfold o'; lia).
  replace (zdrop (SE_PAGE_SIZE - r) data) with (zdrop o' (ztake (raw_data_size si) (raw_data si)))
    by (unfold data, o'; rewrite zdrop_zdrop by lia; done).
  replace (if n =? 0 then _ else _) with (if n - 1 =? 0 then o' else o' + (n - 1) * SE_PAGE_SIZE - 0); [done|].
  unfold o'. destruct (n - 1 =? 0) eqn:E1, (n =? 0) eqn:E2; zbool; lia.
Qed.

Lemma image_log_app n m rva mem f :
  image_log bp (n + m) rva mem f =
  image_log bp n rva mem f ++
  image_log bp m (rva + SE_PAGE_SIZE * Z.of_nat n) (zdrop (SE_PAGE_SIZE * Z.of_nat n) mem) f.
Proof.
  revert rva mem. induction n as [|n IH]; intros rva mem; cbn [Nat.add image_log app].
  { by rewrite Z.mul_0_r, Z.add_0_r, zdrop_le0 by done. }
  rewrite IH, app_assoc, zdrop_zdrop by (unfold SE_PAGE_SIZE; lia). f_equal. f_equal; [|f_equal]; lia.
Qed.

Lemma image_log_take n rva mem mem' f :
  ztake (SE_PAGE_SIZE * Z.of_nat n) mem = ztake (SE_PAGE_SIZE * Z.of_nat n) mem' ->
  image_log bp n rva mem f = image_log bp n rva mem' f.
Proof.
  revert rva mem mem'. induction n as [|n IH]; intros rva mem mem' E; cbn [image_log]; [done|].
  assert (ztake SE_PAGE_SIZE mem = ztake SE_PAGE_SIZE mem') as E1.
  { apply (f_equal (ztake SE_PAGE_SIZE)) in E. rewrite !ztake_ztake, !Z.min_l in E by (unfold SE_PAGE_SIZE; lia). done. }
  rewrite E1. f_equal. apply IH. apply (f_equal (zdrop SE_PAGE_SIZE)) in E.
  rewrite !zdrop_ztake in E by (unfold SE_PAGE_SIZE; lia).
  by replace (SE_PAGE_SIZE * Z.of_nat (S n) - SE_PAGE_SIZE) with (SE_PAGE_SIZE * Z.of_nat n) in E by lia.
Qed.

Lemma image_log_zeros n rva f fl :
  (forall p, rva <= p -> f p = fl) ->
  image_log bp n rva (zreplicate (SE_PAGE_SIZE * Z.of_nat n) 0) f =
  same_pages n rva (zreplicate SE_PAGE_SIZE 0) fl.
Proof.
  revert rva. induction n as [|n IH]; intros rva Hf; cbn [image_log same_pages]; [done|].
  rewrite Hf by lia. rewrite ztake_zreplicate, zdrop_zreplicate by (unfold SE_PAGE_SIZE; lia).
  replace (SE_PAGE_SIZE * Z.of_nat (S n) - SE_PAGE_SIZE) with (SE_PAGE_SIZE * Z.of_nat n) by lia.
  rewrite IH; [done|]. intros p Hp. apply Hf. unfold SE_PAGE_SIZE in *; lia.
Qed.

(** The zero pages after the initialised data. *)
Lemma emits_zero_pages off :
  0 <= off -> off < virtual_size si ->
  let rva := sr_rva si + off in let r := rva mod SE_PAGE_SIZE in
  let n := (virtual_size si - off + r + SE_PAGE_SIZE - 1) / SE_PAGE_SIZE in
  emits (build_pages bp (TRIM_TO_PAGE rva) (ROUND_TO_PAGE (u64 (virtual_size si - off + PAGE_OFFSET rva)))
           None (mk_sinfo (flag si)) ADD_EXTEND_PAGE)
    (same_pages (Z.to_nat n) (rva - r) (zreplicate SE_PAGE_SIZE 0) (flag si)) tt.
Proof.
  intros Ho Hv. cbv zeta. unfold region_end in Hmax. set (rva := sr_rva si + off).
  rewrite PAGE_OFFSET_mod. set (r := rva mod SE_PAGE_SIZE).
  assert (0 <= r < SE_PAGE_SIZE /\ r <= rva) as [Hr Hr'] by (unfold r, rva, SE_PAGE_SIZE; clear - Hrva Ho; zlia).
  set (n := _ / SE_PAGE_SIZE).
  assert (virtual_size si - off + r <= SE_PAGE_SIZE * n < virtual_size si - off + r + SE_PAGE_SIZE) as Hn.
  { unfold n, SE_PAGE_SIZE in *. clear. zlia. }
  rewrite (u64_id (virtual_size si - off + r)) by (unfold is_u64, SE_PAGE_SIZE, rva in *; lia).
  assert (ROUND_TO_PAGE (virtual_size si - off + r) = SE_PAGE_SIZE * Z.of_nat (Z.to_nat n)) as ->.
  { apply ROUND_TO_PAGE_div; unfold SE_PAGE_SIZE, rva in *; lia. }
  rewrite TRIM_TO_PAGE_sub by (unfold is_u64, rva, SE_PAGE_SIZE in *; lia). fold r.
  apply emits_build_pages; try done; unfold rva, SE_PAGE_SIZE in *; lia.
Qed.

Lemma raw_mem_split r data n m :
  0 <= m -> r + zlen data <= n * SE_PAGE_SIZE ->
  raw_mem r data (n + m) = raw_mem r data n ++ zreplicate (SE_PAGE_SIZE * m) 0.
Proof.
  intros Hm Hd. unfold raw_mem, SE_PAGE_SIZE in *. rewrite <- !app_assoc. do 2 f_equal.
  rewrite <- zreplicate_add by lia. f_equal. lia.
Qed.

Lemma zlen_raw_mem r data n : 0 <= r -> r + zlen data <= n * SE_PAGE_SIZE ->
  zlen (raw_mem r data n) = SE_PAGE_SIZE * n.
Proof. intros. unfold raw_mem. rewrite !zlen_app, !zlen_zreplicate. lia. Qed.

(** Pages of the raw data, offset behind them, pages of zeros. *)
Abbreviation r0 := (sr_rva si mod SE_PAGE_SIZE).
Definition n_raw : Z :=
  if raw_data_size si =? 0 then 0 else (r0 + raw_data_size si + SE_PAGE_SIZE - 1) / SE_PAGE_SIZE.
Definition raw_end : Z := if n_raw =? 0 then 0 else n_raw * SE_PAGE_SIZE - r0.
Definition n_zero : Z :=
  if virtual_size si <=? raw_end then 0
  else (virtual_size si - raw_end + (sr_rva si + raw_end) mod SE_PAGE_SIZE + SE_PAGE_SIZE - 1) / SE_PAGE_SIZE.

Lemma n_raw_bounds :
  0 <= n_raw /\ 0 <= raw_end /\ raw_data_size si <= raw_end /\
  (n_raw = 0 -> raw_data_size si = 0) /\
  (0 < n_raw -> 0 < raw_data_size si /\
     r0 + raw_data_size si <= n_raw * SE_PAGE_SIZE < r0 + raw_data_size si + SE_PAGE_SIZE).
Proof.
  clear - Hraw. unfold raw_end, n_raw, SE_PAGE_SIZE. generalize (sr_rva si). intros x.
  destruct (raw_data_size si =? 0) eqn:E; zbool; [cbn; lia|].
  destruct (_ / 4096 =? 0) eqn:E2; zbool; zlia.
Qed.

Lemma raw_end_page :
  sr_rva si + raw_end - (sr_rva si + raw_end) mod SE_PAGE_SIZE = region_start si + SE_PAGE_SIZE * n_raw.
Proof.
  unfold raw_end, region_start. destruct (n_raw =? 0) eqn:E; zbool.
  - rewrite E, !Z.add_0_r. lia.
  - generalize n_raw. clear. intros n. unfold SE_PAGE_SIZE. zlia.
Qed.

Lemma n_zero_nonneg : 0 <= n_zero.
Proof.
  unfold n_zero. destruct (_ <=? _) eqn:E; [lia|]. zbool. revert E. generalize raw_end (sr_rva si).
  clear. intros x y E. unfold SE_PAGE_SIZE. zlia.
Qed.

Lemma region_pages_split : region_pages si = n_raw + n_zero.
Proof.
  pose proof n_raw_bounds as (H1 & H2 & H3 & H4 & H5). unfold region_pages, region_end, region_start, n_zero.
  unfold raw_end in *. destruct (n_raw =? 0) eqn:E; zbool.
  - rewrite E, Z.add_0_r. specialize (H4 E). rewrite H4 in *. rewrite Z.max_r, Z.sub_0_r by lia.
    destruct (virtual_size si =? 0) eqn:E1, (virtual_size si <=? 0) eqn:E2; zbool; try lia.
    rewrite Z.add_0_l. f_equal. lia.
  - assert (0 < n_raw) by lia. specialize (H5 ltac:(lia)). clear H4. revert H5.
    replace ((sr_rva si + (n_raw * SE_PAGE_SIZE - r0)) mod SE_PAGE_SIZE) with 0
      by (generalize n_raw; clear; intros; unfold SE_PAGE_SIZE; zlia).
    generalize dependent n_raw. intros n H1 H2 H3 _ Hn H5.
    replace (_ =? 0) with false by (unfold SE_PAGE_SIZE in *; lia).
    assert (0 <= r0 < SE_PAGE_SIZE) as Hr by (unfold SE_PAGE_SIZE; clear; zlia). revert H2 H3 H5 Hr.
    generalize r0. intros r H2 H3 H5 Hr. replace (sr_rva si + _ - (sr_rva si - r)) with (Z.max (raw_data_size si) (virtual_size si) + r) by lia.
    clear - H1 H2 H3 H5 Hr Hn Hraw Hvs. unfold SE_PAGE_SIZE in *.
    destruct (_ <=? _) eqn:E; zbool; zlia.
Qed.

Lemma region_mem_raw n : region_mem si n = raw_mem r0 (ztake (raw_data_size si) (raw_data si)) n.
Proof. unfold region_mem, raw_mem. do 4 f_equal. rewrite zlen_ztake. lia. Qed.

(** The region's log: raw pages, then pages of zeros. *)
Lemma region_log_split :
  region_log bp si =
    image_log bp (Z.to_nat n_raw) (sr_rva si - r0)
      (raw_mem r0 (ztake (raw_data_size si) (raw_data si)) n_raw) (region_flags si) ++
    same_pages (Z.to_nat n_zero) (sr_rva si + raw_end - (sr_rva si + raw_end) mod SE_PAGE_SIZE)
      (zreplicate SE_PAGE_SIZE 0) (flag si).
Proof.
  pose proof n_raw_bounds as (H1 & H2 & H3 & H4 & H5). pose proof n_zero_nonneg as H6.
  unfold region_log. rewrite region_pages_split, Z2Nat.inj_add, image_log_app, raw_end_page by done.
  rewrite Z2Nat.id by done. rewrite region_mem_raw.
  assert (0 <= r0 < SE_PAGE_SIZE) as Hr by (unfold SE_PAGE_SIZE; clear; zlia).
  assert (zlen (ztake (raw_data_size si) (raw_data si)) = raw_data_size si) as Hd by (rewrite zlen_ztake; lia).
  set (D := ztake (raw_data_size si) (raw_data si)) in *.
  assert (forall p, region_start si + SE_PAGE_SIZE * n_raw <= p -> region_flags si p = flag si) as Hfl.
  { intros p Hp. unfold region_flags, region_start in *.
    destruct (0 <? raw_data_size si) eqn:E0; [|done]. replace (p <? _) with false; [done|].
    zbool. destruct (Z.eq_dec n_raw 0) as [E|E]; [specialize (H4 E); lia|]. specialize (H5 ltac:(lia)). lia. }
  destruct (Z.eq_dec n_raw 0) as [E|E].
  - rewrite E in *. specialize (H4 eq_refl). rewrite H4 in Hd. destruct D; [|cbn [length] in Hd; lia].
    cbn [Z.to_nat image_log app]. destruct (Z.eq_dec n_zero 0) as [->|E']; [done|].
    rewrite <- (image_log_zeros _ _ (region_flags si) (flag si)) by done. f_equal.
    rewrite Z.mul_0_r, zdrop_le0, Z2Nat.id by lia. unfold raw_mem. cbn [app length].
    rewrite <- zreplicate_add by (unfold SE_PAGE_SIZE in *; lia). do 2 f_equal. lia.
  - specialize (H5 ltac:(lia)). rewrite raw_mem_split by (rewrite ?Hd; lia).
    assert (zlen (raw_mem r0 D n_raw) = SE_PAGE_SIZE * n_raw) as Hl by (apply zlen_raw_mem; rewrite ?Hd; lia).
    f_equal.
    + apply image_log_take. rewrite Z2Nat.id by lia. by rewrite ztake_app_le, ztake_ge by lia.
    + rewrite zdrop_app_ge by lia. rewrite Hl, Z.sub_diag, zdrop_le0 by lia.
      rewrite <- (Z2Nat.id n_zero) at 2 by lia. by apply image_log_zeros.
Qed.

Lemma emits_mem_region : emits (build_mem_region bp mprotect si) (region_log bp si) tt.
Proof.
  pose proof n_raw_bounds as (H1 & H2 & H3 & H4 & H5). unfold build_mem_region.
  assert (raw_pages 0 = n_raw) as En.
  { unfold raw_pages, n_raw. rewrite Z.add_0_r, Z.sub_0_r.
    destruct (_ <=? 0) eqn:E1, (_ =? 0) eqn:E2; zbool; done || lia. }
  pose proof (emits_raw_loop (region_fuel si) 0 ltac:(lia)) as Hl. cbv zeta in Hl.
  rewrite Z.add_0_r, zdrop_le0, En in Hl by lia. rewrite region_log_split.
  eapply emits_bind; [apply Hl|].
  - unfold region_fuel, n_raw. clear - Hraw. generalize (sr_rva si). intros x. unfold SE_PAGE_SIZE.
    destruct (raw_data_size si =? 0) eqn:E; zbool; zlia.
  - fold raw_end. change (0 + n_raw * SE_PAGE_SIZE) with (n_raw * SE_PAGE_SIZE). fold raw_end.
    unfold n_zero. rewrite Z.gtb_ltb. destruct (raw_end <? virtual_size si) eqn:E; zbool.
    + replace (virtual_size si <=? raw_end) with false by lia. unfold region_end in Hmax.
      rewrite (u64_id (sr_rva si + raw_end)) by (unfold is_u64, SE_PAGE_SIZE in *; lia).
      apply emits_zero_pages; lia.
    + replace (virtual_size si <=? raw_end) with true by lia. apply emits_ret.
Qed.
End Emits.

(** ** All sections of the file *)
Section Sections.
Context {HF : HashFn} (bp : BinParser) (md : list Z) (mprotect : Z -> Z -> Z -> Z) (bm img : list Z).

(** The section as build_sections passes it on *)
Definition section_range (sec : Section_) : section_info_t :=
  MkSecRange (zdrop (s_raw_data sec) img) (s_raw_data_size sec) (s_rva sec) (s_virtual_size sec) (s_si_flags sec)
    (Some bm).

(** Its data lies in the file, its memory below 2^64. *)
Definition section_fits (sec : Section_) : Prop :=
  0 <= s_raw_data sec /\ 0 <= s_raw_data_size sec /\ s_raw_data sec + s_raw_data_size sec <= zlen img /\
  0 <= s_rva sec /\ 0 <= s_virtual_size sec /\ region_end (section_range sec) + SE_PAGE_SIZE < 2 ^ 64 /\
  flags_ok (s_si_flags sec) /\ flags_ok (Z.lor (s_si_flags sec) SI_FLAG_W).

Definition sections_log (secs : list Section_) : list mevent :=
  concat (map (fun sec => region_log bp (section_range sec)) secs).

Lemma section_region sec : section_fits sec ->
  emits (build_mem_region bp mprotect (section_range sec)) (region_log bp (section_range sec)) tt.
Proof.
  intros (H1 & H2 & H3 & H4 & H5 & H6 & H7 & H8).
  apply emits_mem_region; cbn [section_range raw_data raw_data_size sr_rva virtual_size flag]; try done.
  rewrite zlen_zdrop. lia.
Qed.

Lemma sections_loop_log secs max_rva last s tr :
  is_version_1_5 md = false -> Forall section_fits secs -> open_log s tr -> ls_image s = img ->
  exists s' last', build_sections_loop bp md mprotect secs max_rva last bm s = (s', Ok last') /\
    open_log s' (tr ++ sections_log secs) /\ ls_image s' = img.
Proof.
  intros Hv Hf. revert max_rva last s tr. induction Hf as [|sec secs Hs Hf IH]; intros mr last s tr Ho Hi.
  { exists s, last. cbn. by rewrite app_nil_r. }
  cbn [build_sections_loop]. rewrite Hv. cbn [andb].
  set (nx := if s_rva sec >? mr then _ else _). destruct nx as [mr' last'] eqn:En.
  destruct (section_region sec Hs s tr Ho) as (s1 & E1 & Ho1 & Hi1).
  destruct (IH mr' last' s1 _ Ho1 ltac:(by rewrite Hi1)) as (s2 & l2 & E2 & Ho2 & Hi2).
  exists s2, l2. rewrite (bind_Ok _ _ s s tt) by (by destruct last).
  unfold mget. unfold mbind at 1, M_bind at 1. rewrite Hi. fold (section_range sec).
  rewrite (bind_Ok _ _ _ _ _ E1), E2. unfold sections_log in *. cbn [map concat]. by rewrite app_assoc.
Qed.

(** C14. Loading the sections.  For metadata newer than version 1.5 and
    sections whose data lies in the file, build_sections succeeds and adds to
    the log, section by section, the pages of the section's memory image
    (zeros before its start address, its data, zeros to the end of its last
    page), each page once, at its own address, EADD followed by its sixteen
    EEXTENDs; pages of the MAGE section are skipped and pages with
    relocations are writable. *)
Theorem build_sections_log s tr :
  is_version_1_5 md = false -> Forall section_fits (bp_sections bp) -> open_log s tr -> ls_image s = img ->
  exists s', build_sections bp md mprotect bm s = (s', Ok tt) /\
    open_log s' (tr ++ sections_log (bp_sections bp)) /\ ls_image s' = img.
Proof.
  intros Hv Hf Ho Hi. destruct (sections_loop_log _ 0 None s tr Hv Hf Ho Hi) as (s' & l & E & Ho' & Hi').
  exists s'. split; [|done]. unfold build_sections. rewrite (bind_Ok _ _ _ _ _ E).
  destruct l; [|done]. by rewrite Hv.
Qed.
End Sections.

Lemma build_sections_log_witness :
  let HF := sha256_hash_fn in
  let sec := MkSection 2 3 0x1100 0x1ff0 2 (Z.lor SI_FLAG_REG SI_FLAG_R) in
  let bp := MkBinParser (2 ^ 36) [sec] None false (fun _ => Ok []) (fun _ _ _ => Ok true) (fun _ _ => Ok []) in
  let img := [1; 2; 3; 4; 5; 6] in
  let s := MkLS (TraceCreator.log [] [] 0 TraceCreator.initial) img 0 0 [] secs_zero in
  exists s', build_sections bp [] (fun _ _ _ => 0) [] s = (s', Ok tt) /\
    open_log s' (sections_log bp [] img [sec]) /\ length (sections_log bp [] img [sec]) = 51%nat.
Proof.
  intros HF sec bp img s. destruct (build_sections_log bp [] (fun _ _ _ => 0) [] img s []) as (s' & E & Ho & _).
  - reflexivity.
  - constructor; [|constructor]. unfold section_fits. cbn -[Z.lor]. split_and!; done || lia.
  - reflexivity.
  - reflexivity.
  - exists s'. split; [exact E|]. split; [exact Ho|]. vm_compute. reflexivity.
Defined.
