(* ===== verification/Elf.v ===== *)
(** * The ELF parser

    psw/urts/parser/elfparser.cpp (64-bit class, [Elf64Parser]) on the mapped
    enclave file.  Pointers into the file are byte offsets from
    [m_start_addr], with the wrap-around of the address arithmetic; fields
    are read one by one as the code reads them, and a read outside the file
    is [Stuck], as is a failed [assert] or an access outside [m_dyn_info].
    [bin_parser] packs a parsed file as the [BinParser] the loader uses. *)
From S2P Require Import Prelude Bytes Sha256 Arch Measure Creator Loader.
From stdpp Require Import gmap.

#[local] Open Scope Z_scope.

(** ** ELF structures (common/inc/internal/elfheader) *)
Module Ehdr.
Definition sizeof : Z := 64.
Definition e_type := Fld 16 2.
Definition e_machine := Fld 18 2.
Definition e_entry := Fld 24 8.
Definition e_phoff := Fld 32 8.
Definition e_shoff := Fld 40 8.
Definition e_phentsize := Fld 54 2.
Definition e_phnum := Fld 56 2.
Definition e_shentsize := Fld 58 2.
Definition e_shnum := Fld 60 2.
Definition e_shstrndx := Fld 62 2.
End Ehdr.

Module Phdr.
Definition sizeof : Z := 56.
Definition p_type := Fld 0 4.
Definition p_flags := Fld 4 4.
Definition p_offset := Fld 8 8.
Definition p_vaddr := Fld 16 8.
Definition p_filesz := Fld 32 8.
Definition p_memsz := Fld 40 8.
Definition p_align := Fld 48 8.
End Phdr.

Module Shdr.
Definition sizeof : Z := 64.
Definition sh_name := Fld 0 4.
Definition sh_type := Fld 4 4.
Definition sh_flags := Fld 8 8.
Definition sh_addr := Fld 16 8.
Definition sh_offset := Fld 24 8.
Definition sh_size := Fld 32 8.
Definition sh_addralign := Fld 48 8.
Definition sh_entsize := Fld 56 8.
End Shdr.

Module Sym.
Definition sizeof : Z := 24.
Definition st_name := Fld 0 4.
Definition st_info := Fld 4 1.
Definition st_shndx := Fld 6 2.
Definition st_value := Fld 8 8.
End Sym.

Module Rel.
Definition sizeof : Z := 24.
Definition r_offset := Fld 0 8.
Definition r_info := Fld 8 8.
End Rel.

Module Dyn.
Definition sizeof : Z := 16.
Definition d_tag := Fld 0 8.
Definition d_un := Fld 8 8.
End Dyn.

Module Note.
Definition sizeof : Z := 12.
Definition namesz := Fld 0 4.
Definition descsz := Fld 4 4.
End Note.

Definition ELFMAG : list Z := [0x7f; 0x45; 0x4c; 0x46].
Definition ELFCLASS64 : Z := 2.
Definition ELFDATA2LSB : Z := 1.
Definition EV_CURRENT : Z := 1.
Definition ET_DYN : Z := 3.
Definition EM_X86_64 : Z := 62.
Definition PT_LOAD : Z := 1.
Definition PT_DYNAMIC : Z := 2.
Definition PT_TLS : Z := 7.
Definition PT_GNU_RELRO : Z := 0x6474e552.
Definition PF_X : Z := 1.
Definition PF_W : Z := 2.
Definition PF_R : Z := 4.
Definition SHN_UNDEF : Z := 0.
Definition STB_WEAK : Z := 2.
Definition SHT_RELA : Z := 4.
Definition SHT_REL : Z := 9.
Definition SHF_EXECINSTR : Z := 4.
Definition DT_NULL : Z := 0.
Definition DT_PLTRELSZ : Z := 2.
Definition DT_STRTAB : Z := 5.
Definition DT_SYMTAB : Z := 6.
Definition DT_RELA : Z := 7.
Definition DT_RELASZ : Z := 8.
Definition DT_RELAENT : Z := 9.
Definition DT_REL : Z := 17.
Definition DT_TEXTREL : Z := 22.
Definition DT_JMPREL : Z := 23.
Definition DT_NUM : Z := 25.
Definition DT_ADDRRNGLO : Z := 0x6ffffe00.
Definition DT_ADDRRNGHI : Z := 0x6ffffeff.
Definition DT_ADDRTAGIDX (tag : Z) : Z := DT_ADDRRNGHI - tag.
Definition DT_ADDRNUM : Z := 11.
Definition R_X86_64_NONE : Z := 0.
Definition R_X86_64_64 : Z := 1.
Definition R_X86_64_GLOB_DAT : Z := 6.
Definition R_X86_64_JUMP_SLOT : Z := 7.
Definition R_X86_64_RELATIVE : Z := 8.
Definition R_X86_64_DTPMOD64 : Z := 16.
Definition R_X86_64_DTPOFF64 : Z := 17.
Definition R_X86_64_TPOFF64 : Z := 18.
Definition ELF64_R_TYPE (info : Z) : Z := Z.land info 0xFFFFFFFF.
Definition ELF64_ST_BIND (x : Z) : Z := Z.shiftr x 4.
Definition ENCLAVE_MAX_SIZE_32 : Z := 0xffffffff.
Definition ENCLAVE_MAX_SIZE_64 : Z := 0x1fffffffff.

Inductive bin_fmt_t := BF_UNKNOWN | BF_ELF64.

(** ** Reading the file *)

(** The results of this file: no error value but the parser's status. *)
Abbreviation R := (res sgx_status_t).

(** [p->f], [p] an offset in the file *)
Definition ld (img : list Z) (p : Z) (f : field) : R Z := deref (rd (f_width f) (u64 (p + f_off f)) img).

Definition str_bytes (s : string) : list Z := map (fun a => Z.of_N (Ascii.N_of_ascii a)) (String.list_ascii_of_string s).

(** [strcmp(p, s) == 0]: reads up to the first difference. *)
Fixpoint strcmp_eq (img : list Z) (p : Z) (s : list Z) : R bool :=
  match s with
  | [] => c ← ld img p (Fld 0 1); mret (c =? 0)
  | b :: s' => c ← ld img p (Fld 0 1); if c =? b then strcmp_eq img (u64 (p + 1)) s' else mret false
  end.

(** The C string at [p] *)
Fixpoint read_cstr (fuel : nat) (img : list Z) (p : Z) : R (list Z) :=
  match fuel with
  | O => Stuck
  | S k => c ← ld img p (Fld 0 1); if c =? 0 then mret [] else r ← read_cstr k img (u64 (p + 1)); mret (c :: r)
  end.

(** [memcmp(p, s, |s|) == 0] *)
Definition memcmp_eq (img : list Z) (p : Z) (s : list Z) : R bool :=
  if (0 <=? p) && (p + zlen s <=? zlen img) then mret (bool_decide (slice p (zlen s) img = s)) else Stuck.

(** ** Sections by name or address *)
Section File.
Context (img : list Z).

Definition compare_section_name (name : list Z) (shstrtab shdr : Z) : R bool :=
  n ← ld img shdr Shdr.sh_name; strcmp_eq img (u64 (shstrtab + n)) name.

Definition compare_section_addr (addr : Z) (shstrtab shdr : Z) : R bool :=
  a ← ld img shdr Shdr.sh_addr; mret (a =? addr).

Fixpoint get_section_loop (f : Z -> Z -> R bool) (n : nat) (shstrtab shdr : Z) : R (option Z) :=
  match n with
  | O => mret None
  | S n' =>
      b ← f shstrtab shdr;
      if (b : bool) then mret (Some shdr) else get_section_loop f n' shstrtab (u64 (shdr + Shdr.sizeof))
  end.

Definition get_section (f : Z -> Z -> R bool) : R (option Z) :=
  shdr ← ld img 0 Ehdr.e_shoff;
  ents ← ld img 0 Ehdr.e_shentsize;
  assertc (Shdr.sizeof =? ents) ;;
  ndx ← ld img 0 Ehdr.e_shstrndx;
  shstrtab ← ld img (u64 (shdr + Shdr.sizeof * ndx)) Shdr.sh_offset;
  shnum ← ld img 0 Ehdr.e_shnum;
  get_section_loop f (Z.to_nat shnum) shstrtab shdr.

(** A name is the characters before the NUL. *)
Definition get_section_by_bytes (name : list Z) : R (option Z) := get_section (compare_section_name name).
Definition get_section_by_name (name : string) : R (option Z) := get_section_by_bytes (str_bytes name).
Definition get_section_by_addr (addr : Z) : R (option Z) := get_section (compare_section_addr addr).

(** The data of the section loaded at an address; [None] is NULL. *)
Definition get_section_raw_data (addr : Z) : R (option Z) :=
  shdr ← get_section_by_addr addr;
  match shdr with
  | None => mret None
  | Some p => off ← ld img p Shdr.sh_offset; mret (Some off)
  end.

(** ** Checks of the file *)
Definition validate_elf_header : R bool :=
  mag ← memcmp_eq img 0 ELFMAG;
  cls ← ld img 4 (Fld 0 1);
  data ← ld img 5 (Fld 0 1);
  ver ← ld img 6 (Fld 0 1);
  ty ← ld img 0 Ehdr.e_type;
  ps ← ld img 0 Ehdr.e_phentsize;
  mret (mag && (cls =? ELFCLASS64) && (data =? ELFDATA2LSB) && (ver =? EV_CURRENT) && (ty =? ET_DYN)
          && (ps =? Phdr.sizeof)).

Definition get_bin_fmt : R (option bin_fmt_t) :=
  m ← ld img 0 Ehdr.e_machine;
  mret (if m =? EM_X86_64 then Some BF_ELF64 else None).

Definition seg_overlap (p1 p2 : Z * Z) : R bool :=
  assertc (fst p1 <=? snd p1) ;;
  assertc (fst p2 <=? snd p2) ;;
  mret ((fst p1 <=? snd p2) && (fst p2 <=? snd p1)).

Fixpoint overlap_any (p : Z * Z) (segs : list (Z * Z)) : R bool :=
  match segs with
  | [] => mret false
  | q :: rest => b ← seg_overlap p q; if (b : bool) then mret true else overlap_any p rest
  end.

(** [load_seg] holds the segments seen so far, in order. *)
Fixpoint validate_segment_loop (n : nat) (prg_hdr : Z) (load_seg : list (Z * Z)) : R bool :=
  match n with
  | O => mret true
  | S n' =>
      off ← ld img prg_hdr Phdr.p_offset;
      fsz ← ld img prg_hdr Phdr.p_filesz;
      if zlen img <? u64 (off + fsz) then mret false
      else
        ty ← ld img prg_hdr Phdr.p_type;
        if ty =? PT_LOAD then
          align ← ld img prg_hdr Phdr.p_align;
          if negb (IS_PAGE_ALIGNED align) then mret false
          else
            va ← ld img prg_hdr Phdr.p_vaddr;
            msz ← ld img prg_hdr Phdr.p_memsz;
            let seg := (va, u64 (ROUND_TO (u64 (va + msz)) align - 1)) in
            b ← overlap_any seg load_seg;
            if (b : bool) then mret false
            else validate_segment_loop n' (u64 (prg_hdr + Phdr.sizeof)) (load_seg ++ [seg])
        else validate_segment_loop n' (u64 (prg_hdr + Phdr.sizeof)) load_seg
  end.

Definition validate_segment : R bool :=
  prg_hdr ← ld img 0 Ehdr.e_phoff;
  ents ← ld img 0 Ehdr.e_phentsize;
  assertc (Phdr.sizeof =? ents) ;;
  n ← ld img 0 Ehdr.e_phnum;
  validate_segment_loop (Z.to_nat n) prg_hdr [].

(** ** The dynamic segment *)

(** [dyn_info[i] = *p]; the array has DT_NUM + DT_ADDRNUM entries. *)
Definition set_dyn (dyn_info : list (Z * Z)) (i : Z) (d : Z * Z) : R (list (Z * Z)) :=
  if (0 <=? i) && (i <? zlen dyn_info) then mret (<[Z.to_nat i := d]> dyn_info) else Stuck.

Definition dyn_tag (dyn_info : list (Z * Z)) (i : Z) : Z := fst (nth (Z.to_nat i) dyn_info (0, 0)).
Definition dyn_val (dyn_info : list (Z * Z)) (i : Z) : Z := snd (nth (Z.to_nat i) dyn_info (0, 0)).

(** while (dyn_entry->d_tag != DT_NULL) ... ; [fuel] bounds the entries. *)
Fixpoint parse_dyn_loop (fuel : nat) (dyn_entry : Z) (has_dyn : bool) (dyn_info : list (Z * Z))
    : R (bool * list (Z * Z)) :=
  match fuel with
  | O => Stuck
  | S k =>
      tag ← ld img dyn_entry Dyn.d_tag;
      if tag =? DT_NULL then mret (has_dyn, dyn_info)
      else
        dyn_info' ←
          (if tag <? DT_NUM then v ← ld img dyn_entry Dyn.d_un; set_dyn dyn_info tag (tag, v)
           else if (DT_ADDRRNGLO <? tag) && (tag <=? DT_ADDRRNGHI) then
             v ← ld img dyn_entry Dyn.d_un; set_dyn dyn_info (DT_ADDRTAGIDX tag + DT_NUM) (tag, v)
           else mret dyn_info);
        parse_dyn_loop k (u64 (dyn_entry + Dyn.sizeof)) true dyn_info'
  end.

Fixpoint parse_dyn_segs (n : nat) (prg_hdr : Z) (dyn_info : list (Z * Z)) : R (bool * list (Z * Z)) :=
  match n with
  | O => mret (false, dyn_info)
  | S n' =>
      ty ← ld img prg_hdr Phdr.p_type;
      if ty =? PT_DYNAMIC then
        off ← ld img prg_hdr Phdr.p_offset;
        parse_dyn_loop (S (length img)) off false dyn_info
      else parse_dyn_segs n' (u64 (prg_hdr + Phdr.sizeof)) dyn_info
  end.

Definition parse_dyn (dyn_info : list (Z * Z)) : R (bool * list (Z * Z)) :=
  prg_hdr ← ld img 0 Ehdr.e_phoff;
  n ← ld img 0 Ehdr.e_phnum;
  parse_dyn_segs (Z.to_nat n) prg_hdr dyn_info.

(** ** Symbols *)
Definition exported_symbols : list string :=
  ["enclave_entry"; "g_global_data_sim"; "g_peak_heap_used"; "g_global_data"].

(** sym_table[sym] = st_value for every exported name equal to [sym] *)
Fixpoint record_symbol (names : list string) (sym value : Z) (sym_table : gmap string Z) : R (gmap string Z) :=
  match names with
  | [] => mret sym_table
  | n :: rest =>
      b ← strcmp_eq img sym (str_bytes n);
      record_symbol rest sym value (if (b : bool) then <[n := value]> sym_table else sym_table)
  end.

(** [strtab] is [None] when there is no string table: a name is then read
    next to the null pointer. *)
Fixpoint check_symbols (n : nat) (sym : Z) (strtab : option Z) (sym_table : gmap string Z)
    : R (bool * gmap string Z) :=
  match n with
  | O => mret (true, sym_table)
  | S n' =>
      name ← ld img sym Sym.st_name;
      if name =? 0 then check_symbols n' (u64 (sym + Sym.sizeof)) strtab sym_table
      else
        shndx ← ld img sym Sym.st_shndx;
        info ← ld img sym Sym.st_info;
        if (shndx =? SHN_UNDEF) && negb (ELF64_ST_BIND info =? STB_WEAK) then mret (false, sym_table)
        else
          base ← deref strtab;
          value ← ld img sym Sym.st_value;
          sym_table' ← record_symbol exported_symbols (u64 (base + name)) value sym_table;
          check_symbols n' (u64 (sym + Sym.sizeof)) strtab sym_table'
  end.

Definition check_symbol_table (dyn_info : list (Z * Z)) (sym_table : gmap string Z)
    : R (bool * gmap string Z) :=
  sh ← get_section_by_addr (dyn_val dyn_info DT_SYMTAB);
  match sh with
  | None => mret (false, sym_table)
  | Some sh_symtab =>
      entsize ← ld img sh_symtab Shdr.sh_entsize;
      if entsize =? 0 then mret (false, sym_table)
      else
        symtab ← ld img sh_symtab Shdr.sh_offset;
        size ← ld img sh_symtab Shdr.sh_size;
        let sym_num := u32 (size / entsize) in
        strtab ← get_section_raw_data (dyn_val dyn_info DT_STRTAB);
        r ← check_symbols (Z.to_nat (sym_num - 1)) (u64 (symtab + Sym.sizeof)) strtab sym_table;
        if negb (fst r) then mret r
        else match snd r !! "enclave_entry" with
             | Some _ => mret r
             | None => entry ← ld img 0 Ehdr.e_entry; mret (true, <["enclave_entry" := entry]> (snd r))
             end
  end.

(** ** Relocations *)
Definition reloc_supported (t : Z) : bool :=
  existsb (Z.eqb t)
    [R_X86_64_RELATIVE; R_X86_64_GLOB_DAT; R_X86_64_JUMP_SLOT; R_X86_64_64; R_X86_64_NONE;
     R_X86_64_DTPMOD64; R_X86_64_DTPOFF64; R_X86_64_TPOFF64].

Fixpoint validate_rels (n : nat) (rela : Z) : R bool :=
  match n with
  | O => mret true
  | S n' =>
      info ← ld img rela Rel.r_info;
      if reloc_supported (ELF64_R_TYPE info) then validate_rels n' (u64 (rela + Rel.sizeof)) else mret false
  end.

Definition do_validate_reltab (reltab : option Z) (nr_rel : Z) : R bool :=
  match reltab with
  | None => mret (nr_rel =? 0)
  | Some p => validate_rels (Z.to_nat nr_rel) p
  end.

Definition validate_reltabs (dyn_info : list (Z * Z)) : R bool :=
  if negb (dyn_val dyn_info DT_REL =? 0) then mret false
  else
    reltab ← get_section_raw_data (dyn_val dyn_info DT_RELA);
    let reltab_sz := u32 (dyn_val dyn_info DT_RELASZ) in
    jmpreltab ← get_section_raw_data (dyn_val dyn_info DT_JMPREL);
    let jmpreltab_sz := u32 (dyn_val dyn_info DT_PLTRELSZ) in
    b ← do_validate_reltab reltab (reltab_sz / Rel.sizeof);
    if (b : bool) then do_validate_reltab jmpreltab (jmpreltab_sz / Rel.sizeof) else mret false.

Definition has_ctor_section : R bool :=
  sh ← get_section_by_name ".ctors"; mret (bool_decide (is_Some sh)).
End File.

(** ** Sections *)
Definition page_attr_to_si_flags (page_attr : Z) : Z :=
  let r0 := SI_FLAG_REG in
  let r1 := if hasflag page_attr PF_R then Z.lor r0 SI_FLAG_R else r0 in
  let r2 := if hasflag page_attr PF_W then Z.lor r1 SI_FLAG_W else r1 in
  if hasflag page_attr PF_X then Z.lor r2 SI_FLAG_X else r2.

Definition build_section (raw size virtual_size rva offset page_attr : Z) : option Section_ :=
  let sf := page_attr_to_si_flags page_attr in
  if negb (sf =? SI_FLAG_REG) then Some (MkSection raw size virtual_size rva offset sf) else None.

Definition SGX_MAGE_SEC_NAME : string := ".sgx_mage".
Definition META_NAME : list Z := str_bytes "sgx_metadata" ++ [0].

Section File2.
Context (img : list Z).

Definition build_mage_section : R (option Section_) :=
  sh ← get_section_by_name img SGX_MAGE_SEC_NAME;
  match sh with
  | None => mret None
  | Some p =>
      off ← ld img p Shdr.sh_offset;
      size ← ld img p Shdr.sh_size;
      addr ← ld img p Shdr.sh_addr;
      mret (Some (MkSection off size size addr off (Z.lor SI_FLAG_REG SI_FLAG_R)))
  end.

(** The offset and size of the metadata, from the note of .note.sgxmeta *)
Definition get_meta_property : R (option (Z * Z)) :=
  sh ← get_section_by_name img ".note.sgxmeta";
  match sh with
  | None => mret None
  | Some p =>
      note ← ld img p Shdr.sh_offset;
      sz ← ld img p Shdr.sh_size;
      namesz ← ld img note Note.namesz;
      descsz ← ld img note Note.descsz;
      align ← ld img p Shdr.sh_addralign;
      if negb (sz =? ROUND_TO (Note.sizeof + namesz + descsz) align) then mret None
      else if negb (namesz =? zlen META_NAME) then mret None
      else
        b ← memcmp_eq img (u64 (note + Note.sizeof)) META_NAME;
        if (b : bool) then mret (Some (u64 (note + Note.sizeof + namesz), descsz)) else mret None
  end.

Definition tls_virtual_size (virtual_size alignment : Z) : Z :=
  if (alignment =? 0) || (alignment =? 1) then virtual_size
  else Z.land (u64 (virtual_size + alignment - 1)) (u64 (Z.lnot (alignment - 1))).
End File2.

(** ** The parser object *)
Record ElfParser := MkElf {
  ep_bin_fmt : bin_fmt_t; ep_sections : list Section_; ep_tls_section : option Section_;
  ep_mage_section : option Section_; ep_for_sign : bool; ep_metadata_offset : Z;
  ep_metadata_block_size : Z; ep_dyn_info : list (Z * Z); ep_sym_table : gmap string Z }.

(** The constructor *)
Definition elf_new : ElfParser :=
  MkElf BF_UNKNOWN [] None None false 0 0 (replicate (Z.to_nat (DT_NUM + DT_ADDRNUM)) (0, 0)) ∅.

Definition set_bin_fmt f p := MkElf f (ep_sections p) (ep_tls_section p) (ep_mage_section p) (ep_for_sign p)
  (ep_metadata_offset p) (ep_metadata_block_size p) (ep_dyn_info p) (ep_sym_table p).
Definition set_dyn_info d p := MkElf (ep_bin_fmt p) (ep_sections p) (ep_tls_section p) (ep_mage_section p)
  (ep_for_sign p) (ep_metadata_offset p) (ep_metadata_block_size p) d (ep_sym_table p).
Definition set_sym_table t p := MkElf (ep_bin_fmt p) (ep_sections p) (ep_tls_section p) (ep_mage_section p)
  (ep_for_sign p) (ep_metadata_offset p) (ep_metadata_block_size p) (ep_dyn_info p) t.
Definition set_metadata o n p := MkElf (ep_bin_fmt p) (ep_sections p) (ep_tls_section p) (ep_mage_section p)
  (ep_for_sign p) o n (ep_dyn_info p) (ep_sym_table p).
Definition set_mage_section m p := MkElf (ep_bin_fmt p) (ep_sections p) (ep_tls_section p) m
  (ep_for_sign p) (ep_metadata_offset p) (ep_metadata_block_size p) (ep_dyn_info p) (ep_sym_table p).
Definition push_section x p := MkElf (ep_bin_fmt p) (ep_sections p ++ [x]) (ep_tls_section p) (ep_mage_section p)
  (ep_for_sign p) (ep_metadata_offset p) (ep_metadata_block_size p) (ep_dyn_info p) (ep_sym_table p).
Definition set_tls_section t p := MkElf (ep_bin_fmt p) (ep_sections p) (Some t) (ep_mage_section p)
  (ep_for_sign p) (ep_metadata_offset p) (ep_metadata_block_size p) (ep_dyn_info p) (ep_sym_table p).
(** ElfParser::set_for_sign *)
Definition elf_set_for_sign b p := MkElf (ep_bin_fmt p) (ep_sections p) (ep_tls_section p) (ep_mage_section p)
  b (ep_metadata_offset p) (ep_metadata_block_size p) (ep_dyn_info p) (ep_sym_table p).

Section Run.
Context (img : list Z).
Abbreviation P := (M ElfParser sgx_status_t).

(** [false]: a PT_LOAD or PT_TLS segment without permissions *)
Fixpoint build_segments (n : nat) (prg_hdr : Z) : P bool :=
  match n with
  | O => mret true
  | S n' =>
      ty ← mlift (ld img prg_hdr Phdr.p_type);
      if (ty =? PT_LOAD) || (ty =? PT_TLS) then
        off ← mlift (ld img prg_hdr Phdr.p_offset);
        fsz ← mlift (ld img prg_hdr Phdr.p_filesz);
        msz ← mlift (ld img prg_hdr Phdr.p_memsz);
        va ← mlift (ld img prg_hdr Phdr.p_vaddr);
        flags ← mlift (ld img prg_hdr Phdr.p_flags);
        vsz ← (if ty =? PT_LOAD then mret msz
               else align ← mlift (ld img prg_hdr Phdr.p_align); mret (tls_virtual_size msz align));
        match build_section off fsz vsz va off flags with
        | None => mret false
        | Some sec =>
            mmod (if ty =? PT_LOAD then push_section sec else set_tls_section sec) ;;
            build_segments n' (u64 (prg_hdr + Phdr.sizeof))
        end
      else build_segments n' (u64 (prg_hdr + Phdr.sizeof))
  end.

Definition build_regular_sections : P bool :=
  prg_hdr ← mlift (ld img 0 Ehdr.e_phoff);
  m ← mlift (get_meta_property img);
  match m with
  | None => mret false
  | Some (o, n) =>
      mmod (set_metadata o n) ;;
      mage ← mlift (build_mage_section img);
      mmod (set_mage_section mage) ;;
      phnum ← mlift (ld img 0 Ehdr.e_phnum);
      build_segments (Z.to_nat phnum) prg_hdr
  end.

(** if (!b) return e; *)
Definition check (b : bool) (e : sgx_status_t) : P unit := if b then mret tt else merr e.

Definition parse_file : P unit :=
  check (Ehdr.sizeof <=? zlen img) SGX_ERROR_INVALID_ENCLAVE ;;
  h ← mlift (validate_elf_header img); check h SGX_ERROR_INVALID_ENCLAVE ;;
  f ← mlift (get_bin_fmt img);
  match f with
  | None => merr SGX_ERROR_MODE_INCOMPATIBLE
  | Some bf =>
      mmod (set_bin_fmt bf) ;;
      sg ← mlift (validate_segment img); check sg SGX_ERROR_INVALID_ENCLAVE ;;
      p ← mget;
      d ← mlift (parse_dyn img (ep_dyn_info p));
      mmod (set_dyn_info (snd d)) ;; check (fst d) SGX_ERROR_INVALID_ENCLAVE ;;
      t ← mlift (check_symbol_table img (snd d) (ep_sym_table p));
      mmod (set_sym_table (snd t)) ;; check (fst t) SGX_ERROR_UNDEFINED_SYMBOL ;;
      v ← mlift (validate_reltabs img (snd d)); check v SGX_ERROR_INVALID_ENCLAVE ;;
      c ← mlift (has_ctor_section img); check (negb c) SGX_ERROR_INVALID_ENCLAVE ;;
      b ← build_regular_sections; check b SGX_ERROR_INVALID_ENCLAVE
  end.

(** The file is parsed once. *)
Definition run_parser : P unit :=
  p ← mget;
  if negb (zlen (ep_sections p) =? 0) then mret tt else parse_file.
End Run.

(** ** Queries on a parsed file *)
Definition get_enclave_max_size (p : ElfParser) : Z :=
  match ep_bin_fmt p with BF_ELF64 => ENCLAVE_MAX_SIZE_64 | _ => ENCLAVE_MAX_SIZE_32 end.

Definition get_mage_section_ex (p : ElfParser) : option Section_ :=
  if ep_for_sign p then None else ep_mage_section p.

Definition get_symbol_rva (p : ElfParser) (name : string) : Z := default 0 (ep_sym_table p !! name).

Definition has_text_reloc (p : ElfParser) : bool := negb (dyn_tag (ep_dyn_info p) DT_TEXTREL =? 0).

(** The first section with the largest address *)
Definition get_max_rva_section (sections : list Section_) : option Section_ :=
  match sections with
  | [] => None
  | s0 :: rest => Some (fold_left (fun psec s => if s_rva psec <? s_rva s then s else psec) rest s0)
  end.

(** bitmap[frame / 8] |= 1 << (frame % 8) *)
Definition set_bit (bitmap : list Z) (frame : Z) : R (list Z) :=
  match znth bitmap (frame / 8) with
  | Some b => mret (<[Z.to_nat (frame / 8) := u8 (Z.lor b (u8 (Z.shiftl 1 (frame mod 8))))]> bitmap)
  | None => Stuck
  end.

Section Queries.
Context (img : list Z) (p : ElfParser).

Fixpoint mark_rels (n : nat) (rel_entry : Z) (bitmap : list Z) : R (list Z) :=
  match n with
  | O => mret bitmap
  | S n' =>
      info ← ld img rel_entry Rel.r_info;
      if ELF64_R_TYPE info =? R_X86_64_NONE then mark_rels n' (u64 (rel_entry + Rel.sizeof)) bitmap
      else
        reloc_addr ← ld img rel_entry Rel.r_offset;
        let page_frame := Z.shiftr reloc_addr SE_PAGE_SHIFT in
        bm1 ← set_bit bitmap page_frame;
        bm2 ← (if SE_PAGE_SIZE - 8 <? Z.land reloc_addr (SE_PAGE_SIZE - 1)
               then set_bit bm1 (page_frame + 1) else mret bm1);
        mark_rels n' (u64 (rel_entry + Rel.sizeof)) bm2
  end.

(** The [rel, rel_end) pair of a dynamic tag and the tag of its size; [None]
    when the table is absent. *)
Definition rel_range (tag size_tag : Z) : R (option (Z * Z)) :=
  if dyn_tag (ep_dyn_info p) tag =? 0 then mret None
  else
    r ← get_section_raw_data img (dyn_val (ep_dyn_info p) tag);
    mret (option_map (fun start => (start, u64 (start + dyn_val (ep_dyn_info p) size_tag))) r).

Definition mark_range (r : option (Z * Z)) (bitmap : list Z) : R (list Z) :=
  match r with
  | None => mret bitmap
  | Some (rel, rel_end) => mark_rels (table_count (rel_end - rel) Rel.sizeof) rel bitmap
  end.

(** [None]: the function returns false. *)
Definition get_reloc_bitmap : R (option (list Z)) :=
  if negb (has_text_reloc p) then mret (Some [])
  else
    jmp ← rel_range DT_JMPREL DT_PLTRELSZ;
    rel ← rel_range DT_RELA DT_RELASZ;
    (if dyn_tag (ep_dyn_info p) DT_RELA =? 0 then mret tt
     else assertc (Rel.sizeof =? dyn_val (ep_dyn_info p) DT_RELAENT)) ;;
    match get_max_rva_section (ep_sections p) with
    | None => mret None
    | Some sec =>
        let image_size := u64 (s_rva sec + s_virtual_size sec) in
        let frames := Z.shiftr (u64 (image_size + (SE_PAGE_SIZE - 1))) SE_PAGE_SHIFT in
        bm ← mark_range rel (zreplicate ((frames + 7) / 8) 0);
        bm' ← mark_range jmp bm;
        mret (Some bm')
    end.

Fixpoint rel_offsets (n : nat) (rel start end_ : Z) : R (list Z) :=
  match n with
  | O => mret []
  | S n' =>
      o ← ld img rel Rel.r_offset;
      rest ← rel_offsets n' (u64 (rel + Rel.sizeof)) start end_;
      mret (if (start <=? o) && (o <? end_) then rel :: rest else rest)
  end.

Fixpoint reloc_sections (n : nat) (shdr start end_ : Z) : R (list Z) :=
  match n with
  | O => mret []
  | S n' =>
      ty ← ld img shdr Shdr.sh_type;
      here ←
        (if (ty =? SHT_RELA) || (ty =? SHT_REL) then
           size ← ld img shdr Shdr.sh_size;
           off ← ld img shdr Shdr.sh_offset;
           ent ← ld img shdr Shdr.sh_entsize;
           if ent =? 0 then Stuck else rel_offsets (Z.to_nat (size / ent)) off start end_
         else mret []);
      rest ← reloc_sections n' (u64 (shdr + Shdr.sizeof)) start end_;
      mret (here ++ rest)
  end.

(** [None]: the section does not exist and [offsets] is not written. *)
Definition get_reloc_entry_offset (sec_name : list Z) : R (option (list Z)) :=
  sh ← get_section_by_bytes img sec_name;
  match sh with
  | None => mret None
  | Some q =>
      start ← ld img q Shdr.sh_addr;
      size ← ld img q Shdr.sh_size;
      shdr ← ld img 0 Ehdr.e_shoff;
      shnum ← ld img 0 Ehdr.e_shnum;
      l ← reloc_sections (Z.to_nat shnum) shdr start (u64 (start + size));
      mret (Some l)
  end.

Fixpoint exec_sections (n : nat) (shdr shstrtab : Z) : R (list Z) :=
  match n with
  | O => mret []
  | S n' =>
      flags ← ld img shdr Shdr.sh_flags;
      here ← (if Z.land flags SHF_EXECINSTR =? SHF_EXECINSTR
              then name ← ld img shdr Shdr.sh_name; mret [u64 (shstrtab + name)] else mret []);
      rest ← exec_sections n' (u64 (shdr + Shdr.sizeof)) shstrtab;
      mret (here ++ rest)
  end.

(** The names, as pointers into the string table *)
Definition get_executable_sections : R (list Z) :=
  shdr ← ld img 0 Ehdr.e_shoff;
  ndx ← ld img 0 Ehdr.e_shstrndx;
  shstrtab ← ld img (u64 (shdr + Shdr.sizeof * ndx)) Shdr.sh_offset;
  shnum ← ld img 0 Ehdr.e_shnum;
  exec_sections (Z.to_nat shnum) shdr shstrtab.

(** *** Page protections *)

(** The length of the pages a section occupies *)
Definition section_len (sec : Section_) : Z :=
  let offset := PAGE_OFFSET (s_rva sec) in
  let size0 := SE_PAGE_SIZE - offset in
  let size := if s_raw_data_size sec <? size0 then s_raw_data_size sec else size0 in
  if SE_PAGE_SIZE <? u64 (s_virtual_size sec + offset) then
    let raw_data_size := s_raw_data_size sec - size in
    let virtual_size := u64 (s_virtual_size sec - (SE_PAGE_SIZE - offset)) in
    let len := u64 (SE_PAGE_SIZE + ROUND_TO_PAGE raw_data_size) in
    if ROUND_TO_PAGE raw_data_size <? ROUND_TO_PAGE virtual_size
    then u64 (len + (ROUND_TO_PAGE virtual_size - ROUND_TO_PAGE raw_data_size)) else len
  else SE_PAGE_SIZE.

(** The mprotect calls for the sections, in order: each section, then the
    gap before it. *)
Fixpoint section_prots (sections : list Section_) (base last_section_end : Z) : list (Z * Z * Z) :=
  match sections with
  | [] => []
  | sec :: rest =>
      let rva := u64 (TRIM_TO_PAGE (s_rva sec) + base) in
      let len := section_len sec in
      [(rva, len, Z.land (s_si_flags sec) SI_MASK_MEM_ATTRIBUTE)] ++
      (if negb (last_section_end =? 0)
       then [(last_section_end, u64 (rva - last_section_end), Z.land SI_FLAG_NONE SI_MASK_MEM_ATTRIBUTE)] else []) ++
      section_prots rest base (u64 (rva + len))
  end.

Context (mprotect : Z -> Z -> Z -> Z).

Fixpoint protect_headers (n : nat) (prg_hdr base : Z) : R bool :=
  match n with
  | O => mret true
  | S n' =>
      ty ← ld img prg_hdr Phdr.p_type;
      if (ty =? PT_DYNAMIC) || (ty =? PT_GNU_RELRO) then
        va ← ld img prg_hdr Phdr.p_vaddr;
        msz ← ld img prg_hdr Phdr.p_memsz;
        align ← ld img prg_hdr Phdr.p_align;
        flags ← ld img prg_hdr Phdr.p_flags;
        let rva := TRIM_TO_PAGE (u64 (base + va)) in
        let rva_end := ROUND_TO (u64 (base + va + msz)) align in
        if mprotect rva (u64 (rva_end - rva)) (Z.land (page_attr_to_si_flags flags) SI_MASK_MEM_ATTRIBUTE) =? 0
        then protect_headers n' (u64 (prg_hdr + Phdr.sizeof)) base else mret false
      else protect_headers n' (u64 (prg_hdr + Phdr.sizeof)) base
  end.

Definition elf_set_memory_protection (base : Z) (is_after_initialization : bool) : R bool :=
  if negb (forallb (fun '(a, l, pr) => mprotect a l pr =? 0) (section_prots (ep_sections p) base 0))
  then mret false
  else if negb is_after_initialization then mret true
  else
    prg_hdr ← ld img 0 Ehdr.e_phoff;
    n ← ld img 0 Ehdr.e_phnum;
    protect_headers (Z.to_nat n) prg_hdr base.

Fixpoint pages_to_protect_loop (n : nat) (prg_hdr base : Z) : R (list (Z * Z * Z)) :=
  match n with
  | O => mret []
  | S n' =>
      ty ← ld img prg_hdr Phdr.p_type;
      flags ← ld img prg_hdr Phdr.p_flags;
      here ←
        (if (ty =? PT_GNU_RELRO) || ((ty =? PT_LOAD) && has_text_reloc p && negb (hasflag flags PF_W)) then
           va ← ld img prg_hdr Phdr.p_vaddr;
           msz ← ld img prg_hdr Phdr.p_memsz;
           let rva := TRIM_TO_PAGE (u64 (base + va)) in
           let rva_end := ROUND_TO_PAGE (u64 (base + va + msz)) in
           let perm0 := if hasflag flags PF_R then SI_FLAG_R else 0 in
           let perm := if hasflag flags PF_X then Z.lor perm0 SI_FLAG_X else perm0 in
           mret [(rva, u64 (rva_end - rva), perm)]
         else mret []);
      rest ← pages_to_protect_loop n' (u64 (prg_hdr + Phdr.sizeof)) base;
      mret (here ++ rest)
  end.

Definition get_pages_to_protect (base : Z) : R (list (Z * Z * Z)) :=
  prg_hdr ← ld img 0 Ehdr.e_phoff;
  n ← ld img 0 Ehdr.e_phnum;
  pages_to_protect_loop (Z.to_nat n) prg_hdr base.

Definition is_enclave_encrypted : R bool :=
  sh ← get_section_by_name img ".pcltbl"; mret (bool_decide (is_Some sh)).

Definition has_init_section : R bool :=
  sh ← get_section_by_name img ".init"; mret (bool_decide (is_Some sh)).
End Queries.

(** ElfHelper::dump_textrels: no relocation targets an executable section.
    [offsets] is the vector shared by the calls. *)
Fixpoint textrel_loop (img : list Z) (names : list Z) (offsets : list Z) (no_rel : bool) : R bool :=
  match names with
  | [] => mret no_rel
  | n :: rest =>
      name ← read_cstr (S (length img)) img n;
      o ← get_reloc_entry_offset img name;
      let offsets' := match o with Some l => l | None => offsets end in
      textrel_loop img rest offsets' (if negb (zlen offsets' =? 0) then false else no_rel)
  end.

Definition dump_textrels (img : list Z) : R bool :=
  names ← get_executable_sections img; textrel_loop img names [] true.

(** The parsed file as the loader sees it *)
Definition bin_parser (p : ElfParser) (mprotect : Z -> Z -> Z -> Z) : BinParser :=
  MkBinParser (get_enclave_max_size p) (ep_sections p) (ep_mage_section p) (ep_for_sign p)
    (fun img => r ← get_reloc_bitmap img p; match r with Some bm => Ok bm | None => Err SGX_ERROR_INVALID_ENCLAVE end)
    (fun img base after => elf_set_memory_protection img p mprotect base after)
    (fun img base => get_pages_to_protect img p base).

(** * Theorems *)

Lemma rbind_Ok {E A B} (m : res E A) (f : A -> res E B) b :
  (m ≫= f) = Ok b -> exists a, m = Ok a /\ f a = Ok b.
Proof. unfold mbind, res_bind. destruct m; [eauto|done..]. Qed.

Lemma lift_bind_Ok {S E A B} (r : res E A) (f : A -> M S E B) s s' b :
  (mlift r ≫= f) s = (s', Ok b) -> exists a, r = Ok a /\ f a s = (s', Ok b).
Proof. unfold mbind, M_bind, mlift. destruct r; [eauto|done..]. Qed.

Lemma check_bind_Ok {B} b e (f : unit -> M ElfParser sgx_status_t B) s s' x :
  (check b e ≫= f) s = (s', Ok x) -> b = true /\ f tt s = (s', Ok x).
Proof. destruct b; [done|by intros ?]. Qed.

Lemma ld_range img p f v : bytes_ok img -> ld img p f = Ok v -> 0 <= v < 256 ^ Z.of_nat (f_width f).
Proof.
  intros Hb H. unfold ld, deref in H. destruct (rd _ _ _) eqn:Er; [|done]. injection H as <-. by eapply rd_range.
Qed.

(** Take one monadic bind of a successful run apart. *)
Ltac ok_bind H a Ha := apply rbind_Ok in H as (a & Ha & H).

(** ** Segments *)

(** The offset of the [i]-th program header from [p] on *)
Definition phdr_next (p : Z) : Z := u64 (p + Phdr.sizeof).

(** The offsets of the PT_LOAD headers among [n] headers from [p] on *)
Fixpoint load_headers (img : list Z) (n : nat) (p : Z) : list Z :=
  match n with
  | O => []
  | S n' =>
      match ld img p Phdr.p_type with
      | Ok ty => (if ty =? PT_LOAD then [p] else []) ++ load_headers img n' (phdr_next p)
      | _ => []
      end
  end.

(** What validate_segment compares for a PT_LOAD header: the first and the
    last address of the segment. *)
Definition load_range (img : list Z) (p : Z) (seg : Z * Z) : Prop :=
  exists va msz align, ld img p Phdr.p_vaddr = Ok va /\ ld img p Phdr.p_memsz = Ok msz /\
    ld img p Phdr.p_align = Ok align /\ IS_PAGE_ALIGNED align = true /\
    seg = (va, u64 (ROUND_TO (u64 (va + msz)) align - 1)).

Definition disjoint (a b : Z * Z) : Prop := snd a < fst b \/ snd b < fst a.

Lemma overlap_any_false p segs : overlap_any p segs = Ok false -> Forall (fun q => disjoint q p) segs.
Proof.
  induction segs as [|q segs IH]; intros H; [done|]. cbn [overlap_any] in H.
  ok_bind H b Hb. destruct b; [done|]. constructor; [|by apply IH].
  unfold seg_overlap in Hb. ok_bind Hb u1 H1. ok_bind Hb u2 H2. injection Hb as Hb.
  unfold assertc in *. split_ifs. zbool. unfold disjoint. lia.
Qed.

Lemma validate_segment_loop_sound img n p segs :
  validate_segment_loop img n p segs = Ok true -> ForallOrdPairs disjoint segs ->
  exists segs', Forall2 (load_range img) (load_headers img n p) segs' /\ ForallOrdPairs disjoint (segs ++ segs').
Proof.
  revert p segs. induction n as [|n IH]; intros p segs H Hd; cbn [validate_segment_loop load_headers] in *.
  { exists []. by rewrite app_nil_r. }
  ok_bind H off H1. ok_bind H fsz H2. destruct (_ <? _); [done|].
  ok_bind H ty Hty. rewrite Hty. destruct (ty =? PT_LOAD); [|by apply IH].
  ok_bind H align Hal. destruct (IS_PAGE_ALIGNED align) eqn:Ea; [|done]. cbn [negb] in H.
  ok_bind H va Hva. ok_bind H msz Hms. ok_bind H b Hb. destruct b; [done|].
  apply overlap_any_false in Hb. apply IH in H as (segs' & Hf & Hd').
  - eexists (_ :: segs'). split; [constructor; [|exact Hf]; by exists va, msz, align|]. by rewrite <- app_assoc in Hd'.
  - clear -Hd Hb. induction Hd; [repeat constructor|]. inversion_clear Hb. cbn [app]. constructor; auto.
    apply Forall_app. auto.
Qed.

(** Every header's part of the file ends inside the file (as the 64-bit sum
    says). *)
Lemma validate_segment_loop_file img n p segs :
  validate_segment_loop img n p segs = Ok true ->
  Forall (fun q => exists off fsz, ld img q Phdr.p_offset = Ok off /\ ld img q Phdr.p_filesz = Ok fsz /\
                     u64 (off + fsz) <= zlen img) (load_headers img n p).
Proof.
  revert p segs. induction n as [|n IH]; intros p segs H; cbn [validate_segment_loop load_headers] in *; [done|].
  ok_bind H off H1. ok_bind H fsz H2. destruct (_ <? _) eqn:El; [done|]. zbool.
  ok_bind H ty Hty. rewrite Hty. destruct (ty =? PT_LOAD); [|by eapply IH].
  ok_bind H align Hal. destruct (negb _); [done|]. ok_bind H va Hva. ok_bind H msz Hms. ok_bind H b Hb.
  destruct b; [done|]. constructor; [|by eapply IH]. by exists off, fsz.
Qed.

(** ** The sections of a parsed file *)

(** [s] is the section of the PT_LOAD header at [q]. *)
Definition section_of_header (img : list Z) (q : Z) (s : Section_) : Prop :=
  ld img q Phdr.p_offset = Ok (s_raw_data s) /\ ld img q Phdr.p_filesz = Ok (s_raw_data_size s) /\
  ld img q Phdr.p_memsz = Ok (s_virtual_size s) /\ ld img q Phdr.p_vaddr = Ok (s_rva s) /\
  s_offset s = s_raw_data s /\
  exists flags, ld img q Phdr.p_flags = Ok flags /\ s_si_flags s = page_attr_to_si_flags flags /\
    page_attr_to_si_flags flags <> SI_FLAG_REG.

Lemma build_segments_sections img n q p p' :
  build_segments img n q p = (p', Ok true) ->
  exists l, ep_sections p' = ep_sections p ++ l /\ Forall2 (section_of_header img) (load_headers img n q) l /\
    p' = MkElf (ep_bin_fmt p) (ep_sections p') (ep_tls_section p') (ep_mage_section p) (ep_for_sign p)
           (ep_metadata_offset p) (ep_metadata_block_size p) (ep_dyn_info p) (ep_sym_table p).
Proof.
  revert q p. induction n as [|n IH]; intros q p H; cbn [build_segments load_headers] in *.
  { injection H as <-. exists []. rewrite app_nil_r. by destruct p. }
  apply lift_bind_Ok in H as (ty & Hty & H). rewrite Hty.
  destruct (ty =? PT_LOAD) eqn:El; cbn [orb app] in *.
  - do 5 (apply lift_bind_Ok in H as (? & ? & H)). unfold mbind at 1, M_bind at 1 in H. cbn [mret M_ret] in H.
    unfold build_section in H. destruct (_ =? SI_FLAG_REG) eqn:Ef; [done|]. cbn [negb] in H.
    unfold mbind, M_bind, mmod in H. apply IH in H as (l & Hs & Hf & Hp). cbn in Hs.
    eexists (_ :: l). rewrite Hs, <- app_assoc. split; [done|]. split; [|rewrite Hp; cbn; by rewrite Hs, <- app_assoc].
    constructor; [|exact Hf]. split_and!; try done. eexists. split; [done|]. split; [done|]. by apply Z.eqb_neq.
  - destruct (ty =? PT_TLS); [|by apply IH].
    do 5 (apply lift_bind_Ok in H as (? & ? & H)). apply bind_Ok_inv in H as (vsz & p1 & Hv & H).
    apply lift_bind_Ok in Hv as (? & ? & Hv). injection Hv as <- _.
    destruct (build_section _ _ _ _ _ _); [|done]. unfold mbind, M_bind, mmod in H.
    apply IH in H as (l & Hs & Hf & Hp). by exists l.
Qed.

(** What a successful parse has checked and recorded *)
Record parsed (img : list Z) (p : ElfParser) (phoff phnum : Z) : Prop := {
  pf_phoff : ld img 0 Ehdr.e_phoff = Ok phoff;
  pf_phnum : ld img 0 Ehdr.e_phnum = Ok phnum;
  pf_header : validate_elf_header img = Ok true;
  pf_fmt : ep_bin_fmt p = BF_ELF64;
  pf_segment : validate_segment_loop img (Z.to_nat phnum) phoff [] = Ok true;
  pf_dyn : exists d0, parse_dyn img d0 = Ok (true, ep_dyn_info p);
  pf_symbols : exists t0, check_symbol_table img (ep_dyn_info p) t0 = Ok (true, ep_sym_table p);
  pf_relocs : validate_reltabs img (ep_dyn_info p) = Ok true;
  pf_ctors : has_ctor_section img = Ok false;
  pf_meta : get_meta_property img = Ok (Some (ep_metadata_offset p, ep_metadata_block_size p));
  pf_mage : build_mage_section img = Ok (ep_mage_section p);
  pf_sections : Forall2 (section_of_header img) (load_headers img (Z.to_nat phnum) phoff) (ep_sections p) }.

Lemma validate_segment_Ok img :
  validate_segment img = Ok true ->
  exists phoff n, ld img 0 Ehdr.e_phoff = Ok phoff /\ ld img 0 Ehdr.e_phnum = Ok n /\
    validate_segment_loop img (Z.to_nat n) phoff [] = Ok true.
Proof.
  unfold validate_segment. intros H. ok_bind H phoff H1. ok_bind H ents H2. ok_bind H u H3. ok_bind H n H4. by exists phoff, n.
Qed.

Lemma build_regular_Ok img p p' :
  build_regular_sections img p = (p', Ok true) ->
  exists phoff n l, ld img 0 Ehdr.e_phoff = Ok phoff /\ ld img 0 Ehdr.e_phnum = Ok n /\
    get_meta_property img = Ok (Some (ep_metadata_offset p', ep_metadata_block_size p')) /\
    build_mage_section img = Ok (ep_mage_section p') /\
    ep_sections p' = ep_sections p ++ l /\ Forall2 (section_of_header img) (load_headers img (Z.to_nat n) phoff) l /\
    ep_bin_fmt p' = ep_bin_fmt p /\ ep_dyn_info p' = ep_dyn_info p /\ ep_sym_table p' = ep_sym_table p.
Proof.
  unfold build_regular_sections. intros H.
  apply lift_bind_Ok in H as (phoff & Hph & H). apply lift_bind_Ok in H as ([[o m]|] & Hm & H); [|done].
  unfold mbind at 1, M_bind at 1, mmod in H. apply lift_bind_Ok in H as (mage & Hmage & H).
  unfold mbind at 1, M_bind at 1 in H. apply lift_bind_Ok in H as (n & Hn & H).
  apply build_segments_sections in H as (l & Hs & Hf & Hp). exists phoff, n, l.
  rewrite Hp. cbn [ep_metadata_offset ep_metadata_block_size ep_mage_section ep_bin_fmt ep_dyn_info ep_sym_table].
  by split_and!.
Qed.

Lemma parse_file_parsed img p p' :
  ep_sections p = [] -> parse_file img p = (p', Ok tt) -> exists phoff n, parsed img p' phoff n.
Proof.
  intros Hs H. unfold parse_file in H. apply check_bind_Ok in H as [_ H].
  apply lift_bind_Ok in H as (h & Hh & H). apply check_bind_Ok in H as [-> H].
  apply lift_bind_Ok in H as ([bf|] & Hbf & H); [|done].
  assert (bf = BF_ELF64) as -> by (unfold get_bin_fmt in Hbf; ok_bind Hbf m Em; destruct (m =? _); by injection Hbf).
  unfold mbind at 1, M_bind at 1, mmod at 1 in H.
  apply lift_bind_Ok in H as (sg & Hsg & H). apply check_bind_Ok in H as [-> H].
  unfold mget in H. unfold mbind at 1, M_bind at 1 in H. apply lift_bind_Ok in H as ([d1 d2] & Hd & H).
  unfold mbind at 1, M_bind at 1, mmod at 1 in H. cbn [fst snd] in H. apply check_bind_Ok in H as [-> H].
  apply lift_bind_Ok in H as ([t1 t2] & Ht & H). unfold mbind at 1, M_bind at 1, mmod at 1 in H.
  cbn [fst snd] in H. apply check_bind_Ok in H as [-> H].
  apply lift_bind_Ok in H as (v & Hv & H). apply check_bind_Ok in H as [-> H].
  apply lift_bind_Ok in H as (c & Hc & H). apply check_bind_Ok in H as [Hc' H]. apply negb_true_iff in Hc' as ->.
  apply bind_Ok_inv in H as (b & p1 & Hr & H). destruct b; [|done]. injection H as ->.
  apply build_regular_Ok in Hr as (phoff & n & l & Hph & Hn & Hm & Hmg & Hsec & Hf & E1 & E2 & E3).
  apply validate_segment_Ok in Hsg as (phoff' & n' & Hph' & Hn' & Hsg).
  rewrite Hph in Hph'. injection Hph' as <-. rewrite Hn in Hn'. injection Hn' as <-.
  exists phoff, n. cbn [set_sym_table set_dyn_info set_bin_fmt ep_sections] in Hsec.
  rewrite Hs in Hsec. cbn [app] in Hsec.
  cbn [set_sym_table set_dyn_info set_bin_fmt ep_bin_fmt ep_dyn_info ep_sym_table] in E1, E2, E3.
  constructor; rewrite ?E2, ?E3, ?Hsec; auto; by eexists.
Qed.


(** ** The relocation bitmap *)

(** The addresses of the relocations among [n] entries from [rel] on *)
Fixpoint reloc_addrs (img : list Z) (n : nat) (rel : Z) : R (list Z) :=
  match n with
  | O => mret []
  | S n' =>
      info ← ld img rel Rel.r_info;
      if ELF64_R_TYPE info =? R_X86_64_NONE then reloc_addrs img n' (u64 (rel + Rel.sizeof))
      else
        addr ← ld img rel Rel.r_offset;
        rest ← reloc_addrs img n' (u64 (rel + Rel.sizeof));
        mret (addr :: rest)
  end.

(** A relocation writes the eight bytes at [a]; page number [f] holds one. *)
Definition touches (f a : Z) : Prop := a / SE_PAGE_SIZE <= f <= (a + 7) / SE_PAGE_SIZE.

Definition page_bit (bm : list Z) (f : Z) : bool :=
  match znth bm (f / 8) with Some b => Z.testbit b (f mod 8) | None => false end.

Lemma hasflag_bit x k : 0 <= k -> hasflag x (Z.shiftl 1 k) = Z.testbit x k.
Proof.
  intros Hk. unfold hasflag. rewrite Z.shiftl_1_l. destruct (Z.testbit x k) eqn:E.
  - apply negb_true_iff, Z.eqb_neq. intros H0%(f_equal (fun z => Z.testbit z k)).
    by rewrite Z.land_spec, E, Z.pow2_bits_true, Z.bits_0 in H0.
  - apply negb_false_iff, Z.eqb_eq. apply Z.bits_inj'. intros i Hi. rewrite Z.land_spec, Z.bits_0, Z.pow2_bits_eqb by done.
    destruct (Z.eqb_spec k i) as [->|]; [by rewrite E|]. apply andb_false_r.
Qed.

Lemma is_relocation_page_bit rva bm : is_relocation_page rva (Some bm) = page_bit bm (rva / SE_PAGE_SIZE).
Proof.
  unfold is_relocation_page, page_bit, SE_PAGE_SHIFT, SE_PAGE_SIZE. rewrite Z.shiftr_div_pow2 by lia.
  change (2 ^ 12) with 4096. destruct (znth bm _); [|done]. apply hasflag_bit. zlia.
Qed.

Lemma u8_lor_bit b k : 0 <= b < 256 -> 0 <= k < 8 -> u8 (Z.lor b (u8 (Z.shiftl 1 k))) = Z.lor b (2 ^ k).
Proof.
  intros Hb Hk. rewrite Z.shiftl_1_l.
  assert (0 < 2 ^ k <= 2 ^ 7) by (split; [apply Z.pow_pos_nonneg; lia|apply Z.pow_le_mono_r; lia]).
  change (2 ^ 7) with 128 in *. unfold u8. change (2 ^ 8) with 256. rewrite (Z.mod_small (2 ^ k)) by lia.
  apply Z.mod_small. split; [apply Z.lor_nonneg; lia|]. change 256 with (2 ^ 8).
  destruct (Z.eq_dec (Z.lor b (2 ^ k)) 0) as [->|]; [lia|]. assert (0 <= Z.lor b (2 ^ k)) by (apply Z.lor_nonneg; lia).
  apply Z.log2_lt_pow2; [lia|]. rewrite Z.log2_lor, Z.log2_pow2 by lia.
  assert (Z.log2 b < 8) by (destruct (Z.eq_dec b 0) as [->|]; [done|apply Z.log2_lt_pow2; lia]). lia.
Qed.

(** Setting the bit of one page *)
Lemma set_bit_spec bm f bm' :
  bytes_ok bm -> 0 <= f -> set_bit bm f = Ok bm' ->
  bytes_ok bm' /\ forall g, 0 <= g -> page_bit bm' g = (page_bit bm g || (g =? f)).
Proof.
  intros Hb Hf. unfold set_bit. destruct (znth bm (f / 8)) as [b|] eqn:E; [|done]. intros [= <-].
  rewrite znth_lookup in E. replace (f / 8 <? 0) with false in E by zlia.
  assert (0 <= b < 256) as Hr by (by eapply (Forall_lookup_1 _ _ _ _ Hb)).
  rewrite u8_lor_bit by zlia. split.
  { apply Forall_insert; [done|]. split; [apply Z.lor_nonneg; lia|].
    rewrite <- (u8_lor_bit b (f mod 8)) by zlia. apply u8_range. }
  intros g Hg. unfold page_bit. rewrite !znth_lookup. replace (g / 8 <? 0) with false by zlia.
  destruct (Z.eq_dec (g / 8) (f / 8)) as [Eq|Ne].
  - rewrite Eq, E, list_lookup_insert_eq by (by eapply lookup_lt_Some). rewrite Z.lor_spec, Z.pow2_bits_eqb by zlia.
    f_equal. destruct (Z.eqb_spec (f mod 8) (g mod 8)), (Z.eqb_spec g f); zlia.
  - rewrite list_lookup_insert_ne by zlia. replace (g =? f) with false by (symmetry; apply Z.eqb_neq; congruence).
    by rewrite orb_false_r.
Qed.

(** The two bits a relocation sets are the pages it touches. *)
Lemma touches_bits a g : 0 <= a ->
  ((g =? a / SE_PAGE_SIZE) || ((SE_PAGE_SIZE - 8 <? a mod SE_PAGE_SIZE) && (g =? a / SE_PAGE_SIZE + 1))) = true <-> touches g a.
Proof. intros Ha. unfold touches, SE_PAGE_SIZE. zlia. Qed.

Lemma mark_rels_spec img n rel bm bm' :
  bytes_ok img -> bytes_ok bm -> mark_rels img n rel bm = Ok bm' ->
  exists addrs, reloc_addrs img n rel = Ok addrs /\ bytes_ok bm' /\
    forall g, 0 <= g -> page_bit bm' g = true <-> page_bit bm g = true \/ Exists (touches g) addrs.
Proof.
  intros Hi. revert rel bm. induction n as [|n IH]; intros rel bm Hb H; cbn [mark_rels reloc_addrs] in *.
  { injection H as <-. exists []. split_and!; [done..|]. intros. rewrite Exists_nil. tauto. }
  ok_bind H info Hinfo. rewrite Hinfo. cbn [mbind res_bind].
  destruct (_ =? R_X86_64_NONE); [by apply IH|]. ok_bind H addr Haddr. rewrite Haddr. cbn [mbind res_bind].
  pose proof (ld_range _ _ _ _ Hi Haddr) as Hr. rewrite Z.shiftr_div_pow2 in H by done.
  change (Z.land addr (SE_PAGE_SIZE - 1)) with (PAGE_OFFSET addr) in H. rewrite PAGE_OFFSET_mod in H.
  change (2 ^ SE_PAGE_SHIFT) with SE_PAGE_SIZE in H.
  assert (0 <= addr / SE_PAGE_SIZE) as Hp by (unfold SE_PAGE_SIZE; zlia).
  ok_bind H b1 H1. ok_bind H b2 H2. apply set_bit_spec in H1 as [Hb1 Hg1]; [|done..].
  assert (bytes_ok b2 /\ forall g, 0 <= g -> page_bit b2 g =
    (page_bit b1 g || ((SE_PAGE_SIZE - 8 <? addr mod SE_PAGE_SIZE) && (g =? addr / SE_PAGE_SIZE + 1)))) as [Hb2 Hg2].
  { destruct (_ <? _); cbn [andb].
    - apply set_bit_spec in H2; [done|done|lia].
    - injection H2 as <-. split; [done|]. intros. by rewrite orb_false_r. }
  destruct (IH _ _ Hb2 H) as (rest & -> & Hb' & Hg'). exists (addr :: rest). split_and!; [done..|]. intros g Hg.
  rewrite Hg', Hg2, Hg1, Exists_cons, <- touches_bits, !orb_true_iff by lia. tauto.
Qed.

(** The addresses relocated by the file's DT_RELA and DT_JMPREL tables *)
Definition range_addrs (img : list Z) (r : option (Z * Z)) : R (list Z) :=
  match r with
  | None => mret []
  | Some (rel, rel_end) => reloc_addrs img (table_count (rel_end - rel) Rel.sizeof) rel
  end.

Definition text_relocs (img : list Z) (p : ElfParser) : R (list Z) :=
  jmp ← rel_range img p DT_JMPREL DT_PLTRELSZ;
  rel ← rel_range img p DT_RELA DT_RELASZ;
  a ← range_addrs img rel;
  b ← range_addrs img jmp;
  mret (a ++ b).

Lemma mark_range_spec img r bm bm' :
  bytes_ok img -> bytes_ok bm -> mark_range img r bm = Ok bm' ->
  exists addrs, range_addrs img r = Ok addrs /\ bytes_ok bm' /\
    forall g, 0 <= g -> page_bit bm' g = true <-> page_bit bm g = true \/ Exists (touches g) addrs.
Proof.
  intros Hi Hb H. destruct r as [[rel e]|]; [by apply mark_rels_spec|]. injection H as <-. exists [].
  split_and!; [done..|]. intros. rewrite Exists_nil. tauto.
Qed.

Lemma page_bit_zeros n g : page_bit (zreplicate n 0) g = false.
Proof.
  unfold page_bit. rewrite znth_lookup. destruct (_ <? 0); [done|]. destruct (_ !! _) eqn:E; [|done].
  unfold zreplicate in E. apply lookup_replicate in E as [-> _]. apply Z.bits_0.
Qed.

(** C24. The bitmap of a file with text relocations marks exactly the pages
    that its relocations write: the loader's is_relocation_page holds of an
    address if and only if one of the relocated eight-byte words of the
    DT_RELA or DT_JMPREL table meets the page of that address. *)
Theorem reloc_bitmap_exact img p bm :
  bytes_ok img -> has_text_reloc p = true -> get_reloc_bitmap img p = Ok (Some bm) ->
  exists addrs, text_relocs img p = Ok addrs /\
    forall rva, 0 <= rva -> is_relocation_page rva (Some bm) = true <-> Exists (touches (rva / SE_PAGE_SIZE)) addrs.
Proof.
  intros Hi Ht H. unfold get_reloc_bitmap, text_relocs in *. rewrite Ht in H. cbn [negb] in H.
  ok_bind H jmp Hj. ok_bind H rel Hr. ok_bind H u Hu. rewrite Hj, Hr. cbn [mbind res_bind].
  destruct (get_max_rva_section _) as [sec|]; [|done]. ok_bind H b1 H1. ok_bind H b2 H2. injection H as <-.
  apply mark_range_spec in H1 as (a1 & -> & Hb1 & Hg1); [|done|by apply bytes_ok_zreplicate].
  apply mark_range_spec in H2 as (a2 & -> & Hb2 & Hg2); [|done..].
  exists (a1 ++ a2). split; [done|]. intros rva Hrva.
  rewrite is_relocation_page_bit, Hg2, Hg1, page_bit_zeros, Exists_app by (unfold SE_PAGE_SIZE; zlia).
  split; [intros [[?|?]|?]; [done|by left|by right]|intros [?|?]; [left; by right|by right]].
Qed.
