(* ===== verification/GlobalData.v ===== *)
(** * The global data template

    psw/urts/parser/update_global_data.hxx: [do_update_global_data] fills the
    global_data_t template that the patch table copies over the enclave's
    [g_global_data].  The template lives inside the metadata buffer, at
    offset [gd]; the layout table it is filled from is read from the same
    buffer.  [false] is [Err tt]. *)
From S2P Require Import Prelude Bytes Arch.

#[local] Open Scope Z_scope.

(** ** create_param_t (psw/urts/create_param.h); first_ssa_gpr is neither read
    nor written by the signing tool and is left out. *)
Record create_param_t := MkParam {
  cp_enclave_size : Z; stack_max_size : Z; stack_min_size : Z; stack_limit_addr : Z; stack_base_addr : Z;
  ssa_base_addr : Z; heap_max_size : Z; heap_min_size : Z; rsrv_max_size : Z; rsrv_min_size : Z;
  heap_init_size : Z; heap_offset : Z; rsrv_init_size : Z; rsrv_offset : Z; td_addr : Z; tls_addr : Z;
  tcs_num : Z; tcs_max_num : Z; tcs_min_pool : Z; cp_tcs_policy : Z; xsave_size : Z }.

Definition create_param_zero : create_param_t := MkParam 0 0 0 0 0 0 0 0 0 0 0 0 0 0 0 0 0 0 0 0 0.

(** ** global_data_t and the thread_data_t it embeds *)
Definition LAYOUT_ENTRY_NUM : Z := 42.
Module Gd.
Definition enclave_size := Fld 0 8.
Definition heap_offset := Fld 8 8.
Definition heap_size := Fld 16 8.
Definition rsrv_offset := Fld 24 8.
Definition rsrv_size := Fld 32 8.
Definition thread_policy := Fld 40 8.
Definition td_self_addr := Fld 48 8.
Definition td_last_sp := Fld 56 8.
Definition td_stack_base_addr := Fld 64 8.
Definition td_stack_limit_addr := Fld 72 8.
Definition td_first_ssa_gpr := Fld 80 8.
Definition td_flags := Fld 96 8.
Definition td_xsave_size := Fld 104 8.
Definition td_tls_addr := Fld 128 8.
Definition td_tls_array := Fld 136 8.
Definition tcs_template_off : Z := 208.
Definition layout_entry_num := Fld 280 4.
Definition layout_table_off : Z := 288.
Definition sizeof : Z := 1632.
(** offsetof(thread_data_t, tls_addr) *)
Definition tls_addr_offset : Z := 80.
End Gd.
Definition sizeof_ssa_gpr : Z := 184.

(** gd->f = v *)
Definition gd_set (gd : Z) (f : field) (v : Z) (md : list Z) : list Z := fset (Fld (gd + f_off f) (f_width f)) v md.
Definition gd_get (gd : Z) (f : field) (md : list Z) : Z := fget (Fld (gd + f_off f) (f_width f)) md.

(** ** The layout table in the metadata *)
Fixpoint find_entry (id : Z) (t : list (option layout_t)) : res unit (option layout_t) :=
  match t with
  | [] => mret None
  | e :: rest => l ← deref e; if l_id l =? id then mret (Some l) else find_entry id rest
  end.

(** get_entry_by_id; with [do_assert] a missing entry fails an assertion. *)
Definition get_entry_by_id (md : list Z) (id : Z) (do_assert : bool) : res unit (option layout_t) :=
  o ← find_entry id (layout_table md);
  match o with
  | Some l => mret (Some l)
  | None => assertc (negb do_assert) ;; mret None
  end.

(** Copy the entries at [p] on to layout_table[n], [n + 1], ... *)
Fixpoint copy_layouts (k : nat) (gd p n : Z) (md : list Z) : res unit (list Z) :=
  match k with
  | O => mret md
  | S k' =>
      let dst := gd + Gd.layout_table_off + n * sizeof_layout in
      r ← memcpy_s (zdrop dst md) (u64 (LAYOUT_ENTRY_NUM * sizeof_layout - n * sizeof_layout))
            (zdrop p md) sizeof_layout;
      if negb (snd r =? 0) then Err tt
      else copy_layouts k' gd (p + sizeof_layout) (n + 1)
             (gd_set gd Gd.layout_entry_num (n + 1) (ztake dst md ++ fst r))
  end.

Definition do_update_global_data (md : list Z) (cp : create_param_t) (gd : Z) : res unit (list Z) :=
  heap ← get_entry_by_id md LAYOUT_ID_HEAP_MIN true;
  rsrv ← get_entry_by_id md LAYOUT_ID_RSRV_MIN false;
  match heap with
  | None => Err tt
  | Some layout_heap =>
      assertc ((0 <=? gd) && (gd + Gd.sizeof <=? zlen md)) ;;
      let rsrv_off := match rsrv with Some l => l_rva l | None => 0 end in
      let rsrv_sz := match rsrv with Some _ => rsrv_init_size cp | None => 0 end in
      let md := gd_set gd Gd.rsrv_offset rsrv_off md in
      let md := gd_set gd Gd.rsrv_size rsrv_sz md in
      let md := gd_set gd Gd.enclave_size (fget Md.enclave_size md) md in
      let md := gd_set gd Gd.heap_offset (l_rva layout_heap) md in
      let md := gd_set gd Gd.heap_size (heap_init_size cp) md in
      let md := gd_set gd Gd.thread_policy (fget Md.tcs_policy md) md in
      let md := gd_set gd Gd.td_stack_limit_addr (stack_limit_addr cp) md in
      let md := gd_set gd Gd.td_stack_base_addr (stack_base_addr cp) md in
      let md := gd_set gd Gd.td_last_sp (stack_base_addr cp) md in
      let md := gd_set gd Gd.td_xsave_size (xsave_size cp) md in
      let md := gd_set gd Gd.td_first_ssa_gpr
                  (u64 (ssa_base_addr cp + u32 (fget Md.ssa_frame_size md * SE_PAGE_SIZE) - sizeof_ssa_gpr)) md in
      let md := gd_set gd Gd.td_flags 0 md in
      let md := gd_set gd Gd.td_tls_addr (tls_addr cp) md in
      let md := gd_set gd Gd.td_self_addr (td_addr cp) md in
      let md := gd_set gd Gd.td_tls_array (u64 (td_addr cp + Gd.tls_addr_offset)) md in
      tcs ← get_entry_by_id md LAYOUT_ID_TCS true;
      tcs' ← deref tcs;
      let dst := gd + Gd.tcs_template_off in
      r ← memcpy_s (zdrop dst md) TCS_TEMPLATE_SIZE (zdrop (l_content_offset tcs') md) (l_content_size tcs');
      if negb (snd r =? 0) then Err tt
      else
        let md := ztake dst md ++ fst r in
        let md := gd_set gd Gd.layout_entry_num 0 md in
        copy_layouts (table_count (fget (Md.dir_size DIR_LAYOUT) md) sizeof_layout) gd
          (fget (Md.dir_offset DIR_LAYOUT) md) 0 md
  end.

(** ElfParser::update_global_data: refuses a buffer of fewer than
    sizeof(global_data_t) bytes (the stored-back size is not read again). *)
Definition update_global_data (md : list Z) (cp : create_param_t) (gd data_size : Z) : res unit (list Z) :=
  if data_size <? Gd.sizeof then Err tt else do_update_global_data md cp gd.
