(* ===== verification/Metadata.v ===== *)
(** * Building the enclave metadata

    sdk/sign_tool/SignTool/manage_metadata.cpp: the configuration parameters
    read from the XML file and the class [CMetadata], which lays out the
    enclave (heap, threads, reserved memory), allocates the templates, the
    layout table and the patch table in the metadata buffer and fills the
    signature structure.  [false] is [Err tt]; pointers into the metadata
    are offsets, pointers into the mapped file offsets from [base]. *)
From S2P Require Import Prelude Bytes Sha256 Arch Measure Creator Loader Elf GlobalData.

#[local] Open Scope Z_scope.

(** ** Parameters *)
Record xml_parameter_t := MkXml {
  x_name : string; x_max_value : Z; x_min_value : Z; x_value : Z; x_flag : Z }.

(** para_type_t *)
Definition PRODID := 0%nat.
Definition ISVSVN := 1%nat.
Definition RELEASETYPE := 2%nat.
Definition INTELSIGNED := 3%nat.
Definition PROVISIONKEY := 4%nat.
Definition LAUNCHKEY := 5%nat.
Definition DISABLEDEBUG := 6%nat.
Definition HW := 7%nat.
Definition TCSNUM := 8%nat.
Definition TCSMAXNUM := 9%nat.
Definition TCSMINPOOL := 10%nat.
Definition TCSPOLICY := 11%nat.
Definition STACKMAXSIZE := 12%nat.
Definition STACKMINSIZE := 13%nat.
Definition HEAPMAXSIZE := 14%nat.
Definition HEAPMINSIZE := 15%nat.
Definition HEAPINITSIZE := 16%nat.
Definition RSRVMAXSIZE := 17%nat.
Definition RSRVMINSIZE := 18%nat.
Definition RSRVINITSIZE := 19%nat.
Definition MISCSELECT := 20%nat.
Definition MISCMASK := 21%nat.
Definition ENABLEKSS := 22%nat.
Definition ISVFAMILYID_H := 23%nat.
Definition ISVFAMILYID_L := 24%nat.
Definition ISVEXTPRODID_H := 25%nat.
Definition ISVEXTPRODID_L := 26%nat.

(** The table of main(), with its defaults *)
Definition default_parameters : list xml_parameter_t := [
  MkXml "ProdID" 0xFFFF 0 0 0;
  MkXml "ISVSVN" 0xFFFF 0 0 0;
  MkXml "ReleaseType" 1 0 0 0;
  MkXml "IntelSigned" 1 0 0 0;
  MkXml "ProvisionKey" 1 0 0 0;
  MkXml "LaunchKey" 1 0 0 0;
  MkXml "DisableDebug" 1 0 0 0;
  MkXml "HW" 0x10 0 0 0;
  MkXml "TCSNum" 0xFFFFFFFF TCS_NUM_MIN TCS_NUM_MIN 0;
  MkXml "TCSMaxNum" 0xFFFFFFFF TCS_NUM_MIN TCS_NUM_MIN 0;
  MkXml "TCSMinPool" 0xFFFFFFFF 0 TCS_NUM_MIN 0;
  MkXml "TCSPolicy" TCS_POLICY_UNBIND TCS_POLICY_BIND TCS_POLICY_UNBIND 0;
  MkXml "StackMaxSize" 0x1FFFFFFFFF STACK_SIZE_MIN STACK_SIZE_MAX 0;
  MkXml "StackMinSize" 0x1FFFFFFFFF STACK_SIZE_MIN STACK_SIZE_MIN 0;
  MkXml "HeapMaxSize" 0x1FFFFFFFFF 0 HEAP_SIZE_MAX 0;
  MkXml "HeapMinSize" 0x1FFFFFFFFF 0 HEAP_SIZE_MIN 0;
  MkXml "HeapInitSize" 0x1FFFFFFFFF 0 HEAP_SIZE_MIN 0;
  MkXml "RsrvMaxSize" 0x1FFFFFFFFF 0 RSRV_SIZE_MAX 0;
  MkXml "RsrvMinSize" 0x1FFFFFFFFF 0 RSRV_SIZE_MIN 0;
  MkXml "RsrvInitSize" 0x1FFFFFFFFF 0 RSRV_SIZE_MIN 0;
  MkXml "MiscSelect" 0x00FFFFFFFF 0 DEFAULT_MISC_SELECT 0;
  MkXml "MiscMask" 0x00FFFFFFFF 0 DEFAULT_MISC_MASK 0;
  MkXml "EnableKSS" 1 0 0 0;
  MkXml "ISVFAMILYID_H" ISVFAMILYID_MAX 0 0 0;
  MkXml "ISVFAMILYID_L" ISVFAMILYID_MAX 0 0 0;
  MkXml "ISVEXTPRODID_H" ISVEXTPRODID_MAX 0 0 0;
  MkXml "ISVEXTPRODID_L" ISVEXTPRODID_MAX 0 0 0 ].

(** *** strtoull(text, &endptr, 0)

    The value, the characters from [endptr] on, and whether the value is out
    of range (errno = ERANGE). *)
Definition char_code (a : Ascii.ascii) : Z := Z.of_N (Ascii.N_of_ascii a).

Definition is_space (a : Ascii.ascii) : bool :=
  let c := char_code a in (c =? 32) || ((9 <=? c) && (c <=? 13)).

Definition digit_of (a : Ascii.ascii) : option Z :=
  let c := char_code a in
  if (48 <=? c) && (c <=? 57) then Some (c - 48)
  else if (97 <=? c) && (c <=? 122) then Some (c - 87)
  else if (65 <=? c) && (c <=? 90) then Some (c - 55) else None.

Definition digit_in (b : Z) (a : Ascii.ascii) : option Z :=
  match digit_of a with Some d => if d <? b then Some d else None | None => None end.

(** [ov]: some prefix of the digits exceeded 2^64 - 1. *)
Fixpoint scan_digits (b acc : Z) (ov : bool) (s : list Ascii.ascii) : Z * list Ascii.ascii * bool :=
  match s with
  | a :: s' =>
      match digit_in b a with
      | Some d => scan_digits b (acc * b + d) (ov || (2 ^ 64 <=? acc * b + d)) s'
      | None => (acc, s, ov)
      end
  | [] => (acc, s, ov)
  end.

Fixpoint skip_spaces (s : list Ascii.ascii) : list Ascii.ascii :=
  match s with a :: s' => if is_space a then skip_spaces s' else s | [] => s end.

(** The text after the white space and an optional '+' (the caller refuses
    a '-'); no digit at all leaves endptr at the start of the text. *)
Definition strtoull (text : list Ascii.ascii) : Z * list Ascii.ascii * bool :=
  let s := skip_spaces text in
  let s := match s with a :: s' => if char_code a =? 43 then s' else s | [] => s end in
  match s with
  | z :: s1 =>
      if char_code z =? 48 then
        match s1 with
        | x :: h :: s2 =>
            if ((char_code x =? 120) || (char_code x =? 88)) && bool_decide (is_Some (digit_in 16 h))
            then scan_digits 16 0 false (h :: s2) else scan_digits 8 0 false s
        | _ => scan_digits 8 0 false s
        end
      else if bool_decide (is_Some (digit_in 10 z)) then scan_digits 10 0 false s else (0, text, false)
  | [] => (0, text, false)
  end.

(** The value of an element's text, if the whole text is one number in range *)
Definition element_value (text : string) : option Z :=
  let s := String.list_ascii_of_string text in
  if existsb (fun a => char_code a =? 45) s then None
  else
    let '(v, rest, ov) := strtoull s in
    match rest with
    | [] => if ov : bool then None else Some v
    | _ => None
    end.

(** *** traverser_parameter: one XML element *)
Fixpoint match_parameter (name : string) (v : Z) (ps : list xml_parameter_t)
    : list xml_parameter_t * bool :=
  match ps with
  | [] => ([], false)
  | p :: rest =>
      if String.eqb name (x_name p) then
        if x_flag p =? 1 then (ps, false)
        else
          let p1 := MkXml (x_name p) (x_max_value p) (x_min_value p) (x_value p) 1 in
          if (v <? x_min_value p) || (x_max_value p <? v) then (p1 :: rest, false)
          else (MkXml (x_name p) (x_max_value p) (x_min_value p) v 1 :: rest, true)
      else let '(rest', ok) := match_parameter name v rest in (p :: rest', ok)
  end.

Definition traverser_parameter (name : string) (text : option string) (ps : list xml_parameter_t)
    : list xml_parameter_t * bool :=
  match text with
  | None => (ps, false)
  | Some t => match element_value t with None => (ps, false) | Some v => match_parameter name v ps end
  end.

(** What tinyxml2 reports of the file: the EnclaveConfiguration element
    (whether it has text of its own) and, for each child, whether it has an
    attribute, its name and its text. *)
Record xml_child := MkChild { c_has_attribute : bool; c_name : string; c_text : option string }.
Record xml_root := MkRoot { r_has_text : bool; r_children : list xml_child }.
Inductive xml_file := XmlDefault | XmlLoadError | XmlNoRoot | XmlRoot (r : xml_root).

Fixpoint parse_children (cs : list xml_child) (ps : list xml_parameter_t) : list xml_parameter_t * bool :=
  match cs with
  | [] => (ps, true)
  | c :: rest =>
      if c_has_attribute c then (ps, false)
      else
        let '(ps', ok) := traverser_parameter (c_name c) (c_text c) ps in
        if ok then parse_children rest ps' else (ps', false)
  end.

Definition parse_metadata_file (doc : xml_file) (ps : list xml_parameter_t) : list xml_parameter_t * bool :=
  match doc with
  | XmlDefault => (ps, true)
  | XmlLoadError | XmlNoRoot => (ps, false)
  | XmlRoot r => if r_has_text r then (ps, false) else parse_children (r_children r) ps
  end.

(** ** CMetadata *)
Record CM := MkCM {
  m_metadata : list Z; m_create_param : create_param_t; m_layouts : list layout_t; m_rva : Z;
  m_gd_size : Z; m_gd_template : Z }.

Abbreviation C := (M CM unit).

(** The constructor: the metadata buffer is cleared. *)
Definition cmetadata_new : CM := MkCM (zreplicate METADATA_SIZE 0) create_param_zero [] 0 0 0.

Definition set_md (md : list Z) (c : CM) : CM :=
  MkCM md (m_create_param c) (m_layouts c) (m_rva c) (m_gd_size c) (m_gd_template c).
Definition set_cp (p : create_param_t) (c : CM) : CM :=
  MkCM (m_metadata c) p (m_layouts c) (m_rva c) (m_gd_size c) (m_gd_template c).
Definition set_layouts (l : list layout_t) (c : CM) : CM :=
  MkCM (m_metadata c) (m_create_param c) l (m_rva c) (m_gd_size c) (m_gd_template c).
Definition set_rva (r : Z) (c : CM) : CM :=
  MkCM (m_metadata c) (m_create_param c) (m_layouts c) r (m_gd_size c) (m_gd_template c).
Definition set_gd (n off : Z) (c : CM) : CM :=
  MkCM (m_metadata c) (m_create_param c) (m_layouts c) (m_rva c) n off.

Definition md_mod (f : list Z -> list Z) : C unit := mmod (fun c => set_md (f (m_metadata c)) c).
(** if (!b) return false; *)
Definition ensure (b : bool) : C unit := if b then mret tt else merr tt.

Definition ALIGN_SIZE : Z := 0x1000.
Definition SSA_NUM : Z := 2.
Definition SSA_FRAME_SIZE : Z := 1.
Definition TCS_SIZE : Z := SE_PAGE_SIZE.
Definition SGX_XFRM_MPX : Z := 0x18.

(** *** The checks of the parameters *)
Section Parameters.
Context (ps : list xml_parameter_t).

Definition pval (i : nat) : Z := match ps !! i with Some p => x_value p | None => 0 end.
Definition pflag (i : nat) : bool := match ps !! i with Some p => negb (x_flag p =? 0) | None => false end.
Definition unaligned (i : nat) : bool := negb (pval i mod ALIGN_SIZE =? 0).

(** min <= init <= max when the initial size is given, else min <= max *)
Definition sizes_ok (mx mn init : nat) : bool :=
  if pflag init then (pval init <=? pval mx) && (pval mn <=? pval init) else pval mn <=? pval mx.

Definition tcs_ok : bool :=
  if pflag TCSMAXNUM then
    (pval TCSNUM <=? pval TCSMAXNUM) && negb (pflag TCSMINPOOL && (pval TCSMAXNUM <? pval TCSMINPOOL))
  else negb (pflag TCSMINPOOL && (pval TCSNUM <? pval TCSMINPOOL)).

Definition parameters_ok : bool :=
  negb (unaligned STACKMAXSIZE || unaligned STACKMINSIZE) &&
  (pval STACKMINSIZE <=? pval STACKMAXSIZE) &&
  negb (unaligned HEAPMAXSIZE || unaligned HEAPMINSIZE || unaligned HEAPINITSIZE) &&
  sizes_ok HEAPMAXSIZE HEAPMINSIZE HEAPINITSIZE &&
  negb (unaligned RSRVMAXSIZE || unaligned RSRVMINSIZE || unaligned RSRVINITSIZE) &&
  sizes_ok RSRVMAXSIZE RSRVMINSIZE RSRVINITSIZE &&
  negb (((pval HW =? 0) && negb (pval LAUNCHKEY =? 0)) || (negb (pval HW =? 0) && (pval LAUNCHKEY =? 0))) &&
  tcs_ok &&
  negb ((negb (pval ISVEXTPRODID_H =? 0) || negb (pval ISVEXTPRODID_L =? 0) ||
         negb (pval ISVFAMILYID_H =? 0) || negb (pval ISVFAMILYID_L =? 0)) && (pval ENABLEKSS =? 0)).

Definition param_of (cp : create_param_t) : create_param_t :=
  MkParam (cp_enclave_size cp) (pval STACKMAXSIZE) (pval STACKMINSIZE) (stack_limit_addr cp)
    (stack_base_addr cp) (ssa_base_addr cp) (pval HEAPMAXSIZE) (pval HEAPMINSIZE) (pval RSRVMAXSIZE)
    (pval RSRVMINSIZE) (if pflag HEAPINITSIZE then pval HEAPINITSIZE else pval HEAPMAXSIZE) (heap_offset cp)
    (if pflag RSRVINITSIZE then pval RSRVINITSIZE else pval RSRVMAXSIZE) (rsrv_offset cp) (td_addr cp)
    (tls_addr cp) (u32 (pval TCSNUM)) (u32 (if pflag TCSMAXNUM then pval TCSMAXNUM else pval TCSNUM))
    (u32 (pval TCSMINPOOL)) (u32 (pval TCSPOLICY)) (xsave_size cp).

Definition check_xml_parameter : C unit :=
  ensure parameters_ok ;; mmod (fun c => set_cp (param_of (m_create_param c)) c).

(** *** The signature structure *)

(** A decimal number read back as hexadecimal: 20191115 becomes 0x20191115. *)
Fixpoint bcd (fuel : nat) (n : Z) : Z :=
  match fuel with O => 0 | S k => if n =? 0 then 0 else bcd k (n / 10) * 16 + n mod 10 end.

(** [now]: the date gmtime reports, if any. *)
Definition get_time (now : option (Z * Z * Z)) : option Z :=
  match now with
  | None => None
  | Some (year, month, day) =>
      let d := bcd 10 (u32 (year * 10000 + month * 100 + day)) in
      Some (if d <? 2 ^ 32 then d else 2 ^ 32 - 1)
  end.

Definition css_set (f : field) (v : Z) (md : list Z) : list Z := fset (Fld (Md.css_off + f_off f) (f_width f)) v md.
Definition css_get (f : field) (md : list Z) : Z := fget (Fld (Md.css_off + f_off f) (f_width f)) md.

Definition css_header : list Z := [6; 0; 0; 0; 0xE1; 0; 0; 0; 0; 0; 1; 0].
Definition css_header2 : list Z := [1; 1; 0; 0; 0x60; 0; 0; 0; 0x60; 0; 0; 0; 1; 0; 0; 0].

(** attributes.flags and attribute_mask.flags from the options *)
Definition css_flags (fmt : bin_fmt_t) : Z * Z :=
  let add (b : bool) (f : Z) (x : Z * Z) := if b then (Z.lor (fst x) f, Z.lor (snd x) f) else x in
  let x := (0, u64 (Z.lnot SGX_FLAGS_DEBUG)) in
  let x := if pval DISABLEDEBUG =? 1
           then (Z.land (fst x) (u64 (Z.lnot SGX_FLAGS_DEBUG)), Z.lor (snd x) SGX_FLAGS_DEBUG) else x in
  let x := add (pval PROVISIONKEY =? 1) SGX_FLAGS_PROVISION_KEY x in
  let x := add (pval LAUNCHKEY =? 1) SGX_FLAGS_EINITTOKEN_KEY x in
  let x := add (pval ENABLEKSS =? 1) SGX_FLAGS_KSS x in
  add (match fmt with BF_ELF64 => true | BF_UNKNOWN => false end) SGX_FLAGS_MODE64BIT x.

Definition fill_css (date : Z) (fmt : bin_fmt_t) (md : list Z) : list Z :=
  let md := splice Md.css_off css_header md in
  let md := splice (Md.css_off + 24) css_header2 md in
  let md := css_set Css.header_type (if hasflag (pval RELEASETYPE) 1 then Z.shiftl 1 31 else 0) md in
  let md := css_set Css.header_module_vendor (if hasflag (pval INTELSIGNED) 1 then 0x8086 else 0) md in
  let md := css_set Css.header_date date md in
  let md := css_set Css.header_hw_version (pval HW) md in
  let md := css_set Css.body_misc_select (pval MISCSELECT) md in
  let md := css_set Css.body_misc_mask (pval MISCMASK) md in
  let md := css_set Css.body_attributes_flags (fst (css_flags fmt)) md in
  let md := css_set Css.body_attribute_mask_flags (snd (css_flags fmt)) md in
  let md := splice (Md.css_off + Css.body_isvext_prod_id_off)
              (le_bytes 8 (pval ISVEXTPRODID_L) ++ le_bytes 8 (pval ISVEXTPRODID_H)) md in
  let md := splice (Md.css_off + Css.body_isv_family_id_off)
              (le_bytes 8 (pval ISVFAMILYID_L) ++ le_bytes 8 (pval ISVFAMILYID_H)) md in
  let md := css_set Css.body_attributes_xfrm SGX_XFRM_LEGACY md in
  let md := css_set Css.body_attribute_mask_xfrm (Z.lor SGX_XFRM_LEGACY SGX_XFRM_RESERVED) md in
  let md := css_set Css.body_isv_prod_id (pval PRODID) md in
  css_set Css.body_isv_svn (pval ISVSVN) md.

Definition fill_enclave_css (now : option (Z * Z * Z)) (fmt : bin_fmt_t) : C unit :=
  match get_time now with
  | None => merr tt
  | Some date => md_mod (fill_css date fmt)
  end.

Definition metadata_attributes (md : list Z) : Z * Z :=
  (css_get Css.body_attributes_flags md,
   Z.lor (u64 (Z.lnot (css_get Css.body_attribute_mask_xfrm md)))
         (Z.land (css_get Css.body_attributes_xfrm md) (css_get Css.body_attribute_mask_xfrm md))).

Definition fill_metadata (md : list Z) : list Z :=
  let md := fset Md.version (META_DATA_MAKE_VERSION MAJOR_VERSION MINOR_VERSION) md in
  let md := fset Md.size Md.data_off md in
  let md := fset Md.tcs_policy (pval TCSPOLICY) md in
  let md := fset Md.ssa_frame_size SSA_FRAME_SIZE md in
  let md := fset Md.max_save_buffer_size MAX_SAVE_BUF_SIZE md in
  let md := fset Md.magic_num METADATA_MAGIC md in
  let md := fset Md.desired_misc_select 0 md in
  let md := fset Md.tcs_min_pool (pval TCSMINPOOL) md in
  let md := css_set Css.body_misc_select (pval MISCSELECT) md in
  let md := css_set Css.body_misc_mask (pval MISCMASK) md in
  let '(flags, xfrm) := metadata_attributes md in
  fset Md.attributes_xfrm xfrm (fset Md.attributes_flags flags md).

Definition modify_metadata (now : option (Z * Z * Z)) (fmt : bin_fmt_t) : C unit :=
  check_xml_parameter ;;
  fill_enclave_css now fmt ;;
  md_mod fill_metadata.
End Parameters.

(** *** Allocation in the metadata buffer *)

(** alloc_buffer_from_metadata: the offset of the new buffer; the size field
    is advanced even when the buffer does not fit. *)
Definition alloc_buffer_from_metadata (size : Z) : C Z :=
  c ← mget;
  let addr := fget Md.size (m_metadata c) in
  let sz := u32 (addr + size) in
  mput (set_md (fset Md.size sz (m_metadata c)) c) ;;
  if (sz <? size) || (METADATA_SIZE <? sz) then merr tt else mret addr.

(** *** The layout table *)
Definition pages (size : Z) : Z := u32 (Z.shiftr size SE_PAGE_SHIFT).
Definition lentry (id page_count attributes si_flags content_size content_offset : Z) : layout_t :=
  MkLayout id attributes page_count 0 content_size content_offset si_flags.
Definition lgroup (id entry_count load_times : Z) : layout_t := MkLayout id entry_count load_times 0 0 0 0.
Definition guard_page : layout_t :=
  lentry LAYOUT_ID_GUARD (Z.shiftr SE_GUARD_PAGE_SIZE SE_PAGE_SHIFT) 0 0 0 0.

Definition EADD_EEXTEND : Z := Z.lor PAGE_ATTR_EADD PAGE_ATTR_EEXTEND.
Definition EADD_POST : Z := Z.lor (Z.lor PAGE_ATTR_EADD PAGE_ATTR_POST_REMOVE) PAGE_ATTR_POST_ADD.
Definition STACK_FILL : Z := 0xCCCCCCCC.

(** The min / init / max entries of a heap or of the reserved memory *)
Definition sized_layouts (id_min id_init id_max mn init mx : Z) : list layout_t :=
  [lentry id_min (pages mn) PAGE_ATTR_EADD SI_FLAGS_RW 0 0] ++
  (if mn <? init then [lentry id_init (pages (init - mn)) EADD_POST SI_FLAGS_RW 0 0] else []) ++
  (if init <? mx then [lentry id_max (pages (mx - init)) PAGE_ATTR_POST_ADD SI_FLAGS_RW 0 0] else []).

Definition heap_layouts (cp : create_param_t) : list layout_t :=
  sized_layouts LAYOUT_ID_HEAP_MIN LAYOUT_ID_HEAP_INIT LAYOUT_ID_HEAP_MAX
    (heap_min_size cp) (heap_init_size cp) (heap_max_size cp).

(** guard | stack | guard | TCS | SSA | guard | TLS, TD *)
Definition thread_layouts (cp : create_param_t) (tcs_off : Z) (tls : option Section_) : list layout_t :=
  [guard_page] ++
  (if stack_min_size cp <? stack_max_size cp
   then [lentry LAYOUT_ID_STACK_MAX (pages (stack_max_size cp - stack_min_size cp))
           (Z.lor EADD_EEXTEND PAGE_DIR_GROW_DOWN) SI_FLAGS_RW STACK_FILL 0] else []) ++
  [lentry LAYOUT_ID_STACK_MIN (pages (stack_min_size cp)) EADD_EEXTEND SI_FLAGS_RW STACK_FILL 0;
   guard_page;
   lentry LAYOUT_ID_TCS (Z.shiftr TCS_SIZE SE_PAGE_SHIFT) EADD_EEXTEND SI_FLAGS_TCS TCS_TEMPLATE_SIZE tcs_off;
   lentry LAYOUT_ID_SSA (SSA_FRAME_SIZE * SSA_NUM) EADD_EEXTEND SI_FLAGS_RW 0 0;
   guard_page;
   lentry LAYOUT_ID_TD
     (u32 (1 + match tls with Some s => pages (ROUND_TO_PAGE (s_virtual_size s)) | None => 0 end))
     EADD_EEXTEND SI_FLAGS_RW 0 0].

Definition with_attr (l : layout_t) (a : Z) : layout_t :=
  MkLayout (l_id l) a (l_page_count l) (l_rva l) (l_content_size l) (l_content_offset l) (l_si_flags l).
Definition with_id (l : layout_t) (i : Z) : layout_t :=
  MkLayout i (l_attributes l) (l_page_count l) (l_rva l) (l_content_size l) (l_content_offset l) (l_si_flags l).
Definition with_rva (l : layout_t) (r : Z) : layout_t :=
  MkLayout (l_id l) (l_attributes l) (l_page_count l) r (l_content_size l) (l_content_offset l) (l_si_flags l).
Definition with_pages (l : layout_t) (n : Z) : layout_t :=
  MkLayout (l_id l) (l_attributes l) n (l_rva l) (l_content_size l) (l_content_offset l) (l_si_flags l).

(** The context of the utility thread *)
Definition utility_layout (l : layout_t) : layout_t :=
  if l_id l =? LAYOUT_ID_STACK_MAX
  then with_attr l (Z.lor (l_attributes l) (Z.lor PAGE_ATTR_POST_ADD PAGE_ATTR_POST_REMOVE)) else l.
Definition eremove_layout (l : layout_t) : layout_t :=
  if negb (l_id l =? LAYOUT_ID_GUARD) then with_attr l (Z.lor (l_attributes l) PAGE_ATTR_EREMOVE) else l.
Definition dyn_id (i : Z) : Z := u16 (LAYOUT_ID_HEAP_DYN_MIN - LAYOUT_ID_HEAP_MIN + i).
Definition dyn_layout (l : layout_t) : layout_t :=
  if l_id l =? LAYOUT_ID_STACK_MAX
  then with_attr (with_id l (dyn_id (l_id l))) (Z.lor PAGE_ATTR_POST_ADD PAGE_DIR_GROW_DOWN)
  else if negb (l_id l =? LAYOUT_ID_GUARD)
  then with_attr (with_id l (dyn_id (l_id l))) (Z.lor PAGE_ATTR_POST_ADD PAGE_ATTR_DYN_THREAD) else l.

(** The numbers of static threads kept and removed after initialisation,
    besides the utility thread *)
Definition pool_split (cp : create_param_t) : Z * Z :=
  if u32 (tcs_num cp - 1) <? tcs_min_pool cp then (u32 (tcs_num cp - 1), 0)
  else (tcs_min_pool cp, u32 (tcs_num cp - 1 - tcs_min_pool cp)).

(** [n] copies of a thread context: one in full, the rest as a group *)
Definition thread_copies (group_id n : Z) (ls : list layout_t) : list layout_t :=
  if 0 <? n then ls ++ (if 1 <? n then [lgroup group_id (u16 (zlen ls)) (n - 1)] else []) else [].

Definition dyn_copies (cp : create_param_t) (min_pool : Z) (ls : list layout_t) : list layout_t :=
  if u32 (min_pool + 1) <? tcs_max_num cp
  then map dyn_layout ls ++
       [lgroup LAYOUT_ID_THREAD_GROUP_DYN (u16 (zlen ls)) (u32 (tcs_max_num cp - min_pool - 1))]
  else [].

Definition rsrv_layouts (cp : create_param_t) : list layout_t :=
  if (0 <? rsrv_min_size cp) || (0 <? rsrv_init_size cp) || (0 <? rsrv_max_size cp)
  then sized_layouts LAYOUT_ID_RSRV_MIN LAYOUT_ID_RSRV_INIT LAYOUT_ID_RSRV_MAX
         (rsrv_min_size cp) (rsrv_init_size cp) (rsrv_max_size cp)
  else [].

(** The entries after the heap *)
Definition context_layouts (cp : create_param_t) (tcs_off : Z) (tls : option Section_) : list layout_t :=
  let ts := thread_layouts cp tcs_off tls in
  let '(min_pool, eremove) := pool_split cp in
  map utility_layout ts ++ thread_copies LAYOUT_ID_THREAD_GROUP min_pool ts ++
  thread_copies LAYOUT_ID_THREAD_GROUP eremove (map eremove_layout ts) ++
  dyn_copies cp min_pool ts ++ rsrv_layouts cp.

(** calculate_sections_size *)
Definition last_section (sections : list Section_) : option Section_ :=
  snd (fold_left (fun '(mx, last) s => if mx <? s_rva s then (s_rva s, Some s) else (mx, last))
         sections (0, None)).
Definition calculate_sections_size (sections : list Section_) : Z :=
  ROUND_TO_PAGE (match last_section sections with
                 | None => 0 | Some s => u64 (s_rva s + s_virtual_size s) end).

(** update_layout_entries: [prev] are the entries before, last first. *)
Definition group_step (prev : list layout_t) (g : layout_t) : option Z :=
  if zlen prev <? g_entry_count g then None
  else Some (fold_left (fun acc l => u64 (acc + Z.shiftl (l_page_count l) SE_PAGE_SHIFT))
               (ztake (g_entry_count g) prev) (g_load_step g)).

Fixpoint assign_rvas (prev rest : list layout_t) (rva : Z) : option (list layout_t * Z) :=
  match rest with
  | [] => Some (rev prev, rva)
  | l :: rest' =>
      if negb (IS_GROUP_ID (l_id l)) then
        assign_rvas (with_rva l rva :: prev) rest' (u64 (rva + Z.shiftl (l_page_count l) SE_PAGE_SHIFT))
      else
        match group_step prev l with
        | None => None
        | Some step => assign_rvas (with_rva l step :: prev) rest' (u64 (rva + u64 (g_load_times l * step)))
        end
  end.

Definition update_layout_entries (sections : list Section_) : C unit :=
  let rva := calculate_sections_size sections in
  mmod (set_rva rva) ;;
  ensure (negb (rva =? 0)) ;;
  c ← mget;
  r ← mlift (deref (assign_rvas [] (m_layouts c) rva));
  mmod (fun c => set_rva (snd r) (set_layouts (fst r) c)).

(** First entry with an id; a missing one fails the assertion. *)
Definition layout_by_id (id : Z) : C layout_t :=
  c ← mget; mlift (deref (List.find (fun l => l_id l =? id) (m_layouts c))).

(** *** Templates and tables *)
Module Tcs.
Definition ossa := Fld 16 8.
Definition cssa := Fld 24 4.
Definition nssa := Fld 28 4.
Definition oentry := Fld 32 8.
Definition ofs_base := Fld 48 8.
Definition ogs_base := Fld 56 8.
Definition ofs_limit := Fld 64 4.
Definition ogs_limit := Fld 68 4.
End Tcs.
Definition tcs_set (t : Z) (f : field) (v : Z) (md : list Z) : list Z := fset (Fld (t + f_off f) (f_width f)) v md.

Section Build.
Context (ep : ElfParser) (base : Z) (now : option (Z * Z * Z)).

Definition build_tcs_template (t : Z) : C unit :=
  let oentry := get_symbol_rva ep "enclave_entry" in
  md_mod (tcs_set t Tcs.oentry oentry) ;;
  ensure (negb (oentry =? 0)) ;;
  ssa ← layout_by_id LAYOUT_ID_SSA;
  tcs ← layout_by_id LAYOUT_ID_TCS;
  td ← layout_by_id LAYOUT_ID_TD;
  let gs := u64 (l_rva td - l_rva tcs + Z.shiftl (l_page_count td - 1) SE_PAGE_SHIFT) in
  md_mod (fun md =>
    let md := tcs_set t Tcs.nssa SSA_NUM md in
    let md := tcs_set t Tcs.cssa 0 md in
    let md := tcs_set t Tcs.ossa (u64 (l_rva ssa - l_rva tcs)) md in
    let md := tcs_set t Tcs.ogs_base gs md in
    let md := tcs_set t Tcs.ofs_base gs md in
    let md := tcs_set t Tcs.ogs_limit (2 ^ 32 - 1) md in
    tcs_set t Tcs.ofs_limit (2 ^ 32 - 1) md).

Definition build_layout_table : C unit :=
  mmod (fun c => set_layouts (m_layouts c ++ heap_layouts (m_create_param c)) c) ;;
  tcs_template ← alloc_buffer_from_metadata TCS_TEMPLATE_SIZE;
  mmod (fun c => set_layouts (m_layouts c ++
                   context_layouts (m_create_param c) tcs_template (ep_tls_section ep)) c) ;;
  update_layout_entries (ep_sections ep) ;;
  build_tcs_template tcs_template.

(** calculate_enclave_size; -1 is [None].  [fuel] bounds the doublings. *)
Fixpoint round_pow2 (fuel : nat) (round_size size : Z) : option Z :=
  match fuel with
  | O => None
  | S k =>
      if round_size <? size then
        let r := u64 (Z.shiftl round_size 1) in if r =? 0 then None else round_pow2 k r size
      else Some round_size
  end.

Definition calculate_enclave_size (size : Z) : option Z :=
  let mx := get_enclave_max_size ep in
  if mx <? size then None
  else match round_pow2 65 1 size with
       | None => None
       | Some r => if mx <? r then None else Some r
       end.

Definition set_rsrv (mx init : Z) (cp : create_param_t) : create_param_t :=
  MkParam (cp_enclave_size cp) (stack_max_size cp) (stack_min_size cp) (stack_limit_addr cp)
    (stack_base_addr cp) (ssa_base_addr cp) (heap_max_size cp) (heap_min_size cp) mx (rsrv_min_size cp)
    (heap_init_size cp) (heap_offset cp) init (rsrv_offset cp) (td_addr cp) (tls_addr cp) (tcs_num cp)
    (tcs_max_num cp) (tcs_min_pool cp) (cp_tcs_policy cp) (xsave_size cp).

(** The reserved memory at the end of the layout takes the extra pages; the
    byte count is computed in 32 bits, and it goes to rsrv_init_size whenever
    the last entry is not RSRV_MAX. *)
Definition extend_rsrv (layout : layout_t) (extra_pages : Z) (cp : create_param_t) : create_param_t :=
  let bytes := u32 (Z.shiftl extra_pages SE_PAGE_SHIFT) in
  if l_id layout =? LAYOUT_ID_RSRV_MAX then set_rsrv (u64 (rsrv_max_size cp + bytes)) (rsrv_init_size cp) cp
  else set_rsrv (rsrv_max_size cp) (u64 (rsrv_init_size cp + bytes)) cp.

Definition is_rsrv_tail (l : layout_t) : bool :=
  (l_id l =? LAYOUT_ID_RSRV_INIT) || (l_id l =? LAYOUT_ID_RSRV_MAX) ||
  ((l_id l =? LAYOUT_ID_RSRV_MIN) && (0 <? l_page_count l)).

(** Fill the enclave up to its size with a guard or reserved memory. *)
Definition pad_enclave (enclave_size : Z) : C unit :=
  c ← mget;
  if 0 <? u64 (enclave_size - m_rva c) then
    layout ← mlift (deref (last (m_layouts c)));
    let extra_pages := u32 (Z.shiftr (u64 (enclave_size - m_rva c)) SE_PAGE_SHIFT) in
    if is_rsrv_tail layout then
      let layout' := with_pages layout (u32 (l_page_count layout + extra_pages)) in
      mput (set_cp (extend_rsrv layout' extra_pages (m_create_param c))
             (set_layouts (removelast (m_layouts c) ++ [layout']) c))
    else
      mput (set_layouts (m_layouts c ++
              [with_rva (lentry LAYOUT_ID_GUARD extra_pages 0 0 0 0) (m_rva c)]) c)
  else mret tt.

Definition build_layout_entries : C unit :=
  c ← mget;
  match calculate_enclave_size (m_rva c) with
  | None => md_mod (fset Md.enclave_size (2 ^ 64 - 1)) ;; merr tt
  | Some enclave_size =>
      md_mod (fset Md.enclave_size enclave_size) ;;
      pad_enclave enclave_size ;;
      c ← mget;
      let size := u32 (zlen (m_layouts c) * sizeof_layout) in
      table ← alloc_buffer_from_metadata size;
      md_mod (fset (Md.dir_offset DIR_LAYOUT) table) ;;
      md_mod (fset (Md.dir_size DIR_LAYOUT) size) ;;
      md_mod (splice table (concat (map layout_bytes (m_layouts c))))
  end.

(** get_rawdata_by_rva as an offset in the file; a null pointer is [-base]. *)
Fixpoint rawdata_by_rva (sections : list Section_) (rva : Z) : option Z :=
  match sections with
  | [] => None
  | s :: rest =>
      let start_rva := TRIM_TO_PAGE (s_rva s) in
      let end_rva := ROUND_TO_PAGE (u64 (s_rva s + s_virtual_size s)) in
      if (start_rva <=? rva) && (rva <? end_rva) then
        let offset := u64 (rva - s_rva s) in
        if s_raw_data_size s <? offset then None else Some (u64 (s_raw_data s + offset))
      else rawdata_by_rva rest rva
  end.
Definition get_rawdata_by_rva (rva : Z) : Z := default (u64 (- base)) (rawdata_by_rva (ep_sections ep) rva).

Definition build_patch_entries (patches : list patch_entry_t) : C unit :=
  let size := u32 (zlen patches * sizeof_patch) in
  table ← alloc_buffer_from_metadata size;
  md_mod (fset (Md.dir_offset DIR_PATCH) table) ;;
  md_mod (fset (Md.dir_size DIR_PATCH) size) ;;
  md_mod (splice table (concat (map patch_bytes patches))).

(** The patches that clear the section header fields of the ELF header *)
Definition header_patches (zero : Z) : list patch_entry_t :=
  match ep_bin_fmt ep with
  | BF_ELF64 =>
      [MkPatch (f_off Ehdr.e_shnum) zero 2; MkPatch (f_off Ehdr.e_shoff) zero 8;
       MkPatch (f_off Ehdr.e_shstrndx) zero 2]
  | BF_UNKNOWN => []
  end.

Definition build_patch_table : C unit :=
  mmod (set_gd Gd.sizeof 0) ;;
  gd ← alloc_buffer_from_metadata Gd.sizeof;
  mmod (set_gd Gd.sizeof gd) ;;
  let rva := get_symbol_rva ep "g_global_data" in
  ensure (negb (rva =? 0)) ;;
  let gd_patch := MkPatch (get_rawdata_by_rva rva) gd Gd.sizeof in
  zero ← alloc_buffer_from_metadata 0;
  let hp := header_patches zero in
  let size := foldr Z.max 0 (map p_size hp) in
  zero' ← alloc_buffer_from_metadata size;
  md_mod (splice zero' (zreplicate size 0)) ;;
  build_patch_entries (gd_patch :: hp).

(** The largest entry of the table whose bits are all set *)
Definition xsave_size_table : list (Z * Z) :=
  [(SGX_XFRM_LEGACY, 512 + 64); (SGX_XFRM_AVX, 512 + 64 + 256); (SGX_XFRM_MPX, 512 + 64 + 256 + 256);
   (SGX_XFRM_AVX512, 512 + 64 + 256 + 256 + 1600)].
Definition get_xsave_size (xfrm : Z) : option Z :=
  if (xfrm =? 0) || hasflag xfrm SGX_XFRM_RESERVED then None
  else Some (fold_left (fun sz '(bits, n) => if Z.land xfrm bits =? bits then n else sz) xsave_size_table 0).

Definition gd_param (cp : create_param_t) (enclave_size xsave : Z) (stack_min tcs ssa heap td : layout_t)
    (rsrv : option layout_t) (tls : option Section_) : create_param_t :=
  let stack_base := u64 (l_rva stack_min + stack_min_size cp - l_rva tcs) in
  let tmp_tls := u64 (l_rva td - l_rva tcs) in
  let td_a := u64 (tmp_tls + u32 (Z.shiftl (u32 (l_page_count td - 1)) SE_PAGE_SHIFT)) in
  let tls_a := match tls with Some s => u64 (td_a - s_virtual_size s) | None => tmp_tls end in
  MkParam enclave_size (stack_max_size cp) (stack_min_size cp) (u64 (stack_base - stack_max_size cp))
    stack_base (u64 (l_rva ssa - l_rva tcs)) (heap_max_size cp) (heap_min_size cp) (rsrv_max_size cp)
    (rsrv_min_size cp) (heap_init_size cp) (l_rva heap) (rsrv_init_size cp)
    (match rsrv with Some l => l_rva l | None => 0 end) td_a tls_a (tcs_num cp) (tcs_max_num cp)
    (tcs_min_pool cp) (cp_tcs_policy cp) xsave.

Definition build_gd_template : C unit :=
  c ← mget;
  match get_xsave_size (fget Md.attributes_xfrm (m_metadata c)) with
  | None => merr tt
  | Some xsave =>
      stack_min ← layout_by_id LAYOUT_ID_STACK_MIN;
      tcs ← layout_by_id LAYOUT_ID_TCS;
      ssa ← layout_by_id LAYOUT_ID_SSA;
      heap ← layout_by_id LAYOUT_ID_HEAP_MIN;
      let rsrv := List.find (fun l => l_id l =? LAYOUT_ID_RSRV_MIN) (m_layouts c) in
      td ← layout_by_id LAYOUT_ID_TD;
      let cp := gd_param (m_create_param c) (fget Md.enclave_size (m_metadata c)) xsave
                  stack_min tcs ssa heap td rsrv (ep_tls_section ep) in
      (match ep_tls_section ep with
       | Some _ => mlift (assertc (TRIM_TO_PAGE (tls_addr cp) =? u64 (l_rva td - l_rva tcs)))
       | None => mret tt
       end) ;;
      mmod (set_cp cp) ;;
      md ← mlift (update_global_data (m_metadata c) cp (m_gd_template c) (m_gd_size c));
      mmod (set_md md)
  end.

Definition build_metadata (ps : list xml_parameter_t) : C unit :=
  modify_metadata ps now (ep_bin_fmt ep) ;;
  build_layout_table ;;
  build_patch_table ;;
  build_layout_entries ;;
  build_gd_template.
End Build.

(** * Theorems *)

(** ** The enclave size *)
Lemma round_pow2_spec fuel k size :
  0 <= k <= 63 -> k + Z.of_nat fuel = 65 -> (0 < k -> 2 ^ (k - 1) < size) ->
  match round_pow2 fuel (2 ^ k) size with
  | Some r => exists j, 0 <= j <= 63 /\ r = 2 ^ j /\ size <= r /\ (0 < j -> 2 ^ (j - 1) < size)
  | None => 2 ^ 63 < size
  end.
Proof.
  revert k. induction fuel as [|n IH]; intros k Hk Hf Hlt; [lia|]. cbn [round_pow2].
  destruct (2 ^ k <? size) eqn:E; zbool; [|by exists k].
  rewrite Z.shiftl_mul_pow2 by lia. rewrite <- Z.pow_add_r by lia. destruct (Z.eq_dec k 63) as [->|Hne]; [done|].
  assert (0 < 2 ^ (k + 1) < 2 ^ 64) as Hr by (split; [apply Z.pow_pos_nonneg; lia|apply Z.pow_lt_mono_r; lia]).
  rewrite u64_id by (unfold is_u64; lia). replace (2 ^ (k + 1) =? 0) with false by lia.
  apply IH; [lia..|]. intros _. by replace (k + 1 - 1) with k by lia.
Qed.

(** C22. The enclave size is the least power of two that holds the layout, if
    the parser's limit allows it; no size is returned exactly when every
    power of two that holds it is over the limit. *)
Theorem enclave_size_least ep size :
  0 < size < 2 ^ 64 ->
  match calculate_enclave_size ep size with
  | Some r => exists j, 0 <= j /\ r = 2 ^ j /\ size <= r /\ r <= get_enclave_max_size ep /\
                        forall i, 0 <= i -> size <= 2 ^ i -> r <= 2 ^ i
  | None => forall i, 0 <= i -> size <= 2 ^ i -> get_enclave_max_size ep < 2 ^ i
  end.
Proof.
  intros Hs. unfold calculate_enclave_size. destruct (_ <? size) eqn:E1; zbool; [intros; lia|].
  pose proof (round_pow2_spec 65 0 size ltac:(lia) ltac:(lia) ltac:(lia)) as Hr. change (2 ^ 0) with 1 in Hr.
  assert (forall i j, 0 <= i -> 0 <= j -> size <= 2 ^ i -> (0 < j -> 2 ^ (j - 1) < size) -> 2 ^ j <= 2 ^ i) as Hmin.
  { intros i j Hi Hj H1 H2. apply Z.pow_le_mono_r; [lia|]. destruct (Z.le_gt_cases j i); [done|].
    specialize (H2 ltac:(lia)). assert (2 ^ i <= 2 ^ (j - 1)) by (apply Z.pow_le_mono_r; lia). lia. }
  destruct (round_pow2 65 1 size) as [r|].
  - destruct Hr as (j & Hj & -> & H1 & H2). destruct (_ <? 2 ^ j) eqn:E2; zbool.
    + intros i Hi H3. pose proof (Hmin i j Hi ltac:(lia) H3 H2). lia.
    + exists j. split_and!; auto; [lia|]. intros i Hi H3. apply Hmin; auto; lia.
  - intros i Hi H1. destruct (Z.le_gt_cases i 63).
    + assert (2 ^ i <= 2 ^ 63) by (apply Z.pow_le_mono_r; lia). lia.
    + assert (2 ^ 64 <= 2 ^ i) by (apply Z.pow_le_mono_r; lia).
      assert (get_enclave_max_size ep < 2 ^ 64) by (unfold get_enclave_max_size; by destruct (ep_bin_fmt ep)). lia.
Qed.

Lemma enclave_size_least_witness :
  calculate_enclave_size (set_bin_fmt BF_ELF64 elf_new) 0x23000 = Some 0x40000 /\
  exists j, 0 <= j /\ 0x40000 = 2 ^ j /\ forall i, 0 <= i -> 0x23000 <= 2 ^ i -> 0x40000 <= 2 ^ i.
Proof.
  assert (calculate_enclave_size (set_bin_fmt BF_ELF64 elf_new) 0x23000 = Some 0x40000) as E by reflexivity.
  pose proof (enclave_size_least (set_bin_fmt BF_ELF64 elf_new) 0x23000 ltac:(lia)) as H. rewrite E in H.
  split; [exact E|]. destruct H as (j & H1 & H2 & _ & _ & H3).
  exists j. split; [exact H1|]. split; [exact H2|exact H3].
Defined.

(** ** The configuration file *)
Definition child_value (c : xml_child) : option Z := c_text c ≫= element_value.

(** The parameter with the value of the child element of its name, if any *)
Fixpoint configured (cs : list xml_child) (p : xml_parameter_t) : xml_parameter_t :=
  match cs with
  | [] => p
  | c :: rest =>
      if String.eqb (c_name c) (x_name p)
      then MkXml (x_name p) (x_max_value p) (x_min_value p) (default 0 (child_value c)) 1
      else configured rest p
  end.

(** A child that sets a parameter not set before *)
Definition child_ok (ps : list xml_parameter_t) (c : xml_child) : Prop :=
  c_has_attribute c = false /\
  exists v p, child_value c = Some v /\ p ∈ ps /\ x_name p = c_name c /\ x_flag p <> 1 /\
    x_min_value p <= v <= x_max_value p.

Definition set_to (v : Z) (p : xml_parameter_t) : xml_parameter_t :=
  MkXml (x_name p) (x_max_value p) (x_min_value p) v 1.

Lemma match_parameter_sound name v ps ps1 :
  match_parameter name v ps = (ps1, true) ->
  exists l1 p l2, ps = l1 ++ p :: l2 /\ name = x_name p /\ x_flag p <> 1 /\
    x_min_value p <= v <= x_max_value p /\ ps1 = l1 ++ set_to v p :: l2.
Proof.
  revert ps1. induction ps as [|q ps IH]; intros ps1; cbn [match_parameter]; [done|].
  destruct (String.eqb_spec name (x_name q)) as [->|Hne].
  - destruct (x_flag q =? 1) eqn:Ef; [done|]. destruct (_ || _) eqn:Er; [done|]. intros [= <-]. zbool.
    by exists [], q, ps.
  - destruct (match_parameter name v ps) as [r ok]. intros [= <- ->].
    destruct (IH r eq_refl) as (l1 & p & l2 & -> & -> & H1 & H2 & ->). by exists (q :: l1), p, l2.
Qed.

Lemma match_parameter_complete v l1 p l2 :
  x_name p ∉ map x_name l1 -> x_flag p <> 1 -> x_min_value p <= v <= x_max_value p ->
  match_parameter (x_name p) v (l1 ++ p :: l2) = (l1 ++ set_to v p :: l2, true).
Proof.
  intros Hn Hf Hv. induction l1 as [|q l1 IH]; cbn [map app match_parameter] in *.
  - rewrite String.eqb_refl. replace (x_flag p =? 1) with false by lia. by replace (_ || _) with false by lia.
  - apply not_elem_of_cons in Hn as [Hq Hn]. destruct (String.eqb_spec (x_name p) (x_name q)); [done|].
    by rewrite IH.
Qed.

(** What one child does to the table *)
Lemma child_step ps c ps1 :
  NoDup (map x_name ps) ->
  c_has_attribute c = false /\ traverser_parameter (c_name c) (c_text c) ps = (ps1, true) <->
  exists l1 p l2 v, ps = l1 ++ p :: l2 /\ c_name c = x_name p /\ c_has_attribute c = false /\ child_value c = Some v /\
    x_flag p <> 1 /\ x_min_value p <= v <= x_max_value p /\ ps1 = l1 ++ set_to v p :: l2.
Proof.
  intros Hnd. unfold traverser_parameter, child_value. destruct (c_text c) as [t|]; cbn [mbind option_bind].
  2:{ split; [by intros [_ ?]|]. by intros (? & ? & ? & ? & _ & _ & _ & ? & _). }
  destruct (element_value t) as [v|].
  2:{ split; [by intros [_ ?]|]. by intros (? & ? & ? & ? & _ & _ & _ & ? & _). }
  split.
  - intros [Ha (l1 & p & l2 & E)%match_parameter_sound]. destruct E as (-> & -> & H1 & H2 & ->). by exists l1, p, l2, v.
  - intros (l1 & p & l2 & v' & -> & -> & Ha & [= <-] & Hf & Hv & ->). split; [done|].
    apply match_parameter_complete; [|done..]. rewrite map_app in Hnd. cbn [map] in Hnd.
    apply NoDup_app in Hnd as (_ & Hd & _). intros Hin. apply (Hd _ Hin). by left.
Qed.

Lemma child_ok_other l1 p l2 v c :
  c_name c <> x_name p -> child_ok (l1 ++ p :: l2) c <-> child_ok (l1 ++ set_to v p :: l2) c.
Proof.
  intros Hn. unfold child_ok. apply and_iff_compat_l. split; intros (w & q & Hw & Hq & Hx & H);
    (exists w, q; split; [done|]; split; [|done]); rewrite elem_of_app, elem_of_cons in *;
    destruct Hq as [|[->|]]; [tauto|congruence|tauto|tauto| |tauto]; cbn [set_to x_name] in Hx; congruence.
Qed.

Lemma child_ok_set l1 p l2 v c :
  NoDup (map x_name (l1 ++ p :: l2)) -> child_ok (l1 ++ set_to v p :: l2) c -> c_name c <> x_name p.
Proof.
  intros Hnd (_ & w & q & _ & Hq & Hx & Hf & _) E. rewrite map_app in Hnd. cbn [map] in Hnd.
  apply NoDup_app in Hnd as (_ & Hd & Hnd). apply NoDup_cons in Hnd as [Hd2 _].
  rewrite E in Hx. apply elem_of_app in Hq as [Hq|Hq]; [|apply elem_of_cons in Hq as [->|Hq]].
  - apply (Hd (x_name p)); [|by left]. rewrite <- Hx. by apply (list_elem_of_fmap_2 x_name).
  - by destruct Hf.
  - destruct Hd2. rewrite <- Hx. by apply (list_elem_of_fmap_2 x_name).
Qed.

Lemma configured_other cs q : x_name q ∉ map c_name cs -> configured cs q = q.
Proof.
  induction cs as [|c cs IH]; cbn [map configured]; [done|]. intros [H1 H2]%not_elem_of_cons.
  destruct (String.eqb_spec (c_name c) (x_name q)); [congruence|]. by apply IH.
Qed.

(** Configuring with a child first, or the table it leaves with the rest *)
Lemma configured_step c cs l1 p l2 v :
  NoDup (map x_name (l1 ++ p :: l2)) -> c_name c = x_name p -> child_value c = Some v -> c_name c ∉ map c_name cs ->
  map (configured (c :: cs)) (l1 ++ p :: l2) = map (configured cs) (l1 ++ set_to v p :: l2).
Proof.
  intros Hnd Hc Hv Hn. rewrite map_app in Hnd. cbn [map] in Hnd.
  apply NoDup_app in Hnd as (_ & Hd & Hnd). apply NoDup_cons in Hnd as [Hd2 _].
  assert (forall l, x_name p ∉ map x_name l -> map (configured (c :: cs)) l = map (configured cs) l) as Hl.
  { intros l Hpl. apply map_ext_in. intros q Hq%list_elem_of_In. cbn [configured].
    destruct (String.eqb_spec (c_name c) (x_name q)) as [E|]; [|done]. destruct Hpl.
    rewrite <- Hc, E. by apply (list_elem_of_fmap_2 x_name). }
  rewrite !map_app. cbn [map]. rewrite !Hl; [|done|intros Hin; apply (Hd _ Hin); by left].
  do 2 f_equal. rewrite (configured_other cs (set_to v p)) by (cbn [set_to x_name]; by rewrite <- Hc).
  cbn [configured]. by rewrite <- Hc, String.eqb_refl, Hv, Hc.
Qed.

(** What [parse_metadata_file] accepts, from any table of distinct names *)
Lemma parse_file_spec cs ps ps' :
  NoDup (map x_name ps) ->
  parse_metadata_file (XmlRoot (MkRoot false cs)) ps = (ps', true) <->
  NoDup (map c_name cs) /\ Forall (child_ok ps) cs /\ ps' = map (configured cs) ps.
Proof.
  cbn [parse_metadata_file r_has_text r_children]. revert ps. induction cs as [|c cs IH]; intros ps Hnd.
  { cbn [parse_children map]. assert (map (configured []) ps = ps) as -> 
      by (etrans; [|apply map_id]; by apply map_ext).
    split; [intros [= <-]|by intros (_ & _ & ->)]. split; [apply NoDup_nil_2|done]. }
  assert (forall l1 p l2 v, ps = l1 ++ p :: l2 -> NoDup (map x_name (l1 ++ set_to v p :: l2))) as Hnd1.
  { intros l1 p l2 v ->. rewrite map_app in *. exact Hnd. }
  cbn [parse_children map]. rewrite Forall_cons, NoDup_cons. split.
  - intros H. destruct (c_has_attribute c) eqn:Ea; [done|].
    destruct (traverser_parameter _ _ ps) as [ps1 []] eqn:Et; [|done].
    destruct (proj1 (child_step ps c ps1 Hnd) (conj Ea Et)) as (l1 & p & l2 & v & -> & Hc & _ & Hv & Hf & Hr & ->).
    apply (IH _ (Hnd1 _ _ _ v eq_refl)) in H as (H1 & H2 & ->).
    assert (c_name c ∉ map c_name cs) as Hn.
    { intros (c' & E & Hin)%list_elem_of_fmap_1. rewrite Forall_forall in H2.
      apply (child_ok_set l1 p l2 v c' Hnd (H2 c' Hin)). by rewrite <- E, Hc. }
    split; [done|]. split; [split|symmetry; by apply configured_step].
    + split; [done|]. exists v, p. split_and!; try done; [|lia..]. rewrite elem_of_app, elem_of_cons. tauto.
    + eapply Forall_impl; [exact H2|]. intros c' Hc'. apply (child_ok_other l1 p l2 v); [|done].
      by apply (child_ok_set l1 p l2 v).
  - intros ((Hn & H1) & ((Ha & v & p & Hv & Hp & Hx & Hf & Hr) & H2) & ->).
    apply list_elem_of_split in Hp as (l1 & l2 & ->). rewrite Ha.
    destruct (proj2 (child_step (l1 ++ p :: l2) c (l1 ++ set_to v p :: l2) Hnd)) as [_ ->].
    { exists l1, p, l2, v. split; [done|]. split; [by rewrite Hx|]. destruct Hr. by split_and!. }
    apply (IH _ (Hnd1 _ _ _ v eq_refl)). split_and!; [done| |by apply configured_step].
    rewrite Forall_forall in H2 |- *. intros c' Hc'. apply (child_ok_other l1 p l2 v); [|by apply H2].
    intros E. destruct Hn. rewrite <- Hx, <- E. by apply (list_elem_of_fmap_2 c_name).
Qed.

(** ** The parameters that pass the checks *)
Lemma configured_cases cs ps p :
  NoDup (map x_name ps) -> Forall (child_ok ps) cs -> p ∈ ps ->
  configured cs p = p \/ exists v, configured cs p = set_to v p /\ x_min_value p <= v <= x_max_value p.
Proof.
  intros Hnd Hc Hp. induction Hc as [|c cs (_ & v & q & Hv & Hq & Hx & _ & Hr) Hc IH]; cbn [configured]; [by left|].
  destruct (String.eqb_spec (c_name c) (x_name p)) as [E|]; [|done]. right. exists v. rewrite Hv. split; [done|].
  enough (q = p) by (by subst). rewrite E in Hx.
  apply list_elem_of_lookup in Hp as [i Hi]. apply list_elem_of_lookup in Hq as [j Hj].
  assert (j = i) as ->; [|congruence].
  apply (NoDup_lookup (map x_name ps) j i (x_name p) Hnd); change (map x_name ps) with (x_name <$> ps);
    rewrite list_lookup_fmap; [by rewrite Hj, <- Hx|by rewrite Hi].
Qed.

Lemma default_names : NoDup (map x_name default_parameters).
Proof. apply (bool_decide_eq_true_1 (NoDup _)). reflexivity. Qed.

(** C20. The configuration.  Reading the child elements of a configuration
    file succeeds if and only if they have no attributes and distinct names,
    each names one of the known parameters and its text is a number
    within the parameter's range; then each parameter named has the value of
    its element and the others keep their default. *)
Theorem config_spec cs ps :
  parse_metadata_file (XmlRoot (MkRoot false cs)) default_parameters = (ps, true) <->
  (NoDup (map c_name cs) /\ Forall (child_ok default_parameters) cs /\ ps = map (configured cs) default_parameters).
Proof. exact (parse_file_spec cs default_parameters ps default_names). Qed.

(** A parameter of the parsed table is set, in range, or has its default. *)
Lemma pval_cases doc ps i p :
  parse_metadata_file doc default_parameters = (ps, true) -> default_parameters !! i = Some p ->
  (pval ps i = x_value p /\ pflag ps i = false) \/
  (x_min_value p <= pval ps i <= x_max_value p /\ pflag ps i = true).
Proof.
  intros H Hi. assert (x_flag p = 0) as Hf.
  { apply list_elem_of_lookup_2 in Hi. revert p Hi. apply Forall_forall. repeat constructor. }
  assert (pval default_parameters i = x_value p /\ pflag default_parameters i = false) as Hd.
  { unfold pval, pflag. rewrite Hi, Hf. done. }
  destruct doc as [| | |[txt cs]]; [by injection H as <-; left|done..|].
  cbn [parse_metadata_file r_has_text r_children] in H. destruct txt; [done|].
  apply (parse_file_spec cs default_parameters ps default_names) in H as (_ & H2 & ->).
  destruct (configured_cases cs _ p default_names H2 (list_elem_of_lookup_2 _ _ _ Hi)) as [E|(v & E & Hr)];
    unfold pval, pflag; change (map (configured cs)) with (fmap (M:=list) (configured cs)); rewrite list_lookup_fmap, Hi;
    cbn [fmap option_fmap option_map]; rewrite E; [left|right; done]. by rewrite Hf.
Qed.

(** Sizes that the layout can be built from: whole pages, in order *)
Definition sizes_sane (mn init mx : Z) : Prop :=
  0 <= mn <= init /\ init <= mx <= 0x1FFFFFFFFF /\
  mn mod SE_PAGE_SIZE = 0 /\ init mod SE_PAGE_SIZE = 0 /\ mx mod SE_PAGE_SIZE = 0.

(** A size parameter after parsing: in the range of its table entry *)
Lemma pval_size doc ps i :
  parse_metadata_file doc default_parameters = (ps, true) -> (STACKMAXSIZE <= i <= RSRVINITSIZE)%nat ->
  0 <= pval ps i <= 0x1FFFFFFFFF.
Proof.
  intros H Hi. unfold STACKMAXSIZE, RSRVINITSIZE in Hi.
  destruct (lookup_lt_is_Some_2 default_parameters i) as [p Hp]; [cbn; lia|].
  assert (0 <= x_min_value p /\ x_max_value p = 0x1FFFFFFFFF /\ x_min_value p <= x_value p <= x_max_value p) as Hr.
  { do 20 (destruct i as [|i]; [lia || (injection Hp as <-; done)|]). lia. }
  destruct (pval_cases doc ps i p H Hp) as [[E _]|[E _]]; lia.
Qed.

Lemma aligned_page ps i : unaligned ps i = false -> pval ps i mod SE_PAGE_SIZE = 0.
Proof. unfold unaligned. intros. by zbool. Qed.

Lemma sizes_ok_sane doc ps mx mn init :
  parse_metadata_file doc default_parameters = (ps, true) ->
  (STACKMAXSIZE <= mx <= RSRVINITSIZE)%nat -> (STACKMAXSIZE <= mn <= RSRVINITSIZE)%nat ->
  sizes_ok ps mx mn init = true -> unaligned ps mx || unaligned ps mn || unaligned ps init = false ->
  sizes_sane (pval ps mn) (if pflag ps init then pval ps init else pval ps mx) (pval ps mx).
Proof.
  intros Hp Hx Hn Hs Ha. zbool. pose proof (pval_size _ _ _ Hp Hx). pose proof (pval_size _ _ _ Hp Hn).
  unfold sizes_ok in Hs. unfold sizes_sane. rewrite !aligned_page by done.
  destruct (pflag ps init); zbool; rewrite ?aligned_page by done; lia.
Qed.

(** C21. The parameters taken over from a configuration are consistent: stack,
    heap and reserved memory are whole pages with minimum <= initial <=
    maximum (an initial size left out is the maximum), there is at least one
    thread, and neither the number of threads nor the minimum pool exceeds
    the maximal number of threads. *)
Theorem checked_parameters doc ps c c' :
  parse_metadata_file doc default_parameters = (ps, true) -> check_xml_parameter ps c = (c', Ok tt) ->
  let cp := m_create_param c' in
  sizes_sane (stack_min_size cp) (stack_max_size cp) (stack_max_size cp) /\
  sizes_sane (heap_min_size cp) (heap_init_size cp) (heap_max_size cp) /\
  sizes_sane (rsrv_min_size cp) (rsrv_init_size cp) (rsrv_max_size cp) /\
  0 < stack_min_size cp /\ 1 <= tcs_num cp <= tcs_max_num cp /\ tcs_max_num cp < 2 ^ 32 /\
  0 <= tcs_min_pool cp <= tcs_max_num cp.
Proof.
  intros Hp H. unfold check_xml_parameter, ensure in H.
  destruct (parameters_ok ps) eqn:Hok; [|done]. injection H as <-. cbn [m_create_param set_cp param_of
    stack_min_size stack_max_size heap_min_size heap_init_size heap_max_size rsrv_min_size rsrv_init_size
    rsrv_max_size tcs_num tcs_max_num tcs_min_pool].
  unfold parameters_ok in Hok. rewrite !andb_true_iff, !negb_true_iff in Hok.
  destruct Hok as [[[[[[[[Hs1 Hs2] Hh1] Hh2] Hr1] Hr2] _] Ht] _].
  pose proof (pval_cases _ _ STACKMINSIZE _ Hp eq_refl) as V1. pose proof (pval_cases _ _ TCSNUM _ Hp eq_refl) as V2.
  pose proof (pval_cases _ _ TCSMAXNUM _ Hp eq_refl) as V3. pose proof (pval_cases _ _ TCSMINPOOL _ Hp eq_refl) as V4.
  cbn [x_value x_min_value x_max_value] in V1, V2, V3, V4. unfold STACK_SIZE_MIN, TCS_NUM_MIN in *.
  split; [|split; [|split]].
  - assert (0 <= pval ps STACKMAXSIZE <= 0x1FFFFFFFFF) as Hx by (apply (pval_size doc); [done|by split; apply Nat.leb_le]).
    clear - V1 Hs1 Hs2 Hx. zbool. unfold sizes_sane. rewrite !aligned_page by done. lia.
  - apply (sizes_ok_sane doc); auto; by split; apply Nat.leb_le.
  - apply (sizes_ok_sane doc); auto; by split; apply Nat.leb_le.
  - unfold tcs_ok in Ht. clear - V1 V2 V3 V4 Ht. unfold u32. rewrite !(Z.mod_small _ (2 ^ 32)) by (destruct (pflag ps TCSMAXNUM); lia).
    destruct (pflag ps TCSMAXNUM), (pflag ps TCSMINPOOL); cbn [andb negb] in Ht; zbool;
      destruct V1 as [[V1 ?]|[V1 ?]], V2 as [[V2 ?]|[V2 ?]], V3 as [[V3 ?]|[V3 ?]], V4 as [[V4 ?]|[V4 ?]]; try discriminate; lia.
Qed.

Lemma checked_parameters_witness :
  let c' := fst (check_xml_parameter default_parameters cmetadata_new) in
  check_xml_parameter default_parameters cmetadata_new = (c', Ok tt) /\
  sizes_sane (heap_min_size (m_create_param c')) (heap_init_size (m_create_param c')) (heap_max_size (m_create_param c')).
Proof.
  intros c'. assert (check_xml_parameter default_parameters cmetadata_new = (c', Ok tt)) as E by reflexivity.
  split; [exact E|]. exact (proj1 (proj2 (checked_parameters XmlDefault default_parameters cmetadata_new c' eq_refl E))).
Defined.
