(* ===== verification/MetadataSpec.v ===== *)
(** * The layout the signing tool builds

    manage_metadata.cpp lays the heap, the thread contexts and the reserved
    memory out one after the other; groups repeat the thread context before
    them.  Here the regions of the table, expanded the way the loader loads
    them ([expand_table]), are shown to tile the enclave: each starts where
    the one before ends, from the end of the sections up to the enclave's
    size. *)
From S2P Require Import Prelude Bytes Arch Measure Creator Loader LoaderSpec Elf GlobalData Metadata.

#[local] Open Scope Z_scope.

(** ** Consecutive regions *)
Fixpoint tiles (a : Z) (v : list (Z * Z)) (b : Z) : Prop :=
  match v with
  | [] => a = b
  | (r, n) :: v' => r = a /\ tiles (a + n) v' b
  end.

Lemma tiles_app a v1 v2 c : tiles a (v1 ++ v2) c <-> exists b, tiles a v1 b /\ tiles b v2 c.
Proof.
  revert a. induction v1 as [|[r n] v1 IH]; intros a; cbn [tiles app].
  - split; [by exists a|by intros (b & -> & H)].
  - rewrite IH. split; [intros (-> & b & H1 & H2); by exists b|intros (b & [-> H1] & H2); split; [done|by exists b]].
Qed.

Definition lsize (l : layout_t) : Z := Z.shiftl (l_page_count l) SE_PAGE_SHIFT.
Definition total (ns : list Z) : Z := foldr Z.add 0 ns.
Definition kind (l : layout_t) : bool * Z := (IS_GROUP_ID (l_id l), lsize l).

Lemma total_app l1 l2 : total (l1 ++ l2) = total l1 + total l2.
Proof. induction l1 as [|n l1 IH]; [done|]. cbn [app total foldr]. fold (total (l1 ++ l2)). fold (total l1). lia. Qed.

Lemma total_rev l : total (rev l) = total l.
Proof. induction l as [|n l IH]; [done|]. cbn [rev]. rewrite total_app, IH. cbn [total foldr]. fold (total l). lia. Qed.

Lemma total_nonneg l : Forall (fun n => 0 <= n) l -> 0 <= total l.
Proof. induction 1; cbn [total foldr]; [done|]. fold (total l). lia. Qed.

(** The bytes the rest of a table takes, groups unfolded; [ks]: the entries
    before, last first *)
Fixpoint table_bytes (ks : list (bool * Z)) (rest : list layout_t) : Z :=
  match rest with
  | [] => 0
  | l :: rest' =>
      (if IS_GROUP_ID (l_id l) then g_load_times l * total (map snd (ztake (g_entry_count l) ks)) else lsize l) +
      table_bytes (kind l :: ks) rest'
  end.

(** Groups repeat entries right before them that are no groups themselves. *)
Fixpoint groups_trail (ks : list (bool * Z)) (rest : list layout_t) : Prop :=
  match rest with
  | [] => True
  | l :: rest' =>
      (IS_GROUP_ID (l_id l) = true ->
         0 <= g_entry_count l <= zlen ks /\ Forall (fun k => fst k = false) (ztake (g_entry_count l) ks) /\
         1 <= g_load_times l /\ g_load_step l = 0) /\
      groups_trail (kind l :: ks) rest'
  end.

Definition sized (l : layout_t) : Prop := 0 <= l_page_count l.

Lemma lsize_nonneg l : sized l -> 0 <= lsize l.
Proof. intros H. unfold lsize. rewrite Z.shiftl_mul_pow2 by done. unfold sized in H. apply Z.mul_nonneg_nonneg; [done|]. done. Qed.

Lemma table_bytes_nonneg ks rest : Forall (fun k => 0 <= snd k) ks -> Forall sized rest -> 0 <= table_bytes ks rest.
Proof.
  intros Hk Hr. revert ks Hk. induction Hr as [|l rest Hl Hr IH]; intros ks Hk; cbn [table_bytes]; [done|].
  assert (0 <= table_bytes (kind l :: ks) rest) by (apply IH; constructor; [by apply lsize_nonneg|done]).
  destruct (IS_GROUP_ID (l_id l)) eqn:E; [|pose proof (lsize_nonneg l Hl); lia].
  assert (0 <= total (map snd (ztake (g_entry_count l) ks))).
  { apply total_nonneg, Forall_map. rewrite ztake_take. by apply Forall_take. }
  unfold g_load_times, sized in *. nia.
Qed.

(** ** Groups *)

(** Entries at their addresses, and the same entries displaced *)
Definition placed (l : layout_t) : Z * Z := (l_rva l, lsize l).

Lemma tiles_end a v b : tiles a v b -> b = a + total (map snd v).
Proof.
  revert a. induction v as [|[r n] v IH]; intros a; cbn [tiles map total foldr snd]; [lia|].
  intros [_ H%IH]. fold (total (map snd v)). lia.
Qed.

Lemma displaced es : forall a b d, tiles a (map placed es) b -> Forall sized es -> 0 <= a -> 0 <= d -> b + d < 2 ^ 64 ->
  tiles (a + d) (map (fun l => region_of (d, l)) es) (b + d).
Proof.
  induction es as [|l es IH]; intros a b d Ht Hs Ha Hd Hb; cbn [map tiles placed] in *; [lia|].
  destruct Ht as [<- Ht]. apply Forall_cons in Hs as [Hl Hs]. pose proof (lsize_nonneg l Hl).
  assert (l_rva l + lsize l <= b).
  { pose proof (tiles_end _ _ _ Ht). rewrite map_map in *. cbn [placed snd] in *.
    assert (0 <= total (map lsize es)) by (apply total_nonneg, Forall_map; eapply Forall_impl; [exact Hs|apply lsize_nonneg]).
    change (map (fun x => lsize x) es) with (map lsize es) in *. lia. }
  unfold region_of, rva_pair. cbn [fst snd]. rewrite u64_id by (unfold is_u64; lia). split; [done|].
  change (Z.shiftl (l_page_count l) SE_PAGE_SHIFT) with (lsize l).
  replace (l_rva l + d + lsize l) with (l_rva l + lsize l + d) by lia. apply IH; [done|done|lia..].
Qed.

(** The loads of a group of entries that end at [a + step], from the load
    after the displacement [acc] on *)
Lemma group_tiles es step a : tiles a (map placed es) (a + step) -> Forall sized es -> 0 <= a -> 0 <= step ->
  forall n acc, 0 <= acc -> a + acc + step + Z.of_nat n * step < 2 ^ 64 ->
  tiles (a + step + acc) (map region_of (concat (map (fun d => map (pair d) es) (group_deltas n step acc))))
    (a + step + acc + Z.of_nat n * step).
Proof.
  intros Ht Hs Ha Hp. induction n as [|n IH]; intros acc Hacc Hb; cbn [group_deltas map concat tiles]; [lia|].
  rewrite u64_id by (unfold is_u64; nia). rewrite map_app, map_map. apply tiles_app. exists (a + step + (acc + step)). split.
  - replace (a + step + acc) with (a + (acc + step)) by lia. apply displaced; [done|done|lia|lia|nia].
  - replace (a + step + acc + Z.of_nat (S n) * step) with (a + step + (acc + step) + Z.of_nat n * step) by nia.
    apply IH; [lia|nia].
Qed.

Lemma last_n_rev {A} n (l : list A) : 0 <= n <= zlen l -> last_n n (rev l) = rev (ztake n l).
Proof.
  intros Hn. unfold last_n. rewrite length_rev, zdrop_drop, ztake_take. rewrite skipn_rev. f_equal. f_equal. lia.
Qed.

(** The running sum of update_layout_entries is exact while it fits. *)
Lemma group_sum_exact ls : forall acc, 0 <= acc -> Forall sized ls -> acc + total (map lsize ls) < 2 ^ 64 ->
  fold_left (fun acc l => u64 (acc + Z.shiftl (l_page_count l) SE_PAGE_SHIFT)) ls acc = acc + total (map lsize ls).
Proof.
  induction ls as [|l ls IH]; intros acc Ha Hs Hb; cbn [fold_left map total foldr] in *; [lia|]. fold (total (map lsize ls)) in *.
  apply Forall_cons in Hs as [Hl Hs]. pose proof (lsize_nonneg l Hl).
  assert (0 <= total (map lsize ls)) by (apply total_nonneg, Forall_map; eapply Forall_impl; [exact Hs|apply lsize_nonneg]).
  change (Z.shiftl (l_page_count l) SE_PAGE_SHIFT) with (lsize l). rewrite u64_id by (unfold is_u64; lia). rewrite IH; [lia..|done|lia].
Qed.

(** ** update_layout_entries *)

(** Every run of entries without a group at the end of [p] ends at [rva]. *)
Definition run_ends (p : list layout_t) (rva : Z) : Prop :=
  forall s1 s2, p = s1 ++ s2 -> Forall not_group s2 ->
    0 <= rva - total (map lsize s2) /\ tiles (rva - total (map lsize s2)) (map placed s2) rva.

Lemma run_ends_entry p l rva : run_ends p rva -> 0 <= rva + lsize l -> run_ends (p ++ [with_rva l rva]) (rva + lsize l).
Proof.
  intros Hp H0 s1 s2 E Hs. destruct s2 as [|x s2 _] using rev_ind; [cbn; lia|].
  rewrite app_assoc in E. apply app_inj_tail in E as [E <-]. apply Forall_app in Hs as [Hs _].
  destruct (Hp s1 s2 E Hs) as [H1 H2]. rewrite !map_app, total_app.
  change (total (map lsize [with_rva l rva])) with (lsize l + 0). rewrite Z.add_0_r. replace (rva + lsize l - (total (map lsize s2) + lsize l)) with (rva - total (map lsize s2)) by lia.
  split; [done|]. apply tiles_app. exists rva. split; [done|]. cbn. by split.
Qed.

Lemma run_ends_group p g rva : IS_GROUP_ID (l_id g) = true -> 0 <= rva -> run_ends (p ++ [g]) rva.
Proof.
  intros Hg H0 s1 s2 E Hs. destruct s2 as [|x s2 _] using rev_ind; [cbn; lia|].
  rewrite app_assoc in E. apply app_inj_tail in E as [_ <-]. apply Forall_app in Hs as [_ Hs].
  apply Forall_cons in Hs as [Hs _]. unfold not_group in Hs. congruence.
Qed.

(** What a group refers to *)
Lemma group_run prev g rva : run_ends (rev prev) rva ->
  0 <= g_entry_count g <= zlen prev -> Forall (fun k => fst k = false) (ztake (g_entry_count g) (map kind prev)) ->
  let es := rev (ztake (g_entry_count g) prev) in let step := total (map snd (ztake (g_entry_count g) (map kind prev))) in
  0 <= rva - step /\ tiles (rva - step) (map placed es) rva /\ step = total (map lsize (ztake (g_entry_count g) prev)).
Proof.
  intros Hr Hn Hf es step. assert (ztake (g_entry_count g) (map kind prev) = map kind (ztake (g_entry_count g) prev)) as Em
    by (rewrite !ztake_take; apply firstn_map).
  assert (step = total (map lsize (ztake (g_entry_count g) prev))) as Hstep by (unfold step; by rewrite Em, map_map).
  assert (total (map lsize es) = step) as Hes by (unfold es; by rewrite map_rev, total_rev).
  destruct (Hr (rev (zdrop (g_entry_count g) prev)) es) as [H1 H2].
  - unfold es. by rewrite <- rev_app_distr, ztake_zdrop.
  - rewrite Em in Hf. apply Forall_rev. apply Forall_map in Hf. exact Hf.
  - rewrite Hes in *. done.
Qed.

Lemma assign_tiles rest : forall prev rva tbl e,
  assign_rvas prev rest rva = Some (tbl, e) -> Forall sized prev -> Forall sized rest ->
  groups_trail (map kind prev) rest -> run_ends (rev prev) rva -> 0 <= rva ->
  rva + table_bytes (map kind prev) rest < 2 ^ 64 ->
  exists suf, tbl = rev prev ++ suf /\ map kind suf = map kind rest /\ e = rva + table_bytes (map kind prev) rest /\
    tiles rva (map region_of (expand_table (rev prev) suf)) e.
Proof.
  induction rest as [|l rest IH]; intros prev rva tbl e Ha Hsp Hsr Hg Hr H0 Hb; cbn [assign_rvas table_bytes groups_trail] in *.
  { injection Ha as <- <-. exists []. rewrite app_nil_r. split_and!; try done; cbn; lia. }
  apply Forall_cons in Hsr as [Hl Hsr]. destruct Hg as [Hg Hg']. pose proof (lsize_nonneg l Hl) as Hln.
  assert (forall r, 0 <= table_bytes (map kind (with_rva l r :: prev)) rest) as Htb.
  { intros r. apply table_bytes_nonneg; [|done]. apply Forall_map. constructor; [done|].
    eapply Forall_impl; [exact Hsp|]. intros x Hx. by apply lsize_nonneg. }
  specialize (Htb 0). change (map kind (with_rva l 0 :: prev)) with (kind l :: map kind prev) in Htb.
  destruct (IS_GROUP_ID (l_id l)) eqn:El; cbn [negb] in Ha.
  - destruct (Hg eq_refl) as (Hn & Hf & Ht & Hst). rewrite length_map in Hn.
    destruct (group_run prev l rva Hr Hn Hf) as (G1 & G2 & G3). set (step := total (map snd _)) in *.
    assert (Forall sized (ztake (g_entry_count l) prev)) as Hse by (rewrite ztake_take; by apply Forall_take).
    assert (0 <= step) as Hs0 by (rewrite G3; apply total_nonneg, Forall_map; eapply Forall_impl; [exact Hse|apply lsize_nonneg]).
    unfold group_step in Ha. destruct (Z.ltb_spec (zlen prev) (g_entry_count l)); [lia|].
    rewrite Hst, group_sum_exact, <- G3, Z.add_0_l in Ha by (done || lia || (rewrite <- G3; nia)).
    rewrite (u64_id (g_load_times l * step)), u64_id in Ha by (unfold is_u64; nia).
    destruct (IH _ _ _ _ Ha) as (suf & -> & Hk & -> & Hti); [by constructor|done|done|apply run_ends_group; [done|nia]|nia|change (map kind (with_rva l step :: prev)) with (kind l :: map kind prev); lia|].
    exists (with_rva l step :: suf). split_and!.
    + cbn [rev]. by rewrite <- app_assoc.
    + cbn [map]. by rewrite Hk.
    + change (map kind (with_rva l step :: prev)) with (kind l :: map kind prev). lia.
    + cbn [expand_table with_rva l_id]. rewrite El, map_app. apply tiles_app. exists (rva + g_load_times l * step). split; [|exact Hti].
      cbn [g_entry_count g_load_times g_load_step l_attributes l_page_count l_rva]. fold (g_entry_count l). fold (g_load_times l).
      rewrite last_n_rev by done.
      pose proof (group_tiles (rev (ztake (g_entry_count l) prev)) step (rva - step)) as Hgt.
      replace (rva - step + step) with rva in Hgt by lia.
      specialize (Hgt G2 ltac:(by apply Forall_rev) G1 Hs0 (Z.to_nat (g_load_times l)) 0 ltac:(lia)).
      rewrite Z2Nat.id, Z.add_0_r in Hgt by lia. rewrite Z.add_0_r in Hgt. apply Hgt. lia.
  - change (Z.shiftl (l_page_count l) SE_PAGE_SHIFT) with (lsize l) in Ha. rewrite u64_id in Ha by (unfold is_u64; lia).
    destruct (IH _ _ _ _ Ha) as (suf & -> & Hk & -> & Hti); [by constructor|done|done|apply run_ends_entry; [done|lia]|lia|change (map kind (with_rva l rva :: prev)) with (kind l :: map kind prev); lia|].
    exists (with_rva l rva :: suf). split_and!.
    + cbn [rev]. by rewrite <- app_assoc.
    + cbn [map]. by rewrite Hk.
    + change (map kind (with_rva l rva :: prev)) with (kind l :: map kind prev). lia.
    + cbn [expand_table with_rva l_id]. rewrite El. cbn [app map tiles region_of rva_pair fst snd with_rva l_rva l_page_count].
      rewrite Z.add_0_r, u64_id by (unfold is_u64; lia). split; [done|exact Hti].
Qed.

(** ** The table of the tool *)

Lemma groups_trail_app ks a b :
  groups_trail ks (a ++ b) <-> groups_trail ks a /\ groups_trail (rev (map kind a) ++ ks) b.
Proof.
  revert ks. induction a as [|l a IH]; intros ks; cbn [app groups_trail map rev]; [tauto|].
  rewrite IH, <- app_assoc. cbn [app]. tauto.
Qed.

Lemma groups_trail_plain ks a : Forall not_group a -> groups_trail ks a.
Proof.
  intros H. revert ks. induction H as [|l a Hl _ IH]; intros ks; cbn [groups_trail]; [done|].
  split; [|apply IH]. unfold not_group in Hl. by rewrite Hl.
Qed.

(** Entries, then a group that repeats all of them *)
Lemma groups_trail_group ks es g : Forall not_group es -> g_entry_count g = zlen es -> 1 <= g_load_times g -> g_load_step g = 0 ->
  groups_trail ks (es ++ [g]).
Proof.
  intros He Hc Ht Hs. apply groups_trail_app. split; [by apply groups_trail_plain|]. cbn [groups_trail]. split; [|done].
  intros _. rewrite Hc, length_app, length_rev, length_map. split_and!; [lia|lia| |done|done].
  rewrite ztake_app_le, ztake_ge by (rewrite length_rev, length_map; lia).
  apply Forall_rev, Forall_map. eapply Forall_impl; [exact He|]. by intros l.
Qed.

Lemma sized_layouts_plain a b c mn init mx : Forall (fun i => IS_GROUP_ID i = false) [a; b; c] ->
  Forall not_group (sized_layouts a b c mn init mx) /\ Forall sized (sized_layouts a b c mn init mx).
Proof.
  rewrite !Forall_cons. intros (Ha & Hb & Hc & _). unfold sized_layouts.
  assert (forall x, 0 <= pages x) as Hp by (intros x; apply u32_range).
  destruct (mn <? init), (init <? mx); cbn [app]; split; repeat (apply Forall_cons; split); try apply Forall_nil; done || apply Hp.
Qed.

(** A thread context and its variants *)
Lemma thread_layouts_plain cp off tls : let ts := thread_layouts cp off tls in
  7 <= zlen ts <= 8 /\ Forall sized ts /\ Forall not_group ts /\ Forall not_group (map utility_layout ts) /\
  Forall not_group (map eremove_layout ts) /\ Forall not_group (map dyn_layout ts).
Proof.
  unfold thread_layouts. assert (forall x, 0 <= u32 x) as Hp by (intros x; apply u32_range).
  destruct (stack_min_size cp <? stack_max_size cp); cbn [app length map].
  all: split_and!; try lia; repeat (apply Forall_cons; split); try apply Forall_nil; try reflexivity.
  all: unfold sized; cbn [l_page_count lentry guard_page]; try apply Hp; done.
Qed.

Lemma with_sized f ts : (forall l, l_page_count (f l) = l_page_count l) -> Forall sized ts -> Forall sized (map f ts).
Proof. intros Hf H. apply Forall_map. eapply Forall_impl; [exact H|]. intros l. unfold sized. by rewrite Hf. Qed.

Lemma utility_pages l : l_page_count (utility_layout l) = l_page_count l.
Proof. unfold utility_layout. by split_if. Qed.
Lemma eremove_pages l : l_page_count (eremove_layout l) = l_page_count l.
Proof. unfold eremove_layout. by split_if. Qed.
Lemma dyn_pages l : l_page_count (dyn_layout l) = l_page_count l.
Proof. unfold dyn_layout. by repeat split_if. Qed.

Lemma thread_copies_shape ks n ts : zlen ts <= 8 -> Forall not_group ts -> Forall sized ts ->
  groups_trail ks (thread_copies LAYOUT_ID_THREAD_GROUP n ts) /\ Forall sized (thread_copies LAYOUT_ID_THREAD_GROUP n ts).
Proof.
  intros Hl Hg Hs. unfold thread_copies. destruct (Z.ltb_spec 0 n); [|by split; [|constructor]].
  destruct (Z.ltb_spec 1 n); [|rewrite app_nil_r; by split; [apply groups_trail_plain|]]. split.
  - apply groups_trail_group; [done| |cbn; lia|done]. cbn. apply u16_id. unfold is_u16. lia.
  - apply Forall_app. split; [done|]. constructor; [|constructor]. unfold sized. cbn. lia.
Qed.

Lemma dyn_copies_shape ks cp mp ts : zlen ts <= 8 -> Forall not_group (map dyn_layout ts) -> Forall sized ts ->
  is_u32 (tcs_max_num cp) -> groups_trail ks (dyn_copies cp mp ts) /\ Forall sized (dyn_copies cp mp ts).
Proof.
  intros Hl Hg Hs Hm. unfold dyn_copies. destruct (Z.ltb_spec (u32 (mp + 1)) (tcs_max_num cp)); [|by split; [|constructor]]. split.
  - apply groups_trail_group; [done| | |done].
    + cbn [lgroup g_entry_count l_attributes]. rewrite length_map. apply u16_id. unfold is_u16. lia.
    + cbn [lgroup g_load_times l_page_count]. unfold is_u32, u32 in *. zlia.
  - apply Forall_app. split; [apply with_sized; [apply dyn_pages|done]|]. constructor; [|constructor]. unfold sized. cbn. apply u32_range.
Qed.

Lemma table_shape cp off tls : is_u32 (tcs_max_num cp) ->
  groups_trail [] (heap_layouts cp ++ context_layouts cp off tls) /\ Forall sized (heap_layouts cp ++ context_layouts cp off tls).
Proof.
  intros Hm. destruct (thread_layouts_plain cp off tls) as ([_ Hl] & Hs & H1 & H2 & H3 & H4).
  set (ts := thread_layouts cp off tls) in *.
  destruct (sized_layouts_plain LAYOUT_ID_HEAP_MIN LAYOUT_ID_HEAP_INIT LAYOUT_ID_HEAP_MAX
    (heap_min_size cp) (heap_init_size cp) (heap_max_size cp)) as [Hh1 Hh2]; [repeat constructor|].
  assert (Forall not_group (rsrv_layouts cp) /\ Forall sized (rsrv_layouts cp)) as [Hr1 Hr2].
  { unfold rsrv_layouts. split_if; [|by split; constructor]. apply sized_layouts_plain. repeat constructor. }
  unfold context_layouts. fold ts. destruct (pool_split cp) as [mp er].
  pose proof (with_sized _ _ eremove_pages Hs) as Hse. assert (zlen (map eremove_layout ts) <= 8) by (by rewrite length_map).
  split.
  - rewrite !groups_trail_app. split_and!.
    + by apply groups_trail_plain.
    + by apply groups_trail_plain.
    + by apply thread_copies_shape.
    + by apply thread_copies_shape.
    + by apply dyn_copies_shape.
    + by apply groups_trail_plain.
  - rewrite !Forall_app. split_and!; try done.
    + apply with_sized; [apply utility_pages|done].
    + by apply (thread_copies_shape []).
    + by apply (thread_copies_shape []).
    + by apply (dyn_copies_shape []).
Qed.

(** ** Up to the enclave's size *)

Lemma expand_snoc pre tbl x : not_group x -> expand_table pre (tbl ++ [x]) = expand_table pre tbl ++ [(0, x)].
Proof.
  intros Hx. revert pre. induction tbl as [|l tbl IH]; intros pre; cbn [app expand_table].
  - unfold not_group in Hx. by rewrite Hx.
  - by rewrite IH, app_assoc.
Qed.

Lemma lsize_mod l : lsize l mod SE_PAGE_SIZE = 0.
Proof. unfold lsize, SE_PAGE_SHIFT, SE_PAGE_SIZE. rewrite Z.shiftl_mul_pow2 by lia. apply Z.mod_mul. lia. Qed.

Lemma table_bytes_mod ks rest : Forall (fun k => snd k mod SE_PAGE_SIZE = 0) ks -> table_bytes ks rest mod SE_PAGE_SIZE = 0.
Proof.
  revert ks. induction rest as [|l rest IH]; intros ks Hk; cbn [table_bytes]; [done|].
  specialize (IH (kind l :: ks) ltac:(constructor; [apply lsize_mod|done])). pose proof (lsize_mod l).
  assert (total (map snd (ztake (g_entry_count l) ks)) mod SE_PAGE_SIZE = 0) as Ht.
  { rewrite ztake_take. apply (Forall_take _ (Z.to_nat (g_entry_count l))) in Hk. induction Hk as [|k ks' Hk' _ IHk]; [done|].
    cbn [map total foldr]. fold (total (map snd ks')). unfold SE_PAGE_SIZE in *. zlia. }
  unfold SE_PAGE_SIZE in *. destruct (IS_GROUP_ID (l_id l)); [|zlia].
  rewrite Z.add_mod, Z.mul_mod, Ht, IH, Z.mul_0_r by lia. done.
Qed.

(** Consecutive regions of whole pages are disjoint and inside. *)
Lemma tiles_regions a v b : tiles a v b -> Forall (fun r => 0 <= snd r /\ snd r mod SE_PAGE_SIZE = 0) v -> a mod SE_PAGE_SIZE = 0 ->
  a <= b /\ Forall (fun r => a <= fst r /\ fst r + snd r <= b /\ fst r mod SE_PAGE_SIZE = 0) v /\ all_disjoint v.
Proof.
  intros Ht Hv. revert a Ht. induction Hv as [|[r n] v [Hn Hm] Hv IH]; intros a Ht Ha; cbn [tiles] in Ht.
  { subst. split_and!; [lia|constructor|constructor]. }
  destruct Ht as [-> Ht]. cbn [snd] in *. destruct (IH _ Ht) as (H1 & H2 & H3); [unfold SE_PAGE_SIZE in *; zlia|].
  split_and!; [lia| |].
  - constructor; [cbn [fst snd]; split_and!; [lia|lia|done]|]. eapply Forall_impl; [exact H2|]. cbn beta. intros x (? & ? & ?).
    split_and!; [lia|lia|done].
  - constructor; [|done]. eapply Forall_impl; [exact H2|]. cbn beta. intros x (? & ? & ?). left. cbn [fst snd]. lia.
Qed.

Lemma regions_whole x : sized (snd x) -> 0 <= snd (region_of x) /\ snd (region_of x) mod SE_PAGE_SIZE = 0.
Proof. intros H. split; [by apply lsize_nonneg|apply lsize_mod]. Qed.

Lemma expand_sized pre tbl : Forall sized pre -> Forall sized tbl -> Forall (fun x => sized (snd x)) (expand_table pre tbl).
Proof.
  intros Hp Ht. revert pre Hp. induction Ht as [|l tbl Hl Ht IH]; intros pre Hp; cbn [expand_table]; [constructor|].
  apply Forall_app. split; [|apply IH, Forall_app; split; [done|by constructor]].
  destruct (IS_GROUP_ID (l_id l)); [|by constructor].
  induction (group_deltas _ _ _) as [|d ds IHd]; cbn [map concat]; [constructor|].
  apply Forall_app. split; [|done]. apply Forall_map. unfold last_n. rewrite zdrop_drop. by apply Forall_drop.
Qed.

(** The size the tool chooses: whole pages, and the layout fits *)
Lemma enclave_size_fits ep size es : SE_PAGE_SIZE <= size < 2 ^ 64 -> calculate_enclave_size ep size = Some es ->
  size <= es < 2 ^ 44 /\ es mod SE_PAGE_SIZE = 0.
Proof.
  intros Hs. unfold calculate_enclave_size. split_if; [done|].
  pose proof (round_pow2_spec 65 0 size ltac:(lia) ltac:(lia) ltac:(lia)) as Hr. change (2 ^ 0) with 1 in Hr.
  destruct (round_pow2 65 1 size) as [r|]; [|done]. destruct Hr as (j & Hj & -> & Hle & _). split_if; [done|]. intros [= <-]. zbool.
  assert (get_enclave_max_size ep < 2 ^ 44) by (unfold get_enclave_max_size; by destruct (ep_bin_fmt ep)).
  split; [lia|]. unfold SE_PAGE_SIZE in *. assert (12 <= j) by (destruct (Z.le_gt_cases 12 j); [done|];
    assert (2 ^ j < 2 ^ 12) by (apply Z.pow_lt_mono_r; lia); change (2 ^ 12) with 4096 in *; lia).
  replace j with (j - 12 + 12) by lia. rewrite Z.pow_add_r by lia. apply Z.mod_mul. lia.
Qed.

Lemma update_layout_entries_Ok sections c c1 : update_layout_entries sections c = (c1, Ok tt) ->
  exists tbl e, calculate_sections_size sections <> 0 /\
    assign_rvas [] (m_layouts c) (calculate_sections_size sections) = Some (tbl, e) /\ m_layouts c1 = tbl /\ m_rva c1 = e.
Proof.
  unfold update_layout_entries, mbind, M_bind, mmod, mget, mlift, ensure, mret, M_ret, merr.
  destruct (Z.eqb_spec (calculate_sections_size sections) 0); cbn [negb]; [done|]. cbn [m_layouts set_rva].
  destruct (assign_rvas _ _ _) as [[tbl e]|]; [|done]. cbn. intros [= <-]. by exists tbl, e.
Qed.

(** The tiling up to [m], continued by [extra] pages in the last entry or in
    a new one *)
Lemma shiftl_page n : Z.shiftl n SE_PAGE_SHIFT = n * SE_PAGE_SIZE.
Proof. by apply Z.shiftl_mul_pow2. Qed.

Lemma pad_last rva0 ls x m extra : tiles rva0 (map region_of (expand_table [] (ls ++ [x]))) m -> not_group x ->
  let x' := with_pages x (l_page_count x + extra) in
  tiles rva0 (map region_of (expand_table [] (ls ++ [x']))) (m + extra * SE_PAGE_SIZE).
Proof.
  intros Ht Hng x'. rewrite expand_snoc, map_app in * by done. apply tiles_app in Ht as (b & Hb & Hx).
  apply tiles_app. exists b. split; [done|]. cbn [map tiles] in *. unfold region_of, rva_pair in *.
  cbn [fst snd x' with_pages l_rva l_page_count] in *. rewrite shiftl_page in *. destruct Hx as [-> <-]. split; [done|]. ring.
Qed.

Lemma pad_guard rva0 ls m extra : tiles rva0 (map region_of (expand_table [] ls)) m -> 0 <= m < 2 ^ 64 ->
  tiles rva0 (map region_of (expand_table [] (ls ++ [with_rva (lentry LAYOUT_ID_GUARD extra 0 0 0 0) m]))) (m + extra * SE_PAGE_SIZE).
Proof.
  intros Ht Hm. rewrite expand_snoc, map_app by done. apply tiles_app. exists m. split; [done|]. cbn [map tiles].
  unfold region_of, rva_pair. cbn [fst snd with_rva lentry l_rva l_page_count]. rewrite shiftl_page, Z.add_0_r, u64_id by done. done.
Qed.

Lemma rsrv_tail_plain x : is_rsrv_tail x = true -> not_group x.
Proof.
  unfold is_rsrv_tail, not_group. rewrite !orb_true_iff, andb_true_iff, !Z.eqb_eq. intros [[->| ->]|[-> _]]; reflexivity.
Qed.

(** The pages of the last entry are part of the tiling. *)
Lemma last_fits rva0 ls x m : tiles rva0 (map region_of (expand_table [] (ls ++ [x]))) m -> not_group x ->
  Forall sized (ls ++ [x]) -> 0 <= rva0 -> 0 <= l_page_count x /\ l_page_count x * SE_PAGE_SIZE <= m.
Proof.
  intros Ht Hng Hs H0. rewrite expand_snoc, map_app in Ht by done. apply tiles_app in Ht as (b & Hb & Hx).
  apply Forall_app in Hs as [Hs Hx0]. apply Forall_cons in Hx0 as [Hx0 _]. split; [exact Hx0|].
  cbn [map tiles] in Hx. unfold region_of, rva_pair in Hx. cbn [fst snd] in Hx. destruct Hx as [_ Hx]. rewrite shiftl_page in Hx.
  apply tiles_end in Hb. assert (0 <= total (map snd (map region_of (expand_table [] ls)))); [|lia].
  apply total_nonneg, Forall_map, Forall_map. eapply Forall_impl; [by apply expand_sized; [constructor|exact Hs]|].
  intros y Hy. by apply lsize_nonneg.
Qed.

Lemma pad_tiles rva0 es c1 c2 : pad_enclave es c1 = (c2, Ok tt) ->
  tiles rva0 (map region_of (expand_table [] (m_layouts c1))) (m_rva c1) -> Forall sized (m_layouts c1) ->
  0 <= rva0 <= m_rva c1 -> m_rva c1 <= es < 2 ^ 44 -> es mod SE_PAGE_SIZE = 0 -> m_rva c1 mod SE_PAGE_SIZE = 0 ->
  tiles rva0 (map region_of (expand_table [] (m_layouts c2))) es /\ Forall sized (m_layouts c2).
Proof.
  intros Hp Ht Hs H0 Hes Hm1 Hm2. unfold pad_enclave, mbind, M_bind, mget, mlift, mput in Hp.
  rewrite u64_id in Hp by (unfold is_u64; lia). destruct (Z.ltb_spec 0 (es - m_rva c1)).
  2:{ injection Hp as <-. replace es with (m_rva c1) by lia. done. }
  destruct (last (m_layouts c1)) as [x|] eqn:El; [|done]. cbn [deref] in Hp. apply last_Some in El as [ls El].
  assert (u32 (Z.shiftr (es - m_rva c1) SE_PAGE_SHIFT) = (es - m_rva c1) / SE_PAGE_SIZE) as Ex.
  { clear - Hes H0. unfold SE_PAGE_SHIFT. rewrite Z.shiftr_div_pow2 by lia. apply u32_id. unfold is_u32, SE_PAGE_SIZE. zlia. }
  assert (es = m_rva c1 + (es - m_rva c1) / SE_PAGE_SIZE * SE_PAGE_SIZE) as Hpg by (clear - Hm1 Hm2; unfold SE_PAGE_SIZE in *; zlia).
  rewrite Ex in Hp. assert (0 <= (es - m_rva c1) / SE_PAGE_SIZE) as Hx0 by (apply Z.div_pos; [lia|done]).
  revert Hp Hpg Hx0. clear Ex. generalize ((es - m_rva c1) / SE_PAGE_SIZE). intros extra Hp Hpg Hx0. rewrite Hpg.
  destruct (is_rsrv_tail x) eqn:Er; injection Hp as <-; cbn [m_layouts set_layouts set_cp].
  - apply rsrv_tail_plain in Er. rewrite El in Ht, Hs |- *. rewrite removelast_last.
    destruct (last_fits _ _ _ _ Ht Er Hs ltac:(lia)) as [Hc1 Hc2].
    assert (u32 (l_page_count x + extra) = l_page_count x + extra) as -> by (apply u32_id; unfold is_u32, SE_PAGE_SIZE in *; lia).
    split; [by apply pad_last|]. apply Forall_app in Hs as [Hs _]. apply Forall_app. split; [done|]. constructor; [|constructor].
    unfold sized. cbn. lia.
  - split; [apply pad_guard; [done|lia]|]. apply Forall_app. split; [done|]. by constructor.
Qed.

Lemma ROUND_TO_PAGE_u64 x : is_u64 (ROUND_TO_PAGE x).
Proof.
  unfold ROUND_TO_PAGE, ROUND_TO. change (SE_PAGE_SIZE - 1) with (2 ^ 12 - 1).
  rewrite land_clear_low by (lia || apply u64_range). pose proof (u64_range (x + (2 ^ 12 - 1))). unfold is_u64 in *. zlia.
Qed.


(** ** A small configuration: three threads, one of them in a group *)
Definition small_sections : list Section_ := [MkSection 0 0x1000 0x1000 0x1000 0 0].
Definition small_cp : create_param_t :=
  param_of (map (fun x => MkXml (x_name x) (x_max_value x) (x_min_value x)
      (if String.eqb (x_name x) "TCSNum" then 3 else if String.eqb (x_name x) "TCSMinPool" then 3 else x_value x) (x_flag x))
    default_parameters) create_param_zero.
Definition small_cm : CM := MkCM [] create_param_zero (heap_layouts small_cp ++ context_layouts small_cp 0x760 None) 0 0 0.
Definition small_placed : CM := fst (update_layout_entries small_sections small_cm).
Definition small_padded : CM := fst (pad_enclave 0x2000000 small_placed).
Definition small_ep : ElfParser := set_bin_fmt BF_ELF64 elf_new.


(** ** A configuration whose layout does not fit in 64 bits *)
Definition wrap_config : xml_file := XmlRoot (MkRoot false
  [MkChild false "TCSNum" (Some "0x10000000"); MkChild false "TCSMinPool" (Some "0x10000000");
   MkChild false "StackMaxSize" (Some "0xFFFFCC000")]).
Definition wrap_ps : list xml_parameter_t := fst (parse_metadata_file wrap_config default_parameters).
Definition wrap_layouts : list layout_t :=
  let cp := param_of wrap_ps create_param_zero in heap_layouts cp ++ context_layouts cp 0x760 None.

