(* ===== verification/MetadataSafe.v ===== *)
(** * The metadata builder stays inside its buffer

    The tool builds the metadata in a buffer of METADATA_SIZE bytes that it
    fills through pointers.  In the model a write past the end would make the
    buffer longer; here the buffer is shown to keep its length, and to hold
    bytes, whatever the parameters and on every return, errors included. *)
From S2P Require Import Prelude Bytes Arch Elf GlobalData Metadata.

#[local] Open Scope Z_scope.

Definition md_ok (md : list Z) : Prop := zlen md = METADATA_SIZE /\ bytes_ok md.

(** ** Writes *)
Lemma splice_md off src md : md_ok md -> bytes_ok src -> 0 <= off -> off + zlen src <= METADATA_SIZE -> md_ok (splice off src md).
Proof. intros [Hl Hb] Hs Ho He. split; [rewrite zlen_splice; lia|by apply bytes_ok_splice]. Qed.

Lemma fset_md f v md : md_ok md -> 0 <= f_off f -> f_end f <= METADATA_SIZE -> md_ok (fset f v md).
Proof. intros Hm Ho He. unfold f_end in He. apply splice_md; [done|apply le_bytes_ok|done|by rewrite length_le_bytes]. Qed.

(** A copy to [dst] with a bound [n] on it *)
Lemma memcpy_md dst n src count md r : md_ok md -> bytes_ok src -> 0 <= dst <= METADATA_SIZE ->
  memcpy_s (E:=unit) (zdrop dst md) n src count = Ok r -> md_ok (ztake dst md ++ fst r).
Proof.
  intros [Hl Hb] Hs Hd. unfold memcpy_s. split_if.
  { intros [= <-]. cbn [fst]. by rewrite ztake_zdrop. }
  split_if; [done|]. zbool. intros [= <-]. cbn [fst]. rewrite zlen_zdrop in *. split.
  - rewrite length_app, Nat2Z.inj_add, zlen_splice, zlen_ztake, zlen_zdrop; [lia|done|]. rewrite zlen_ztake, zlen_zdrop. lia.
  - apply bytes_ok_app. split; [by apply bytes_ok_ztake|]. apply bytes_ok_splice; [by apply bytes_ok_ztake|by apply bytes_ok_zdrop].
Qed.

(** ** The global data template *)
Lemma gd_set_md gd f v md : md_ok md -> 0 <= gd -> gd + Gd.sizeof <= METADATA_SIZE -> 0 <= f_off f -> f_end f <= Gd.sizeof ->
  md_ok (gd_set gd f v md).
Proof. intros Hm Hg He Hf Hs. unfold f_end in *. apply fset_md; [done|cbn; lia|unfold f_end; cbn; lia]. Qed.

Lemma copy_layouts_md k : forall gd p n md md', md_ok md -> 0 <= gd -> gd + Gd.sizeof <= METADATA_SIZE -> 0 <= n <= LAYOUT_ENTRY_NUM ->
  copy_layouts k gd p n md = Ok md' -> md_ok md'.
Proof.
  induction k as [|k IH]; intros gd p n md md' Hm Hg He Hn; cbn [copy_layouts]; [by intros [= <-]|].
  destruct (memcpy_s _ _ _ _) as [r| |] eqn:E; [|done..]. cbn [mbind res_bind]. destruct (negb (snd r =? 0)) eqn:Er; [done|].
  assert (n < LAYOUT_ENTRY_NUM).
  { destruct (Z.eq_dec n LAYOUT_ENTRY_NUM) as [->|]; [|lia]. unfold memcpy_s in E. rewrite Z.sub_diag in E. change (u64 0) with 0 in E.
    cbn in E. injection E as <-. done. }
  apply memcpy_md in E; [|done|by apply bytes_ok_zdrop, (proj2 Hm)|unfold Gd.layout_table_off, Gd.sizeof, sizeof_layout, LAYOUT_ENTRY_NUM in *; lia].
  intros Hc. eapply IH; [|done|done| |exact Hc]; [apply gd_set_md; done|lia].
Qed.

(** The end of the update: the TCS template and the layout table *)
Lemma copy_template_md gd md1 md' : md_ok md1 -> 0 <= gd -> gd + Gd.sizeof <= METADATA_SIZE ->
  (tcs ← get_entry_by_id md1 LAYOUT_ID_TCS true;
   tcs' ← deref tcs;
   let dst := gd + Gd.tcs_template_off in
   r ← memcpy_s (zdrop dst md1) TCS_TEMPLATE_SIZE (zdrop (l_content_offset tcs') md1) (l_content_size tcs');
   if negb (snd r =? 0) then Err tt
   else
     let md := ztake dst md1 ++ fst r in
     let md := gd_set gd Gd.layout_entry_num 0 md in
     copy_layouts (table_count (fget (Md.dir_size DIR_LAYOUT) md) sizeof_layout) gd
       (fget (Md.dir_offset DIR_LAYOUT) md) 0 md) = Ok md' -> md_ok md'.
Proof.
  intros Hm1 H0 H1. destruct (get_entry_by_id md1 LAYOUT_ID_TCS true) as [[tcs|]| |]; cbn [mbind res_bind deref]; [|done..].
  destruct (memcpy_s _ _ _ _) as [r| |] eqn:E; [|done..]. cbn [mbind res_bind]. split_if; [done|].
  apply memcpy_md in E; [|done|by apply bytes_ok_zdrop, (proj2 Hm1)|unfold Gd.tcs_template_off, Gd.sizeof in *; lia].
  apply copy_layouts_md; [by apply gd_set_md|done|done|unfold LAYOUT_ENTRY_NUM; lia].
Qed.

Lemma update_global_data_md md cp gd n md' : md_ok md -> update_global_data md cp gd n = Ok md' -> md_ok md'.
Proof.
  intros Hm H. unfold update_global_data in H. destruct (n <? Gd.sizeof); [done|]. unfold do_update_global_data in H.
  ok_bind H heap Hh. ok_bind H rsrv Hr. destruct heap as [heap|]; [|done]. ok_bind H u Hu.
  destruct ((0 <=? gd) && (gd + Gd.sizeof <=? zlen md)) eqn:Eg; [|done]. zbool. pose proof (proj1 Hm) as Hl.
  apply copy_template_md in H; [done| |done|lia]. repeat (apply gd_set_md; [|done|lia|done|done]). done.
Qed.

(** ** The builder

    [safe P m Q]: from a state with a whole buffer that satisfies [P], [m]
    leaves a whole buffer on every return, and [Q] when it succeeds. *)
Definition safe {A} (P : CM -> Prop) (m : C A) (Q : A -> CM -> Prop) : Prop :=
  forall c, md_ok (m_metadata c) -> P c ->
    md_ok (m_metadata (fst (m c))) /\ forall a, snd (m c) = Ok a -> Q a (fst (m c)).

Lemma safe_bind {A B} P (m : C A) (f : A -> C B) Q R :
  safe P m Q -> (forall a, safe (Q a) (f a) R) -> safe P (m ≫= f) R.
Proof.
  intros Hm Hf c Hc HP. destruct (Hm c Hc HP) as [H1 H2]. unfold mbind, M_bind. destruct (m c) as [c1 [a|e|]]; cbn [fst snd] in *.
  - apply Hf; [done|]. by apply H2.
  - by split.
  - by split.
Qed.

Lemma safe_impl {A} (P P' : CM -> Prop) (m : C A) (Q Q' : A -> CM -> Prop) :
  safe P m Q -> (forall c, P' c -> P c) -> (forall a c, Q a c -> Q' a c) -> safe P' m Q'.
Proof. intros H HP HQ c Hc HP'. destruct (H c Hc (HP c HP')) as [H1 H2]. split; [done|]. intros a E. by apply HQ, H2. Qed.

(** A step that keeps the buffer *)
Lemma safe_pure {A} (P : CM -> Prop) (m : C A) (Q : A -> CM -> Prop) :
  (forall c, m_metadata (fst (m c)) = m_metadata c) ->
  (forall c a, P c -> snd (m c) = Ok a -> Q a (fst (m c))) -> safe P m Q.
Proof. intros H1 H2 c Hc HP. rewrite H1. split; [done|]. intros a. by apply H2. Qed.

Lemma safe_md_mod P f : (forall c, P c -> md_ok (m_metadata c) -> md_ok (f (m_metadata c))) ->
  (forall c md, P c -> P (set_md md c)) -> safe P (md_mod f) (fun _ => P).
Proof. intros Hf HP c Hc HPc. split; [by apply Hf|]. intros a _. by apply HP. Qed.

Lemma safe_ensure P b : safe P (ensure b) (fun _ => P).
Proof. apply safe_pure; [by destruct b|]. intros c a Hc. by destruct b. Qed.

Lemma safe_get P : safe P mget (fun s c => P c /\ s = c).
Proof. apply safe_pure; [done|]. by intros c a Hc [= <-]. Qed.

Lemma safe_lift {A} P (r : res unit A) : safe P (mlift r) (fun _ => P).
Proof. by apply safe_pure. Qed.

(** Allocation: the buffer that is returned lies inside. *)
Lemma safe_alloc (P : CM -> Prop) size : 0 <= size < 2 ^ 32 -> (forall c md, P c -> P (set_md md c)) ->
  safe P (alloc_buffer_from_metadata size) (fun addr c => P c /\ 0 <= addr /\ addr + size <= METADATA_SIZE).
Proof.
  intros Hs HP c Hc HPc. unfold alloc_buffer_from_metadata, mbind, M_bind, mget, mput.
  assert (0 <= fget Md.size (m_metadata c) < 2 ^ 32) as Hr by (apply (fget_range Md.size); [apply Hc|done]).
  set (addr := fget Md.size (m_metadata c)) in *. clearbody addr.
  destruct ((u32 (addr + size) <? size) || (METADATA_SIZE <? u32 (addr + size))) eqn:E; cbn [fst snd merr mret M_ret m_metadata set_md].
  - split; [by apply fset_md|done].
  - split; [by apply fset_md|]. intros a [= <-]. split; [by apply HP|]. zbool.
    destruct (Z_lt_le_dec (addr + size) (2 ^ 32)) as [Hlt|Hge]; [rewrite u32_id in * by (unfold is_u32; lia); lia|].
    assert (u32 (addr + size) = addr + size - 2 ^ 32) as Eu by (unfold u32; rewrite <- (Z_mod_plus_full _ (-1)); apply Z.mod_small; lia). lia.
Qed.

(** At most [n] layout entries *)
Definition few (n : Z) (c : CM) : Prop := zlen (m_layouts c) <= n.

Lemma few_md n c md : few n c -> few n (set_md md c).
Proof. done. Qed.
#[local] Hint Resolve few_md : mage.

Ltac in_md := first [done | apply le_bytes_ok | by repeat constructor |
  apply bytes_ok_app; split; apply le_bytes_ok | apply bytes_ok_zreplicate; done].

Lemma fill_css_md ps date fmt md : md_ok md -> md_ok (fill_css ps date fmt md).
Proof.
  intros Hm. unfold fill_css, css_set. cbv zeta.
  repeat first [apply fset_md; [|done|done] | apply splice_md; [|in_md|done|done]]. done.
Qed.

Lemma fill_metadata_md ps md : md_ok md -> md_ok (fill_metadata ps md).
Proof.
  intros Hm. unfold fill_metadata, css_set. cbv zeta. destruct (metadata_attributes _) as [flags xfrm].
  repeat (apply fset_md; [|done|done]). done.
Qed.

Lemma safe_modify n ps now fmt : safe (few n) (modify_metadata ps now fmt) (fun _ => few n).
Proof.
  unfold modify_metadata, check_xml_parameter. apply (safe_bind _ _ _ (fun _ => few n)).
  { apply (safe_bind _ _ _ (fun _ => few n)); [apply safe_ensure|]. intros []. by apply safe_pure. }
  intros []. apply (safe_bind _ _ _ (fun _ => few n)).
  { unfold fill_enclave_css. destruct (get_time now) as [date|]; [|by apply safe_pure].
    apply safe_md_mod; [intros; by apply fill_css_md|auto with mage]. }
  intros []. apply safe_md_mod; [intros; by apply fill_metadata_md|auto with mage].
Qed.

(** ** The number of entries *)
Lemma zlen_sized_layouts a b c mn init mx : zlen (sized_layouts a b c mn init mx) <= 3.
Proof. unfold sized_layouts. destruct (mn <? init), (init <? mx); cbn; lia. Qed.

Lemma zlen_thread_layouts cp off tls : zlen (thread_layouts cp off tls) <= 8.
Proof. unfold thread_layouts. destruct (_ <? _); cbn; lia. Qed.

Lemma zlen_thread_copies g n ts : zlen (thread_copies g n ts) <= zlen ts + 1.
Proof. unfold thread_copies. repeat split_if; rewrite ?length_app; cbn [length]; lia. Qed.

Lemma zlen_context_layouts cp off tls : zlen (context_layouts cp off tls) <= 38.
Proof.
  unfold context_layouts. pose proof (zlen_thread_layouts cp off tls). set (ts := thread_layouts cp off tls) in *. clearbody ts.
  destruct (pool_split cp) as [mp er]. pose proof (zlen_thread_copies LAYOUT_ID_THREAD_GROUP mp ts).
  pose proof (zlen_thread_copies LAYOUT_ID_THREAD_GROUP er (map eremove_layout ts)). rewrite length_map in *.
  assert (zlen (dyn_copies cp mp ts) <= zlen ts + 1) by (unfold dyn_copies; split_if; rewrite ?length_app, ?length_map; cbn [length]; lia).
  assert (zlen (rsrv_layouts cp) <= 3) by (unfold rsrv_layouts; split_if; [apply zlen_sized_layouts|cbn; lia]).
  rewrite !length_app, length_map. lia.
Qed.

Lemma assign_rvas_length rest : forall prev rva tbl e, assign_rvas prev rest rva = Some (tbl, e) -> length tbl = (length prev + length rest)%nat.
Proof.
  induction rest as [|l rest IH]; intros prev rva tbl e; cbn [assign_rvas].
  { intros [= <- _]. rewrite length_rev. cbn. lia. }
  split_if; [intros H%IH; cbn [length] in *; lia|]. destruct (group_step prev l); [|done]. intros H%IH. cbn [length] in *. lia.
Qed.

Lemma safe_update_layout n sections : safe (few n) (update_layout_entries sections) (fun _ => few n).
Proof.
  unfold update_layout_entries. apply (safe_bind _ _ _ (fun _ => few n)); [by apply safe_pure|]. intros [].
  apply (safe_bind _ _ _ (fun _ => few n)); [apply safe_ensure|]. intros [].
  apply (safe_bind _ _ _ (fun s c => few n c /\ s = c)); [apply safe_get|]. intros c.
  apply (safe_bind _ _ _ (fun r c' => few n c' /\ zlen (fst r) <= n)).
  - apply safe_pure; [done|]. intros c' [tbl e] [Hn ->] E. split; [done|].
    unfold mlift, deref in E. cbn [snd] in E. destruct (assign_rvas _ _ _) as [[t e']|] eqn:Ea; [|done]. injection E as -> ->.
    apply assign_rvas_length in Ea. cbn [length fst] in *. unfold few in Hn. lia.
  - intros [tbl e]. apply safe_pure; [done|]. intros c' [] [_ Hn] _. exact Hn.
Qed.

Lemma safe_layout_by_id n id : safe (few n) (layout_by_id id) (fun _ => few n).
Proof.
  unfold layout_by_id. apply safe_pure; [done|]. intros c a Hc _. exact Hc.
Qed.

(** ** The tables *)
Lemma concat_bytes {A} (enc : A -> list Z) sz l : (forall a, zlen (enc a) = sz /\ bytes_ok (enc a)) ->
  zlen (concat (map enc l)) = sz * zlen l /\ bytes_ok (concat (map enc l)).
Proof.
  intros He. induction l as [|a l [IH1 IH2]]; cbn [map concat length]; [split; [lia|constructor]|].
  destruct (He a) as [H1 H2]. rewrite length_app. split; [lia|by apply bytes_ok_app].
Qed.

Lemma safe_tcs_template ep n t : 0 <= t -> t + TCS_TEMPLATE_SIZE <= METADATA_SIZE ->
  safe (few n) (build_tcs_template ep t) (fun _ => few n).
Proof.
  intros H0 H1. assert (forall f v md, md_ok md -> 0 <= f_off f -> f_end f <= TCS_TEMPLATE_SIZE -> md_ok (tcs_set t f v md)) as Hset.
  { intros f v md Hm Hf He. unfold f_end in He. apply fset_md; [done|cbn; lia|unfold f_end; cbn; lia]. }
  unfold build_tcs_template. apply (safe_bind _ _ _ (fun _ => few n)); [apply safe_md_mod; [intros; by apply Hset|auto with mage]|].
  intros []. apply (safe_bind _ _ _ (fun _ => few n)); [apply safe_ensure|]. intros [].
  do 3 (apply (safe_bind _ _ _ (fun _ => few n)); [apply safe_layout_by_id|]; intros ?).
  apply safe_md_mod; [|auto with mage]. intros c _ Hm. cbv zeta. by repeat (apply Hset; [|done|done]).
Qed.

Lemma safe_layout_table ep : safe (few 0) (build_layout_table ep) (fun _ => few 41).
Proof.
  unfold build_layout_table. apply (safe_bind _ _ _ (fun _ => few 3)).
  { apply safe_pure; [done|]. intros c [] Hc _. unfold few in *. cbn [fst mmod m_layouts set_layouts]. rewrite length_app.
    pose proof (zlen_sized_layouts LAYOUT_ID_HEAP_MIN LAYOUT_ID_HEAP_INIT LAYOUT_ID_HEAP_MAX (heap_min_size (m_create_param c))
      (heap_init_size (m_create_param c)) (heap_max_size (m_create_param c))). unfold heap_layouts. lia. }
  intros []. eapply safe_bind; [apply (safe_alloc (few 3)); [done|auto with mage]|]. intros t.
  apply (safe_bind _ _ _ (fun _ c => few 41 c /\ 0 <= t /\ t + TCS_TEMPLATE_SIZE <= METADATA_SIZE)).
  { apply safe_pure; [done|]. intros c [] [Hc Ht] _. split; [|done]. unfold few in *. cbn [fst mmod m_layouts set_layouts]. rewrite length_app.
    pose proof (zlen_context_layouts (m_create_param c) t (ep_tls_section ep)). lia. }
  intros []. intros c Hm (Hc & H0 & H1). revert c Hm Hc. change (safe (few 41) (update_layout_entries (ep_sections ep) ;; build_tcs_template ep t) (fun _ => few 41)).
  apply (safe_bind _ _ _ (fun _ => few 41)); [apply safe_update_layout|]. intros []. by apply safe_tcs_template.
Qed.

Lemma safe_table_write {A} (enc : A -> list Z) sz (d : Z) n (l : list A) :
  0 <= d < DIR_NUM -> (forall a, zlen (enc a) = sz /\ bytes_ok (enc a)) -> 0 <= sz -> sz * zlen l < 2 ^ 32 ->
  safe (few n) (table ← alloc_buffer_from_metadata (u32 (zlen l * sz));
                md_mod (fset (Md.dir_offset d) table) ;;
                md_mod (fset (Md.dir_size d) (u32 (zlen l * sz))) ;;
                md_mod (splice table (concat (map enc l)))) (fun _ => few n).
Proof.
  intros Hd He Hsz Hlt. rewrite u32_id by (unfold is_u32; lia). destruct (concat_bytes enc sz l He) as [Hc1 Hc2].
  eapply safe_bind; [apply (safe_alloc (few n)); [lia|auto with mage]|]. intros t c Hm (Hc & H0 & H1). revert c Hm Hc.
  match goal with |- forall c, _ -> _ -> md_ok (m_metadata (fst (?m c))) /\ _ => change (safe (few n) m (fun _ => few n)) end.
  unfold DIR_NUM in Hd. assert (Md.data_off <= METADATA_SIZE) by done.
  apply (safe_bind _ _ _ (fun _ => few n)).
  { apply safe_md_mod; [|auto with mage]. intros c _ Hm. apply fset_md; [done|cbn; lia|unfold f_end, METADATA_SIZE; cbn [f_off f_width Md.dir_offset]; lia]. }
  intros []. apply (safe_bind _ _ _ (fun _ => few n)).
  { apply safe_md_mod; [|auto with mage]. intros c _ Hm. apply fset_md; [done|cbn; lia|unfold f_end, METADATA_SIZE; cbn [f_off f_width Md.dir_size]; lia]. }
  intros []. apply safe_md_mod; [|auto with mage]. intros c _ Hm. apply splice_md; [done|done|done|lia].
Qed.

Lemma layout_enc l : zlen (layout_bytes l) = sizeof_layout /\ bytes_ok (layout_bytes l).
Proof. split; [apply zlen_layout_bytes|apply layout_bytes_ok]. Qed.
Lemma patch_enc p : zlen (patch_bytes p) = sizeof_patch /\ bytes_ok (patch_bytes p).
Proof. split; [apply zlen_patch_bytes|apply patch_bytes_ok]. Qed.

Lemma safe_patch_table ep base n : safe (few n) (build_patch_table ep base) (fun _ => few n).
Proof.
  unfold build_patch_table. apply (safe_bind _ _ _ (fun _ => few n)); [by apply safe_pure|]. intros [].
  apply (safe_bind _ _ _ (fun _ => few n)).
  { eapply safe_impl; [apply (safe_alloc (few n)); [done|auto with mage]|done|]. by intros a c [H _]. }
  intros gd. apply (safe_bind _ _ _ (fun _ => few n)); [by apply safe_pure|]. intros [].
  apply (safe_bind _ _ _ (fun _ => few n)); [apply safe_ensure|]. intros [].
  apply (safe_bind _ _ _ (fun _ => few n)).
  { eapply safe_impl; [apply (safe_alloc (few n)); [done|auto with mage]|done|]. by intros a c [H _]. }
  intros zero. set (size := foldr Z.max 0 _).
  assert (0 <= size < 2 ^ 32 /\ zlen (header_patches ep zero) <= 3) as [Hs Hh].
  { unfold size, header_patches. destruct (ep_bin_fmt ep); cbn; lia. }
  eapply safe_bind; [apply (safe_alloc (few n)); [done|auto with mage]|]. intros z c Hm (Hc & H0 & H1). revert c Hm Hc.
  match goal with |- forall c, _ -> _ -> md_ok (m_metadata (fst (?m c))) /\ _ => change (safe (few n) m (fun _ => few n)) end.
  apply (safe_bind _ _ _ (fun _ => few n)).
  { apply safe_md_mod; [|auto with mage]. intros c _ Hm. apply splice_md; [done|by apply bytes_ok_zreplicate|done|rewrite zlen_zreplicate; lia]. }
  intros []. unfold build_patch_entries. apply (safe_table_write patch_bytes sizeof_patch DIR_PATCH); [done|apply patch_enc|done|].
  unfold sizeof_patch. cbn [length]. lia.
Qed.

Lemma safe_pad n es : safe (few n) (pad_enclave es) (fun _ => few (n + 1)).
Proof.
  unfold pad_enclave. apply (safe_bind _ _ _ (fun s c => few n c /\ s = c)); [apply safe_get|]. intros c.
  destruct (0 <? _); [|apply safe_pure; [done|]; intros c' [] [Hc _] _; unfold few in *; cbn; lia].
  apply (safe_bind _ _ _ (fun l c' => few n c' /\ c = c' /\ last (m_layouts c) = Some l)).
  - apply safe_pure; [done|]. intros c' l [Hc ->] E. unfold mlift, deref in E. cbn [snd] in E.
    destruct (last (m_layouts c')); [|done]. by injection E as ->.
  - intros l. intros c' Hm (Hc & <- & Hl). apply last_Some in Hl as [ls Hl]. unfold few in *. rewrite Hl, length_app in Hc. cbn [length] in Hc.
    split_if; cbn [fst snd mput m_metadata set_cp set_layouts m_layouts]; (split; [done|]); intros [] _.
    all: rewrite Hl, ?removelast_last, !length_app; cbn [length]; lia.
Qed.

Lemma safe_layout_entries ep : safe (few 41) (build_layout_entries ep) (fun _ => few 42).
Proof.
  unfold build_layout_entries. apply (safe_bind _ _ _ (fun s c => few 41 c /\ s = c)); [apply safe_get|]. intros c.
  assert (forall v, safe (fun c' => few 41 c' /\ c = c') (md_mod (fset Md.enclave_size v)) (fun _ => few 41)) as Hset.
  { intros v c' Hm [Hc _]. split; [by apply fset_md|]. by intros [] _. }
  destruct (calculate_enclave_size ep (m_rva c)) as [es|].
  2:{ apply (safe_bind _ _ _ (fun _ => few 41)); [apply Hset|]. intros []. by apply safe_pure. }
  apply (safe_bind _ _ _ (fun _ => few 41)); [apply Hset|]. intros [].
  apply (safe_bind _ _ _ (fun _ => few 42)); [apply (safe_pad 41)|]. intros [].
  apply (safe_bind _ _ _ (fun s c => few 42 c /\ s = c)); [apply safe_get|]. intros s c' Hm (Hc & ->). pose proof Hc as Hn. revert Hm Hc.
  pose proof (safe_table_write layout_bytes sizeof_layout DIR_LAYOUT 42 (m_layouts c') ltac:(done) layout_enc ltac:(done)) as Hw.
  intros Hm Hc. apply Hw; [|done|done]. unfold few, sizeof_layout in *. lia.
Qed.

Lemma safe_gd_template ep n : safe (few n) (build_gd_template ep) (fun _ => few n).
Proof.
  unfold build_gd_template. apply (safe_bind _ _ _ (fun s c => few n c /\ s = c)); [apply safe_get|]. intros s.
  destruct (get_xsave_size _); [|by apply safe_pure].
  assert (forall id, safe (fun c => few n c /\ s = c) (layout_by_id id) (fun _ c => few n c /\ s = c)) as Hl
    by (intros id; apply safe_pure; [done|]; by intros c a Hc _).
  do 4 (eapply safe_bind; [apply Hl|]; intros ?). eapply safe_bind; [apply Hl|]. intros td. cbv zeta. set (cp := gd_param _ _ _ _ _ _ _ _ _ _).
  apply (safe_bind _ _ _ (fun _ c => few n c /\ s = c)). { destruct (ep_tls_section ep); by apply safe_pure. }
  intros []. apply (safe_bind _ _ _ (fun _ c => few n c /\ m_metadata s = m_metadata c)).
  { apply safe_pure; [done|]. by intros c [] [Hc ->] _. }
  intros [] c Hm (Hc & E). rewrite E. unfold mbind, M_bind, mlift. destruct (update_global_data _ _ _ _) as [md'| |] eqn:Eu; [|by split..].
  apply update_global_data_md in Eu; [|done]. split; [exact Eu|]. by intros [] _.
Qed.

(** C8. The metadata builder writes only inside the metadata.  Whatever the
    parameters, the parsed file and the date, and whether it succeeds, fails
    or stops at an assertion, [build_metadata] leaves a buffer of exactly
    METADATA_SIZE bytes; on success the layout table has at most the
    LAYOUT_ENTRY_NUM entries that the copy in the global data has room for. *)
Theorem metadata_buffer_safe (ep : ElfParser) (base : Z) (now : option (Z * Z * Z)) (ps : list xml_parameter_t) :
  let '(c, r) := build_metadata ep base now ps cmetadata_new in
  zlen (m_metadata c) = METADATA_SIZE /\ bytes_ok (m_metadata c) /\ (r = Ok tt -> zlen (m_layouts c) <= LAYOUT_ENTRY_NUM).
Proof.
  assert (safe (few 0) (build_metadata ep base now ps) (fun _ => few 42)) as H.
  { unfold build_metadata. apply (safe_bind _ _ _ (fun _ => few 0)); [apply safe_modify|]. intros [].
    apply (safe_bind _ _ _ (fun _ => few 41)); [apply safe_layout_table|]. intros [].
    apply (safe_bind _ _ _ (fun _ => few 41)); [apply safe_patch_table|]. intros [].
    apply (safe_bind _ _ _ (fun _ => few 42)); [apply safe_layout_entries|]. intros []. apply safe_gd_template. }
  assert (md_ok (m_metadata cmetadata_new)) as H0 by (split; [reflexivity|by apply bytes_ok_zreplicate]).
  destruct (H cmetadata_new H0) as [[H1 H2] H3]; [done|]. destruct (build_metadata _ _ _ _ _) as [c r]. cbn [fst snd] in *.
  split_and!; [done..|]. intros ->. by apply (H3 tt).
Qed.
