(* ===== verification/CmdLine.v ===== *)
(** * The signing tool's command line

    sdk/sign_tool/SignTool/sign_tool.cpp, [cmdline_parse]: the command, its
    options and the two ignore-error switches.  The result is the mode (-1
    for -help and -version), the ten paths and the ignored error bits; a
    [false] return is [None]. *)
From S2P Require Import Prelude Bytes.

#[local] Open Scope Z_scope.

Inductive par_flag := PAR_REQUIRED | PAR_OPTIONAL | PAR_INVALID.
#[export] Instance par_flag_eq_dec : EqDecision par_flag.
Proof. solve_decision. Defined.

Record param_struct_t := MkPar { pr_name : string; pr_value : option string; pr_flag : par_flag }.

(** command_mode_t and file_path_t (util_st.h, sign_tool.cpp) *)
Definition SIGN : Z := 0.
Definition GENDATA : Z := 1.
Definition CATSIG : Z := 2.
Definition DUMP : Z := 3.
Definition GENMAGE : Z := 4.
Definition SIGNMAGE : Z := 5.
Definition DLL := 0%nat.
Definition XML := 1%nat.
Definition KEY := 2%nat.
Definition OUTPUT := 3%nat.
Definition SIG := 4%nat.
Definition UNSIGNED := 5%nat.
Definition DUMPFILE := 6%nat.
Definition CSSFILE := 7%nat.
Definition MAGEIN := 8%nat.
Definition MAGEOUT := 9%nat.

Definition option_names : list string :=
  ["-enclave"; "-config"; "-key"; "-out"; "-sig"; "-unsigned"; "-dumpfile"; "-cssfile"; "-magein"; "-mageout"].

Definition mk_params (flags : list par_flag) : list param_struct_t :=
  zip_with (fun n f => MkPar n None f) option_names flags.

Definition params_sign := mk_params
  [PAR_REQUIRED; PAR_OPTIONAL; PAR_REQUIRED; PAR_REQUIRED; PAR_INVALID; PAR_INVALID; PAR_OPTIONAL;
   PAR_OPTIONAL; PAR_INVALID; PAR_INVALID].
Definition params_gendata := mk_params
  [PAR_REQUIRED; PAR_OPTIONAL; PAR_INVALID; PAR_REQUIRED; PAR_INVALID; PAR_INVALID; PAR_INVALID;
   PAR_INVALID; PAR_INVALID; PAR_INVALID].
Definition params_catsig := mk_params
  [PAR_REQUIRED; PAR_OPTIONAL; PAR_REQUIRED; PAR_REQUIRED; PAR_REQUIRED; PAR_REQUIRED; PAR_OPTIONAL;
   PAR_OPTIONAL; PAR_INVALID; PAR_INVALID].
Definition params_dump := mk_params
  [PAR_REQUIRED; PAR_INVALID; PAR_INVALID; PAR_INVALID; PAR_INVALID; PAR_INVALID; PAR_REQUIRED;
   PAR_OPTIONAL; PAR_INVALID; PAR_INVALID].
Definition params_genmage := mk_params
  [PAR_REQUIRED; PAR_OPTIONAL; PAR_REQUIRED; PAR_REQUIRED; PAR_INVALID; PAR_INVALID; PAR_OPTIONAL;
   PAR_OPTIONAL; PAR_INVALID; PAR_REQUIRED].
Definition params_signmage := mk_params
  [PAR_REQUIRED; PAR_OPTIONAL; PAR_REQUIRED; PAR_REQUIRED; PAR_INVALID; PAR_INVALID; PAR_OPTIONAL;
   PAR_OPTIONAL; PAR_REQUIRED; PAR_INVALID].

(** mode_m and params, by mode *)
Definition modes : list (string * list param_struct_t) :=
  [("sign", params_sign); ("gendata", params_gendata); ("catsig", params_catsig); ("dump", params_dump);
   ("genmage", params_genmage); ("signmage", params_signmage)].

Fixpoint find_mode (ms : list (string * list param_struct_t)) (name : string) (i : Z)
    : option (Z * list param_struct_t) :=
  match ms with
  | [] => None
  | (n, ps) :: rest => if String.eqb n name then Some (i, ps) else find_mode rest name (i + 1)
  end.

Definition REL_ERROR_BIT : Z := 0x1.
Definition INIT_SEC_ERROR_BIT : Z := 0x2.
Definition ignore_bit (a : string) : option Z :=
  if String.eqb a "-ignore-rel-error" then Some REL_ERROR_BIT
  else if String.eqb a "-ignore-init-sec-error" then Some INIT_SEC_ERROR_BIT else None.

(** STRNCMP(s, "-", 1) == 0 *)
Definition starts_with_dash (s : string) : bool :=
  match s with String c _ => (Ascii.N_of_ascii c =? 45)%N | EmptyString => false end.

(** Store the value of the first option of that name. *)
Inductive set_result := SetOk (ps : list param_struct_t) | SetRepeated | SetUnknown.
Fixpoint set_param (ps : list param_struct_t) (name value : string) : set_result :=
  match ps with
  | [] => SetUnknown
  | p :: rest =>
      if String.eqb name (pr_name p) then
        match pr_value p with
        | Some _ => SetRepeated
        | None => SetOk (MkPar (pr_name p) (Some value) (pr_flag p) :: rest)
        end
      else match set_param rest name value with SetOk r => SetOk (p :: r) | e => e end
  end.

Fixpoint parse_args (args : list string) (ps : list param_struct_t) (ie_bits : Z)
    : option (list param_struct_t * Z) :=
  match args with
  | [] => Some (ps, ie_bits)
  | a :: rest =>
      match ignore_bit a with
      | Some b => if negb (Z.land ie_bits b =? 0) then None else parse_args rest ps (Z.lor ie_bits b)
      | None =>
          match rest with
          | v :: rest' =>
              if starts_with_dash v then None
              else match set_param ps a v with
                   | SetOk ps' => parse_args rest' ps' ie_bits
                   | _ => None
                   end
          | [] => None
          end
      end
  end.

(** A required option is given, an invalid one is not. *)
Definition flag_ok (p : param_struct_t) : bool :=
  match pr_flag p, pr_value p with
  | PAR_REQUIRED, None => false
  | PAR_INVALID, Some _ => false
  | _, _ => true
  end.

Definition no_paths : list (option string) := replicate 10 None.

Definition cmdline_parse (argv : list string) : option (Z * list (option string) * Z) :=
  match argv with
  | _ :: cmd :: args =>
      if (zlen argv =? 2) && (String.eqb cmd "-help" || String.eqb cmd "-version")
      then Some (-1, no_paths, 0)
      else
        match find_mode modes cmd 0 with
        | None => None
        | Some (m, ps) =>
            match parse_args args ps 0 with
            | None => None
            | Some (ps', ie_bits) =>
                if forallb flag_ok ps' then Some (m, map pr_value ps', ie_bits) else None
            end
        end
  | _ => None
  end.

(** * Theorems *)

(** The arguments after the command: options with a value and the two
    switches *)
Inductive item := Opt (name value : string) | IgnoreRel | IgnoreInitSec.

Definition key (i : item) : string :=
  match i with Opt n _ => n | IgnoreRel => "-ignore-rel-error" | IgnoreInitSec => "-ignore-init-sec-error" end.
Definition bit_of (i : item) : Z :=
  match i with Opt _ _ => 0 | IgnoreRel => REL_ERROR_BIT | IgnoreInitSec => INIT_SEC_ERROR_BIT end.
Definition item_args (i : item) : list string := match i with Opt n v => [n; v] | _ => [key i] end.

Fixpoint opt_value (items : list item) (name : string) : option string :=
  match items with
  | [] => None
  | Opt n v :: rest => if String.eqb n name then Some v else opt_value rest name
  | _ :: rest => opt_value rest name
  end.

Definition assign (items : list item) (p : param_struct_t) : param_struct_t :=
  MkPar (pr_name p) (match opt_value items (pr_name p) with Some v => Some v | None => pr_value p end) (pr_flag p).

(** An item that can be taken with the table [ps] and the bits [b] *)
Definition item_ok (ps : list param_struct_t) (b : Z) (i : item) : Prop :=
  match i with
  | Opt n v => starts_with_dash v = false /\ ignore_bit n = None /\ exists p, p ∈ ps /\ pr_name p = n /\ pr_value p = None
  | _ => Z.land b (bit_of i) = 0
  end.

Definition give (v : string) (p : param_struct_t) : param_struct_t := MkPar (pr_name p) (Some v) (pr_flag p).

Lemma set_param_sound ps name v ps1 : set_param ps name v = SetOk ps1 ->
  exists l1 p l2, ps = l1 ++ p :: l2 /\ name = pr_name p /\ pr_value p = None /\ ps1 = l1 ++ give v p :: l2.
Proof.
  revert ps1. induction ps as [|q ps IH]; intros ps1; cbn [set_param]; [done|].
  destruct (String.eqb_spec name (pr_name q)) as [->|].
  - destruct (pr_value q) eqn:E; [done|]. intros [= <-]. by exists [], q, ps.
  - destruct (set_param ps name v) as [r| |]; [|done..]. intros [= <-].
    destruct (IH r eq_refl) as (l1 & p & l2 & -> & -> & H & ->). by exists (q :: l1), p, l2.
Qed.

Lemma set_param_complete l1 p l2 v :
  pr_name p ∉ map pr_name l1 -> pr_value p = None -> set_param (l1 ++ p :: l2) (pr_name p) v = SetOk (l1 ++ give v p :: l2).
Proof.
  intros Hn Hv. induction l1 as [|q l1 IH]; cbn [map app set_param] in *.
  - by rewrite String.eqb_refl, Hv.
  - apply not_elem_of_cons in Hn as [Hq Hn]. destruct (String.eqb_spec (pr_name p) (pr_name q)); [done|]. by rewrite IH.
Qed.

(** The names of a table split at [p] *)
Lemma names_split l1 p l2 : NoDup (map pr_name (l1 ++ p :: l2)) ->
  (pr_name p ∉ map pr_name l1) /\ (pr_name p ∉ map pr_name l2).
Proof.
  rewrite map_app. cbn [map]. intros (_ & Hd & [H2 _]%NoDup_cons)%NoDup_app. split; [|done].
  intros Hin. apply (Hd _ Hin). by left.
Qed.

(** Giving [p] a value changes nothing for the items of other names, and no
    item can name [p] any more. *)
Lemma item_ok_give l1 p l2 v b i : NoDup (map pr_name (l1 ++ p :: l2)) -> ignore_bit (pr_name p) = None ->
  item_ok (l1 ++ give v p :: l2) b i <-> (item_ok (l1 ++ p :: l2) b i /\ key i <> pr_name p).
Proof.
  intros [H1 H2]%names_split Hp. destruct i as [n w| |]; cbn [item_ok key].
  - split.
    + intros (Hd & Hi & q & Hq & Hn & Hv). rewrite elem_of_app, elem_of_cons in Hq.
      assert (q <> give v p) as Hg by (by intros ->). split.
      * split_and!; [done..|]. exists q. rewrite elem_of_app, elem_of_cons. tauto.
      * intros ->. destruct Hq as [Hq|[Hq|Hq]]; [destruct H1|done|destruct H2]; rewrite <- Hn; by apply (list_elem_of_fmap_2 pr_name).
    + intros ((Hd & Hi & q & Hq & Hn & Hv) & Hne). rewrite elem_of_app, elem_of_cons in Hq. split_and!; [done..|].
      exists q. rewrite elem_of_app, elem_of_cons. destruct Hq as [|[->|]]; [tauto|congruence|tauto].
  - split; [|tauto]. intros H. split; [done|]. intros E. by rewrite <- E in Hp.
  - split; [|tauto]. intros H. split; [done|]. intros E. by rewrite <- E in Hp.
Qed.

Lemma opt_value_notin items n : n ∉ map key items -> opt_value items n = None.
Proof.
  induction items as [|[m v| |] items IH]; cbn [map opt_value]; [done|..]; intros [H1 H2]%not_elem_of_cons; auto.
  destruct (String.eqb_spec m n) as [->|]; [by destruct H1|auto].
Qed.

Lemma assign_step n v items l1 p l2 :
  NoDup (map pr_name (l1 ++ p :: l2)) -> n = pr_name p -> n ∉ map key items ->
  map (assign (Opt n v :: items)) (l1 ++ p :: l2) = map (assign items) (l1 ++ give v p :: l2).
Proof.
  intros [H1 H2]%names_split -> Hk.
  assert (forall l, pr_name p ∉ map pr_name l -> map (assign (Opt (pr_name p) v :: items)) l = map (assign items) l) as Hl.
  { intros l Hpl. apply map_ext_in. intros q Hq%list_elem_of_In. unfold assign. cbn [opt_value].
    destruct (String.eqb_spec (pr_name p) (pr_name q)) as [E|]; [|done]. destruct Hpl. rewrite E.
    by apply (list_elem_of_fmap_2 pr_name). }
  rewrite !map_app. cbn [map]. rewrite !Hl by done. do 2 f_equal. unfold assign, give. cbn [opt_value pr_name pr_value pr_flag].
  by rewrite String.eqb_refl, opt_value_notin.
Qed.

(** A switch taken is not free any more; the other one is as before. *)
Lemma item_ok_bit ps b sw i : (forall n v, sw <> Opt n v) ->
  item_ok ps (Z.lor b (bit_of sw)) i <-> (item_ok ps b i /\ key i <> key sw).
Proof.
  intros Hsw. destruct i as [n v| |], sw as [m w| |]; try by destruct (Hsw m w); cbn [item_ok key bit_of].
  all: unfold item_ok; cbn [key bit_of]; rewrite ?Z.land_lor_distr_l.
  1, 2: split; [|tauto]; intros H; split; [done|]; intros ->; by destruct H as (_ & ? & _).
  1, 4: split; [intros [_ ?]%Z.lor_eq_0_iff; done | intros [_ H]; by destruct H].
  all: change (Z.land REL_ERROR_BIT INIT_SEC_ERROR_BIT) with 0; change (Z.land INIT_SEC_ERROR_BIT REL_ERROR_BIT) with 0.
  all: rewrite Z.lor_0_r; split; [by intros ->|tauto].
Qed.

Lemma ignore_bit_switch a bt : ignore_bit a = Some bt -> exists sw, (forall n v, sw <> Opt n v) /\ a = key sw /\ bt = bit_of sw.
Proof.
  unfold ignore_bit. destruct (String.eqb_spec a "-ignore-rel-error") as [->|];
    [intros [= <-]; by exists IgnoreRel|].
  destruct (String.eqb_spec a "-ignore-init-sec-error") as [->|]; [intros [= <-]; by exists IgnoreInitSec|done].
Qed.

Definition taken (ps : list param_struct_t) (b : Z) (items : list item) : Prop :=
  NoDup (map key items) /\ Forall (item_ok ps b) items.

Lemma taken_opt l1 p l2 b v items : NoDup (map pr_name (l1 ++ p :: l2)) ->
  taken (l1 ++ p :: l2) b (Opt (pr_name p) v :: items) <->
  (item_ok (l1 ++ p :: l2) b (Opt (pr_name p) v) /\ (pr_name p ∉ map key items) /\
   (ignore_bit (pr_name p) = None -> taken (l1 ++ give v p :: l2) b items)).
Proof.
  intros Hnd. unfold taken. cbn [map key]. rewrite NoDup_cons, Forall_cons. split.
  - intros [[Hk Hn] [Hi Hf]]. split_and!; [done..|]. intros Hb. split; [done|].
    apply Forall_forall. intros i Hin. apply item_ok_give; [done..|].
    split; [by eapply Forall_forall in Hf|]. intros E. apply Hk. rewrite <- E. by apply (list_elem_of_fmap_2 key).
  - intros (Hi & Hk & Ht). destruct Hi as (Hd & Hb & Hp). destruct (Ht Hb) as [Hn Hf]. split_and!; [done..|].
    eapply Forall_impl; [done|]. intros i H. by eapply item_ok_give in H as [? _].
Qed.

Lemma taken_switch ps b sw items : (forall n v, sw <> Opt n v) ->
  taken ps b (sw :: items) <-> (Z.land b (bit_of sw) = 0 /\ taken ps (Z.lor b (bit_of sw)) items).
Proof.
  intros Hsw. assert (item_ok ps b sw <-> Z.land b (bit_of sw) = 0) as Hi by (by destruct sw as [n v| |]; [destruct (Hsw n v)|..]).
  unfold taken. cbn [map]. rewrite NoDup_cons, Forall_cons, Hi, !Forall_forall. setoid_rewrite item_ok_bit; [|done]. split.
  - intros [[Hk Hn] [Hz Hf]]. split_and!; [done..|]. intros i Hin. split; [by apply Hf|].
    intros E. apply Hk. rewrite <- E. by apply (list_elem_of_fmap_2 key).
  - intros (Hz & Hn & Hf). split_and!; [|done..|]; [|intros i Hin; by apply Hf].
    intros (i & E & Hin)%list_elem_of_fmap_1. by destruct (Hf i Hin).
Qed.

(** The arguments that are read, and the table they leave *)
Lemma parse_args_sound args : forall ps b ps' b', NoDup (map pr_name ps) -> parse_args args ps b = Some (ps', b') ->
  exists items, args = concat (map item_args items) /\ taken ps b items /\
    ps' = map (assign items) ps /\ b' = fold_left Z.lor (map bit_of items) b.
Proof.
  induction args as [args IH] using (induction_ltof1 _ (@length string)).
  intros ps b ps' b' Hnd. destruct args as [|a rest]; cbn [parse_args].
  { intros [= <- <-]. exists []. split_and!; [done|by split; constructor| |done].
    rewrite <- (map_id ps) at 1. apply map_ext. by intros []. }
  destruct (ignore_bit a) as [bt|] eqn:Ea.
  - destruct (ignore_bit_switch a bt Ea) as (sw & Hsw & -> & ->).
    destruct (Z.eqb_spec (Z.land b (bit_of sw)) 0) as [Hz|]; [|done]. cbn [negb]. intros Hp.
    destruct (IH rest (Nat.lt_succ_diag_r _) _ _ _ _ Hnd Hp) as (items & -> & Ht & -> & ->).
    exists (sw :: items). destruct sw as [n v| |]; [by destruct (Hsw n v)|..].
    all: split_and!; [done|by apply taken_switch| |done]; apply map_ext; by intros [].
  - destruct rest as [|v rest]; [done|]. destruct (starts_with_dash v) eqn:Ev; [done|].
    destruct (set_param ps a v) as [ps1| |] eqn:Es; [|done..]. intros Hp.
    destruct (set_param_sound _ _ _ _ Es) as (l1 & p & l2 & -> & -> & Hv & ->).
    assert (NoDup (map pr_name (l1 ++ give v p :: l2))) as Hnd1 by (by rewrite map_app in Hnd |- *).
    assert (ltof _ (@length string) rest (pr_name p :: v :: rest)) as Hlt by (unfold ltof; cbn; lia).
    destruct (IH rest Hlt _ _ _ _ Hnd1 Hp) as (items & -> & Ht & -> & ->).
    assert (pr_name p ∉ map key items) as Hk.
    { intros (i & E & Hin)%list_elem_of_fmap_1. destruct Ht as [_ Hf]. eapply Forall_forall in Hf; [|done].
      apply item_ok_give in Hf as [_ Hf]; congruence. }
    exists (Opt (pr_name p) v :: items). split_and!; [done| |by rewrite (assign_step _ _ _ l1 p l2)|cbn [map fold_left bit_of]; by rewrite Z.lor_0_r].
    apply taken_opt; [done|]. split; [|by split]. split; [done|]. split; [done|]. exists p. rewrite elem_of_app, elem_of_cons. tauto.
Qed.

Lemma parse_args_complete items : forall ps b, NoDup (map pr_name ps) -> taken ps b items ->
  parse_args (concat (map item_args items)) ps b = Some (map (assign items) ps, fold_left Z.lor (map bit_of items) b).
Proof.
  induction items as [|i items IH]; intros ps b Hnd Ht.
  { cbn. do 2 f_equal. rewrite <- (map_id ps) at 1. apply map_ext. by intros []. }
  destruct i as [n v| |].
  - destruct (Ht) as [_ [(Hd & Hb & p & Hin & <- & Hv) _]%Forall_cons].
    apply list_elem_of_split in Hin as (l1 & l2 & ->).
    apply taken_opt in Ht as (_ & Hk & Ht); [|done].
    cbn [map item_args concat app parse_args]. rewrite Hb, Hd.
    rewrite set_param_complete by (try done; by apply names_split in Hnd as [? _]).
    rewrite IH; [|by rewrite map_app in Hnd |- *|by apply Ht]. rewrite (assign_step _ _ _ l1 p l2) by done. cbn [map fold_left bit_of]. by rewrite Z.lor_0_r.
  - apply taken_switch in Ht as [Hz Ht]; [|done]. cbn [map item_args key concat app parse_args fold_left].
    change (ignore_bit "-ignore-rel-error") with (Some (bit_of IgnoreRel)). cbv iota beta. rewrite Hz. cbn [Z.eqb negb].
    by rewrite IH.
  - apply taken_switch in Ht as [Hz Ht]; [|done]. cbn [map item_args key concat app parse_args fold_left].
    change (ignore_bit "-ignore-init-sec-error") with (Some (bit_of IgnoreInitSec)). cbv iota beta. rewrite Hz. cbn [Z.eqb negb].
    by rewrite IH.
Qed.

(** The table of every command *)
Lemma find_mode_table cmd m ps : find_mode modes cmd 0 = Some (m, ps) ->
  map pr_name ps = option_names /\ Forall (fun p => pr_value p = None) ps /\ 0 <= m /\ cmd <> "-help" /\ cmd <> "-version".
Proof.
  unfold modes. cbn [find_mode].
  repeat match goal with |- context[String.eqb ?a cmd] => destruct (String.eqb_spec a cmd) as [<-|] end; [..|done].
  all: intros [= <- <-]; split_and!; [reflexivity|repeat constructor|lia|done|done].
Qed.

Definition item_wf (i : item) : Prop :=
  match i with Opt n v => n ∈ option_names /\ starts_with_dash v = false | _ => True end.
Definition flag_met (items : list item) (p : param_struct_t) : Prop :=
  match pr_flag p with
  | PAR_REQUIRED => is_Some (opt_value items (pr_name p))
  | PAR_OPTIONAL => True
  | PAR_INVALID => opt_value items (pr_name p) = None
  end.

Lemma taken_table ps items : map pr_name ps = option_names -> Forall (fun p => pr_value p = None) ps ->
  taken ps 0 items <-> (NoDup (map key items) /\ Forall item_wf items).
Proof.
  intros Hn Hv. unfold taken. rewrite !Forall_forall in *. split; intros [Hk Hi]; (split; [done|]); intros [n v| |] Hin; try done.
  - destruct (Hi _ Hin) as (Hd & _ & p & Hp & <- & _). split; [|done]. rewrite <- Hn. by apply (list_elem_of_fmap_2 pr_name).
  - destruct (Hi _ Hin) as [Hm Hd]. split_and!; [done|..].
    + unfold option_names in Hm. rewrite !elem_of_cons, elem_of_nil in Hm. by repeat (destruct Hm as [->|Hm]).
    + rewrite <- Hn in Hm. apply list_elem_of_fmap_1 in Hm as (p & -> & Hp). exists p. split_and!; auto.
Qed.

Lemma flags_met items ps : Forall (fun p => pr_value p = None) ps ->
  forallb flag_ok (map (assign items) ps) = true <-> Forall (flag_met items) ps.
Proof.
  intros Hv. rewrite forallb_forall, Forall_forall. split.
  - intros H p Hp. specialize (H (assign items p)). rewrite <- list_elem_of_In in H.
    specialize (H (list_elem_of_fmap_2 _ _ _ Hp)). eapply Forall_forall in Hv; [|done]. revert H.
    unfold flag_ok, flag_met, assign. cbn [pr_flag pr_value]. rewrite Hv.
    by destruct (pr_flag p), (opt_value items (pr_name p)).
  - intros H q (p & -> & Hp)%list_elem_of_In%list_elem_of_fmap_1. specialize (H p Hp). eapply Forall_forall in Hv; [|done]. revert H.
    unfold flag_ok, flag_met, assign. cbn [pr_flag pr_value]. rewrite Hv.
    destruct (pr_flag p), (opt_value items (pr_name p)); try done; by intros [? ?].
Qed.

Lemma assigned_values items ps : Forall (fun p => pr_value p = None) ps ->
  map pr_value (map (assign items) ps) = map (opt_value items) (map pr_name ps).
Proof.
  intros Hv. rewrite !map_map. apply map_ext_in. intros p Hp%list_elem_of_In. eapply Forall_forall in Hv; [|done].
  unfold assign. cbn [pr_value]. rewrite Hv. by destruct (opt_value items (pr_name p)).
Qed.

Lemma option_names_nodup : NoDup option_names.
Proof. by apply (bool_decide_unpack (NoDup option_names)). Qed.

(** C19. The command lines [cmdline_parse] accepts for a command of mode [m],
    exactly: after the command come options with their values and the two
    ignore switches, in any order, none of them twice; every option is one of
    the ten and no value starts with a dash; the options the command requires
    are there and those it forbids are not.  The result is the value of each
    option and the bits of the switches given. *)
Theorem cmdline_parse_spec (prog cmd : string) (args : list string) (m : Z) (paths : list (option string)) (bits : Z)
    (Hm : 0 <= m) :
  cmdline_parse (prog :: cmd :: args) = Some (m, paths, bits) <->
  exists ps items, find_mode modes cmd 0 = Some (m, ps) /\ args = concat (map item_args items) /\
    NoDup (map key items) /\ Forall item_wf items /\ Forall (flag_met items) ps /\
    paths = map (opt_value items) option_names /\ bits = fold_left Z.lor (map bit_of items) 0.
Proof.
  unfold cmdline_parse. split.
  - split_if; [intros [= <- _ _]; lia|]. destruct (find_mode modes cmd 0) as [[m0 ps]|] eqn:Ef; [|done].
    destruct (find_mode_table _ _ _ Ef) as (Hn & Hv & _).
    destruct (parse_args args ps 0) as [[ps' b']|] eqn:Ep; [|done]. split_if; [|done]. intros [= -> <- <-].
    apply parse_args_sound in Ep as (items & -> & Ht & -> & ->); [|rewrite Hn; apply option_names_nodup].
    apply taken_table in Ht as [Hk Hw]; [|done..]. exists ps, items. split_and!; try done.
    + by apply flags_met.
    + by rewrite assigned_values, Hn.
  - intros (ps & items & Ef & -> & Hk & Hw & Hf & -> & ->). destruct (find_mode_table _ _ _ Ef) as (Hn & Hv & _ & Hh & Hs).
    destruct (String.eqb_spec cmd "-help"); [done|]. destruct (String.eqb_spec cmd "-version"); [done|].
    cbn [orb]. rewrite andb_false_r, Ef.
    rewrite parse_args_complete; [|rewrite Hn; apply option_names_nodup|by apply taken_table].
    rewrite (proj2 (flags_met items ps Hv) Hf). by rewrite assigned_values, Hn.
Qed.

Lemma cmdline_parse_spec_witness :
  cmdline_parse ["sgx_sign"; "gendata"; "-enclave"; "e.so"; "-ignore-rel-error"; "-out"; "h.hex"]
  = Some (1, [Some "e.so"; None; None; Some "h.hex"; None; None; None; None; None; None], 1).
Proof.
  apply (cmdline_parse_spec "sgx_sign" "gendata" ["-enclave"; "e.so"; "-ignore-rel-error"; "-out"; "h.hex"]); [lia|].
  exists params_gendata, [Opt "-enclave" "e.so"; IgnoreRel; Opt "-out" "h.hex"]. split; [reflexivity|]. split; [reflexivity|].
  split; [by apply (bool_decide_unpack (NoDup _))|]. split; [|split; [|split; reflexivity]].
  - repeat constructor; by apply (bool_decide_unpack (_ ∈ option_names)).
  - repeat constructor; eexists; reflexivity.
Defined.
