(* ===== verification/Signature.v ===== *)
(** * The signature structure of an enclave

    sdk/sign_tool/SignTool/sign_tool.cpp: [fill_enclave_css],
    [calc_RSAq1q2], [create_signature], [verify_signature] and
    [gen_enclave_signing_file]; parse_key_file.cpp's check of the key.  The
    enclave_css_t is a 1808-byte buffer.  OpenSSL's bignum and RSA functions
    are the class [OpenSsl]; [OpenSslLaws] states what its documentation
    says of them.  [false] is [None]. *)
From S2P Require Import Prelude Bytes Arch.

#[local] Open Scope Z_scope.

Definition SE_KEY_SIZE : Z := 384.
Definition SE_EXPONENT_SIZE : Z := 4.
Definition SIGNATURE_SIZE : Z := 384.
Definition N_SIZE_IN_BYTES : Z := 384.

(** ** OpenSSL

    A BIGNUM is its value; [None] is a NULL or failing return.  The hash is
    EVP_Digest with SHA-256. *)
Class OpenSsl (RSA : Type) := {
  BN_bin2bn : list Z -> option Z;
  BN_bn2bin : Z -> list Z;
  BN_num_bytes : Z -> Z;
  BN_mul : Z -> Z -> option Z;
  BN_div : Z -> Z -> option (Z * Z);
  rsa_n : RSA -> Z;
  rsa_e : RSA -> Z;
  EVP_Digest : list Z -> option (list Z);
  RSA_sign : list Z -> RSA -> option (list Z);
  RSA_verify : list Z -> list Z -> RSA -> bool }.

(** The big-endian value of a byte string *)
Definition be_val (l : list Z) : Z := le_val (rev l).

Class OpenSslLaws (RSA : Type) {O : OpenSsl RSA} := {
  bin2bn_law l x : BN_bin2bn l = Some x -> x = be_val l;
  bn2bin_val x : 0 <= x -> be_val (BN_bn2bin x) = x;
  bn2bin_ok x : 0 <= x -> bytes_ok (BN_bn2bin x);
  bn2bin_len x : zlen (BN_bn2bin x) = BN_num_bytes x;
  num_bytes_min x k : 0 <= x < 256 ^ k -> 0 <= k -> BN_num_bytes x <= k;
  mul_law x y r : BN_mul x y = Some r -> r = x * y;
  div_law x y q r : BN_div x y = Some (q, r) -> 0 <= x -> 0 < y -> q = x / y /\ r = x mod y;
  sign_len h rsa s : RSA_sign h rsa = Some s ->
    zlen s = BN_num_bytes (rsa_n rsa) /\ bytes_ok s /\ be_val s < rsa_n rsa;
  sign_verify h rsa s : RSA_sign h rsa = Some s -> RSA_verify h s rsa = true }.

Section Signature.
Context {RSA : Type} {O : OpenSsl RSA}.

(** ** q1 and q2 *)

(** data_q[i] = q[size - i - 1], at most SE_KEY_SIZE bytes *)
Definition write_q (q : list Z) (data : list Z) : list Z :=
  let size := if zlen q <? SE_KEY_SIZE then zlen q else SE_KEY_SIZE in
  splice 0 (rev (ztake size q)) data.

(** The signature and the modulus in big endian; the buffers q1 and q2 *)
Definition calc_RSAq1q2 (data_s data_m data_q1 data_q2 : list Z) : option (list Z * list Z) :=
  pM ← BN_bin2bn data_m;
  pS ← BN_bin2bn data_s;
  ptemp1 ← BN_mul pS pS;
  r1 ← BN_div ptemp1 pM;
  let '(pQ1, ptemp2) := r1 in
  ptemp1 ← BN_mul pS ptemp2;
  r2 ← BN_div ptemp1 pM;
  let '(pQ2, _) := r2 in
  mret (write_q (BN_bn2bin pQ1) data_q1, write_q (BN_bn2bin pQ2) data_q2).

(** ** Fields of enclave_css_t *)
Definition css_header_body (css : list Z) : list Z := slice 0 128 css ++ slice Css.body_off 128 css.

Definition css_part (off n : Z) (css : list Z) : list Z := slice off n css.

(** The key part; [None] for a modulus that is not 384 bytes. *)
Definition fill_key (rsa : RSA) (css : list Z) : res unit (list Z) :=
  let e := rsa_e rsa in
  let n := rsa_n rsa in
  if SE_KEY_SIZE <? BN_num_bytes n then Err tt
  else
    let exponent_size := u32 (ROUND_TO (BN_num_bytes e) 4 / 4) in
    let modulus_size := u32 (ROUND_TO (BN_num_bytes n) 4 / 4) in
    if negb (exponent_size =? 1) || negb (modulus_size =? 0x60) then Err tt
    else if negb (zlen (BN_bn2bin n) =? SE_KEY_SIZE) then Err tt
    else if negb (zlen (BN_bn2bin e) =? 1) then Err tt
    else
      let css := splice Css.key_exponent_off (BN_bn2bin e) css in
      let css := splice Css.key_modulus_off (rev (BN_bn2bin n)) css in
      assertc (fget (Fld Css.key_exponent_off 1) css =? 3) ;;
      mret css.

(** fill_enclave_css; [unsigned]: the content of the unsigned file in catsig
    mode, [Some None] when it cannot be read. *)
Definition fill_enclave_css (rsa : option RSA) (unsigned : option (option (list Z))) (enclave_hash css : list Z)
    : res unit (list Z) :=
  css ← (match rsa with Some k => fill_key k css | None => mret css end);
  let css := splice Css.body_enclave_hash_off enclave_hash css in
  match unsigned with
  | None => mret css
  | Some None => Err tt
  | Some (Some buf) =>
      if negb (zlen buf =? 256) then Err tt
      else
        let css := fset Css.header_date (fget Css.header_date buf) css in
        if bool_decide (css_header_body css = buf) then mret css else Err tt
  end.

(** [sigfile]: the signature file of catsig mode; else the key signs. *)
Definition get_signature (rsa : option RSA) (sigfile : option (option (list Z))) (css : list Z)
    : res unit (list Z) :=
  match sigfile, rsa with
  | Some (Some s), None => if zlen s =? SIGNATURE_SIZE then mret s else Err tt
  | Some None, None => Err tt
  | None, Some k =>
      match EVP_Digest (css_header_body css) with
      | None => Err tt
      | Some hash =>
          match RSA_sign hash k with
          | Some s =>
              assertc (zlen s <=? SIGNATURE_SIZE) ;; mret (splice 0 s (zreplicate SIGNATURE_SIZE 0))
          | None => Err tt
          end
      end
  | _, _ => Stuck
  end.

Definition create_signature (rsa : option RSA) (sigfile : option (option (list Z))) (css : list Z)
    : res unit (list Z) :=
  signature ← get_signature rsa sigfile css;
  let css := splice Css.key_signature_off (rev signature) css in
  let modulus := rev (css_part Css.key_modulus_off SE_KEY_SIZE css) in
  match calc_RSAq1q2 signature modulus (css_part Css.buffer_q1_off SE_KEY_SIZE css)
          (css_part Css.buffer_q2_off SE_KEY_SIZE css) with
  | None => Err tt
  | Some (q1, q2) => mret (splice Css.buffer_q2_off q2 (splice Css.buffer_q1_off q1 css))
  end.

Definition verify_signature (rsa : RSA) (css : list Z) : bool :=
  match EVP_Digest (css_header_body css) with
  | None => false
  | Some hash => RSA_verify hash (rev (css_part Css.key_signature_off SIGNATURE_SIZE css)) rsa
  end.

(** gen_enclave_signing_file: the bytes to be signed *)
Definition gen_enclave_signing_file (css : list Z) : list Z := css_header_body css.

(** ** parse_key_file: the key types and the check of the key *)
Inductive key_type := UNIDENTIFIABLE_KEY | NO_KEY | PRIVATE_KEY | PUBLIC_KEY.

Definition key_ok (rsa : RSA) : bool := (BN_num_bytes (rsa_n rsa) =? N_SIZE_IN_BYTES) && (rsa_e rsa =? 3).

(** * Theorems *)

Definition CSS_SIZE : Z := 1808.

(** A write outside the part that is read *)
Lemma part_splice off n o src css : 0 <= off -> 0 <= o -> o + zlen src <= zlen css ->
  off + n <= o \/ o + zlen src <= off -> css_part off n (splice o src css) = css_part off n css.
Proof. intros ? ? ? [?|?]; [apply slice_splice_before|apply slice_splice_after]; lia. Qed.

Lemma part_same off n src css : 0 <= off -> off + zlen src <= zlen css -> n = zlen src ->
  css_part off n (splice off src css) = src.
Proof. intros ? ? ->. by apply slice_splice_same. Qed.

Lemma header_body_splice o src css : 128 <= o -> o + zlen src <= zlen css ->
  o + zlen src <= Css.body_off \/ 1028 <= o -> css_header_body (splice o src css) = css_header_body css.
Proof.
  intros. unfold css_header_body, Css.body_off in *. f_equal.
  - apply (part_splice 0 128); lia.
  - apply (part_splice 900 128); lia.
Qed.

Context {L : OpenSslLaws RSA}.

Lemma be_val_range l : bytes_ok l -> 0 <= be_val l < 256 ^ zlen l.
Proof.
  intros H. unfold be_val. rewrite <- length_rev. apply le_val_range.
  unfold bytes_ok in *. rewrite Forall_forall in *. intros x. rewrite list_elem_of_In, <- in_rev, <- list_elem_of_In. apply H.
Qed.

(** A quotient that fits is written in little endian over the zero buffer. *)
Lemma le_val_write_q x : 0 <= x < 256 ^ SE_KEY_SIZE ->
  zlen (write_q (BN_bn2bin x) (zreplicate SE_KEY_SIZE 0)) = SE_KEY_SIZE /\
  le_val (write_q (BN_bn2bin x) (zreplicate SE_KEY_SIZE 0)) = x.
Proof.
  intros Hx. unfold write_q.
  assert (zlen (BN_bn2bin x) <= SE_KEY_SIZE) as Hl by (rewrite bn2bin_len; apply num_bytes_min; [done|unfold SE_KEY_SIZE; lia]).
  rewrite ztake_ge by (destruct (_ <? _); lia).
  split.
  - rewrite zlen_splice; rewrite ?length_rev, ?zlen_zreplicate; unfold SE_KEY_SIZE in *; lia.
  - rewrite splice_0, le_val_app. assert (le_val (zdrop (zlen (rev (BN_bn2bin x))) (zreplicate SE_KEY_SIZE 0)) = 0) as ->.
    { rewrite zdrop_drop. unfold zreplicate. rewrite drop_replicate. apply le_val_zeros. }
    rewrite Z.mul_0_r, Z.add_0_r. apply bn2bin_val. lia.
Qed.

Lemma q1_bound s n : 0 <= s < n -> 0 <= s * s / n < n.
Proof. intros. split; [apply Z.div_pos; nia|apply Z.div_lt_upper_bound; nia]. Qed.
Lemma q2_bound s r n : 0 <= s < n -> 0 <= r < n -> 0 <= s * r / n < n.
Proof. intros. split; [apply Z.div_pos; nia|apply Z.div_lt_upper_bound; nia]. Qed.
Lemma q2_eq s n : 0 < n -> s * (s * s mod n) / n = (s * s * s - s * s / n * s * n) / n.
Proof. intros. f_equal. rewrite Z.mod_eq by lia. ring. Qed.

(** calc_RSAq1q2 computes the two quotients of the signature structure. *)
Lemma calc_q1q2 ds dm q1 q2 : 0 <= be_val ds < be_val dm -> be_val dm < 256 ^ SE_KEY_SIZE ->
  calc_RSAq1q2 ds dm (zreplicate SE_KEY_SIZE 0) (zreplicate SE_KEY_SIZE 0) = Some (q1, q2) ->
  let s := be_val ds in let n := be_val dm in
  zlen q1 = SE_KEY_SIZE /\ zlen q2 = SE_KEY_SIZE /\
  le_val q1 = s * s / n /\ le_val q2 = (s * s * s - s * s / n * s * n) / n.
Proof.
  intros Hs Hm. unfold calc_RSAq1q2. cbn.
  assert (forall x, 0 <= x < be_val dm -> 0 <= x < 256 ^ SE_KEY_SIZE) as Hfit
    by (revert Hm; generalize (256 ^ SE_KEY_SIZE); lia).
  clear Hm.
  destruct (BN_bin2bn dm) as [pM|] eqn:EM; [|done]. destruct (BN_bin2bn ds) as [pS|] eqn:ES; [|done]. cbn.
  destruct (BN_mul pS pS) as [p1|] eqn:E1; [|done]. cbn. destruct (BN_div p1 pM) as [[pQ1 r]|] eqn:E2; [|done]. cbn.
  destruct (BN_mul pS r) as [p2|] eqn:E3; [|done]. cbn. destruct (BN_div p2 pM) as [[pQ2 r2]|] eqn:E4; [|done]. cbn.
  apply bin2bn_law in EM as ->, ES as ->. apply mul_law in E1 as ->.
  apply div_law in E2 as [-> ->]; [|nia..]. apply mul_law in E3 as ->.
  pose proof (Z.mod_pos_bound (be_val ds * be_val ds) (be_val dm)).
  apply div_law in E4 as [-> _]; [|nia..]. intros [= <- <-].
  pose proof (q1_bound (be_val ds) (be_val dm) Hs). pose proof (q2_bound (be_val ds) (be_val ds * be_val ds mod be_val dm) (be_val dm) Hs (Z.mod_pos_bound _ _ (Z.le_lt_trans _ _ _ (proj1 Hs) (proj2 Hs)))).
  destruct (le_val_write_q (be_val ds * be_val ds / be_val dm)) as [-> ->]; [by apply Hfit|].
  destruct (le_val_write_q (be_val ds * (be_val ds * be_val ds mod be_val dm) / be_val dm)) as [-> ->]; [by apply Hfit|].
  split_and!; [done..|]. apply q2_eq. lia.
Qed.

(** ** What the steps leave in the structure *)

(** The key part and the hash of a filled structure *)
Record filled (k : RSA) (hash css0 css : list Z) : Prop := {
  fl_len : zlen css = CSS_SIZE;
  fl_modulus : css_part Css.key_modulus_off SE_KEY_SIZE css = rev (BN_bn2bin (rsa_n k));
  fl_modulus_len : zlen (BN_bn2bin (rsa_n k)) = SE_KEY_SIZE;
  fl_exponent : fget (Fld Css.key_exponent_off 1) css = 3;
  fl_hash : css_part Css.body_enclave_hash_off 32 css = hash;
  fl_q1 : css_part Css.buffer_q1_off SE_KEY_SIZE css = css_part Css.buffer_q1_off SE_KEY_SIZE css0;
  fl_q2 : css_part Css.buffer_q2_off SE_KEY_SIZE css = css_part Css.buffer_q2_off SE_KEY_SIZE css0;
  fl_signed : css_header_body css = css_header_body (splice Css.body_enclave_hash_off hash css0) }.

Lemma fill_key_inv k css css' : fill_key k css = Ok css' ->
  zlen (BN_bn2bin (rsa_n k)) = SE_KEY_SIZE /\ zlen (BN_bn2bin (rsa_e k)) = 1 /\
  css' = splice Css.key_modulus_off (rev (BN_bn2bin (rsa_n k))) (splice Css.key_exponent_off (BN_bn2bin (rsa_e k)) css) /\
  fget (Fld Css.key_exponent_off 1) css' = 3.
Proof.
  unfold fill_key. split_ifs; try done. unfold assertc. cbn. split_if; cbn; [|done]. intros [= <-]. by zbool.
Qed.

Ltac css_lia := rewrite ?length_rev, ?length_le_bytes in *;
  unfold CSS_SIZE, SE_KEY_SIZE, SIGNATURE_SIZE, Css.body_off, Css.key_modulus_off, Css.key_exponent_off, Css.key_signature_off,
    Css.body_enclave_hash_off, Css.buffer_q1_off, Css.buffer_q2_off in *; lia.

Lemma zlen_css_splice o (src css : list Z) : 0 <= o -> zlen css = CSS_SIZE -> o + zlen src <= CSS_SIZE -> zlen (splice o src css) = CSS_SIZE.
Proof. intros. rewrite zlen_splice; lia. Qed.

(** The body with the hash written into it *)
Lemma body_hash (hash c : list Z) : zlen hash = 32 -> zlen c = CSS_SIZE ->
  slice Css.body_off 128 (splice Css.body_enclave_hash_off hash c) = slice Css.body_off 60 c ++ hash ++ slice 992 36 c.
Proof.
  intros Hh Hc. change 128 with (60 + (32 + 36)). rewrite !slice_add by css_lia. f_equal; [|f_equal].
  - apply slice_splice_before; css_lia.
  - apply part_same; css_lia.
  - apply slice_splice_after; css_lia.
Qed.

Lemma fill_filled k hash css0 css : fill_enclave_css (Some k) None hash css0 = Ok css ->
  zlen css0 = CSS_SIZE -> zlen hash = 32 -> filled k hash css0 css.
Proof.
  unfold fill_enclave_css. cbn. destruct (fill_key k css0) as [c2| |] eqn:Ek; [|done..]. cbn. intros [= <-] Hl Hh.
  apply fill_key_inv in Ek as (Hn & He & -> & Hx).
  set (c1 := splice Css.key_exponent_off _ css0) in *.
  assert (zlen c1 = CSS_SIZE) as Hc1 by (apply zlen_css_splice; css_lia).
  set (c2 := splice Css.key_modulus_off _ c1) in *.
  assert (zlen c2 = CSS_SIZE) as Hc2 by (apply zlen_css_splice; css_lia).
  split; try done.
  - apply zlen_css_splice; css_lia.
  - rewrite part_splice by css_lia. apply part_same; css_lia.
  - by rewrite fget_splice_other by (unfold f_end; cbn [f_off f_width]; css_lia).
  - apply part_same; css_lia.
  - rewrite part_splice by css_lia. unfold c2. rewrite part_splice by css_lia. apply part_splice; css_lia.
  - rewrite part_splice by css_lia. unfold c2. rewrite part_splice by css_lia. apply part_splice; css_lia.
  - unfold css_header_body. f_equal.
    + rewrite !(slice_splice_before Css.body_enclave_hash_off) by css_lia. unfold c2.
      rewrite slice_splice_before by css_lia. apply slice_splice_before; css_lia.
    + rewrite !body_hash by done. unfold c2. rewrite !slice_splice_after by css_lia.
      unfold c1. by rewrite !slice_splice_after by css_lia.
Qed.

(** A signature structure over the number [s] with the modulus [n]: the
    fields EINIT checks the signature with. *)
Definition signature_of (css : list Z) : Z := le_val (css_part Css.key_signature_off SIGNATURE_SIZE css).
Definition modulus_of (css : list Z) : Z := le_val (css_part Css.key_modulus_off SE_KEY_SIZE css).
Definition q1_of (css : list Z) : Z := le_val (css_part Css.buffer_q1_off SE_KEY_SIZE css).
Definition q2_of (css : list Z) : Z := le_val (css_part Css.buffer_q2_off SE_KEY_SIZE css).
Definition q_zero (css : list Z) : Prop :=
  css_part Css.buffer_q1_off SE_KEY_SIZE css = zreplicate SE_KEY_SIZE 0 /\
  css_part Css.buffer_q2_off SE_KEY_SIZE css = zreplicate SE_KEY_SIZE 0.

Lemma create_signature_fields rsa sigfile s css css' :
  create_signature rsa sigfile css = Ok css' -> get_signature rsa sigfile css = Ok s ->
  zlen css = CSS_SIZE -> q_zero css -> zlen s = SIGNATURE_SIZE -> 0 <= be_val s < modulus_of css ->
  modulus_of css < 256 ^ SE_KEY_SIZE ->
  zlen css' = CSS_SIZE /\ css_header_body css' = css_header_body css /\
  css_part Css.key_signature_off SIGNATURE_SIZE css' = rev s /\ modulus_of css' = modulus_of css /\
  fget (Fld Css.key_exponent_off 1) css' = fget (Fld Css.key_exponent_off 1) css /\
  let n := modulus_of css in let v := be_val s in
  q1_of css' = v * v / n /\ q2_of css' = (v * v * v - v * v / n * v * n) / n.
Proof.
  intros Hc Hg Hl [Hq1 Hq2] Hs Hv Hm. unfold create_signature in Hc. rewrite Hg in Hc. cbn [mbind res_bind] in Hc.
  set (c1 := splice Css.key_signature_off (rev s) css) in *.
  assert (zlen c1 = CSS_SIZE) as Hc1 by (clear Hm; apply zlen_css_splice; css_lia).
  assert (forall o n, 0 <= o -> o + n <= 516 \/ 900 <= o -> css_part o n c1 = css_part o n css) as Hp.
  { clear Hm. intros. apply part_splice; css_lia. }
  rewrite !Hp, Hq1, Hq2 in Hc by (clear Hm; css_lia).
  destruct (calc_RSAq1q2 _ _ _ _) as [[q1 q2]|] eqn:Eq; [|done].
  assert (be_val (rev (css_part Css.key_modulus_off SE_KEY_SIZE css)) = modulus_of css) as Hn
    by (unfold be_val; by rewrite rev_involutive).
  apply calc_q1q2 in Eq; [|by rewrite Hn..]. rewrite Hn in Eq. clear Hm. destruct Eq as (Hl1 & Hl2 & E1 & E2).
  cbn [mret res_ret] in Hc. injection Hc as <-.
  set (c2 := splice Css.buffer_q1_off q1 c1).
  assert (zlen c2 = CSS_SIZE) as Hc2 by (apply zlen_css_splice; css_lia).
  split_and!.
  - apply zlen_css_splice; css_lia.
  - rewrite header_body_splice by css_lia. unfold c2. rewrite header_body_splice by css_lia. apply header_body_splice; css_lia.
  - rewrite part_splice by css_lia. unfold c2. rewrite part_splice by css_lia. apply part_same; css_lia.
  - unfold modulus_of. rewrite part_splice by css_lia. unfold c2. rewrite part_splice by css_lia. by rewrite Hp by css_lia.
  - rewrite fget_splice_other by (unfold f_end; cbn [f_off f_width]; css_lia). unfold c2.
    rewrite fget_splice_other by (unfold f_end; cbn [f_off f_width]; css_lia). unfold c1.
    apply fget_splice_other; unfold f_end; cbn [f_off f_width]; css_lia.
  - split.
    + unfold q1_of. rewrite part_splice by css_lia. unfold c2. rewrite part_same by css_lia. exact E1.
    + unfold q2_of. rewrite part_same by css_lia. exact E2.
Qed.

Lemma key_signature k css s : key_ok k = true -> get_signature (Some k) None css = Ok s ->
  exists hash, EVP_Digest (css_header_body css) = Some hash /\ RSA_sign hash k = Some s /\ zlen s = SIGNATURE_SIZE.
Proof.
  unfold get_signature, key_ok. intros Hk. destruct (EVP_Digest _) as [hash|]; [|done].
  destruct (RSA_sign hash k) as [s0|] eqn:Es; [|done]. unfold assertc. cbn. split_if; cbn; [|done]. intros [= <-].
  destruct (sign_len _ _ _ Es) as (Hl & _ & _). zbool. unfold N_SIZE_IN_BYTES, SIGNATURE_SIZE in *.
  exists hash. rewrite splice_0, zdrop_ge by (rewrite zlen_zreplicate; lia). rewrite app_nil_r. split_and!; [done..|lia].
Qed.

Lemma key_modulus k css : 0 <= rsa_n k -> zlen (BN_bn2bin (rsa_n k)) = SE_KEY_SIZE ->
  css_part Css.key_modulus_off SE_KEY_SIZE css = rev (BN_bn2bin (rsa_n k)) ->
  modulus_of css = rsa_n k /\ rsa_n k < 256 ^ SE_KEY_SIZE.
Proof.
  intros Hn Hl E. unfold modulus_of. rewrite E. split; [by apply bn2bin_val|].
  rewrite <- (bn2bin_val (rsa_n k) Hn) at 1. rewrite <- Hl. apply be_val_range. by apply bn2bin_ok.
Qed.

(** The signature and the quotients are outside the signed bytes. *)
Lemma zlen_write_q q d : zlen d = SE_KEY_SIZE -> zlen (write_q q d) = SE_KEY_SIZE.
Proof. intros Hd. unfold write_q. rewrite zlen_splice; [done|lia|]. rewrite length_rev, zlen_ztake, Hd. split_if; zbool; lia. Qed.

Lemma create_signature_signed rsa sf s css css' :
  create_signature rsa sf css = Ok css' -> get_signature rsa sf css = Ok s -> zlen css = CSS_SIZE -> zlen s = SIGNATURE_SIZE ->
  zlen css' = CSS_SIZE /\ css_header_body css' = css_header_body css /\ css_part Css.key_signature_off SIGNATURE_SIZE css' = rev s.
Proof.
  intros Hc Hg Hl Hs. unfold create_signature in Hc. rewrite Hg in Hc. cbn [mbind res_bind] in Hc.
  set (c1 := splice Css.key_signature_off (rev s) css) in *.
  assert (zlen c1 = CSS_SIZE) as Hc1 by (apply zlen_css_splice; css_lia).
  destruct (calc_RSAq1q2 _ _ _ _) as [[q1 q2]|] eqn:Eq; [|done]. injection Hc as <-.
  assert (zlen q1 = SE_KEY_SIZE /\ zlen q2 = SE_KEY_SIZE) as [H1 H2].
  { unfold calc_RSAq1q2, mbind, option_bind in Eq. repeat case_match; simplify_eq. injection Eq as <- <-. split; apply zlen_write_q, zlen_slice; css_lia. }
  set (c2 := splice Css.buffer_q1_off q1 c1). assert (zlen c2 = CSS_SIZE) as Hc2 by (apply zlen_css_splice; css_lia).
  split_and!.
  - apply zlen_css_splice; css_lia.
  - rewrite header_body_splice by css_lia. unfold c2. rewrite header_body_splice by css_lia. apply header_body_splice; css_lia.
  - rewrite part_splice by css_lia. unfold c2. rewrite part_splice by css_lia. apply part_same; css_lia.
Qed.

Lemma hash_in_body c : zlen c = CSS_SIZE -> css_part Css.body_enclave_hash_off 32 c = slice 188 32 (css_header_body c).
Proof.
  clear L. intros Hc. unfold css_header_body. rewrite slice_app_ge by (rewrite zlen_slice; css_lia).
  rewrite zlen_slice by css_lia. rewrite slice_slice by css_lia. done.
Qed.

Lemma sign_then_verify k hash css css1 css2 : key_ok k = true -> zlen css = CSS_SIZE -> zlen hash = 32 ->
  fill_enclave_css (Some k) None hash css = Ok css1 -> create_signature (Some k) None css1 = Ok css2 ->
  verify_signature k css2 = true /\ css_part Css.body_enclave_hash_off 32 css2 = hash /\ zlen css2 = CSS_SIZE.
Proof.
  intros Hk Hl Hh Hf Hs. destruct (fill_filled _ _ _ _ Hf Hl Hh) as [Fl _ _ _ Fh _ _ _].
  destruct (get_signature (Some k) None css1) as [s| |] eqn:Eg; [|by unfold create_signature in Hs; rewrite Eg in Hs..].
  destruct (key_signature _ _ _ Hk Eg) as (d & Ed & Es & Hsl).
  destruct (create_signature_signed _ _ _ _ _ Hs Eg Fl Hsl) as (G1 & G2 & G3). split_and!; [| |done].
  - unfold verify_signature. rewrite G2, Ed, G3, rev_involutive. by apply sign_verify.
  - by rewrite hash_in_body, G2, <- hash_in_body.
Qed.

(** C15. Signing with a private key.  Filling and signing a zero-padded
    signature structure with an accepted key gives a structure whose
    signature verifies, which holds the measurement, the exponent 3 and the
    key's modulus [n], and whose q1 and q2 are the quotients the processor
    needs for the signature [s]: q1 = s^2 / n, q2 = (s^3 - q1 s n) / n. *)
Theorem sign_verifies (k : RSA) (hash css css1 css2 : list Z)
    (Hk : key_ok k = true) (Hn : 0 <= rsa_n k) (Hl : zlen css = CSS_SIZE) (Hh : zlen hash = 32) (Hq : q_zero css)
    (Hf : fill_enclave_css (Some k) None hash css = Ok css1) (Hs : create_signature (Some k) None css1 = Ok css2) :
  verify_signature k css2 = true /\ css_part Css.body_enclave_hash_off 32 css2 = hash /\
  fget (Fld Css.key_exponent_off 1) css2 = 3 /\ modulus_of css2 = rsa_n k /\
  let s := signature_of css2 in let n := rsa_n k in
  0 <= s < n /\ q1_of css2 = s * s / n /\ q2_of css2 = (s * s * s - s * s / n * s * n) / n.
Proof.
  destruct (sign_then_verify _ _ _ _ _ Hk Hl Hh Hf Hs) as (Hv & Hhash & _).
  destruct (fill_filled _ _ _ _ Hf Hl Hh) as [Fl Fm Fn Fe _ F1 F2 _].
  destruct (get_signature (Some k) None css1) as [s| |] eqn:Eg; [|by unfold create_signature in Hs; rewrite Eg in Hs..].
  destruct (key_signature _ _ _ Hk Eg) as (d & Ed & Es & Hsl).
  destruct (sign_len _ _ _ Es) as (_ & Hok & Hlt). destruct (key_modulus k css1 Hn Fn Fm) as [Hm Hb].
  destruct Hq as [Hq1 Hq2].
  destruct (create_signature_fields _ _ _ _ _ Hs Eg Fl) as (G1 & G2 & G3 & G4 & G5 & G6).
  { split; congruence. } { done. } { rewrite Hm. split; [apply be_val_range; done|done]. } { by rewrite Hm. }
  assert (signature_of css2 = be_val s) as Hsig by (unfold signature_of; by rewrite G3).
  rewrite Hm in *. split_and!; [done|done|by rewrite G5|done|].
  rewrite Hsig. cbv zeta. split; [|done]. split; [by apply be_val_range|done].
Qed.

(** ** Two-step signing *)

Lemma ztake_splice n o (x l : list Z) : 0 <= o -> o + zlen x <= n -> n <= zlen l ->
  ztake n (splice o x l) = splice o x (ztake n l).
Proof.
  intros. unfold splice. rewrite ztake_app_ge, ztake_app_ge, ztake_ztake, zdrop_ztake by (rewrite ?zlen_ztake; lia).
  rewrite zlen_ztake. f_equal; [f_equal; lia|]. do 2 f_equal. lia.
Qed.

Lemma splice_app_le o (x a b : list Z) : 0 <= o -> o + zlen x <= zlen a -> splice o x (a ++ b) = splice o x a ++ b.
Proof. intros. unfold splice. rewrite ztake_app_le, zdrop_app_le by lia. by rewrite !app_assoc. Qed.

Lemma splice_splice o (x y l : list Z) : 0 <= o -> o + zlen y <= zlen l -> zlen x = zlen y ->
  splice o x (splice o y l) = splice o x l.
Proof.
  intros. unfold splice. rewrite ztake_app_le, ztake_ztake by (rewrite zlen_ztake; lia).
  rewrite zdrop_app_ge, zdrop_app_ge by (rewrite !zlen_ztake; lia). rewrite zlen_ztake, zdrop_zdrop by lia.
  f_equal; [f_equal; lia|]. do 2 f_equal. lia.
Qed.

(** The date, alone or with the hash, in the signed bytes *)
Lemma header_body_date v c : zlen c = CSS_SIZE ->
  css_header_body (fset Css.header_date v c) = splice 20 (le_bytes 4 v) (css_header_body c).
Proof.
  intros Hc. unfold css_header_body, fset. cbn [f_off f_width Css.header_date].
  rewrite (slice_splice_after 20 _ _ Css.body_off) by css_lia. rewrite !slice_0.
  by rewrite ztake_splice, splice_app_le by (rewrite ?zlen_ztake; css_lia).
Qed.

Lemma hash_date_comm hash v c : zlen hash = 32 -> zlen c = CSS_SIZE ->
  css_header_body (splice Css.body_enclave_hash_off hash (fset Css.header_date v c)) =
  splice 20 (le_bytes 4 v) (css_header_body (splice Css.body_enclave_hash_off hash c)).
Proof.
  intros Hh Hc.
  assert (zlen (fset Css.header_date v c) = CSS_SIZE) as Hd by (rewrite zlen_fset; unfold f_end; cbn [f_off f_width Css.header_date]; css_lia).
  unfold css_header_body. rewrite !body_hash, !(slice_splice_before Css.body_enclave_hash_off) by css_lia.
  rewrite !slice_0, splice_app_le by (rewrite ?zlen_ztake; css_lia). unfold fset in *. cbn [f_off f_width Css.header_date] in *.
  rewrite ztake_splice by css_lia. by rewrite !slice_splice_after by css_lia.
Qed.

(** C16. Two-step signing.  [gendata] writes the bytes to be signed; [catsig],
    run later on the same enclave (so that only the date of its structure
    differs), accepts that file, and when the key's signature of those bytes
    is the signature file, the structure [catsig] makes carries the date of
    the first step and verifies. *)
Theorem gendata_catsig (k : RSA) (hash css cssg cssk : list Z) (date : Z)
    (Hn : 0 <= rsa_n k) (Hl : zlen css = CSS_SIZE) (Hok : bytes_ok css) (Hoh : bytes_ok hash) (Hh : zlen hash = 32) (Hq : q_zero css)
    (Hg : fill_enclave_css None None hash css = Ok cssg)
    (Hk : fill_key k (fset Css.header_date date css) = Ok cssk) :
  let buf := gen_enclave_signing_file cssg in
  exists css1, fill_enclave_css (Some k) (Some (Some buf)) hash (fset Css.header_date date css) = Ok css1 /\
    css_header_body css1 = buf /\
    forall d s css2, EVP_Digest buf = Some d -> RSA_sign d k = Some s ->
      create_signature None (Some (Some s)) css1 = Ok css2 -> verify_signature k css2 = true.
Proof.
  cbn in Hg. injection Hg as <-. intros buf.
  set (css0 := fset Css.header_date date css) in *.
  assert (zlen css0 = CSS_SIZE) as Hd by (unfold css0; rewrite zlen_fset; unfold f_end; cbn [f_off f_width Css.header_date]; css_lia).
  destruct (fill_filled k hash css0 (splice Css.body_enclave_hash_off hash cssk)) as [Fl Fm Fn Fe Fh F1 F2 Fs];
    [by unfold fill_enclave_css; cbn; rewrite Hk|done..|].
  set (cf := splice Css.body_enclave_hash_off hash cssk) in *.
  set (c1 := fset Css.header_date (fget Css.header_date buf) cf).
  assert (zlen buf = 256) as Hb by (unfold buf, gen_enclave_signing_file, css_header_body; rewrite length_app, Nat2Z.inj_add, !zlen_slice by (rewrite ?zlen_css_splice; css_lia); done).
  assert (css_header_body c1 = buf) as Hc1.
  { unfold c1. rewrite header_body_date, Fs by done. unfold css0. rewrite hash_date_comm by done. fold (gen_enclave_signing_file (splice Css.body_enclave_hash_off hash css)). fold buf.
    rewrite splice_splice by (rewrite ?length_le_bytes; lia). unfold fget. cbn [f_off f_width Css.header_date].
    rewrite <- (splice_id 20 4 buf) at 3 by lia. f_equal.
    assert (length (slice 20 4 buf) = 4%nat) as E4 by (pose proof (zlen_slice 20 4 buf); lia).
    rewrite <- E4 at 1. apply le_bytes_le_val, bytes_ok_slice. unfold buf, gen_enclave_signing_file, css_header_body.
    apply bytes_ok_app; split; by apply bytes_ok_slice, bytes_ok_splice. }
  exists c1. split_and!; [|done|].
  - unfold fill_enclave_css. cbn [mbind res_bind]. rewrite Hk. cbn [mbind res_bind]. fold cf. rewrite Hb. cbn [Z.eqb Pos.eqb negb].
    fold c1. by rewrite bool_decide_eq_true_2.
  - intros d s css2 Ed Es Hs. assert (zlen c1 = CSS_SIZE) as Hlc
      by (unfold c1; rewrite zlen_fset; unfold f_end; cbn [f_off f_width Css.header_date]; css_lia).
    destruct (get_signature None (Some (Some s)) c1) as [s'| |] eqn:Eg; [|by unfold create_signature in Hs; rewrite Eg in Hs..].
    cbn in Eg. destruct (zlen s =? SIGNATURE_SIZE) eqn:El; [|done]. injection Eg as <-. zbool.
    destruct (sign_len _ _ _ Es) as (_ & Hso & Hlt).
    assert (forall o n, 24 <= o -> css_part o n c1 = css_part o n cf) as Hp
      by (intros; apply part_splice; cbn [f_off f_width Css.header_date]; css_lia).
    destruct (key_modulus k c1 Hn Fn) as [Hm Hmb]; [by rewrite Hp by css_lia|].
    assert (forall o n, 24 <= o -> css_part o n css0 = css_part o n css) as Hp0
      by (intros; apply part_splice; cbn [f_off f_width Css.header_date]; css_lia).
    destruct Hq as [Hq1 Hq2].
    destruct (create_signature_fields None (Some (Some s)) s c1 css2 Hs) as (_ & G2 & G3 & _).
    { cbn. by rewrite (proj2 (Z.eqb_eq _ _) El). } { done. }
    { split; [rewrite Hp, F1, Hp0 by (clear Hmb; css_lia)|rewrite Hp, F2, Hp0 by (clear Hmb; css_lia)]; done. }
    { done. } { rewrite Hm. split; [by apply be_val_range|done]. } { by rewrite Hm. }
    unfold verify_signature. rewrite G2, Hc1, Ed, G3, rev_involutive. by apply sign_verify.
Qed.
End Signature.

(** ** A model of the interface

    Bignums are integers; a key is its modulus and exponent, and a signature
    the digest reduced by the modulus at the modulus' length. *)
Module ToyRsa.
Definition num_bytes (x : Z) : Z := if x <=? 0 then 0 else Z.log2 x / 8 + 1.
Definition bn2bin (x : Z) : list Z := rev (le_bytes (Z.to_nat (num_bytes x)) x).
Definition sign (h : list Z) (k : Z * Z) : option (list Z) :=
  if fst k <=? 0 then None else Some (rev (le_bytes (Z.to_nat (num_bytes (fst k))) (le_val h mod fst k))).

#[global] Instance ops : OpenSsl (Z * Z) := {
  BN_bin2bn l := Some (be_val l); BN_bn2bin := bn2bin; BN_num_bytes := num_bytes;
  BN_mul x y := Some (x * y); BN_div x y := Some (x / y, x mod y);
  rsa_n := fst; rsa_e := snd; EVP_Digest l := Some (ztake 32 l);
  RSA_sign := sign; RSA_verify h s k := bool_decide (sign h k = Some s) }.

Lemma num_bytes_pos x : 0 <= num_bytes x.
Proof. unfold num_bytes. pose proof (Z.log2_nonneg x). split_if; [lia|]. zlia. Qed.

Lemma num_bytes_bound x : 0 <= x -> x < 256 ^ num_bytes x.
Proof.
  intros Hx. unfold num_bytes. split_if; zbool; [simpl; lia|]. change 256 with (2 ^ 8).
  pose proof (Z.log2_nonneg x). rewrite <- Z.pow_mul_r by zlia.
  apply Z.log2_lt_pow2; [lia|]. zlia.
Qed.

Lemma be_val_rev n x : 0 <= x < 256 ^ Z.of_nat n -> be_val (rev (le_bytes n x)) = x.
Proof. intros. unfold be_val. rewrite rev_involutive, le_val_le_bytes. by apply Z.mod_small. Qed.

Lemma rev_ok l : bytes_ok l -> bytes_ok (rev l).
Proof. unfold bytes_ok. rewrite !List.Forall_forall. intros H x Hx%in_rev. by apply H. Qed.

#[global] Instance laws : OpenSslLaws (Z * Z).
Proof.
  split; cbn.
  - by intros l x [= <-].
  - intros x Hx. pose proof (num_bytes_pos x). pose proof (num_bytes_bound x Hx).
    apply be_val_rev. by rewrite Z2Nat.id.
  - intros x Hx. apply rev_ok, le_bytes_ok.
  - intros x. unfold bn2bin. rewrite length_rev, length_le_bytes. apply Z2Nat.id, num_bytes_pos.
  - intros x k Hx Hk. unfold num_bytes. split_if; zbool; [lia|].
    assert (Z.log2 x < 8 * k) as Hlog by (apply Z.log2_lt_pow2; [lia|]; rewrite Z.pow_mul_r by lia; apply Hx). zlia.
  - by intros x y r [= <-].
  - by intros x y q r [= <- <-].
  - intros h k s. unfold sign. split_if; [done|]. zbool. intros [= <-].
    pose proof (num_bytes_pos (fst k)). pose proof (num_bytes_bound (fst k)). pose proof (Z.mod_pos_bound (le_val h) (fst k)).
    rewrite length_rev, length_le_bytes, Z2Nat.id by lia. split_and!; [done|apply rev_ok, le_bytes_ok|].
    rewrite be_val_rev; [lia|]. rewrite Z2Nat.id; lia.
  - intros h k s Hs. by apply bool_decide_eq_true_2.
Qed.

(** A 3072-bit modulus and an empty structure *)
Definition key : Z * Z := (2 ^ 3071 + 1, 3).
Definition css : list Z := zreplicate CSS_SIZE 0.
Definition hash : list Z := map Z.of_nat (seq 1 32).
(** The structure with the key and the hash [h] filled in *)
Definition keyed (c h : list Z) : list Z := splice Css.body_enclave_hash_off h
  (splice Css.key_modulus_off (rev (bn2bin (fst key))) (splice Css.key_exponent_off [3] c)).
Definition filled_css : list Z := keyed css hash.

Lemma keyed_eq : let c := fset Css.header_date 0x20240101 css in
  fill_key key c = Ok (splice Css.key_modulus_off (rev (bn2bin (fst key))) (splice Css.key_exponent_off [3] c)).
Proof. reflexivity. Qed.

Lemma fills h c : zlen c = CSS_SIZE ->
  fill_enclave_css (Some key) None h c = Ok (keyed c h).
Proof.
  intros Hc. unfold fill_enclave_css, fill_key. change (rsa_n key) with (fst key). change (rsa_e key) with 3.
  change (BN_num_bytes (fst key)) with 384. change (BN_num_bytes 3) with 1. change (BN_bn2bin 3) with [3]. change (BN_bn2bin (fst key)) with (bn2bin (fst key)).
  assert (zlen (bn2bin (fst key)) = 384) as Hl by reflexivity. rewrite Hl.
  assert (fget (Fld Css.key_exponent_off 1) (splice Css.key_modulus_off (rev (bn2bin (fst key))) (splice Css.key_exponent_off [3] c)) = 3) as He.
  { unfold CSS_SIZE, Css.key_exponent_off, Css.key_modulus_off in *.
    assert (zlen (splice 512 [3] c) = 1808) as Hc1 by (rewrite zlen_splice; cbn [length]; lia).
    rewrite fget_splice_other; [|done|done|rewrite length_rev, Hl, Hc1; done|right; rewrite length_rev, Hl; done].
    unfold fget. cbn [f_off f_width]. change (Z.of_nat 1) with (zlen [3]). rewrite slice_splice_same by (cbn [length]; lia). done. }
  cbn [mbind res_bind]. rewrite He. done.
Qed.

Lemma filled_eq : fill_enclave_css (Some key) None hash css = Ok filled_css.
Proof. by apply fills. Qed.

Lemma signs c : exists c2, create_signature (Some key) None c = Ok c2.
Proof.
  assert (exists s, get_signature (Some key) None c = Ok s) as [s Hs].
  { unfold get_signature. cbn [EVP_Digest RSA_sign ops]. unfold sign. change (fst key <=? 0) with false. cbv iota beta.
    rewrite length_rev, length_le_bytes, Z2Nat.id by apply num_bytes_pos.
    change (num_bytes (fst key)) with 384. cbn [Z.leb Z.compare Pos.compare Pos.compare_cont assertc SIGNATURE_SIZE mbind res_bind]. by eexists. }
  unfold create_signature. rewrite Hs. cbn [mbind res_bind]. unfold calc_RSAq1q2. cbn [BN_bin2bn BN_mul BN_div ops mbind option_bind]. by eexists.
Qed.
End ToyRsa.

Lemma sign_verifies_witness : exists css2,
  create_signature (Some ToyRsa.key) None ToyRsa.filled_css = Ok css2 /\ verify_signature ToyRsa.key css2 = true.
Proof.
  destruct (ToyRsa.signs ToyRsa.filled_css) as [css2 E]. exists css2. split; [exact E|].
  refine (proj1 (sign_verifies ToyRsa.key ToyRsa.hash ToyRsa.css ToyRsa.filled_css css2 _ _ _ _ _ ToyRsa.filled_eq E)).
  - reflexivity.
  - exact (proj1 (Z.leb_le 0 (fst ToyRsa.key)) eq_refl).
  - reflexivity.
  - reflexivity.
  - split; reflexivity.
Defined.

Lemma gendata_catsig_witness : exists css1,
  fill_enclave_css (Some ToyRsa.key) (Some (Some (gen_enclave_signing_file
      (splice Css.body_enclave_hash_off ToyRsa.hash ToyRsa.css)))) ToyRsa.hash
    (fset Css.header_date 0x20240101 ToyRsa.css) = Ok css1.
Proof.
  assert (bytes_ok ToyRsa.hash) as Hb by (repeat constructor; done).
  destruct (gendata_catsig (O:=ToyRsa.ops) (L:=ToyRsa.laws) ToyRsa.key ToyRsa.hash ToyRsa.css _ _ 0x20240101
    (proj1 (Z.leb_le 0 (fst ToyRsa.key)) eq_refl) eq_refl (bytes_ok_zreplicate _ 0 (conj (Z.le_refl 0) eq_refl))
    Hb eq_refl (conj eq_refl eq_refl) eq_refl ToyRsa.keyed_eq) as (css1 & H & _).
  exists css1. exact H.
Defined.
