(* ===== verification/Compat.v ===== *)
(** * Metadata for older loaders

    sdk/sign_tool/SignTool/sign_tool.cpp: [generate_compatible_metadata]
    appends to the metadata a copy marked as version 2.1 and a version 1.4
    copy whose dynamic threads are folded into one group.  Buffers are byte
    lists, pointers into them offsets; [false] is [Err tt].  The trace output
    of these functions is left out, the reads it is based on are kept. *)
From S2P Require Import Prelude Bytes Arch.

#[local] Open Scope Z_scope.

Definition SGX_2_0_MAJOR_VERSION : Z := 2.
Definition SGX_2_0_MINOR_VERSION : Z := 1.
Definition SGX_1_9_MAJOR_VERSION : Z := 1.
Definition SGX_1_9_MINOR_VERSION : Z := 4.

Abbreviation R := (res unit).

(** ** Walking the list of metadata in the buffer *)

(** A metadata_t at [p]: NULL-terminated by a wrong magic or a zero size. *)
Definition meta_size_at (md : list Z) (p : Z) : R (option Z) :=
  magic ← deref (rd 8 p md);
  if negb (magic =? METADATA_MAGIC) then mret None
  else sz ← deref (rd 4 (p + f_off Md.size) md); mret (if sz =? 0 then None else Some sz).

(** The do-while loops of append_compatible_metadata and
    dump_metadata_layout: the bytes taken so far; [visit] is the work done
    on each metadata. *)
Fixpoint walk_metadata (fuel : nat) (visit : Z -> R unit) (md : list Z) (size : Z) : R Z :=
  match fuel with
  | O => Stuck
  | S k =>
      o ← meta_size_at md size;
      match o with
      | None => mret size
      | Some sz =>
          let size' := u32 (size + sz) in
          if size' <? sz then Err tt
          else
            visit size ;;
            if size' <? METADATA_SIZE then walk_metadata k visit md size' else mret size'
      end
  end.

(** Every round takes at least one byte of the buffer. *)
Definition walk_fuel : nat := S (Z.to_nat METADATA_SIZE).

Definition append_compatible_metadata (compat md : list Z) : R (list Z) :=
  size ← walk_metadata walk_fuel (fun _ => mret tt) md 0;
  let csize := fget Md.size compat in
  let total := u32 (size + csize) in
  if (total <? size) || (total <? csize) || (METADATA_SIZE <? total) then Err tt
  else
    r ← memcpy_s (zdrop size md) (METADATA_SIZE - size) compat csize;
    if negb (snd r =? 0) then Err tt else mret (ztake size md ++ fst r).

(** The ids of the layout entries of one metadata *)
Fixpoint read_ids (n : nat) (p : Z) (md : list Z) : R unit :=
  match n with O => mret tt | S n' => _ ← deref (rd 2 p md); read_ids n' (p + sizeof_layout) md end.

Definition visit_layout (md : list Z) (p : Z) : R unit :=
  off ← deref (rd 4 (p + f_off (Md.dir_offset DIR_LAYOUT)) md);
  sz ← deref (rd 4 (p + f_off (Md.dir_size DIR_LAYOUT)) md);
  read_ids (table_count sz sizeof_layout) (p + off) md.

Definition dump_metadata_layout (md : list Z) : R unit :=
  _ ← walk_metadata walk_fuel (visit_layout md) md 0; mret tt.

(** ** Layout entries of the copy *)
Definition layout_start (md2 : list Z) : Z := fget (Md.dir_offset DIR_LAYOUT) md2.
Definition layout_count (md2 : list Z) : nat := table_count (fget (Md.dir_size DIR_LAYOUT) md2) sizeof_layout.

Definition id_at (md2 : list Z) (p : Z) : R Z := deref (rd 2 p md2).
Definition pages_at (md2 : list Z) (p : Z) : R Z := deref (rd 4 (p + 4) md2).

(** attributes &= ~PAGE_ATTR_POST_ADD *)
Definition clear_post_add (p : Z) (md2 : list Z) : list Z :=
  let f := Fld (p + 2) 2 in fset f (Z.land (fget f md2) (u16 (Z.lnot PAGE_ATTR_POST_ADD))) md2.
Definition clear_flags (p : Z) (md2 : list Z) : list Z := fset (Fld (p + 24) 8) SI_FLAG_NONE md2.

Definition on_entry (o : option Z) (f : Z -> list Z -> list Z) (md2 : list Z) : list Z :=
  match o with Some p => f p md2 | None => md2 end.

Fixpoint find_dynamic (n : nat) (l : Z) (md2 : list Z) (heap_max heap_init ut_stack_max : option Z)
    : R (option Z * option Z * option Z) :=
  match n with
  | O => mret (heap_max, heap_init, ut_stack_max)
  | S n' =>
      match heap_max, heap_init, ut_stack_max with
      | Some _, Some _, Some _ => mret (heap_max, heap_init, ut_stack_max)
      | _, _, _ =>
          i ← id_at md2 l;
          let next := find_dynamic n' (l + sizeof_layout) md2 in
          if (bool_decide (heap_max = None)) && (i =? LAYOUT_ID_HEAP_MAX)
          then next (Some l) heap_init ut_stack_max
          else if (bool_decide (heap_init = None)) && (i =? LAYOUT_ID_HEAP_INIT)
          then next heap_max (Some l) ut_stack_max
          else if (bool_decide (ut_stack_max = None)) && (i =? LAYOUT_ID_STACK_MAX)
          then next heap_max heap_init (Some l)
          else next heap_max heap_init ut_stack_max
      end
  end.

Definition metadata_cleanup (size_to_reduce : Z) (md2 : list Z) : R (list Z) :=
  let md2 := fset (Md.dir_size DIR_LAYOUT) (u32 (fget (Md.dir_size DIR_LAYOUT) md2 - size_to_reduce)) md2 in
  let md2 := fset Md.size (u32 (fget Md.size md2 - size_to_reduce)) md2 in
  r ← find_dynamic (layout_count md2) (layout_start md2) md2 None None None;
  let '(heap_max, heap_init, ut_stack_max) := r in
  mret (on_entry ut_stack_max clear_post_add
         (on_entry heap_init clear_post_add
           (on_entry heap_max (fun p md => clear_post_add p (clear_flags p md)) md2))).

(** Copy the entry at [p] to the end of the layout table. *)
Definition add_layout (p : Z) (md2 : list Z) : R (list Z) :=
  let size := fget Md.size md2 in
  let dir := fget (Md.dir_size DIR_LAYOUT) md2 in
  let end_ := layout_start md2 + dir in
  r ← memcpy_s (zdrop end_ md2) (u32 (METADATA_SIZE - size)) (zdrop p md2) sizeof_layout;
  if negb (snd r =? 0) then Err tt
  else
    let md2 := ztake end_ md2 ++ fst r in
    let md2 := fset Md.size (u32 (size + sizeof_layout)) md2 in
    mret (fset (Md.dir_size DIR_LAYOUT) (u32 (dir + sizeof_layout)) md2).

Definition add_opt (o : option Z) (f : Z -> list Z -> list Z) (md2 : list Z) : R (list Z) :=
  match o with Some p => add_layout p (f p md2) | None => mret md2 end.

Definition metadata_add_layout (mn init mx : option Z) (md2 : list Z) : R (list Z) :=
  md2 ← add_opt mn (fun _ md => md) md2;
  md2 ← add_opt init clear_post_add md2;
  add_opt mx (fun p md => clear_post_add p (clear_flags p md)) md2.

(** The utility thread: the first guard and the first TD entry *)
Fixpoint find_utility (n : nat) (l : Z) (md2 : list Z) (ut_start ut_end : option Z)
    : R (option Z * option Z) :=
  match n with
  | O => mret (ut_start, ut_end)
  | S n' =>
      match ut_start, ut_end with
      | Some _, Some _ => mret (ut_start, ut_end)
      | _, _ =>
          i ← id_at md2 l;
          if (bool_decide (ut_start = None)) && (i =? LAYOUT_ID_GUARD)
          then find_utility n' (l + sizeof_layout) md2 (Some l) ut_end
          else if (bool_decide (ut_end = None)) && (i =? LAYOUT_ID_TD)
          then find_utility n' (l + sizeof_layout) md2 ut_start (Some l)
          else find_utility n' (l + sizeof_layout) md2 ut_start ut_end
      end
  end.

(** The last RSRV entries of each kind *)
Fixpoint find_rsrv (n : nat) (l : Z) (md2 : list Z) (mn init mx : option Z)
    : R (option Z * option Z * option Z) :=
  match n with
  | O => mret (mn, init, mx)
  | S n' =>
      i ← id_at md2 l;
      let next := find_rsrv n' (l + sizeof_layout) md2 in
      if i =? LAYOUT_ID_RSRV_MIN then next (Some l) init mx
      else if i =? LAYOUT_ID_RSRV_INIT then next mn (Some l) mx
      else if i =? LAYOUT_ID_RSRV_MAX then next mn init (Some l)
      else next mn init mx
  end.

(** The bytes of the pages of [n] entries from [l] on *)
Fixpoint entry_bytes (n : nat) (l acc : Z) (md2 : list Z) : R Z :=
  match n with
  | O => mret acc
  | S n' =>
      pc ← pages_at md2 l;
      entry_bytes n' (l + sizeof_layout) (u64 (acc + Z.shiftl pc SE_PAGE_SHIFT)) md2
  end.

(** ** generate_compatible_metadata *)

(** The version 1.4 copy, from the one already appended as version 2.1 *)
Definition fold_threads (tcs_num : Z) (md2 : list Z) : R (list Z * bool) :=
  let start := layout_start md2 in
  let end_ := start + fget (Md.dir_size DIR_LAYOUT) md2 in
  let n := layout_count md2 in
  ut ← find_utility n start md2 None None;
  rs ← (match ut with
        | (Some s, Some e) => assertc (s <? e) ;; find_rsrv n start md2 None None None
        | _ => Stuck
        end);
  ut_start ← deref (fst ut);
  ut_end ← deref (snd ut);
  let '(mn, init, mx) := rs in
  let after_ut := ut_end + sizeof_layout in
  if after_ut =? end_ then md2 ← metadata_cleanup 0 md2; mret (md2, false)
  else if bool_decide (mn = Some after_ut) then
    md2 ← metadata_cleanup 0 md2;
    mret (on_entry mx (fun p md => clear_post_add p (clear_flags p md)) (on_entry init clear_post_add md2), false)
  else
    let num_of_entries := u16 ((after_ut - ut_start) / sizeof_layout) in
    step ← entry_bytes (Z.to_nat num_of_entries) ut_start 0 md2;
    let grp := MkLayout LAYOUT_ID_THREAD_GROUP num_of_entries (u32 (u32 tcs_num - 1)) step 0 0 0 in
    assertc (after_ut + sizeof_layout <=? zlen md2) ;;
    let md2 := splice after_ut (layout_bytes grp) md2 in
    let size_to_reduce := u32 (end_ - (after_ut + sizeof_layout)) in
    md2 ← metadata_cleanup size_to_reduce md2;
    md2 ← (match mn with Some _ => metadata_add_layout mn init mx md2 | None => mret md2 end);
    mret (md2, true).

Definition set_version (major minor : Z) (md : list Z) : list Z :=
  fset Md.version (META_DATA_MAKE_VERSION major minor) md.

Definition generate_compatible_metadata (tcs_num : Z) (md : list Z) : R (list Z) :=
  let size := fget Md.size md in
  assertc (size <=? zlen md) ;;
  let md2 := set_version SGX_2_0_MAJOR_VERSION SGX_2_0_MINOR_VERSION (ztake size md) in
  md ← append_compatible_metadata md2 md;
  let md2 := set_version SGX_1_9_MAJOR_VERSION SGX_1_9_MINOR_VERSION md2 in
  r ← fold_threads tcs_num md2;
  md ← append_compatible_metadata (fst r) md;
  (if (snd r : bool) then dump_metadata_layout md else mret tt) ;;
  mret md.

(** * Theorems *)

(** A metadata as the walk sees it: the magic number and its own length *)
Record block (b : list Z) : Prop := {
  bk_magic : fget Md.magic_num b = METADATA_MAGIC;
  bk_size : fget Md.size b = zlen b;
  bk_head : f_end Md.size <= zlen b < 2 ^ 32 }.

Lemma rd_mid w o (a b c : list Z) : 0 <= o -> o + Z.of_nat w <= zlen b ->
  rd w (zlen a + o) (a ++ b ++ c) = Some (le_val (slice o (Z.of_nat w) b)).
Proof.
  intros. unfold rd. rewrite !length_app, !Nat2Z.inj_add. replace (_ && _)%bool with true by lia.
  rewrite slice_app_ge, slice_app_le by lia. do 3 f_equal. lia.
Qed.

Lemma meta_size_block a b c : block b -> meta_size_at (a ++ b ++ c) (zlen a) = Ok (Some (zlen b)).
Proof.
  intros [Hm Hs Hh]. unfold f_end in Hh. cbn [f_off f_width Md.size] in Hh. unfold meta_size_at.
  rewrite <- (Z.add_0_r (zlen a)) at 1. rewrite (rd_mid 8 0), (rd_mid 4 16) by lia.
  unfold fget in Hm, Hs. cbn [f_off f_width Md.magic_num Md.size] in Hm, Hs.
  unfold deref. cbn [mbind res_bind]. rewrite Hm, Z.eqb_refl. cbn [negb]. rewrite Hs.
  destruct (Z.eqb_spec (zlen b) 0); [lia|done].
Qed.

Lemma meta_size_zeros a n o : meta_size_at (a ++ zreplicate n 0) (zlen a) = Ok o -> o = None.
Proof.
  unfold meta_size_at. destruct (rd 8 (zlen a) (a ++ zreplicate n 0)) as [v|] eqn:E; [|done].
  apply rd_Some in E as (_ & _ & ->). rewrite slice_app_ge, Z.sub_diag, slice_0, ztake_take by lia.
  unfold zreplicate. rewrite take_replicate, le_val_zeros. cbn. by intros [= <-].
Qed.

(** Each metadata of a chain is taken, up to the zeros after it. *)
Lemma walk_chain visit bs : Forall block bs -> forall fuel a n size, let md := a ++ concat bs ++ zreplicate n 0 in
  zlen md = METADATA_SIZE -> (forall p, visit p = Ok tt) ->
  walk_metadata fuel visit md (zlen a) = Ok size -> size = zlen a + zlen (concat bs).
Proof.
  induction 1 as [|b bs Hb _ IH]; intros fuel a n size md Hl Hv; unfold md; cbn [concat app length].
  - destruct fuel as [|k]; [done|]. cbn [walk_metadata]. destruct (meta_size_at _ _) as [o| |] eqn:E; [|done..].
    apply meta_size_zeros in E as ->. cbn. intros [= <-]. lia.
  - destruct fuel as [|k]; [done|]. cbn [walk_metadata]. rewrite <- app_assoc, meta_size_block by done. cbn [mbind res_bind].
    unfold md in Hl. cbn [concat] in Hl. rewrite <- app_assoc, !length_app, !Nat2Z.inj_add in Hl. rewrite length_app in *.
    unfold METADATA_SIZE in Hl. rewrite u32_id by (unfold is_u32; lia).
    destruct (Z.ltb_spec (zlen a + zlen b) (zlen b)); [lia|]. rewrite Hv. cbn [mbind res_bind].
    destruct (Z.ltb_spec (zlen a + zlen b) METADATA_SIZE).
    + specialize (IH k (a ++ b) n size). rewrite length_app, Nat2Z.inj_add, <- app_assoc in IH. intros Hw.
      rewrite IH; [lia| |done|done]. rewrite !length_app, !Nat2Z.inj_add. unfold METADATA_SIZE. lia.
    + intros [= <-]. unfold METADATA_SIZE in *. lia.
Qed.

(** Appending to a chain writes right after it. *)
Lemma append_chain c bs n md' : Forall block bs ->
  let md := concat bs ++ zreplicate n 0 in let csize := fget Md.size c in
  zlen md = METADATA_SIZE -> append_compatible_metadata c md = Ok md' -> 0 <= csize < 2 ^ 32 ->
  csize <= zlen c /\ zlen (concat bs) + csize <= METADATA_SIZE /\
  md' = concat bs ++ ztake csize c ++ zreplicate (n - csize) 0.
Proof.
  intros Hbs md csize Hl. unfold append_compatible_metadata.
  destruct (walk_metadata _ _ md 0) as [size| |] eqn:Ew; [|done..].
  apply (walk_chain _ bs Hbs walk_fuel [] n size Hl) in Ew as ->; [|done]. change (zlen (@nil Z) + zlen (concat bs)) with (zlen (concat bs)).
  cbn [mbind res_bind].
  fold csize. split_if; [done|]. intros Ha Hc. zbool.
  pose proof Hl as Hl0. unfold md in Hl0. rewrite length_app, Nat2Z.inj_add, zlen_zreplicate in Hl0.
  rewrite u32_id in * by (unfold is_u32, METADATA_SIZE in *; lia). unfold memcpy_s in Ha.
  destruct (Z.ltb_spec (METADATA_SIZE - zlen (concat bs)) csize); [by cbn in Ha|].
  destruct (_ || _)%bool eqn:E; [done|]. zbool.
  cbn in Ha. injection Ha as <-. unfold md. rewrite ztake_app_le, ztake_ge, zdrop_app_ge, Z.sub_diag, zdrop_le0 by lia.
  split; [done|]. split; [lia|]. f_equal. rewrite splice_0. f_equal. rewrite zdrop_drop. unfold zreplicate. rewrite drop_replicate.
  f_equal. rewrite zlen_ztake. lia.
Qed.

Lemma fget_ztake f n (l : list Z) : 0 <= f_off f -> f_end f <= n -> fget f (ztake n l) = fget f l.
Proof.
  unfold f_end, fget, slice. intros. rewrite zdrop_ztake, ztake_ztake by lia. do 2 f_equal. lia.
Qed.

(** A version is no part of what the walk reads. *)
Lemma block_set_version major minor b : block b -> block (set_version major minor b) /\ zlen (set_version major minor b) = zlen b.
Proof.
  intros [Hm Hs Hh]. unfold f_end in Hh. cbn [f_off f_width Md.size] in Hh. unfold set_version.
  assert (zlen (fset Md.version (META_DATA_MAKE_VERSION major minor) b) = zlen b) as Hl
    by (apply zlen_fset; unfold f_end; cbn [f_off f_width Md.version]; lia).
  split; [|done]. split; rewrite ?Hl; [rewrite <- Hm|rewrite <- Hs|exact Hh].
  all: apply fget_fset_other; unfold f_end; cbn; lia.
Qed.

(** *** The folded copy is a byte string *)
Lemma fset_ok f v md : bytes_ok md -> bytes_ok (fset f v md).
Proof. intros. apply bytes_ok_splice; [apply le_bytes_ok|done]. Qed.

Lemma on_entry_ok o f md : (forall p m, bytes_ok m -> bytes_ok (f p m)) -> bytes_ok md -> bytes_ok (on_entry o f md).
Proof. intros Hf Hm. destruct o; [by apply Hf|done]. Qed.

Lemma clear_post_add_ok p md : bytes_ok md -> bytes_ok (clear_post_add p md).
Proof. apply fset_ok. Qed.
Lemma clear_both_ok p md : bytes_ok md -> bytes_ok (clear_post_add p (clear_flags p md)).
Proof. intros. by apply clear_post_add_ok, fset_ok. Qed.
#[local] Hint Resolve fset_ok on_entry_ok clear_post_add_ok clear_both_ok : mage.

Lemma metadata_cleanup_ok r md md' : bytes_ok md -> metadata_cleanup r md = Ok md' -> bytes_ok md'.
Proof.
  intros Hm. unfold metadata_cleanup. destruct (find_dynamic _ _ _ _ _ _) as [[[a b] c]| |]; [|done..]. cbn. intros [= <-].
  auto 10 with mage.
Qed.

Lemma add_layout_ok p md md' : bytes_ok md -> add_layout p md = Ok md' -> bytes_ok md'.
Proof.
  intros Hm. unfold add_layout, memcpy_s. destruct (_ <? _); [done|]. destruct (_ || _); [done|]. cbn. intros [= <-].
  apply fset_ok, fset_ok, bytes_ok_app. split; [by apply bytes_ok_ztake|].
  apply bytes_ok_splice; [apply bytes_ok_ztake|]; by apply bytes_ok_zdrop.
Qed.

Lemma add_opt_ok o f md md' : (forall p m, bytes_ok m -> bytes_ok (f p m)) -> bytes_ok md -> add_opt o f md = Ok md' -> bytes_ok md'.
Proof. intros Hf Hm. destruct o; cbn; [apply add_layout_ok; by apply Hf|by intros [= <-]]. Qed.

Lemma metadata_add_layout_ok a b c md md' : bytes_ok md -> metadata_add_layout a b c md = Ok md' -> bytes_ok md'.
Proof.
  intros Hm. unfold metadata_add_layout. destruct (add_opt a _ md) as [m1| |] eqn:E1; [|done..]. cbn.
  destruct (add_opt b _ m1) as [m2| |] eqn:E2; [|done..]. cbn.
  apply add_opt_ok in E1; [|done..]. apply add_opt_ok in E2; [|auto with mage..]. apply add_opt_ok; auto with mage.
Qed.

Lemma fold_threads_ok n md md' g : bytes_ok md -> fold_threads n md = Ok (md', g) -> bytes_ok md'.
Proof.
  intros Hm. unfold fold_threads. destruct (find_utility _ _ _ _ _) as [[[s|] [e|]]| |]; cbn [mbind res_bind mret res_ret fst snd deref]; [|done..].
  unfold assertc. destruct (s <? e); [|done]. cbn [mbind res_bind mret res_ret fst snd deref]. destruct (find_rsrv _ _ _ _ _ _) as [[[mn init] mx]| |]; [|done..]. cbn [mbind res_bind mret res_ret fst snd deref].
  split_if.
  { destruct (metadata_cleanup 0 md) as [m1| |] eqn:E; [|done..]. cbn [mbind res_bind mret res_ret fst snd deref]. intros [= <- <-]. by eapply metadata_cleanup_ok. }
  split_if.
  { destruct (metadata_cleanup 0 md) as [m1| |] eqn:E; [|done..]. cbn [mbind res_bind mret res_ret fst snd deref]. intros [= <- <-]. apply metadata_cleanup_ok in E; auto with mage. }
  destruct (entry_bytes _ _ _ _) as [step| |]; [|done..]. cbn [mbind res_bind mret res_ret fst snd deref]. destruct (_ <=? zlen md); [|done]. cbn [mbind res_bind mret res_ret fst snd deref].
  destruct (metadata_cleanup _ _) as [m1| |] eqn:E; [|done..]. cbn [mbind res_bind mret res_ret fst snd deref].
  apply metadata_cleanup_ok in E; [|apply bytes_ok_splice; [apply layout_bytes_ok|done]].
  destruct mn; cbn [mbind res_bind mret res_ret fst snd deref]; [|by intros [= <- <-]].
  destruct (metadata_add_layout _ _ _ m1) as [m2| |] eqn:E2; [|done..]. cbn [mbind res_bind mret res_ret fst snd deref]. intros [= <- <-]. by eapply metadata_add_layout_ok.
Qed.

(** C17. Metadata for older loaders.  When the first metadata of the buffer is
    [b] and zeros follow it, generate_compatible_metadata leaves [b] as it is,
    puts after it the same metadata as version 2.1, then the version 1.4 copy
    with its threads folded, cut at the size it states, and leaves the rest
    of the 20 KB zero.  The buffer keeps its size. *)
Theorem compatible_metadata_appended (tcs_num n : Z) (b md' : list Z) (Hb : block b) (Hok : bytes_ok b) (Hn : 0 <= n)
    (Hl : zlen b + n = METADATA_SIZE)
    (Hg : generate_compatible_metadata tcs_num (b ++ zreplicate n 0) = Ok md') :
  let v21 := set_version SGX_2_0_MAJOR_VERSION SGX_2_0_MINOR_VERSION b in
  exists v14 grouped,
    fold_threads tcs_num (set_version SGX_1_9_MAJOR_VERSION SGX_1_9_MINOR_VERSION v21) = Ok (v14, grouped) /\
    md' = b ++ v21 ++ ztake (fget Md.size v14) v14 ++ zreplicate (n - zlen b - fget Md.size v14) 0 /\
    fget Md.size v14 <= zlen v14 /\ zlen md' = METADATA_SIZE.
Proof.
  intros v21. destruct (block_set_version SGX_2_0_MAJOR_VERSION SGX_2_0_MINOR_VERSION b Hb) as [Hb2 Hl2]. fold v21 in Hb2, Hl2.
  destruct (Hb) as [_ Hs Hh]. unfold generate_compatible_metadata in Hg.
  assert (f_end Md.size <= zlen (b ++ zreplicate n 0) /\ fget Md.size (b ++ zreplicate n 0) = zlen b) as [_ Hsz].
  { rewrite <- Hs. unfold f_end in *. cbn [f_off f_width Md.size] in *. rewrite length_app.
    split; [lia|]. unfold fget. f_equal. apply slice_app_le; cbn [f_off f_width Md.size]; lia. }
  clear Hs. rewrite Hsz in Hg.
  assert (ztake (zlen b) (b ++ zreplicate n 0) = b) as E by (by rewrite ztake_app_le, ztake_ge).
  rewrite E in Hg. fold v21 in Hg. destruct (assertc _); [|done..]. cbn [mbind res_bind] in Hg.
  destruct (append_compatible_metadata v21 _) as [md1| |] eqn:E1; [|done..]. cbn [mbind res_bind] in Hg.
  assert (zlen (b ++ zreplicate n 0) = METADATA_SIZE) as Hlm by (rewrite length_app, Nat2Z.inj_add, zlen_zreplicate; lia).
  destruct (append_chain v21 [b] n md1) as (A1 & A2 & ->); rewrite ?(bk_size _ Hb2), ?Hl2, ?app_nil_r; cbn [concat]; rewrite ?app_nil_r; try done.
  { by apply Forall_singleton. } { unfold METADATA_SIZE in Hl. lia. }
  rewrite (bk_size _ Hb2), Hl2 in *. rewrite (ztake_ge (zlen b)) in Hg by lia.
  destruct (fold_threads _ _) as [[v14 grouped]| |] eqn:Ef; [|done..]. cbn [mbind res_bind fst snd] in Hg.
  exists v14, grouped. split; [done|].
  assert (0 <= fget Md.size v14 < 2 ^ 32) as Hr .
  { apply (fget_range Md.size); [|done]. eapply fold_threads_ok; [|exact Ef]. unfold v21, set_version. apply fset_ok, fset_ok. exact Hok. }
  destruct (append_compatible_metadata v14 _) as [md2| |] eqn:E2; [|done..].
  assert (md2 = md') as <-.
  { cbn [mbind res_bind] in Hg. destruct grouped; [destruct (dump_metadata_layout md2); [|done..]|]; by injection Hg as <-. }
  cbn [concat] in *. rewrite app_nil_r in *.
  destruct (append_chain v14 [b; v21] (n - zlen b) md2) as (B1 & B2 & ->); cbn [concat]; rewrite ?app_nil_r, <- ?app_assoc; try done.
  { by rewrite Forall_cons, Forall_singleton. }
  { rewrite !length_app, !Nat2Z.inj_add, zlen_zreplicate. lia. }
  cbn [concat] in *. rewrite app_nil_r in *. rewrite <- ?app_assoc. split; [done|]. split; [done|].
  rewrite length_app, Nat2Z.inj_add in B2. rewrite !length_app, !Nat2Z.inj_add, zlen_ztake, zlen_zreplicate. lia.
Qed.

(** A metadata with a guard, a TD entry and one more entry *)
Definition small : list Z :=
  let entry id := layout_bytes (MkLayout id 0 0 0 0 0 0) in
  let body := zreplicate Md.data_off 0 ++ entry LAYOUT_ID_GUARD ++ entry LAYOUT_ID_TD ++ entry LAYOUT_ID_TCS in
  fset Md.magic_num METADATA_MAGIC (fset Md.size (zlen body)
    (fset (Md.dir_offset DIR_LAYOUT) Md.data_off (fset (Md.dir_size DIR_LAYOUT) (3 * sizeof_layout) body))).

Lemma small_compatible : exists md', generate_compatible_metadata 4 (small ++ zreplicate (METADATA_SIZE - 1984) 0) = Ok md'.
Proof.
  assert (match generate_compatible_metadata 4 (small ++ zreplicate (METADATA_SIZE - 1984) 0) with Ok _ => true | _ => false end = true) as H
    by (vm_compute; reflexivity).
  destruct (generate_compatible_metadata 4 _) as [md'| |]; [by exists md'|done..].
Qed.

Lemma compatible_metadata_appended_witness : exists md' v14 grouped,
  generate_compatible_metadata 4 (small ++ zreplicate (METADATA_SIZE - 1984) 0) = Ok md' /\
  fold_threads 4 (set_version SGX_1_9_MAJOR_VERSION SGX_1_9_MINOR_VERSION
    (set_version SGX_2_0_MAJOR_VERSION SGX_2_0_MINOR_VERSION small)) = Ok (v14, grouped) /\ zlen md' = METADATA_SIZE.
Proof.
  assert (bytes_ok small) as Hok by (apply fset_ok, fset_ok, fset_ok, fset_ok; rewrite !bytes_ok_app;
    split_and!; [by apply bytes_ok_zreplicate|apply layout_bytes_ok..]).
  assert (zlen small = 1984) as Hl by (vm_compute; reflexivity).
  assert (block small) as Hb by (split; [vm_compute; reflexivity..|]; rewrite Hl; unfold f_end; cbn; lia).
  destruct small_compatible as [md' E]. exists md'.
  destruct (compatible_metadata_appended 4 (METADATA_SIZE - 1984) small md' Hb Hok) as (v14 & grouped & Hf & _ & _ & Hz);
    [unfold METADATA_SIZE; lia|rewrite Hl; reflexivity|exact E|].
  exists v14, grouped. split; [exact E|]. split; [exact Hf|exact Hz].
Defined.
