(* ===== verification/Dump.v ===== *)
(** * The metadata dump

    sdk/sign_tool/SignTool/manage_metadata.cpp, [print_metadata]: the text
    written for the metadata in a buffer and for the compatible metadata
    behind it, with the hash of the signer's key.  Text is a list of
    character codes; [false] is [Err tt]. *)
From S2P Require Import Prelude Bytes Arch Signature Elf Metadata.

#[local] Open Scope Z_scope.

Abbreviation R := (res unit).

(** ** Stream output *)
Definition hex_char (d : Z) : Z := if d <? 10 then 48 + d else 87 + d.

(** std::hex: no leading zeros *)
Fixpoint hex_digits (fuel : nat) (n : Z) (acc : list Z) : list Z :=
  match fuel with
  | O => acc
  | S k => let acc := hex_char (n mod 16) :: acc in if n / 16 =? 0 then acc else hex_digits k (n / 16) acc
  end.
Definition hex (n : Z) : list Z := hex_digits 16 n [].
Definition endl : list Z := [10].

(** setfill('0') << setw(2) *)
Definition hex2 (n : Z) : list Z := let h := hex n in if zlen h <? 2 then 48 :: h else h.

(** PRINT_ELEMENT *)
Definition PRINT_ELEMENT (structure element : string) (v : Z) : list Z :=
  str_bytes structure ++ str_bytes "->" ++ str_bytes element ++ str_bytes ": 0x" ++ hex v ++ endl.

(** PRINT_ARRAY: a new line before every 16 bytes *)
Fixpoint print_bytes (i : Z) (l : list Z) : list Z :=
  match l with
  | [] => endl
  | b :: l' =>
      (if i mod 16 =? 0 then endl else []) ++ str_bytes "0x" ++ hex2 b ++ str_bytes " " ++ print_bytes (i + 1) l'
  end.
Definition PRINT_ARRAY (structure array : string) (l : list Z) : list Z :=
  str_bytes structure ++ str_bytes "->" ++ str_bytes array ++ str_bytes ":" ++ print_bytes 0 l.

(** ** One metadata *)
Definition elem (name : string) (f : field) (md : list Z) : list Z := PRINT_ELEMENT "metadata" name (fget f md).
Definition arr (name : string) (off n : Z) (md : list Z) : list Z := PRINT_ARRAY "metadata" name (slice off n md).
Definition css_f (f : field) : field := Fld (Md.css_off + f_off f) (f_width f).

Definition print_metadata_internal (md : list Z) : list Z :=
  elem "magic_num" Md.magic_num md ++
  elem "version" Md.version md ++
  elem "size" Md.size md ++
  elem "tcs_policy" Md.tcs_policy md ++
  elem "ssa_frame_size" Md.ssa_frame_size md ++
  elem "max_save_buffer_size" Md.max_save_buffer_size md ++
  elem "desired_misc_select" Md.desired_misc_select md ++
  elem "enclave_size" Md.enclave_size md ++
  elem "attributes.flags" Md.attributes_flags md ++
  elem "attributes.xfrm" Md.attributes_xfrm md ++
  arr "enclave_css.header.header" Md.css_off 12 md ++
  elem "enclave_css.header.type" (css_f Css.header_type) md ++
  elem "enclave_css.header.module_vendor" (css_f Css.header_module_vendor) md ++
  elem "enclave_css.header.date" (css_f Css.header_date) md ++
  arr "enclave_css.header.header2" (Md.css_off + 24) 16 md ++
  elem "enclave_css.header.hw_version" (css_f Css.header_hw_version) md ++
  arr "enclave_css.key.modulus" (Md.css_off + Css.key_modulus_off) SE_KEY_SIZE md ++
  arr "enclave_css.key.exponent" (Md.css_off + Css.key_exponent_off) SE_EXPONENT_SIZE md ++
  arr "enclave_css.key.signature" (Md.css_off + Css.key_signature_off) SE_KEY_SIZE md ++
  elem "enclave_css.body.misc_select" (css_f Css.body_misc_select) md ++
  elem "enclave_css.body.misc_mask" (css_f Css.body_misc_mask) md ++
  elem "enclave_css.body.attributes.flags" (css_f Css.body_attributes_flags) md ++
  elem "enclave_css.body.attributes.xfrm" (css_f Css.body_attributes_xfrm) md ++
  elem "enclave_css.body.attribute_mask.flags" (css_f Css.body_attribute_mask_flags) md ++
  elem "enclave_css.body.attribute_mask.xfrm" (css_f Css.body_attribute_mask_xfrm) md ++
  arr "enclave_css.body.enclave_hash.m" (Md.css_off + Css.body_enclave_hash_off) 32 md ++
  elem "enclave_css.body.isv_prod_id" (css_f Css.body_isv_prod_id) md ++
  elem "enclave_css.body.isv_svn" (css_f Css.body_isv_svn) md ++
  arr "enclave_css.buffer.q1" (Md.css_off + Css.buffer_q1_off) SE_KEY_SIZE md ++
  arr "enclave_css.buffer.q2" (Md.css_off + Css.buffer_q2_off) SE_KEY_SIZE md.

(** The structure must lie in the buffer. *)
Definition print_at (md : list Z) (p : Z) : R (list Z) :=
  assertc ((0 <=? p) && (p + Md.data_off <=? zlen md)) ;; mret (print_metadata_internal (zdrop p md)).

(** ** print_metadata *)
Definition banner (line title : string) : list Z :=
  str_bytes line ++ endl ++ str_bytes title ++ endl ++ str_bytes line ++ endl.

(** The compatible metadata after the one at [p]; returns the text and the
    last metadata reached.  [fuel] bounds their number. *)
Fixpoint print_compat (fuel : nat) (md : list Z) (p count : Z) : R (list Z * Z) :=
  match fuel with
  | O => Stuck
  | S k =>
      sz ← deref (rd 4 (p + f_off Md.size) md);
      let q := p + sz in
      magic ← deref (rd 8 q md);
      if negb (magic =? METADATA_MAGIC) then mret ([], p)
      else
        qsz ← deref (rd 4 (q + f_off Md.size) md);
        if qsz =? 0 then Err tt
        else
          text ← print_at md q;
          r ← print_compat k md q (count + 1);
          mret ((if count =? 0
                 then endl ++ endl ++ endl ++
                      banner "====================================" "The compatible metadata information: "
                 else []) ++
                endl ++ str_bytes "Compatible metadata number " ++ hex (count + 1) ++ str_bytes ":" ++ endl ++
                str_bytes "------------------------------" ++ endl ++ text ++ fst r, snd r)
  end.

Section Print.
Context {RSA : Type} {O : OpenSsl RSA}.

Definition print_metadata (md : list Z) : R (list Z) :=
  text ← print_at md 0;
  r ← print_compat (S (length md)) md 0 0;
  match EVP_Digest (slice (snd r + Md.css_off + Css.key_modulus_off) SE_KEY_SIZE md) with
  | None => Err tt
  | Some mrsigner =>
      mret (banner "=============================" "The metadata information:" ++ text ++ fst r ++
            endl ++ endl ++ banner "===================" "The mrsigner value:" ++
            PRINT_ARRAY "mrsigner" "value" mrsigner)
  end.
End Print.

(** * Theorems *)
Definition ascii_of (c : Z) : Ascii.ascii := Ascii.ascii_of_N (Z.to_N c).
Definition text_of (l : list Z) : string := String.string_of_list_ascii (map ascii_of l).

(** The value of a list of hexadecimal digits after [a] *)
Definition hex_val (ds : list Z) (a : Z) : Z := fold_left (fun a d => a * 16 + d) ds a.

Lemma hex_digits_repr fuel n acc :
  0 <= n < 16 ^ Z.of_nat (S fuel) ->
  exists ds, hex_digits (S fuel) n acc = map hex_char ds ++ acc /\ Forall (fun d => 0 <= d < 16) ds /\ ds <> [] /\ hex_val ds 0 = n.
Proof.
  revert n acc. induction fuel as [|k IH]; intros n acc Hn; cbn [hex_digits].
  { exists [n]. change (16 ^ Z.of_nat 1) with 16 in Hn. rewrite Z.mod_small by lia. replace (n / 16 =? 0) with true by zlia.
    split_and!; try done. by constructor. }
  rewrite (Nat2Z.inj_succ (S k)), Z.pow_succ_r in Hn by lia. destruct (n / 16 =? 0) eqn:E; zbool.
  { exists [n]. rewrite Z.mod_small by zlia. split_and!; try done. constructor; [zlia|done]. }
  destruct (IH (n / 16) (hex_char (n mod 16) :: acc)) as (ds & Hd & Hr & Hne & Hv); [zlia|].
  exists (ds ++ [n mod 16]). cbn [hex_digits] in Hd. rewrite Hd, map_app, <- app_assoc. split_and!; [done| | |].
  - apply Forall_app. split; [done|]. constructor; [zlia|done].
  - by destruct ds.
  - unfold hex_val in *. rewrite fold_left_app, Hv. cbn [fold_left]. zlia.
Qed.

(** A boolean fact about a digit, checked digit by digit *)
Lemma digit_cases (P : Z -> bool) d : forallb P (map Z.of_nat (seq 0 16)) = true -> 0 <= d < 16 -> P d = true.
Proof.
  intros H Hd. rewrite forallb_forall in H. apply H, in_map_iff. exists (Z.to_nat d). rewrite in_seq. lia.
Qed.

Lemma hex_digit_in d : 0 <= d < 16 -> digit_in 16 (ascii_of (hex_char d)) = Some d.
Proof.
  intros Hd. apply (bool_decide_eq_true_1 (_ = _)).
  by apply (digit_cases (fun d => bool_decide (digit_in 16 (ascii_of (hex_char d)) = Some d)) d).
Qed.

Lemma hex_no_minus ds : Forall (fun d => 0 <= d < 16) ds ->
  existsb (fun a => char_code a =? 45) (map ascii_of (map hex_char ds)) = false.
Proof.
  induction 1 as [|d ds Hd _ IH]; [done|]. cbn [map existsb]. rewrite IH, orb_false_r. apply negb_true_iff.
  by apply (digit_cases (fun d => negb (char_code (ascii_of (hex_char d)) =? 45)) d).
Qed.

Lemma hex_val_ge ds a : Forall (fun d => 0 <= d < 16) ds -> 0 <= a -> a <= hex_val ds a.
Proof.
  intros H. revert a. induction H as [|d ds Hd _ IH]; intros a Ha; [done|]. cbn.
  specialize (IH (a * 16 + d) ltac:(lia)). unfold hex_val in IH. lia.
Qed.

Lemma scan_hex ds a : Forall (fun d => 0 <= d < 16) ds -> 0 <= a -> hex_val ds a < 2 ^ 64 ->
  scan_digits 16 a false (map ascii_of (map hex_char ds)) = (hex_val ds a, [], false).
Proof.
  intros H. revert a. induction H as [|d ds Hd Hds IH]; intros a Ha Hv; [done|].
  cbn [map scan_digits]. rewrite hex_digit_in by done.
  change (hex_val (d :: ds) a) with (hex_val ds (a * 16 + d)) in *.
  pose proof (hex_val_ge ds (a * 16 + d) Hds ltac:(lia)).
  replace (2 ^ 64 <=? a * 16 + d) with false by lia. apply IH; lia.
Qed.

Lemma strtoull_hex h s d : digit_in 16 h = Some d ->
  strtoull (Ascii.ascii_of_N 48 :: Ascii.ascii_of_N 120 :: h :: s) = scan_digits 16 0 false (h :: s).
Proof.
  intros Hd. unfold strtoull. change (skip_spaces (Ascii.ascii_of_N 48 :: ?l)) with (Ascii.ascii_of_N 48 :: l).
  cbv zeta iota. change (char_code (Ascii.ascii_of_N 48) =? 43) with false. cbv iota.
  change (char_code (Ascii.ascii_of_N 48) =? 48) with true. cbv iota.
  change ((char_code (Ascii.ascii_of_N 120) =? 120) || _) with true. rewrite Hd. by rewrite bool_decide_true.
Qed.

(** Hexadecimal text round trip: the text the dump prints for a 64-bit
    value is accepted as the text of a configuration element and has that
    value. *)
Theorem hex_roundtrip n : 0 <= n < 2 ^ 64 -> element_value (text_of (str_bytes "0x" ++ hex n)) = Some n.
Proof.
  intros Hn. destruct (hex_digits_repr 15 n [] Hn) as (ds & Hd & Hr & Hne & Hv). unfold hex. rewrite Hd, app_nil_r.
  unfold element_value, text_of. rewrite String.list_ascii_of_string_of_list_ascii, map_app.
  rewrite existsb_app, (hex_no_minus ds Hr). change (existsb _ (map ascii_of (str_bytes "0x"))) with false. cbn [orb].
  destruct ds as [|d ds]; [done|]. pose proof (scan_hex (d :: ds) 0 Hr ltac:(lia) ltac:(lia)) as Hs. rewrite Hv in Hs.
  cbn [map] in *. change (map ascii_of (str_bytes "0x")) with [Ascii.ascii_of_N 48; Ascii.ascii_of_N 120].
  cbn [app]. apply Forall_cons in Hr as [Hd0 _]. by rewrite (strtoull_hex _ _ d (hex_digit_in d Hd0)), Hs.
Qed.

Lemma hex_roundtrip_witness : element_value "0xdeadbeef" = Some 0xdeadbeef.
Proof. exact (hex_roundtrip 0xdeadbeef ltac:(lia)). Defined.
