(* ===== verification/SignTool.v ===== *)
(** * The signing tool

    sdk/sign_tool/SignTool/sign_tool.cpp: [measure_enclave] (parse the file,
    build the metadata, load the enclave into the signing creator) and
    [main], with the file helpers of util_st.cpp and the key handling of
    parse_key_file.cpp.  Files are a map from paths to contents; the state
    also holds main's locals that the functions share and the global enclave
    creator.  A [false] return is [Err tt]. *)
From S2P Require Import Prelude Bytes Sha256 Arch Measure Creator Mage Loader Elf GlobalData Metadata CmdLine.
From S2P Require Import Signature Compat Dump.
From stdpp Require Import gmap.

#[local] Open Scope Z_scope.

(** ** Files (util_st.cpp) *)
Abbreviation FS := (gmap string (list Z)).

(** Write at an offset; a gap is filled with zeros. *)
Definition write_at (off : Z) (data file : list Z) : list Z :=
  splice off data (file ++ zreplicate (off + zlen data - zlen file) 0).

(** openmode: truncate, append, or in|out on an existing file *)
Inductive openmode := OUT_TRUNC | OUT_APP | IN_OUT.

Section Files.
(** Whether the operating system lets the tool open a path for writing *)
Context (writable : string -> bool).

Definition write_data_to_file (path : string) (mode : openmode) (buf : list Z) (offset : Z) (fs : FS) : FS * bool :=
  if zlen buf =? 0 then (fs, false)
  else if negb (writable path) then (fs, false)
  else
    match mode with
    | OUT_TRUNC => (<[path := write_at offset buf []]> fs, true)
    | OUT_APP => (<[path := default [] (fs !! path) ++ buf]> fs, true)
    | IN_OUT =>
        match fs !! path with
        | None => (fs, false)
        | Some file => if 2 ^ 63 <=? offset then (fs, false) else (<[path := write_at offset buf file]> fs, true)
        end
    end.

Definition get_file_size (path : string) (fs : FS) : Z :=
  match fs !! path with Some f => zlen f | None => 2 ^ 64 - 1 end.

(** The bytes read, when the file holds that many from the offset on *)
Definition read_file_to_buf (path : string) (bsize offset : Z) (fs : FS) : option (list Z) :=
  if bsize =? 0 then None
  else match fs !! path with
       | None => None
       | Some f => if (2 ^ 63 <=? offset) || (zlen f <? offset + bsize) then None else Some (slice offset bsize f)
       end.

(** The destination is truncated before the source is read. *)
Definition copy_file (src dst : string) (fs : FS) : FS * bool :=
  match fs !! src with
  | None => (fs, false)
  | Some _ =>
      if negb (writable dst) then (fs, false)
      else let fs' := <[dst := []]> fs in (<[dst := default [] (fs' !! src)]> fs', true)
  end.
End Files.

(** ** The parser for a file (parserfactory.cpp) *)
Inductive elf_class := CLASS64 | CLASS32 | CLASS_UNKNOWN.
Definition check_elf_format (img : list Z) : elf_class :=
  if zlen img <? 52 then CLASS_UNKNOWN
  else if negb (bool_decide (ztake 4 img = ELFMAG)) then CLASS_UNKNOWN
  else if fget (Fld 4 1) img =? 1 then CLASS32
  else if fget (Fld 4 1) img =? 2 then CLASS64 else CLASS_UNKNOWN.

(** ** State *)
Section Tool.
Context {Ctx : Type} {EV : Evp Ctx} {RSA : Type} {O : OpenSsl RSA}.

Record Tool := MkTool {
  t_fs : FS; t_creator : SignST.ST Ctx; t_metadata : list Z; t_hash : list Z; t_meta_offset : Z;
  t_mage_rva : Z; t_mage_offset : Z; t_mage_size : Z }.

Definition set_fs (f : FS) (t : Tool) : Tool :=
  MkTool f (t_creator t) (t_metadata t) (t_hash t) (t_meta_offset t) (t_mage_rva t) (t_mage_offset t) (t_mage_size t).
Definition set_creator_ (c : SignST.ST Ctx) (t : Tool) : Tool :=
  MkTool (t_fs t) c (t_metadata t) (t_hash t) (t_meta_offset t) (t_mage_rva t) (t_mage_offset t) (t_mage_size t).
Definition set_metadata_ (m : list Z) (t : Tool) : Tool :=
  MkTool (t_fs t) (t_creator t) m (t_hash t) (t_meta_offset t) (t_mage_rva t) (t_mage_offset t) (t_mage_size t).
Definition set_hash_ (h : list Z) (t : Tool) : Tool :=
  MkTool (t_fs t) (t_creator t) (t_metadata t) h (t_meta_offset t) (t_mage_rva t) (t_mage_offset t) (t_mage_size t).
Definition set_meta_offset (o : Z) (t : Tool) : Tool :=
  MkTool (t_fs t) (t_creator t) (t_metadata t) (t_hash t) o (t_mage_rva t) (t_mage_offset t) (t_mage_size t).
Definition set_mage_ (rva off size : Z) (t : Tool) : Tool :=
  MkTool (t_fs t) (t_creator t) (t_metadata t) (t_hash t) (t_meta_offset t) rva off size.

Abbreviation T := (M Tool unit).

(** Other error types become a [false] return. *)
Definition unit_err {E A} (r : res E A) : res unit A :=
  match r with Ok a => Ok a | Err _ => Err tt | Stuck => Stuck end.
Definition need (b : bool) : T unit := if b then mret tt else merr tt.

Definition tool_new (fs : FS) : Tool :=
  MkTool fs SignST.EnclaveCreatorST (zreplicate METADATA_SIZE 0) (zreplicate SGX_HASH_SIZE 0) 0 0 0 0.

(** ** Environment: mprotect, the base address of the mapping, the date *)
Context (mprotect : Z -> Z -> Z -> Z) (base : Z) (now : option (Z * Z * Z)).

(** CLoader(mapped_file_base, parser) *)
Definition cloader_new (c : SignST.ST Ctx) (img : list Z) : LS (SignST.ST Ctx) := MkLS c img 0 0 [] secs_zero.

(** The creator never reports a lost enclave, so at most four loads. *)
Definition load_fuel : nat := 5.

(** load_enclave: the status and the global creator afterwards *)
Definition load_enclave_ (ep : ElfParser) (img md : list Z) (c : SignST.ST Ctx)
    : SignST.ST Ctx * res sgx_status_t sgx_misc_attribute_t :=
  let '(s, r) := load_enclave_ex (bin_parser ep mprotect) md mprotect load_fuel None false None 0 None
                   (cloader_new c img) in
  (ls_creator s, r).

(** get_enclave_info: the metadata offset; a signed enclave is refused. *)
Definition get_enclave_info_ (ep : ElfParser) (img : list Z) (is_dump_mode : bool) : res unit Z :=
  magic ← deref (rd 8 (ep_metadata_offset ep) img);
  if (magic =? METADATA_MAGIC) && negb is_dump_mode then Err tt else mret (ep_metadata_offset ep).

Definition IGNORE_REL_ERROR (x : Z) : bool := hasflag x REL_ERROR_BIT.
Definition IGNORE_INIT_SEC_ERROR (x : Z) : bool := hasflag x INIT_SEC_ERROR_BIT.

(** get_parser and run_parser; 32-bit enclaves are outside the model. *)
Definition parse_enclave (img : list Z) : res unit ElfParser :=
  match check_elf_format img with
  | CLASS64 => let '(p, r) := run_parser img elf_new in unit_err (r ≫= fun _ => Ok p)
  | CLASS32 => Stuck
  | CLASS_UNKNOWN => Err tt
  end.

Definition measure_enclave (dllpath : string) (ps : list xml_parameter_t) (ignore_error_bits : Z)
    (want_mage for_sign : bool) : T (option sgx_mage_entry_t) :=
  t ← mget;
  match t_fs t !! dllpath with
  | None => merr tt
  | Some img =>
      ep ← mlift (parse_enclave img);
      (match ep_mage_section ep with
       | Some s => mmod (set_mage_ (s_rva s) (s_offset s) (s_virtual_size s))
       | None => mret tt
       end) ;;
      let ep := elf_set_for_sign for_sign ep in
      init ← mlift (unit_err (has_init_section img));
      need (negb (init && negb (IGNORE_INIT_SEC_ERROR ignore_error_bits))) ;;
      let '(cm, r) := build_metadata ep base now ps cmetadata_new in
      mmod (set_metadata_ (m_metadata cm)) ;;
      mlift r ;;
      off ← mlift (get_enclave_info_ ep img false);
      mmod (set_meta_offset off) ;;
      no_rel ← mlift (unit_err (dump_textrels img));
      need (no_rel || IGNORE_REL_ERROR ignore_error_bits) ;;
      let '(c, ret) := load_enclave_ ep img (m_metadata cm) (t_creator t) in
      mmod (set_creator_ c) ;;
      mlift (unit_err ret) ;;
      info ← mlift (unit_err (snd (SignST.get_enclave_info SGX_HASH_SIZE want_mage c)));
      let '(hash, _, mage) := info in
      mmod (set_hash_ hash) ;;
      mret mage
  end.

(** ** main *)

(** The files OpenSSL and tinyxml2 read: a PEM key (private or public) and
    the configuration; [writable] as above. *)
Context (writable : string -> bool) (read_pem : bool -> string -> option RSA) (read_xml : string -> xml_file).

(** parse_key_file: the key and its type; a [false] return is [Err] of the
    type left in pkey_type. *)
Definition parse_key_file (mode : Z) (key_path : option string) : (option RSA * key_type) * bool :=
  match key_path with
  | None => ((None, NO_KEY), false)
  | Some path =>
      let use (private : bool) (kt : key_type) :=
        match read_pem private path with
        | None => ((None, UNIDENTIFIABLE_KEY), false)
        | Some rsa => if key_ok rsa then ((Some rsa, kt), true) else ((None, UNIDENTIFIABLE_KEY), false)
        end in
      if (mode =? SIGN) || (mode =? SIGNMAGE) || (mode =? GENMAGE) then use true PRIVATE_KEY
      else if mode =? CATSIG then use false PUBLIC_KEY
      else ((None, UNIDENTIFIABLE_KEY), false)
  end.

Definition path_of (paths : list (option string)) (i : nat) : option string := default None (paths !! i).

Definition with_fs (f : FS -> FS * bool) : T unit :=
  t ← mget;
  let '(fs, ok) := f (t_fs t) in
  mput (set_fs fs t) ;; need ok.

Definition css_of (t : Tool) : list Z := md_css (t_metadata t).
Definition set_css (css : list Z) (t : Tool) : Tool := set_metadata_ (splice Md.css_off css (t_metadata t)) t.

(** The content of an optional input file *)
Definition file_arg (p : option string) (t : Tool) : option (option (list Z)) :=
  option_map (fun path => t_fs t !! path) p.

Definition generate_output (mode : Z) (ktype : key_type) (rsa : option RSA) (paths : list (option string)) : T unit :=
  t ← mget;
  let unsigned := file_arg (path_of paths UNSIGNED) t in
  if (mode =? SIGN) || (mode =? SIGNMAGE) then
    match ktype, rsa with
    | PRIVATE_KEY, Some k =>
        css ← mlift (fill_enclave_css (Some k) unsigned (t_hash t) (css_of t));
        css ← mlift (create_signature (Some k) None css);
        mmod (set_css css)
    | _, _ => merr tt
    end
  else if mode =? GENDATA then
    css ← mlift (fill_enclave_css (RSA:=RSA) None unsigned (t_hash t) (css_of t));
    mmod (set_css css) ;;
    out ← mlift (deref (path_of paths OUTPUT));
    with_fs (write_data_to_file writable out OUT_TRUNC (gen_enclave_signing_file css) 0)
  else if mode =? CATSIG then
    match ktype, rsa with
    | PUBLIC_KEY, Some k =>
        css ← mlift (fill_enclave_css (Some k) unsigned (t_hash t) (css_of t));
        css ← mlift (create_signature (RSA:=RSA) None (file_arg (path_of paths SIG) t) css);
        mmod (set_css css)
    | _, _ => merr tt
    end
  else merr tt.

(** dump_enclave_metadata *)
Definition dump_enclave_metadata (enclave dumpfile : string) (cssfile : option string) : T unit :=
  t ← mget;
  match t_fs t !! enclave with
  | None => merr tt
  | Some img =>
      ep ← mlift (parse_enclave img);
      off ← mlift (get_enclave_info_ ep img true);
      text ← mlift (print_metadata (RSA:=RSA) (zdrop off img));
      with_fs (write_data_to_file writable dumpfile OUT_TRUNC text 0) ;;
      match cssfile with
      | None => mret tt
      | Some f => with_fs (write_data_to_file writable f OUT_TRUNC (md_css (zdrop off img)) 0)
      end
  end.

(** *** genmage: append the measurement state of the enclave without its
    MAGE pages to the output list. *)
Definition run_genmage (dll mageout : string) (ps : list xml_parameter_t) (bits : Z) : T unit :=
  m ← measure_enclave dll ps bits true true;
  e ← mlift (deref m);
  t ← mget;
  let e := MkMage (me_size e) (t_mage_rva t) (me_digest e) in
  with_fs (write_data_to_file writable mageout OUT_APP (mage_entry_bytes e) 0).

(** *** signmage: write the list of entries into the MAGE section of the
    output file. *)
Definition fill_mage_section (out magein : string) (ps : list xml_parameter_t) (bits : Z) : T unit :=
  t ← mget;
  let magein_size := get_file_size magein (t_fs t) in
  let magein_t_size := u64 (magein_size + sizeof_mage_t) in
  need (negb (negb (magein_size mod sizeof_mage_entry =? 0) || (SGX_MAGE_SEC_SIZE <? magein_t_size))) ;;
  match read_file_to_buf magein magein_size 0 (t_fs t) with
  | None => merr tt
  | Some entries =>
      let magein_t := le_bytes 8 (magein_size / sizeof_mage_entry) ++ entries in
      _ ← measure_enclave out ps bits false true;
      t ← mget;
      with_fs (write_data_to_file writable out IN_OUT magein_t (t_mage_offset t)) ;;
      t' ← mget;
      match read_file_to_buf out magein_t_size (t_mage_offset t) (t_fs t') with
      | None => merr tt
      | Some _ => mret tt
      end
  end.

(** *** sign, gendata, catsig and signmage *)
Definition run_sign (mode bits : Z) (paths : list (option string)) (ps : list xml_parameter_t)
    (rsa : option RSA) (ktype : key_type) : T unit :=
  dll ← mlift (deref (path_of paths DLL));
  out ← mlift (deref (path_of paths OUTPUT));
  with_fs (copy_file writable dll out) ;;
  (if mode =? SIGNMAGE then
     magein ← mlift (deref (path_of paths MAGEIN)); fill_mage_section out magein ps bits
   else mret tt) ;;
  _ ← measure_enclave out ps bits false false;
  generate_output mode ktype rsa paths ;;
  (if (mode =? SIGN) || (mode =? CATSIG) || (mode =? SIGNMAGE) then
     t ← mget;
     k ← mlift (deref rsa);
     need (verify_signature k (css_of t)) ;;
     md ← mlift (generate_compatible_metadata (pval ps TCSNUM) (t_metadata t));
     mmod (set_metadata_ md) ;;
     with_fs (write_data_to_file writable out IN_OUT (ztake METADATA_SIZE md) (t_meta_offset t))
   else mret tt) ;;
  t ← mget;
  (match path_of paths DUMPFILE with
   | Some f =>
       text ← mlift (print_metadata (RSA:=RSA) (t_metadata t));
       with_fs (write_data_to_file writable f OUT_TRUNC text 0)
   | None => mret tt
   end) ;;
  match path_of paths CSSFILE with
  | Some f => with_fs (write_data_to_file writable f OUT_TRUNC (css_of t) 0)
  | None => mret tt
  end.

Definition run_mode (mode bits : Z) (paths : list (option string)) : T unit :=
  if mode =? -1 then mret tt
  else if mode =? DUMP then
    dll ← mlift (deref (path_of paths DLL));
    dump ← mlift (deref (path_of paths DUMPFILE));
    dump_enclave_metadata dll dump (path_of paths CSSFILE)
  else
    let doc := match path_of paths XML with Some p => read_xml p | None => XmlDefault end in
    let '(ps, ok) := parse_metadata_file doc default_parameters in
    need ok ;;
    let '((rsa, ktype), kok) := parse_key_file mode (path_of paths KEY) in
    need (kok || match ktype with NO_KEY => true | _ => false end) ;;
    if mode =? GENMAGE then
      dll ← mlift (deref (path_of paths DLL));
      out ← mlift (deref (path_of paths MAGEOUT));
      run_genmage dll out ps bits
    else run_sign mode bits paths ps rsa ktype.

(** remove(path) on failure *)
Definition remove_opt (p : option string) (fs : FS) : FS := match p with Some f => delete f fs | None => fs end.

(** main: the exit status (0 or -1) and the files *)
Definition main (argv : list string) (fs : FS) : FS * res unit Z :=
  match cmdline_parse argv with
  | None => (fs, Ok (-1))
  | Some (mode, paths, bits) =>
      let '(t, r) := run_mode mode bits paths (tool_new fs) in
      match r with
      | Ok _ => (t_fs t, Ok 0)
      | Err _ =>
          (remove_opt (path_of paths CSSFILE)
             (remove_opt (path_of paths DUMPFILE) (remove_opt (path_of paths OUTPUT) (t_fs t))), Ok (-1))
      | Stuck => (t_fs t, Stuck)
      end
  end.

(** * Theorems *)

(** ** What a run may write

    [writes P m]: on every path, errors included, [m] changes no file whose
    path is not in [P]. *)
Definition same_files (P : string -> Prop) (fs fs' : FS) : Prop := forall p, ~ P p -> fs' !! p = fs !! p.
Definition writes {A} (P : string -> Prop) (m : T A) : Prop := forall t, same_files P (t_fs t) (t_fs (fst (m t))).

Lemma writes_bind {A B} P (m : T A) (f : A -> T B) : writes P m -> (forall a, writes P (f a)) -> writes P (m ≫= f).
Proof.
  intros Hm Hf t p Hp. unfold mbind, M_bind. specialize (Hm t p Hp). destruct (m t) as [t1 [a|e|]]; cbn in *; [|done..].
  rewrite <- Hm. by apply (Hf a t1 p).
Qed.

Lemma writes_pure {A} P (m : T A) : (forall t, t_fs (fst (m t)) = t_fs t) -> writes P m.
Proof. intros H t p _. by rewrite H. Qed.

Lemma writes_need P b : writes P (need b).
Proof. by apply writes_pure; destruct b. Qed.

Lemma writes_lift {A} P (r : res unit A) : writes P (mlift r).
Proof. by apply writes_pure. Qed.

Lemma writes_mmod P f : (forall t, t_fs (f t) = t_fs t) -> writes P (mmod f).
Proof. intros H. by apply writes_pure. Qed.

Lemma writes_with_fs P f : (forall fs, same_files P fs (fst (f fs))) -> writes P (with_fs f).
Proof.
  intros H t p Hp. unfold with_fs, mbind, M_bind. cbn. specialize (H (t_fs t) p Hp). destruct (f (t_fs t)) as [fs ok].
  by destruct ok.
Qed.

Lemma write_data_writes (P : string -> Prop) path mode buf off fs : P path ->
  same_files P fs (fst (write_data_to_file writable path mode buf off fs)).
Proof.
  intros HP p Hp. unfold write_data_to_file. repeat split_if; try done.
  all: assert (path <> p) by (by intros ->); destruct mode; try by apply lookup_insert_ne.
  all: destruct (fs !! path); try done; by apply lookup_insert_ne.
Qed.

Lemma copy_file_writes (P : string -> Prop) src dst fs : P dst -> same_files P fs (fst (copy_file writable src dst fs)).
Proof.
  intros HP p Hp. unfold copy_file. destruct (fs !! src); [|done]. split_if; [done|]. cbn.
  assert (dst <> p) by (by intros ->). by rewrite !lookup_insert_ne.
Qed.

Lemma writes_get {A} P (f : Tool -> T A) : (forall t, writes P (f t)) -> writes P (t ← mget; f t).
Proof. intros H t p Hp. unfold mbind, M_bind. cbn. by apply H. Qed.

Lemma writes_deref {A B} P (o : option A) (f : A -> T B) :
  (forall a, o = Some a -> writes P (f a)) -> writes P (a ← mlift (deref o); f a).
Proof. intros H. destruct o as [a|]; [exact (H a eq_refl)|]. by apply writes_pure. Qed.

(** The rules applied along the text of a program *)
Ltac writes_step :=
  lazymatch goal with
  | |- writes _ (mget ≫= _) => apply writes_get; intros ?
  | |- writes _ (mlift (deref _) ≫= _) => apply writes_deref; intros ? ?
  | |- writes _ (_ ≫= _) => apply writes_bind; [|intros ?]
  | |- writes _ (mlift _) => apply writes_lift
  | |- writes _ (need _) => apply writes_need
  | |- writes _ (mmod _) => by apply writes_mmod
  | |- writes _ (mret _) => by apply writes_pure
  | |- writes _ (merr _) => by apply writes_pure
  | |- writes _ (with_fs (write_data_to_file _ _ _ _ _)) => apply writes_with_fs; intros ?; apply write_data_writes
  | |- writes _ (with_fs (copy_file _ _ _)) => apply writes_with_fs; intros ?; apply copy_file_writes
  | |- writes _ (match ?x with _ => _ end) => destruct x
  | |- writes _ (let '(_, _) := ?x in _) => destruct x
  end.

Lemma measure_enclave_writes P dll ps bits want for_sign : writes P (measure_enclave dll ps bits want for_sign).
Proof. unfold measure_enclave. repeat writes_step. Qed.

Lemma generate_output_writes (P : string -> Prop) mode ktype rsa paths :
  (forall p, path_of paths OUTPUT = Some p -> P p) -> writes P (generate_output mode ktype rsa paths).
Proof.
  intros HP. unfold generate_output. repeat writes_step. by apply HP.
Qed.

(** The files a command line lets the tool change *)
Definition out_file (paths : list (option string)) (p : string) : Prop :=
  exists i, i ∈ [OUTPUT; MAGEOUT; DUMPFILE; CSSFILE] /\ path_of paths i = Some p.

Lemma out_file_at paths i p : path_of paths i = Some p -> i ∈ [OUTPUT; MAGEOUT; DUMPFILE; CSSFILE] -> out_file paths p.
Proof. intros. by exists i. Qed.

Lemma run_mode_writes mode bits paths : writes (out_file paths) (run_mode mode bits paths).
Proof.
  assert (forall p, path_of paths OUTPUT = Some p -> out_file paths p) as Ho by (intros p H; apply (out_file_at _ _ _ H); set_solver).
  assert (forall p, path_of paths MAGEOUT = Some p -> out_file paths p) as Hm by (intros p H; apply (out_file_at _ _ _ H); set_solver).
  assert (forall p, path_of paths DUMPFILE = Some p -> out_file paths p) as Hd by (intros p H; apply (out_file_at _ _ _ H); set_solver).
  assert (forall p, path_of paths CSSFILE = Some p -> out_file paths p) as Hc by (intros p H; apply (out_file_at _ _ _ H); set_solver).
  unfold run_mode, run_sign, run_genmage, fill_mage_section, dump_enclave_metadata.
  repeat (writes_step || apply measure_enclave_writes || apply generate_output_writes); auto.
  all: destruct (path_of paths CSSFILE) eqn:?; simplify_eq; auto.
Qed.

Lemma remove_opt_ne o (fs : FS) p : o <> Some p -> remove_opt o fs !! p = fs !! p.
Proof. destruct o as [f|]; [|done]. intros H. apply lookup_delete_ne. by intros ->. Qed.
Lemma remove_opt_None o (fs : FS) p : fs !! p = None -> remove_opt o fs !! p = None.
Proof. destruct o as [f|]; [|done]. intros H. cbn. by rewrite lookup_delete_None; right. Qed.
Lemma remove_opt_eq (fs : FS) p : remove_opt (Some p) fs !! p = None.
Proof. apply lookup_delete_eq. Qed.

(** C18. The files of a run.  Whatever the command and however the run ends,
    only the files named by -out, -mageout, -dumpfile and -cssfile change;
    and when it ends with a failure, the -out, -dumpfile and -cssfile files
    are gone, so that no half-signed enclave is left. *)
Theorem main_files (argv : list string) (fs : FS) (mode bits : Z) (paths : list (option string))
    (Hc : cmdline_parse argv = Some (mode, paths, bits)) :
  (forall p, ~ out_file paths p -> fst (main argv fs) !! p = fs !! p) /\
  (snd (main argv fs) = Ok (-1) ->
   forall i p, i ∈ [OUTPUT; DUMPFILE; CSSFILE] -> path_of paths i = Some p -> fst (main argv fs) !! p = None).
Proof.
  unfold main. rewrite Hc. pose proof (run_mode_writes mode bits paths (tool_new fs)) as Hw.
  destruct (run_mode mode bits paths (tool_new fs)) as [t r]. cbn [fst t_fs tool_new] in Hw. split.
  - intros p Hp. specialize (Hw p Hp). destruct r as [u|e|]; cbn [fst]; [done| |done].
    rewrite !remove_opt_ne; [done|..]; intros E; apply Hp; apply (out_file_at _ _ _ E); set_solver.
  - destruct r as [u|e|]; cbn [fst snd]; [done| |done]. intros _ i p Hi Hp.
    rewrite !elem_of_cons, elem_of_nil in Hi. destruct Hi as [->|[->|[->|[]]]]; rewrite Hp.
    + by apply remove_opt_None, remove_opt_None, remove_opt_eq.
    + by apply remove_opt_None, remove_opt_eq.
    + by apply remove_opt_eq.
Qed.
End Tool.

Arguments Tool : clear implicits.

Lemma main_files_witness :
  let argv := ["sgx_sign"; "gendata"; "-enclave"; "e.so"; "-out"; "h.hex"] in
  let fs := <["h.hex" := [1]]> (<["key.pem" := [2]]> (∅ : FS)) in
  let run := main (EV:=PclEvp) (O:=ToyRsa.ops) (fun _ _ _ => 0) 0 None (fun _ => true) (fun _ _ => None) (fun _ => XmlDefault) argv fs in
  snd run = Ok (-1) /\ fst run !! "h.hex" = None /\ fst run !! "key.pem" = Some [2].
Proof.
  intros argv fs run. assert (snd run = Ok (-1)) as E by reflexivity.
  assert (cmdline_parse argv = Some (1, [Some "e.so"; None; None; Some "h.hex"; None; None; None; None; None; None], 0)) as Hc by reflexivity.
  destruct (main_files (EV:=PclEvp) (O:=ToyRsa.ops) (fun _ _ _ => 0) 0 None (fun _ => true) (fun _ _ => None) (fun _ => XmlDefault)
    argv fs _ _ _ Hc) as [H1 H2].
  split; [exact E|]. split; [apply (H2 E OUTPUT "h.hex"); [by left|done]|].
  rewrite H1; [done|]. intros (i & Hi & Hp). rewrite !elem_of_cons, elem_of_nil in Hi.
  by destruct Hi as [->|[->|[->|[->|[]]]]].
Defined.

(** ** Reading back what was written *)

Lemma slice_write_at off data file : 0 <= off -> slice off (zlen data) (write_at off data file) = data /\
  off + zlen data <= zlen (write_at off data file).
Proof.
  intros Ho. unfold write_at.
  assert (off + zlen data <= zlen (file ++ zreplicate (off + zlen data - zlen file) 0)) as Hl
    by (rewrite length_app, Nat2Z.inj_add, zlen_zreplicate; lia).
  split; [by apply slice_splice_same|]. by rewrite zlen_splice.
Qed.

Lemma znth_write_at off data file i b : 0 <= off -> znth file i = Some b -> i < off \/ off + zlen data <= i ->
  znth (write_at off data file) i = Some b.
Proof.
  intros Ho. rewrite !znth_lookup. destruct (Z.ltb_spec i 0); [done|]. intros Hi Hout.
  pose proof (lookup_lt_Some _ _ _ Hi). unfold write_at, splice. rewrite ztake_take, zdrop_drop.
  set (g := file ++ _). assert (g !! Z.to_nat i = Some b) as Hg by (by apply lookup_app_l_Some).
  pose proof (lookup_lt_Some _ _ _ Hg) as Hgl. destruct Hout.
  - rewrite lookup_app_l by (rewrite length_take; lia). rewrite lookup_take_lt by lia. done.
  - rewrite lookup_app_r by (rewrite length_take; lia). rewrite lookup_app_r by (rewrite length_take; lia).
    rewrite lookup_drop, <- Hg. f_equal. rewrite length_take. lia.
Qed.

(** A block that was written to a file, at an offset of an existing file
    or to a new one, is what [read_file_to_buf] reads back there; in an
    existing file every other byte is as before. *)
Theorem file_write_read (writable : string -> bool) (path : string) (mode : openmode) (buf : list Z) (off : Z) (fs fs' : FS)
    (Hm : mode <> OUT_APP) (Ho : 0 <= off < 2 ^ 63)
    (Hw : write_data_to_file writable path mode buf off fs = (fs', true)) :
  read_file_to_buf path (zlen buf) off fs' = Some buf /\
  (mode = IN_OUT -> exists f f', fs !! path = Some f /\ fs' !! path = Some f' /\
     forall i b, znth f i = Some b -> i < off \/ off + zlen buf <= i -> znth f' i = Some b).
Proof.
  unfold write_data_to_file in Hw. destruct (Z.eqb_spec (zlen buf) 0) as [|Hz]; [done|]. destruct (writable path); [|done]. cbn [negb] in Hw.
  assert (forall f, fs' = <[path := write_at off buf f]> fs -> read_file_to_buf path (zlen buf) off fs' = Some buf) as Hr.
  { intros f ->. unfold read_file_to_buf. rewrite lookup_insert_eq. destruct (Z.eqb_spec (zlen buf) 0); [done|].
    destruct (slice_write_at off buf f) as [Hs Hl]; [lia|]. rewrite Hs.
    destruct (Z.leb_spec (2 ^ 63) off); [lia|]. destruct (Z.ltb_spec (zlen (write_at off buf f)) (off + zlen buf)); [lia|done]. }
  destruct mode; [|done|].
  - injection Hw as <-. split; [by eapply Hr|done].
  - destruct (fs !! path) as [f|] eqn:Ef; [|done]. destruct (Z.leb_spec (2 ^ 63) off); [lia|]. injection Hw as <-.
    split; [by eapply Hr|]. intros _. exists f, (write_at off buf f). split_and!; [done|by rewrite lookup_insert_eq|].
    intros i b Hi Hout. apply znth_write_at; [lia|done..].
Qed.

Lemma file_write_read_witness :
  let fs := <["e.so" := [1; 2; 3; 4; 5]]> (∅ : FS) in
  exists fs', write_data_to_file (fun _ => true) "e.so" IN_OUT [9; 8] 2 fs = (fs', true) /\
    read_file_to_buf "e.so" 2 2 fs' = Some [9; 8] /\ fs' !! "e.so" = Some [1; 2; 9; 8; 5].
Proof.
  intros fs. eexists. split; [reflexivity|]. split; [|reflexivity].
  refine (proj1 (file_write_read (fun _ => true) "e.so" IN_OUT [9; 8] 2 fs _ _ _ _)); [done|lia|reflexivity].
Defined.

(** Copying a file onto itself empties it: the destination is opened for
    writing, and so truncated, before the source is read. *)
Theorem copy_file_self (writable : string -> bool) (path : string) (file : list Z) (fs : FS)
    (Hw : writable path = true) (Hf : fs !! path = Some file) :
  copy_file writable path path fs = (<[path := []]> fs, true).
Proof. unfold copy_file. rewrite Hf, Hw. cbn [negb]. by rewrite lookup_insert_eq, insert_insert_eq. Qed.

Lemma copy_file_self_witness :
  copy_file (fun _ => true) "e.so" "e.so" (<["e.so" := [1; 2; 3]]> (∅ : FS)) = (<["e.so" := []]> (<["e.so" := [1; 2; 3]]> ∅), true).
Proof. apply (copy_file_self (fun _ => true) "e.so" [1; 2; 3]); reflexivity. Defined.
