(* ===== verification/Sample.v ===== *)
(** * A sample enclave file

    A small ELF file with one data segment, one page of .sgx_mage, a dynamic
    symbol g_global_data and an empty metadata note: concrete input on which
    the parser, the metadata builder and the loader are run. *)
From S2P Require Import Prelude Bytes Sha256 Arch Measure Creator Mage Loader LoaderSim MageLoad Pipeline.
From S2P Require Import Elf GlobalData Metadata CmdLine Signature Compat Dump SignTool.
From stdpp Require Import gmap.

#[local] Open Scope Z_scope.

Module Sample.

(** Write a list of little-endian integers [(width, value)] at an offset. *)
Definition ints (l : list (Z * Z)) : list Z := concat (map (fun x => le_bytes (Z.to_nat (fst x)) (snd x)) l).
Definition put (off : Z) (bytes img : list Z) : list Z := splice off bytes img.

Definition ehdr : list Z :=
  ELFMAG ++ [ELFCLASS64; ELFDATA2LSB; EV_CURRENT] ++ zreplicate 9 0 ++
  ints [(2, ET_DYN); (2, EM_X86_64); (4, 1); (8, 0x700); (8, 64); (8, 0x200); (4, 0); (2, 64); (2, 56); (2, 3);
        (2, 64); (2, 6); (2, 1)].

Definition phdr (type flags off fsz : Z) : list Z :=
  ints [(4, type); (4, flags); (8, off); (8, off); (8, off); (8, fsz); (8, fsz); (8, 0x1000)].

Definition shdr (name type flags off size align ent : Z) : list Z :=
  ints [(4, name); (4, type); (8, flags); (8, off); (8, off); (8, size); (4, 0); (4, 0); (8, align); (8, ent)].

Definition shstrtab : list Z :=
  [0] ++ str_bytes ".sgx_mage" ++ [0] ++ str_bytes ".note.sgxmeta" ++ [0] ++ str_bytes ".dynsym" ++ [0].

Definition headers : list Z :=
  ehdr ++ phdr PT_LOAD (Z.lor PF_R PF_W) 0 0x1000 ++ phdr PT_LOAD PF_R 0x1000 0x1000 ++ phdr PT_DYNAMIC PF_R 0x180 48.

Definition section_headers : list Z :=
  shdr 0 0 0 0 0 0 0 ++ shdr 0 3 0 0x4c0 0x40 1 0 ++ shdr 25 11 0 0x400 48 8 24 ++ shdr 0 3 0 0x480 0x20 1 0 ++
  shdr 11 7 0 0x540 33 1 0 ++ shdr 1 1 0 0x1000 0x1000 0x1000 0.

Definition elf : list Z :=
  put 0 headers (
  put 0x180 (ints [(8, DT_SYMTAB); (8, 0x400); (8, DT_STRTAB); (8, 0x480); (8, 0); (8, 0)]) (
  put 0x200 section_headers (
  put 0x400 (zreplicate 24 0 ++ ints [(4, 1); (1, 0x11); (1, 0); (2, 1); (8, 0x800); (8, 0)]) (
  put 0x480 ([0] ++ str_bytes "g_global_data" ++ [0]) (
  put 0x4c0 shstrtab (
  put 0x540 (ints [(4, 13); (4, 8); (4, 1)] ++ META_NAME) (zreplicate 0x2000 0))))))).

(** The configuration: two stack pages, one heap page, no reserved memory *)
Definition config : xml_file :=
  XmlRoot (MkRoot false [MkChild false "StackMaxSize" (Some "0x2000"); MkChild false "HeapMaxSize" (Some "0x1000")]).
Definition params : list xml_parameter_t := Eval vm_compute in fst (parse_metadata_file config default_parameters).

Definition ok_or {E A} (d : A) (r : res E A) : A := match r with Ok a => a | _ => d end.

(** The file parsed, its metadata, and the file as the loader sees it *)
Definition ep : ElfParser := Eval vm_compute in ok_or elf_new (parse_enclave elf).
Definition ms : Section_ := Eval vm_compute in default (MkSection 0 0 0 0 0 0) (ep_mage_section ep).
Definition today : option (Z * Z * Z) := Some (2020, 1, 1).
Abbreviation cm := (build_metadata ep 0 today params cmetadata_new).
Definition md : list Z := m_metadata (fst cm).
Definition mprotect (addr len prot : Z) : Z := 0.
Abbreviation bp := (bin_parser ep mprotect).
Abbreviation log := (enclave_log (HF:=sha256_hash_fn) mprotect (set_for_sign bp true) md elf).
Definition tr : list mevent := fst (default ([], []) log).
Definition patched : list Z := snd (default ([], []) log).

(** A test evaluated by the kernel's conversion, without the virtual machine:
    the hash of the log is not needed, and is not computed. *)
Ltac by_eval := exact_no_check (eq_refl true).

(** The file with any 56 bytes at the start of the MAGE section *)
Abbreviation filled w := (splice (s_offset ms) w elf).

Lemma list_56 (w : list Z) : zlen w = 56 -> w = map (fun i => nth i w 0) (seq 0 56).
Proof.
  intros H. apply list_eq. intros i. change (map ?f ?l) with (f <$> l).
  rewrite list_lookup_fmap. destruct (decide (i < 56)%nat).
  - rewrite lookup_seq_lt by done. cbn. rewrite nth_lookup.
    by destruct (lookup_lt_is_Some_2 w i) as [x ->]; [lia|].
  - rewrite lookup_seq_ge by lia. by apply lookup_ge_None_2; lia.
Qed.

Lemma parse_filled w : zlen w = 56 -> parse_enclave (filled w) = Ok ep.
Proof. intros ->%list_56. exact_no_check (eq_refl (Ok (E:=unit) ep)). Qed.

Definition is_ok {E A} (r : res E A) : bool := match r with Ok _ => true | _ => false end.

Lemma run_Ok {S E} (x : S * res E unit) : is_ok (snd x) = true -> x = (fst x, Ok tt).
Proof. by destruct x as [s [[]| |]]. Qed.

Lemma cm_built : cm = (fst cm, Ok tt).
Proof.
  assert (is_ok (snd cm) = true) as E by by_eval. exact (run_Ok cm E).
Qed.

Lemma forallb_Forall {A} (f : A -> bool) (P : A -> Prop) l : (forall a, f a = true -> P a) -> forallb f l = true -> Forall P l.
Proof. intros Hf. induction l as [|a l IH]; cbn [forallb]; [done|]. intros [??]%andb_true_iff. constructor; auto. Qed.

Lemma md_bytes : bytes_ok md.
Proof.
  apply (forallb_Forall (fun b => (0 <=? b) && (b <? 256))); [intros b Hb; zbool; lia|]. by_eval.
Qed.

Lemma no_relocs img : bp_reloc_bitmap bp img = Ok [].
Proof. reflexivity. Qed.

Lemma elf_length : zlen elf = 0x2000.
Proof. assert ((zlen elf =? 0x2000) = true) as E by by_eval. by apply Z.eqb_eq in E. Qed.

Lemma layout : mage_layout bp md ms elf.
Proof.
  pose proof elf_length.
  constructor.
  - reflexivity.
  - cbn [s_raw_data s_rva s_virtual_size ms]. lia.
  - cbn [s_raw_data s_virtual_size ms]. unfold SE_PAGE_SIZE. lia.
  - split; reflexivity.
  - cbn [bin_parser bp_sections ep ep_sections]. unfold section_maps_mage, SE_PAGE_SIZE.
    repeat constructor; cbn; lia.
  - apply md_bytes.
  - apply (forallb_Forall (fun o => match o with Some p => (p_dst p + p_size p <=? 0x1000) || (0x2000 <=? p_dst p) | None => true end)).
    + intros [p|] Hp; [|done]. cbn [s_raw_data s_virtual_size ms]. zbool. lia.
    + by_eval.
Qed.

(** The log exists; it is 36416 bytes long. *)
Lemma log_tr : log = Some (tr, patched) /\ zlen (trace_bytes tr) = 36416.
Proof.
  assert ((match log with Some (t, _) => zlen (trace_bytes t) =? 36416 | None => false end) = true) as H by by_eval.
  unfold tr, patched. destruct log as [[t p]|]; [|discriminate H]. split; [reflexivity|]. by apply Z.eqb_eq in H.
Qed.

(** The checks of the tool do not look at the section. *)
Lemma filled_checks w : zlen w = 56 ->
  has_init_section (filled w) = Ok false /\ get_enclave_info_ ep (filled w) false = Ok 1369 /\
  dump_textrels (filled w) = Ok true.
Proof.
  intros ->%list_56. split_and!.
  - exact_no_check (eq_refl (Ok (E:=sgx_status_t) false)).
  - exact_no_check (eq_refl (Ok (E:=unit) 1369)).
  - exact_no_check (eq_refl (Ok (E:=sgx_status_t) true)).
Qed.

Lemma elf_filled : elf = filled (zreplicate 56 0).
Proof. apply (bool_decide_eq_true_1 (elf = filled (zreplicate 56 0))). by_eval. Qed.
End Sample.
