(* ===== verification/MageTool.v ===== *)
(** * The MAGE tool chain end to end

    What the commands of the signing tool compute, in terms of the reference
    measurement [enclave_log]: [measure_enclave_log] for one measurement,
    then genmage, the filling of the section by signmage and the measurement
    that is signed, and the derivation inside an enclave. *)
From S2P Require Import Prelude Bytes Sha256 Arch Measure Creator Mage Loader LoaderSim MageLoad Pipeline.
From S2P Require Import Elf GlobalData Metadata CmdLine Signature Compat Dump SignTool Sample.
From stdpp Require Import gmap.

#[local] Open Scope Z_scope.

Section MageTool.
Context {HF : HashFn} {Ctx : Type} {EV : Evp Ctx} {EL : EvpLaws Ctx} {H : Type} {TC : Tcrypto H} {TL : TcryptoLaws H}.
Context (mprotect : Z -> Z -> Z -> Z) (base : Z) (now : option (Z * Z * Z)) (writable : string -> bool).

Abbreviation measure := (measure_enclave mprotect base now).

(** The checks of measure_enclave that come before the load: the parsed
    file, its metadata and the offset of the metadata in the file. *)
Definition tool_view (img : list Z) (ps : list xml_parameter_t) (bits : Z) : option (ElfParser * list Z * Z) :=
  match parse_enclave img with
  | Ok ep =>
      match has_init_section img, build_metadata ep base now ps cmetadata_new, get_enclave_info_ ep img false,
            dump_textrels img with
      | Ok init, (cm, Ok _), Ok off, Ok no_rel =>
          if (negb (init && negb (IGNORE_INIT_SEC_ERROR bits))) && (no_rel || IGNORE_REL_ERROR bits)
          then Some (ep, m_metadata cm, off) else None
      | _, _, _, _ => None
      end
  | _ => None
  end.

(** for_sign only selects whether the MAGE pages are loaded. *)
Lemma build_metadata_for_sign b ep ps c :
  build_metadata (elf_set_for_sign b ep) base now ps c = build_metadata ep base now ps c.
Proof. reflexivity. Qed.

Lemma bin_parser_for_sign b ep :
  bin_parser (elf_set_for_sign b ep) mprotect = set_for_sign (bin_parser ep mprotect) b.
Proof. reflexivity. Qed.

(** The state of main's locals that a measurement leaves *)
Definition measured (t t' : Tool Ctx) (ep : ElfParser) (md : list Z) (off : Z) (h : list Z) : Prop :=
  t_fs t' = t_fs t /\ t_metadata t' = md /\ t_meta_offset t' = off /\ t_hash t' = h /\
  creator_ok (t_creator t') /\
  (forall s, ep_mage_section ep = Some s ->
     t_mage_rva t' = s_rva s /\ t_mage_offset t' = s_offset s /\ t_mage_size t' = s_virtual_size s).

Lemma measure_enclave_log path img ps bits want b t ep md off tr p :
  t_fs t !! path = Some img -> creator_ok (t_creator t) -> tool_view img ps bits = Some (ep, md, off) ->
  enclave_log mprotect (set_for_sign (bin_parser ep mprotect) b) md img = Some (tr, p) ->
  exists t' e, measure path ps bits want b t = (t', Ok (if want : bool then Some e else None)) /\
    measured t t' ep md off (mrenclave tr) /\ forallb event_ok tr = true /\
    me_size e = u64 (me_size (SignST.m_mage (t_creator t)) + zlen (trace_bytes tr)) /\
    me_digest e = words8_le (hf_state (trace_bytes tr)).
Proof.
  intros Hf Hc Hv Hlog. unfold tool_view in Hv.
  destruct (parse_enclave img) as [ep'| |] eqn:Ep; [|done..].
  destruct (has_init_section img) as [init| |] eqn:Ei; [|done..].
  destruct (build_metadata ep' base now ps cmetadata_new) as [cm [[]| |]] eqn:Em; [|done..].
  destruct (get_enclave_info_ ep' img false) as [off'| |] eqn:Eg; [|done..].
  destruct (dump_textrels img) as [nr| |] eqn:Er; [|done..].
  destruct (_ && _) eqn:Eb; [|done]. injection Hv as -> <- ->. apply andb_true_iff in Eb as [Eb1 Eb2].
  destruct (sign_load mprotect _ _ _ (t_creator t) _ _ Hc Hlog) as (s' & m & El & _ & Hc' & Hok & Hi).
  destruct (Hi want) as (q & e & Hinfo & He1 & He2). apply (load_ex_first mprotect _ _ 4) in El.
  unfold measure_enclave, mget. unfold mbind at 1, M_bind at 1. rewrite Hf.
  rewrite Ep. unfold mbind at 1, M_bind at 1, mlift at 1.
  set (t0 := match ep_mage_section ep with
             | Some s => set_mage_ (s_rva s) (s_offset s) (s_virtual_size s) t | None => t end).
  unfold mbind at 1, M_bind at 1.
  replace ((match ep_mage_section ep with Some s => mmod _ | None => mret tt end) t) with
    (t0, Ok (E:=unit) tt) by (unfold t0; by destruct (ep_mage_section ep)).
  rewrite Ei, build_metadata_for_sign, Em. cbn [unit_err]. rewrite bind_lift_Ok.
  unfold need. rewrite Eb1. unfold mbind at 1, M_bind at 1, mret at 1, M_ret at 1.
  unfold mbind at 1, M_bind at 1, mmod at 1. rewrite !bind_lift_Ok.
  change (get_enclave_info_ (elf_set_for_sign b ep) img false) with (get_enclave_info_ ep img false).
  rewrite Eg, !bind_lift_Ok. unfold mbind at 1, M_bind at 1, mmod at 1.
  rewrite Er. cbn [unit_err]. rewrite bind_lift_Ok, Eb2. unfold mbind at 1, M_bind at 1, mret at 1, M_ret at 1.
  unfold load_enclave_. rewrite bin_parser_for_sign. unfold cloader_new, load_fuel. unfold start in El. rewrite El.
  rewrite Hinfo. eexists _, e. split; [reflexivity|]. split; [|done].
  unfold measured, t0. split_and!; try done; destruct (ep_mage_section ep) as [sec|] eqn:Es; try done.
  intros s [= <-]. done.
Qed.

(** The entry genmage writes for an enclave whose log without the MAGE pages
    is [tr] *)
Definition genmage_entry (ms : Section_) (tr : list mevent) : sgx_mage_entry_t :=
  MkMage (zlen (trace_bytes tr)) (s_rva ms) (words8_le (hf_state (trace_bytes tr))).

Lemma genmage_entry_ok ms tr : is_u64 (s_rva ms) -> zlen (trace_bytes tr) < 2 ^ 64 -> mage_entry_ok (genmage_entry ms tr).
Proof. clear mprotect base now writable. intros. split_and!; [|done|apply zlen_words8_le]. unfold is_u64. cbn [me_size genmage_entry]. lia. Qed.

Lemma run_genmage_spec fs dll mageout img ps bits ep md off ms tr p :
  fs !! dll = Some img -> tool_view img ps bits = Some (ep, md, off) -> ep_mage_section ep = Some ms ->
  enclave_log mprotect (set_for_sign (bin_parser ep mprotect) true) md img = Some (tr, p) ->
  zlen (trace_bytes tr) < 2 ^ 64 -> writable mageout = true ->
  exists t', run_genmage mprotect base now writable dll mageout ps bits (tool_new fs) = (t', Ok tt) /\
    t_fs t' = <[mageout := default [] (fs !! mageout) ++ mage_entry_bytes (genmage_entry ms tr)]> fs.
Proof.
  intros Hf Hv Hms Hlog Htr Hw.
  destruct (measure_enclave_log dll img ps bits true true (tool_new fs) ep md off tr p Hf creator_ok_new Hv Hlog)
    as (t' & e & Em & (Hfs & _ & _ & _ & _ & Hmage) & _ & Hs & Hd).
  destruct (Hmage ms Hms) as (Hrva & _ & _).
  unfold run_genmage. rewrite (bind_Ok _ _ _ _ _ Em). cbn [deref]. rewrite bind_lift_Ok.
  unfold mget. unfold mbind at 1, M_bind at 1.
  assert (MkMage (me_size e) (t_mage_rva t') (me_digest e) = genmage_entry ms tr) as ->.
  { unfold genmage_entry. rewrite Hs, Hd, Hrva. f_equal. cbn [tool_new t_creator SignST.EnclaveCreatorST
      SignST.m_mage mage_zero me_size]. rewrite Z.add_0_l. apply u64_id. split; [lia|done]. }
  assert ((zlen (mage_entry_bytes (genmage_entry ms tr)) =? 0) = false) as Hz.
  { unfold mage_entry_bytes. rewrite !zlen_app, !length_le_bytes. lia. }
  unfold with_fs, mget, mbind, M_bind, write_data_to_file. rewrite Hz, Hw. cbn [negb mput need].
  eexists. split; [reflexivity|]. cbn [t_fs set_fs]. by rewrite Hfs.
Qed.

(** The file of entries as signmage reads it *)
Definition entries_file (entries : list sgx_mage_entry_t) : list Z := concat (map mage_entry_bytes entries).

Lemma zlen_entries_file entries :
  Forall mage_entry_ok entries -> zlen (entries_file entries) = zlen entries * sizeof_mage_entry.
Proof.
  clear mprotect base now writable.
  intros Hok. pose proof (zlen_mage_section _ Hok) as Hz. unfold mage_section in Hz.
  rewrite zlen_app, length_le_bytes in Hz. unfold entries_file, sizeof_mage_t in *. lia.
Qed.

Lemma write_at_inside off data file :
  0 <= off -> off + zlen data <= zlen file -> write_at off data file = splice off data file.
Proof.
  clear mprotect base now writable.
  intros. unfold write_at. replace (zreplicate _ 0) with (@nil Z); [by rewrite app_nil_r|].
  unfold zreplicate. by replace (Z.to_nat _) with 0%nat by lia.
Qed.

Lemma fill_mage_section_spec t out magein img entries ps bits ep md off ms tr p :
  Forall mage_entry_ok entries -> entries <> [] -> zlen (mage_section entries) <= SGX_MAGE_SEC_SIZE ->
  0 <= s_offset ms < 2 ^ 63 -> s_offset ms + zlen (mage_section entries) <= zlen img ->
  t_fs t !! magein = Some (entries_file entries) -> t_fs t !! out = Some img -> writable out = true ->
  creator_ok (t_creator t) -> tool_view img ps bits = Some (ep, md, off) -> ep_mage_section ep = Some ms ->
  enclave_log mprotect (set_for_sign (bin_parser ep mprotect) true) md img = Some (tr, p) ->
  exists t', fill_mage_section mprotect base now writable out magein ps bits t = (t', Ok tt) /\
    t_fs t' = <[out := splice (s_offset ms) (mage_section entries) img]> (t_fs t) /\ creator_ok (t_creator t').
Proof.
  intros Hok Hne Hfit Hoff Hin Hmi Hout Hw Hc Hv Hms Hlog.
  pose proof (zlen_mage_section _ Hok) as Hz. pose proof (zlen_entries_file _ Hok) as Hze.
  assert (0 < zlen entries) as Hpos by (destruct entries; [done|cbn [length]; lia]).
  unfold sizeof_mage_t, sizeof_mage_entry, SGX_MAGE_SEC_SIZE in *.
  unfold fill_mage_section, mget. unfold mbind at 1, M_bind at 1. unfold get_file_size. rewrite Hmi, Hze.
  unfold sizeof_mage_entry. rewrite Z.mod_mul, Z.div_mul by lia.
  unfold sizeof_mage_t, SGX_MAGE_SEC_SIZE. rewrite (u64_id (_ + 8)) by (unfold is_u64; lia).
  replace (4096 <? _) with false by lia. unfold mbind at 1, M_bind at 1. cbn [Z.eqb negb orb need mret M_ret].
  unfold read_file_to_buf at 1. rewrite Hmi, Hze. unfold sizeof_mage_entry.
  replace (_ =? 0) with false by lia. replace (_ || _) with false by lia.
  replace (slice 0 _ (entries_file entries)) with (entries_file entries).
  2:{ rewrite slice_0, ztake_ge; [done|]. rewrite Hze. unfold sizeof_mage_entry. lia. }
  destruct (measure_enclave_log out img ps bits false true t ep md off tr p Hout Hc Hv Hlog)
    as (t1 & e & Em & (Hfs & _ & _ & _ & Hc1 & Hmage) & _).
  destruct (Hmage ms Hms) as (_ & Ho & _). rewrite (bind_Ok _ _ _ _ _ Em).
  unfold mbind at 1, M_bind at 1.
  change (le_bytes 8 (zlen entries) ++ entries_file entries) with (mage_section entries).
  unfold mbind at 1, M_bind at 1, with_fs, mget. unfold mbind at 1, M_bind at 1.
  unfold write_data_to_file. rewrite Hw, Ho, Hfs, Hout. replace (zlen (mage_section entries) =? 0) with false by lia.
  replace (2 ^ 63 <=? s_offset ms) with false by lia. cbn [negb need].
  rewrite write_at_inside by lia. unfold mput. unfold mbind, M_bind. cbn [mret M_ret].
  unfold read_file_to_buf. cbn [t_fs set_fs]. rewrite lookup_insert_eq.
  replace (2 ^ 63 <=? s_offset ms) with false by lia. rewrite zlen_splice by lia.
  replace (_ =? 0) with false by lia. replace (zlen img <? _) with false by lia. cbn [orb].
  by eexists.
Qed.

(** Writing inside [lo, hi) changes nothing outside. *)
Lemma splice_agree lo hi (w img : list Z) :
  0 <= lo -> lo + zlen w <= hi -> hi <= zlen img -> agree lo hi (splice lo w img) img.
Proof.
  clear mprotect base now writable.
  intros Hlo Hw Hhi. split; [apply zlen_splice; lia|].
  intros i Hi. unfold splice. rewrite !ztake_take, !zdrop_drop, !lookup_app, !length_take, !lookup_drop.
  destruct (decide (i < Z.to_nat lo)%nat).
  - rewrite lookup_take_lt by done. by destruct (lookup_lt_is_Some_2 img i) as [x ->]; [lia|].
  - rewrite lookup_take_ge by lia. rewrite lookup_ge_None_2 by lia. f_equal. lia.
Qed.

(** The heart of the scheme.  [tr] is the log without the MAGE pages; when
    the section holds the entry made from it, the log of the filled file and
    the derivation inside the enclave end in the same measurement. *)
Lemma derive_filled bp md ms img tr p entries i :
  mage_layout bp md ms img -> s_virtual_size ms = SGX_MAGE_SEC_SIZE ->
  enclave_log mprotect (set_for_sign bp true) md img = Some (tr, p) -> forallb event_ok tr = true ->
  zlen (trace_bytes tr) + 5184 < MAX_MSG ->
  Forall mage_entry_ok entries -> zlen (mage_section entries) <= SGX_MAGE_SEC_SIZE ->
  entries !! i = Some (genmage_entry ms tr) ->
  let img2 := splice (s_raw_data ms) (mage_section entries) img in
  bp_reloc_bitmap bp img2 = bp_reloc_bitmap bp img ->
  exists tr2 p2, enclave_log mprotect (set_for_sign bp false) md img2 = Some (tr2, p2) /\
    sgx_mage_derive_measurement (slice (s_raw_data ms) SGX_MAGE_SEC_SIZE img2) (Z.of_nat i) false =
      Ok (mrenclave tr2).
Proof.
  intros Hl Hvs Hlog Hok Hm Hes Hfit Hi img2 Hrel. pose proof Hl as [Hsec Hr Hf _ _ _ _].
  pose proof (zlen_mage_section _ Hes) as Hz. rewrite Hvs in Hr, Hf.
  assert (agree (s_raw_data ms) (s_raw_data ms + s_virtual_size ms) img2 img) as Ha.
  { apply splice_agree; rewrite ?Hvs; lia. }
  destruct (enclave_log_mage mprotect bp md ms img img2 tr p Hl Ha Hrel Hlog) as (p2 & Hlog2 & Hz2 & Hsl).
  rewrite Hvs in Hlog2, Hsl. change (Z.to_nat (SGX_MAGE_SEC_SIZE / SE_PAGE_SIZE)) with 1%nat in Hlog2.
  cbn [mage_loop_events] in Hlog2. rewrite app_nil_r in Hlog2.
  replace (s_raw_data ms + SGX_MAGE_SEC_SIZE - s_raw_data ms) with SGX_MAGE_SEC_SIZE in Hsl by lia.
  eexists _, p2. split; [exact Hlog2|].
  assert (exists rest, slice (s_raw_data ms) SGX_MAGE_SEC_SIZE img2 = mage_section entries ++ rest) as (rest & Esec).
  { unfold img2, splice, slice. rewrite zdrop_app_ge by (rewrite zlen_ztake; lia).
    rewrite zlen_ztake. replace (_ - _) with 0 by lia. rewrite (zdrop_le0 0), ztake_app_ge by lia. by eexists. }
  pose proof (proj1 Ha) as Hlen. unfold sizeof_mage_t, sizeof_mage_entry, SGX_MAGE_SEC_SIZE in *.
  pose proof (lookup_lt_Some _ _ _ Hi).
  assert (mage_count (slice (s_raw_data ms) 4096 img2) = zlen entries) as Hc.
  { rewrite Esec. apply mage_count_section. split; lia. }
  rewrite (derive_measurement_spec _ _ tr (genmage_entry ms tr)); rewrite ?Hc;
    unfold sizeof_mage_t, sizeof_mage_entry, SGX_MAGE_SEC_SIZE; auto; try lia.
  - cbn [me_offset genmage_entry]. do 3 f_equal. apply page_events_take.
    unfold slice in *. rewrite <- Hsl at 1. by rewrite ztake_ztake.
  - rewrite zlen_slice; lia.
  - rewrite Esec. apply mage_entry_section; auto. split; unfold sizeof_mage_t, sizeof_mage_entry; lia.
Qed.

(** The MAGE section of a parsed file lies at its own offset. *)
Lemma tool_view_mage img ps bits ep md off ms :
  tool_view img ps bits = Some (ep, md, off) -> ep_mage_section ep = Some ms -> s_offset ms = s_raw_data ms.
Proof.
  intros Hv Hms. unfold tool_view in Hv. destruct (parse_enclave img) as [ep'| |] eqn:Ep; [|done..].
  assert (ep' = ep) as ->. { repeat case_match; by simplify_eq. }
  unfold parse_enclave in Ep. destruct (check_elf_format img); [|done..].
  destruct (run_parser img elf_new) as [p [[]| |]] eqn:Er; [|done..]. injection Ep as ->.
  apply parse_file_parsed in Er as (? & ? & [_ _ _ _ _ _ _ _ _ _ Hmage _]); [|done].
  rewrite Hms in Hmage. unfold build_mage_section in Hmage. ok_bind Hmage sh Hsh. destruct sh; [|done].
  ok_bind Hmage o Ho. ok_bind Hmage n Hn. ok_bind Hmage a Ha. by injection Hmage as <-.
Qed.

(** C1. Mutual measurement.  An enclave file passes the checks of the tool;
    its MAGE section is one page, laid out as [mage_layout] says.  Then
    (a) genmage succeeds and appends to its output the entry made from the
    measurement log without the MAGE page; and (b) when signmage fills the
    section of the output file with any list of entries that holds this entry
    at position [i], the filling and the measurement of the filled file
    succeed, and sgx_mage_derive_measurement, run by a peer enclave that has
    the same section, returns for index [i] the MRENCLAVE that is signed. *)
Theorem mage_end_to_end img ps bits ep md off ms tr p fs dll mageout (t : Tool Ctx) out magein entries i :
  tool_view img ps bits = Some (ep, md, off) -> ep_mage_section ep = Some ms ->
  s_virtual_size ms = SGX_MAGE_SEC_SIZE -> zlen img < 2 ^ 63 ->
  mage_layout (bin_parser ep mprotect) md ms img ->
  enclave_log mprotect (set_for_sign (bin_parser ep mprotect) true) md img = Some (tr, p) ->
  zlen (trace_bytes tr) + 5184 < MAX_MSG ->
  fs !! dll = Some img -> writable mageout = true ->
  creator_ok (t_creator t) -> t_fs t !! out = Some img -> writable out = true ->
  t_fs t !! magein = Some (entries_file entries) ->
  Forall mage_entry_ok entries -> zlen (mage_section entries) <= SGX_MAGE_SEC_SIZE ->
  entries !! i = Some (genmage_entry ms tr) ->
  let img2 := splice (s_offset ms) (mage_section entries) img in
  tool_view img2 ps bits = Some (ep, md, off) ->
  bp_reloc_bitmap (bin_parser ep mprotect) img2 = bp_reloc_bitmap (bin_parser ep mprotect) img ->
  (exists t1, run_genmage mprotect base now writable dll mageout ps bits (tool_new fs) = (t1, Ok tt) /\
     t_fs t1 = <[mageout := default [] (fs !! mageout) ++ mage_entry_bytes (genmage_entry ms tr)]> fs) /\
  (exists t2 t3, fill_mage_section mprotect base now writable out magein ps bits t = (t2, Ok tt) /\
     t_fs t2 = <[out := img2]> (t_fs t) /\
     measure out ps bits false false t2 = (t3, Ok None) /\
     sgx_mage_derive_measurement (slice (s_offset ms) SGX_MAGE_SEC_SIZE img2) (Z.of_nat i) false = Ok (t_hash t3)).
Proof.
  intros Hv Hms Hvs Hlen Hl Hlog Hm Hdll Hwm Hc Hout Hwo Hmi Hes Hfit Hi img2 Hv2 Hrel.
  pose proof (tool_view_mage _ _ _ _ _ _ _ Hv Hms) as Ho. pose proof Hl as [_ Hr Hf _ _ _ _]. rewrite Hvs in Hf.
  unfold MAX_MSG, SGX_MAGE_SEC_SIZE in *. split; [by eapply run_genmage_spec; eauto; lia|].
  destruct (fill_mage_section_spec t out magein img entries ps bits ep md off ms tr p) as (t2 & E2 & Hfs & Hc2); auto;
    unfold SGX_MAGE_SEC_SIZE; try (rewrite ?Ho; lia).
  { by destruct entries. }
  destruct (measure_enclave_log out img ps bits false true t ep md off tr p Hout Hc Hv Hlog) as (_ & _ & _ & _ & Hok & _).
  unfold img2 in *. rewrite Ho in *.
  destruct (derive_filled (bin_parser ep mprotect) md ms img tr p entries i) as (tr2 & p2 & Hlog2 & Hd); auto.
  destruct (measure_enclave_log out _ ps bits false false t2 ep md off tr2 p2
              ltac:(rewrite Hfs; apply lookup_insert_eq) Hc2 Hv2 Hlog2) as (t3 & e & E3 & (_ & _ & _ & Hh & _) & _).
  exists t2, t3. rewrite Hh. split_and!; auto.
Qed.
End MageTool.

(** ** The sample enclave *)
Section SampleRun.
#[local] Existing Instance sha256_hash_fn.
#[local] Existing Instance PclEvp.

Lemma view_passes {A} (x : A) b c : (if negb (false && b) && (true || c) then Some x else None) = Some x.
Proof. reflexivity. Qed.

Lemma sample_view w : zlen w = 56 ->
  tool_view 0 Sample.today (Sample.filled w) Sample.params 0 = Some (Sample.ep, Sample.md, 1369).
Proof.
  intros Hw. destruct (Sample.filled_checks w Hw) as (E1 & E2 & E3).
  unfold tool_view. rewrite Sample.parse_filled, E1, E2, E3 by done.
  rewrite Sample.cm_built. unfold Sample.md. apply view_passes with (b := true) (c := false).
Qed.

Definition sample_entries : list sgx_mage_entry_t := [genmage_entry Sample.ms Sample.tr].

Lemma sample_entries_ok : Forall mage_entry_ok sample_entries.
Proof.
  apply Forall_singleton. apply genmage_entry_ok; [unfold is_u64; cbn [s_rva Sample.ms]; lia|].
  rewrite (proj2 Sample.log_tr). reflexivity.
Qed.

Lemma sample_section_size : zlen (mage_section sample_entries) = 56.
Proof. rewrite (zlen_mage_section _ sample_entries_ok). reflexivity. Qed.

Definition sample_files_of (f g : list Z) : gmap string (list Z) := <["enclave.so" := f]> (<["out.so" := f]> (<["mage.in" := g]> ∅)).

Lemma sample_files f g :
  sample_files_of f g !! "enclave.so" = Some f /\ sample_files_of f g !! "out.so" = Some f /\
  sample_files_of f g !! "mage.in" = Some g.
Proof. by repeat split. Qed.

Definition sample_fs : gmap string (list Z) := sample_files_of Sample.elf (entries_file sample_entries).

Lemma list_lookup_singleton_0 {A} (a : A) : [a] !! 0%nat = Some a.
Proof. reflexivity. Qed.
End SampleRun.

Lemma mage_end_to_end_witness :
  let HF := sha256_hash_fn in let EV := PclEvp in
  let img2 := splice (s_offset Sample.ms) (mage_section sample_entries) Sample.elf in
  exists (t2 t3 : Tool Pcl.SHA256_CTX),
    fill_mage_section Sample.mprotect 0 Sample.today (fun _ => true) "out.so" "mage.in" Sample.params 0
      (tool_new sample_fs) = (t2, Ok tt) /\
    measure_enclave Sample.mprotect 0 Sample.today "out.so" Sample.params 0 false false t2 = (t3, Ok None) /\
    sgx_mage_derive_measurement (slice (s_offset Sample.ms) SGX_MAGE_SEC_SIZE img2) 0 false = Ok (t_hash t3).
Proof.
  destruct Sample.log_tr as [Hlog Hz].
  destruct (mage_end_to_end (HF:=sha256_hash_fn) (EL:=PclEvpLaws) (TC:=RawTcrypto) (TL:=RawTcryptoLaws) Sample.mprotect 0 Sample.today (fun _ => true)
    Sample.elf Sample.params 0 Sample.ep Sample.md 1369 Sample.ms Sample.tr Sample.patched
    sample_fs "enclave.so" "mage.out" (tool_new sample_fs) "out.so" "mage.in" sample_entries 0)
    as (_ & t2 & t3 & E2 & _ & E3 & Hd).
  - rewrite Sample.elf_filled. by apply sample_view.
  - reflexivity.
  - reflexivity.
  - rewrite Sample.elf_length. reflexivity.
  - exact Sample.layout.
  - exact Hlog.
  - rewrite Hz. reflexivity.
  - apply (proj1 (sample_files Sample.elf (entries_file sample_entries))).
  - reflexivity.
  - apply creator_ok_new.
  - apply (proj1 (proj2 (sample_files Sample.elf (entries_file sample_entries)))).
  - reflexivity.
  - apply (proj2 (proj2 (sample_files Sample.elf (entries_file sample_entries)))).
  - apply sample_entries_ok.
  - rewrite sample_section_size. done.
  - apply list_lookup_singleton_0.
  - apply (sample_view (mage_section sample_entries)), sample_section_size.
  - rewrite !Sample.no_relocs. reflexivity.
  - exists t2, t3. split_and!; [exact E2|exact E3|exact Hd].
Defined.
