(* ===== verification/SignRun.v ===== *)
(** * The sign command end to end

    sign_tool.cpp's [main] for the command [sign]: the output file is the
    enclave with its metadata filled in, the metadata holds the measurement
    of the enclave as the loader builds it, and the signature verifies. *)
From S2P Require Import Prelude Bytes Sha256 Arch Measure Creator Mage Loader LoaderSim MageLoad Pipeline.
From S2P Require Import Elf GlobalData Metadata CmdLine Signature Compat Dump SignTool Sample MageTool.
From stdpp Require Import gmap.

#[local] Open Scope Z_scope.

Section SignRun.
Context {HF : HashFn} {Ctx : Type} {EV : Evp Ctx} {EL : EvpLaws Ctx} {RSA : Type} {O : OpenSsl RSA} {L : OpenSslLaws RSA}.
Context (mprotect : Z -> Z -> Z -> Z) (base : Z) (now : option (Z * Z * Z)) (writable : string -> bool).
Context (read_pem : bool -> string -> option RSA) (read_xml : string -> xml_file).

Definition sign_argv (prog dll cfg key out : string) : list string :=
  [prog; "sign"; "-enclave"; dll; "-config"; cfg; "-key"; key; "-out"; out].

Lemma sign_argv_parse prog dll cfg key out :
  Forall (fun s => starts_with_dash s = false) [dll; cfg; key; out] ->
  cmdline_parse (sign_argv prog dll cfg key out) =
  Some (SIGN, [Some dll; Some cfg; Some key; Some out; None; None; None; None; None; None], 0).
Proof.
  rewrite !Forall_cons. intros (H1 & H2 & H3 & H4 & _). unfold sign_argv, cmdline_parse.
  change (find_mode modes "sign" 0) with (Some (0, params_sign)).
  cbn -[starts_with_dash Z.eqb]. rewrite H1, H2, H3, H4. reflexivity.
Qed.

(** The structure in the metadata, filled and signed *)
Lemma generate_output_sign k ktype (t : Tool Ctx) paths css1 css2 :
  ktype = PRIVATE_KEY -> path_of paths UNSIGNED = None ->
  fill_enclave_css (Some k) None (t_hash t) (css_of t) = Ok css1 -> create_signature (Some k) None css1 = Ok css2 ->
  generate_output (Ctx:=Ctx) writable SIGN ktype (Some k) paths t = (set_css css2 t, Ok tt).
Proof.
  intros -> Hu Hf Hs. unfold generate_output, mbind, M_bind, mget. cbn [Z.eqb SIGN orb]. unfold file_arg. rewrite Hu. cbn [option_map].
  unfold mlift. rewrite Hf, Hs. done.
Qed.

Lemma copy_to_new dll out img (t : Tool Ctx) :
  dll <> out -> writable out = true -> t_fs t !! dll = Some img ->
  with_fs (copy_file writable dll out) t = (set_fs (<[out := img]> (<[out := []]> (t_fs t))) t, Ok (E:=unit) tt) .
Proof.
  intros Hne Hw Hf. unfold with_fs, mbind, M_bind, mget, copy_file. rewrite Hf, Hw. cbn [negb].
  rewrite lookup_insert_ne by done. rewrite Hf. done.
Qed.

(** The metadata written into the copy *)
Lemma write_metadata out img off md' (t : Tool Ctx) :
  t_fs t !! out = Some img -> writable out = true -> off < 2 ^ 63 -> md' <> [] ->
  with_fs (write_data_to_file writable out IN_OUT (ztake METADATA_SIZE md') off) t =
  (set_fs (<[out := write_at off (ztake METADATA_SIZE md') img]> (t_fs t)) t, Ok (E:=unit) tt).
Proof.
  clear mprotect base now read_pem read_xml. intros Hf Hw Hoff Hne. unfold with_fs, mbind, M_bind, mget, write_data_to_file.
  assert (0 < zlen md') by (destruct md'; [done|cbn [length]; lia]).
  rewrite (proj2 (Z.eqb_neq _ _)) by (rewrite zlen_ztake; unfold METADATA_SIZE; lia).
  rewrite Hw, Hf. cbn [negb]. by destruct (Z.leb_spec (2 ^ 63) off); [lia|].
Qed.

Definition sign_paths (dll cfg key out : string) : list (option string) :=
  [Some dll; Some cfg; Some key; Some out; None; None; None; None; None; None].

(** The last step of the command: check the signature, add the metadata for
    older loaders, write. *)
Lemma write_signed out img off md' tcs k (t : Tool Ctx) :
  verify_signature k (css_of t) = true -> generate_compatible_metadata tcs (t_metadata t) = Ok md' ->
  t_fs t !! out = Some img -> t_meta_offset t = off -> writable out = true -> off < 2 ^ 63 -> md' <> [] ->
  (t ← mget;
   k ← mlift (deref (Some k));
   need (verify_signature k (css_of t)) ;;
   md ← mlift (generate_compatible_metadata tcs (t_metadata t));
   mmod (set_metadata_ md) ;;
   with_fs (write_data_to_file writable out IN_OUT (ztake METADATA_SIZE md) (t_meta_offset t))) t =
  (set_fs (<[out := write_at off (ztake METADATA_SIZE md') img]> (t_fs t)) (set_metadata_ md' t), Ok (E:=unit) tt).
Proof.
  intros Hv Hg Hf <- Hw Hoff Hne. cbn [deref]. unfold mbind at 1, M_bind at 1, mget at 1. rewrite bind_lift_Ok, Hv, Hg.
  unfold need, mret at 1, M_ret at 1. unfold mbind at 1, M_bind at 1. rewrite bind_lift_Ok.
  unfold mmod. unfold mbind at 1, M_bind at 1. by apply (write_metadata out img _ md' (set_metadata_ md' t)).
Qed.

(** C3. The sign command.  For an enclave file the tool accepts (the checks
    before the load pass, the loader's log of the enclave is [tr], the key is
    a usable private key and OpenSSL's functions succeed) and a metadata
    buffer with room for the copies for older loaders, the command ends with
    success; the output file is the enclave with the metadata and the copies
    written at its metadata offset; the signature structure put into the
    metadata holds the MRENCLAVE of the log and its signature verifies; no
    other file changes. *)
Theorem sign_command prog dll cfg key out fs img k ps ep md off tr p css1 css2 md'
    (Hargs : Forall (fun s => starts_with_dash s = false) [dll; cfg; key; out])
    (Hcfg : parse_metadata_file (read_xml cfg) default_parameters = (ps, true))
    (Hkey : read_pem true key = Some k) (Hk : key_ok k = true)
    (Hne : dll <> out) (Hw : writable out = true) (Hf : fs !! dll = Some img)
    (Hv : tool_view base now img ps 0 = Some (ep, md, off)) (Hoff : off < 2 ^ 63) (Hmd : zlen md = METADATA_SIZE)
    (Hlog : enclave_log mprotect (set_for_sign (bin_parser ep mprotect) false) md img = Some (tr, p))
    (Hh : zlen (mrenclave tr) = 32)
    (Hfill : fill_enclave_css (Some k) None (mrenclave tr) (md_css md) = Ok css1)
    (Hsign : create_signature (Some k) None css1 = Ok css2)
    (Hcompat : generate_compatible_metadata (pval ps TCSNUM) (splice Md.css_off css2 md) = Ok md') (Hmd' : md' <> []) :
  exists fs', main (Ctx:=Ctx) mprotect base now writable read_pem read_xml (sign_argv prog dll cfg key out) fs = (fs', Ok 0) /\
    fs' !! out = Some (write_at off (ztake METADATA_SIZE md') img) /\
    (forall f, f <> out -> fs' !! f = fs !! f) /\
    verify_signature k css2 = true /\ css_part Css.body_enclave_hash_off 32 css2 = mrenclave tr.
Proof.
  assert (zlen (md_css md) = CSS_SIZE) as Hcl
    by (unfold md_css, CSS_SIZE, METADATA_SIZE, Md.css_off, Md.css_size in *; rewrite zlen_slice; lia).
  destruct (sign_then_verify k _ _ _ _ Hk Hcl Hh Hfill Hsign) as (Hver & Hhash & Hl2).
  set (t1 := set_fs (<[out := img]> (<[out := []]> fs)) (tool_new (Ctx:=Ctx) fs)).
  assert (t_fs t1 !! out = Some img) as Ht1 by apply lookup_insert_eq.
  destruct (measure_enclave_log mprotect base now out img ps 0 false false t1 ep md off tr p Ht1 creator_ok_new Hv Hlog)
    as (t2 & e & Em & (Hfs2 & Hmd2 & Hoff2 & Hh2 & _) & _).
  set (t3 := set_css css2 t2).
  assert (css_of t3 = css2) as Hcss.
  { unfold css_of, t3, set_css, md_css. cbn [t_metadata set_metadata_]. rewrite Hmd2.
    change Md.css_size with CSS_SIZE. rewrite <- Hl2. apply slice_splice_same; [done|]. rewrite Hl2, Hmd. done. }
  set (t4 := set_metadata_ md' t3).
  set (t5 := set_fs (<[out := write_at off (ztake METADATA_SIZE md') img]> (t_fs t4)) t4).
  assert (run_sign mprotect base now writable SIGN 0 (sign_paths dll cfg key out) ps (Some k) PRIVATE_KEY (tool_new fs) = (t5, Ok tt)) as Hrun.
  { unfold run_sign. change (path_of (sign_paths dll cfg key out) DLL) with (Some dll).
    change (path_of (sign_paths dll cfg key out) OUTPUT) with (Some out). cbn [deref]. rewrite !bind_lift_Ok.
    rewrite (bind_Ok _ _ _ _ _ (copy_to_new dll out img (tool_new fs) Hne Hw Hf)). fold t1.
    cbn [Z.eqb SIGN SIGNMAGE Pos.eqb orb]. unfold mbind at 1, M_bind at 1, mret at 1, M_ret at 1.
    rewrite (bind_Ok _ _ _ _ _ Em).
    rewrite (bind_Ok _ _ _ _ _ (generate_output_sign k PRIVATE_KEY t2 (sign_paths dll cfg key out) css1 css2 eq_refl eq_refl
      ltac:(rewrite Hh2; unfold css_of; rewrite Hmd2; exact Hfill) Hsign)). fold t3.
    rewrite (bind_Ok _ _ _ _ _ (write_signed out img off md' (pval ps TCSNUM) k t3 ltac:(by rewrite Hcss)
      ltac:(unfold t3, set_css; cbn [t_metadata set_metadata_]; rewrite Hmd2; exact Hcompat)
      ltac:(unfold t3; cbn [t_fs set_css set_metadata_]; by rewrite Hfs2) Hoff2 Hw Hoff Hmd')). reflexivity. }
  exists (t_fs t5). unfold main. rewrite (sign_argv_parse _ _ _ _ _ Hargs). fold (sign_paths dll cfg key out).
  assert (run_mode mprotect base now writable read_pem read_xml SIGN 0 (sign_paths dll cfg key out) (tool_new fs) = (t5, Ok tt)) as ->.
  { unfold run_mode. change (path_of (sign_paths dll cfg key out) XML) with (Some cfg).
    change (path_of (sign_paths dll cfg key out) KEY) with (Some key).
    cbn [Z.eqb SIGN DUMP GENMAGE]. rewrite Hcfg. unfold parse_key_file. cbn [Z.eqb SIGN orb]. rewrite Hkey, Hk. exact Hrun. }
  split; [done|]. unfold t5, t4, t3. cbn [t_fs set_fs set_metadata_ set_css]. rewrite Hfs2. split; [apply lookup_insert_eq|].
  split; [|by split]. intros f Hne'. unfold t1. cbn [t_fs set_fs]. by rewrite !lookup_insert_ne.
Qed.
End SignRun.

(** ** The sample enclave *)

Abbreviation sample_log := (enclave_log (HF:=sha256_hash_fn) Sample.mprotect (set_for_sign Sample.bp false) Sample.md Sample.elf).
Definition sample_tr : list mevent := fst (default ([], []) sample_log).
Definition sample_patched : list Z := snd (default ([], []) sample_log).

Lemma sample_log_tr : sample_log = Some (sample_tr, sample_patched).
Proof.
  assert ((match sample_log with Some _ => true | None => false end) = true) as H by Sample.by_eval.
  unfold sample_tr, sample_patched. destruct sample_log as [[t p]|]; [reflexivity|discriminate H].
Qed.

Lemma sample_md_length : zlen Sample.md = METADATA_SIZE.
Proof. assert ((zlen Sample.md =? METADATA_SIZE) = true) as E by Sample.by_eval. by apply Z.eqb_eq in E. Qed.

Lemma list_known {A} (d : A) (w : list A) : w = map (fun i => nth i w d) (seq 0 (length w)).
Proof.
  apply list_eq. intros i. change (map ?f ?l) with (f <$> l). rewrite list_lookup_fmap. destruct (decide (i < length w)%nat).
  - rewrite lookup_seq_lt by done. cbn. rewrite nth_lookup. by destruct (lookup_lt_is_Some_2 w i) as [x ->].
  - rewrite lookup_seq_ge by lia. by apply lookup_ge_None_2; lia.
Qed.

(** The copies for older loaders do not depend on the signature. *)
Lemma sample_compat css : zlen css = CSS_SIZE ->
  exists md', generate_compatible_metadata (pval Sample.params TCSNUM) (splice Md.css_off css Sample.md) = Ok md' /\ md' <> [].
Proof.
  intros Hl. assert (length css = 1808%nat) as Hn by (unfold CSS_SIZE in Hl; lia).
  rewrite (list_known 0 css), Hn.
  assert ((match generate_compatible_metadata (pval Sample.params TCSNUM)
             (splice Md.css_off (map (fun i => nth i css 0) (seq 0 1808)) Sample.md) with
           | Ok (_ :: _) => true | _ => false end) = true) as H by Sample.by_eval.
  destruct (generate_compatible_metadata _ _) as [[|b l]| |]; try discriminate H. by exists (b :: l).
Qed.

Lemma sha256_mrenclave_length t : zlen (mrenclave (HF:=sha256_hash_fn) t) = 32.
Proof.
  unfold mrenclave, hf_hash. cbn [hf_finish sha256_hash_fn]. generalize (fold_left Fips.compress (blocks (padding (zlen (trace_bytes t))))
    (hf_state (HF:=sha256_hash_fn) (trace_bytes t))). by intros [].
Qed.

Definition sample_sign_fs : gmap string (list Z) := <["enclave.so" := Sample.elf]> ∅.

Lemma sample_sign_file (f : list Z) : (<["enclave.so" := f]> (∅ : gmap string (list Z))) !! "enclave.so" = Some f.
Proof. reflexivity. Qed.

Lemma sign_command_witness :
  let HF := sha256_hash_fn in let EV := PclEvp in
  exists fs' md', main (O:=ToyRsa.ops) Sample.mprotect 0 Sample.today (fun _ => true) (fun _ _ => Some ToyRsa.key) (fun _ => Sample.config)
      (sign_argv "sgx_sign" "enclave.so" "config.xml" "key.pem" "signed.so") sample_sign_fs = (fs', Ok 0) /\
    fs' !! "signed.so" = Some (write_at 1369 (ztake METADATA_SIZE md') Sample.elf).
Proof.
  assert (zlen (md_css Sample.md) = CSS_SIZE) as Hcl
    by (unfold md_css; rewrite zlen_slice; rewrite ?sample_md_length; done).
  pose proof (ToyRsa.fills (mrenclave (HF:=sha256_hash_fn) sample_tr) (md_css Sample.md) Hcl) as Hfill.
  destruct (ToyRsa.signs (ToyRsa.keyed (md_css Sample.md) (mrenclave (HF:=sha256_hash_fn) sample_tr))) as [css2 Hsign].
  destruct (sign_then_verify (O:=ToyRsa.ops) (L:=ToyRsa.laws) ToyRsa.key _ _ _ _ eq_refl Hcl (sha256_mrenclave_length sample_tr) Hfill Hsign) as (_ & _ & Hl2).
  destruct (sample_compat css2 Hl2) as (md' & Hcompat & Hne).
  destruct (sign_command (HF:=sha256_hash_fn) (EL:=PclEvpLaws) (O:=ToyRsa.ops) (L:=ToyRsa.laws) Sample.mprotect 0 Sample.today (fun _ => true)
    (fun _ _ => Some ToyRsa.key) (fun _ => Sample.config)
    "sgx_sign" "enclave.so" "config.xml" "key.pem" "signed.so" sample_sign_fs Sample.elf ToyRsa.key Sample.params
    Sample.ep Sample.md 1369 sample_tr sample_patched (ToyRsa.keyed (md_css Sample.md) (mrenclave (HF:=sha256_hash_fn) sample_tr)) css2 md') as (fs' & E & Hout & _).
  - repeat constructor.
  - reflexivity.
  - reflexivity.
  - reflexivity.
  - discriminate.
  - reflexivity.
  - apply sample_sign_file.
  - rewrite Sample.elf_filled. by apply sample_view.
  - reflexivity.
  - exact sample_md_length.
  - exact sample_log_tr.
  - apply sha256_mrenclave_length.
  - exact Hfill.
  - exact Hsign.
  - exact Hcompat.
  - exact Hne.
  - exists fs', md'. split; [exact E|exact Hout].
Defined.
