(* ===== verification/SampleProps.v ===== *)
(** * The theorems at the sample enclave

    The hypotheses of the loader's, the parser's and the pipeline's theorems
    hold of the small enclave of [Sample] and its metadata; and a variant of
    that file shows what the parser does with a dynamic tag outside its
    table. *)
From S2P Require Import Prelude Bytes Sha256 Arch Measure Creator Mage Loader LoaderSim LoaderSpec MageLoad Pipeline.
From S2P Require Import Elf GlobalData Metadata CmdLine Signature SignTool Sample MageTool.
From stdpp Require Import gmap.

#[local] Open Scope Z_scope.

Lemma unit_Ok {E} (r : res E unit) : Sample.is_ok r = true -> r = Ok tt.
Proof. by destruct r as [[]| |]. Qed.

Lemma sample_validated : validate_metadata Sample.md (bp_enclave_max_size Sample.bp) = Ok tt.
Proof. apply unit_Ok. Sample.by_eval. Qed.

Lemma sample_layout_validated : validate_layout_table Sample.md = Ok tt.
Proof. apply unit_Ok. Sample.by_eval. Qed.

Lemma validate_metadata_sound_witness :
  (exists k, 0 <= k <= 64 /\ esize Sample.md = 2 ^ k) /\ Forall (patch_inside Sample.md) (patch_table Sample.md).
Proof.
  pose proof (validate_metadata_sound Sample.md Sample.md_bytes (bp_enclave_max_size Sample.bp) sample_validated) as (H1 & _ & _ & _ & H2).
  split; [exact H1|exact H2].
Defined.

Lemma traversal_expansion_witness :
  exists tbl, table_of Sample.md tbl /\
    forall S_ (f : Z -> layout_t -> M S_ sgx_status_t unit) s,
      walk_layout f Sample.md s = mseq (map (run_entry f) (expand_table [] tbl)) s.
Proof. exact (traversal_expansion Sample.md Sample.md_bytes sample_layout_validated). Defined.

Lemma tool_measures_log_witness :
  let HF := sha256_hash_fn in let EV := PclEvp in
  exists s' m q e, load_enclave_ex (set_for_sign Sample.bp true) Sample.md Sample.mprotect 1 None false None 0 None
      (start SignST.EnclaveCreatorST Sample.elf) = (s', Ok m) /\
    SignST.get_enclave_info SGX_HASH_SIZE true (ls_creator s') = (ls_creator s', Ok (mrenclave Sample.tr, q, Some e)).
Proof.
  pose proof (tool_measures_log (HF:=sha256_hash_fn) (EL:=PclEvpLaws) Sample.mprotect (set_for_sign Sample.bp true) Sample.md
    Sample.elf SignST.EnclaveCreatorST Sample.tr Sample.patched 0 creator_ok_new (proj1 Sample.log_tr)) as (s' & m & E & _ & _ & q & e & Ei & _).
  exists s', m, q, e. split; [exact E|exact Ei].
Defined.

Lemma filled_log_appends_witness :
  let HF := sha256_hash_fn in
  exists p2, enclave_log Sample.mprotect (set_for_sign Sample.bp false) Sample.md (Sample.filled (zreplicate 56 7)) =
      Some (Sample.tr ++ mage_loop_events (Z.to_nat (s_virtual_size Sample.ms / SE_PAGE_SIZE)) (s_rva Sample.ms)
              (zdrop (s_raw_data Sample.ms) p2), p2).
Proof.
  pose proof Sample.elf_length as Hl.
  assert (agree (s_raw_data Sample.ms) (s_raw_data Sample.ms + s_virtual_size Sample.ms) (Sample.filled (zreplicate 56 7)) Sample.elf) as Ha.
  { apply splice_agree; [done|done|]. rewrite Hl. done. }
  assert (bp_reloc_bitmap Sample.bp (Sample.filled (zreplicate 56 7)) = bp_reloc_bitmap Sample.bp Sample.elf) as Hb by (by rewrite !Sample.no_relocs).
  pose proof (filled_log_appends (HF:=sha256_hash_fn) Sample.mprotect Sample.bp Sample.md Sample.ms Sample.elf
    (Sample.filled (zreplicate 56 7)) Sample.tr Sample.patched Sample.layout Ha Hb (proj1 Sample.log_tr)) as (p2 & E & _).
  exists p2. exact E.
Defined.

Abbreviation sample_trace_load := (load_enclave_ex (EC:=TraceCreator.TraceEnclaveCreator (HF:=sha256_hash_fn)) Sample.bp Sample.md Sample.mprotect 1
  None true None 0 None (start TraceCreator.initial Sample.elf)).

Lemma sample_trace_not_stuck : snd sample_trace_load <> Stuck.
Proof.
  assert ((match snd sample_trace_load with Stuck => false | _ => true end) = true) as H by Sample.by_eval.
  intros E. rewrite E in H. discriminate H.
Qed.

Lemma tool_load_refines_witness :
  let HF := sha256_hash_fn in let EV := PclEvp in
  exists s' : LS (SignST.ST Pcl.SHA256_CTX),
    load_enclave_ex Sample.bp Sample.md Sample.mprotect 1 None true None 0 None (start SignST.EnclaveCreatorST Sample.elf) =
      (s', snd sample_trace_load) /\
    st_refines (ls_creator s') (ls_creator (fst sample_trace_load)).
Proof.
  pose proof (tool_load_refines (HF:=sha256_hash_fn) (EL:=PclEvpLaws) Sample.mprotect Sample.bp Sample.md Sample.elf 1 None true None 0 None
    (fst sample_trace_load) (snd sample_trace_load) (surjective_pairing sample_trace_load) sample_trace_not_stuck) as (s' & E & _ & _ & _ & Hr).
  exists s'. split; [exact E|exact Hr].
Defined.

(** ** The parser *)

Lemma sample_parsed : run_parser Sample.elf elf_new = (fst (run_parser Sample.elf elf_new), Ok tt).
Proof. apply Sample.run_Ok. Sample.by_eval. Qed.


(** The sample with a relocation of the word at 0xffc, across two pages *)
Definition rel_elf : list Z := Sample.put 0x480 (Sample.ints [(8, 0xffc); (8, R_X86_64_RELATIVE); (8, 0)]) Sample.elf.
Definition rel_ep : ElfParser :=
  set_dyn_info (<[Z.to_nat DT_TEXTREL := (DT_TEXTREL, 0)]> (<[Z.to_nat DT_RELA := (DT_RELA, 0x480)]>
    (<[Z.to_nat DT_RELASZ := (DT_RELASZ, 24)]> (<[Z.to_nat DT_RELAENT := (DT_RELAENT, 24)]> (ep_dyn_info elf_new))))) Sample.ep.

Lemma rel_elf_ok : bytes_ok rel_elf.
Proof. apply (Sample.forallb_Forall (fun b => (0 <=? b) && (b <? 256))); [intros b Hb; zbool; lia|]. Sample.by_eval. Qed.

Lemma reloc_bitmap_exact_witness :
  exists addrs, text_relocs rel_elf rel_ep = Ok addrs /\ Exists (touches 0) addrs /\ Exists (touches 1) addrs.
Proof.
  assert (get_reloc_bitmap rel_elf rel_ep = Ok (Some [3])) as E by (vm_compute; reflexivity).
  destruct (reloc_bitmap_exact rel_elf rel_ep [3] rel_elf_ok eq_refl E) as (addrs & Ha & H).
  exists addrs. split; [exact Ha|].
  split; [apply (H 0 (Z.le_refl 0)); reflexivity|apply (H 0x1000); [done|reflexivity]].
Defined.

(** The sample with one more dynamic tag *)
Definition tag_elf (tag : Z) : list Z := Sample.put 0x1a0 (Sample.ints [(8, tag); (8, 0)]) Sample.elf.

