(* ===== verification/Trts.v ===== *)
(** * Trusted runtime: memory boundaries and dynamic memory

    The functions of sdk/trts that decide which addresses enclave code may
    touch: sgx_is_within_enclave and sgx_is_outside_enclave, the allocation of
    OCALL buffers on the untrusted stack (sgx_ocalloc, trts.cpp), random bytes
    (sgx_read_rand), and the acceptance of dynamically added pages
    (trts_util.cpp, trts_add_trim.cpp).  [abort()] is [Stuck]. *)

From S2P Require Import Prelude Bytes Arch.

#[local] Open Scope Z_scope.

(** &__ImageBase, EDMM_supported and the fields of g_global_data that the
    modelled functions read. *)
Record runtime := MkRuntime {
  image_base : Z; enclave_size_ : Z; heap_offset_ : Z; heap_size_ : Z;
  EDMM_supported : bool; gd_layouts : list layout_t }.

Section Trts.
Variable g : runtime.

(** ** Inside and outside *)
Definition range_end (start size : Z) : Z :=
  if size >? 0 then u64 (start + size - 1) else start.

Definition sgx_is_within_enclave (addr size : Z) : bool :=
  let start := addr in
  let enclave_start := image_base g in
  let enclave_end := u64 (enclave_start + enclave_size_ g - 1) in
  let end_ := range_end start size in
  (start <=? end_) && (start >=? enclave_start) && (end_ <=? enclave_end).

Definition sgx_is_outside_enclave (addr size : Z) : bool :=
  let start := addr in
  let enclave_start := image_base g in
  let enclave_end := u64 (enclave_start + enclave_size_ g - 1) in
  let end_ := range_end start size in
  (start <=? end_) && ((end_ <? enclave_start) || (start >? enclave_end)).

(** ** Buffers on the untrusted stack *)
Definition OC_ROUND : Z := 16.

(** The probing loop: the pages written, highest first. *)
Fixpoint probe_pages (fuel : nat) (page last_page : Z) : option (list Z) :=
  match fuel with
  | O => None
  | S k =>
      if page >=? last_page then
        ps ← probe_pages k (u64 (page - SE_PAGE_SIZE)) last_page; Some (page :: ps)
      else Some []
  end.

(** [sp_u] is the untrusted stack pointer of the SSA; the result is the
    buffer, which is also the new [sp_u], and the pages probed. *)
Definition sgx_ocalloc (sp_u size : Z) : res unit (Z * list Z) :=
  if negb (sgx_is_outside_enclave sp_u 8) then Stuck
  else if sp_u <? size then Stuck
  else
    let addr := Z.land (sp_u - size) (u64 (Z.lnot (OC_ROUND - 1))) in
    if negb (sgx_is_outside_enclave addr size) then Stuck
    else
      let first_page := TRIM_TO_PAGE (u64 (sp_u - 1)) in
      let last_page := TRIM_TO_PAGE addr in
      if last_page =? 0 then Stuck
      else
        ps ← deref (probe_pages (S (Z.to_nat (first_page / SE_PAGE_SIZE))) first_page last_page);
        Ok (addr, ps).

(** [usp]: the xsp_u word of the ECALL frame; the result is the new sp_u. *)
Definition sgx_ocfree (usp : Z) : res unit Z :=
  if negb (sgx_is_outside_enclave usp 8) then Stuck else Ok usp.

(** ** Random bytes

    [do_rdrand] is the instruction with its ten retries: the generator's next
    state and a 32-bit number, or none. *)
Section Rand.
Context {R : Type}.
Variable do_rdrand : R -> R * option Z.

Fixpoint read_rand_loop (fuel : nat) (length_in_bytes : Z) (acc : list Z) (r : R) : R * res sgx_status_t (list Z) :=
  match fuel with
  | O => (r, Stuck)
  | S k =>
      if length_in_bytes >? 0 then
        match do_rdrand r with
        | (r', None) => (r', Err SGX_ERROR_UNEXPECTED)
        | (r', Some rand_num) =>
            let size := if length_in_bytes <? 4 then length_in_bytes else 4 in
            read_rand_loop k (length_in_bytes - size) (acc ++ ztake size (le_bytes 4 rand_num)) r'
        end
      else (r, Ok acc)
  end.

(** The bytes are what is stored at [rand]. *)
Definition sgx_read_rand (rand length_in_bytes : Z) (r : R) : R * res sgx_status_t (list Z) :=
  if (rand =? 0) || (length_in_bytes =? 0) then (r, Err SGX_ERROR_INVALID_PARAMETER)
  else if negb (sgx_is_within_enclave rand length_in_bytes) && negb (sgx_is_outside_enclave rand length_in_bytes)
  then (r, Err SGX_ERROR_INVALID_PARAMETER)
  else read_rand_loop (S (Z.to_nat length_in_bytes)) length_in_bytes [] r.
End Rand.

(** ** Sizes of the heap *)
Definition pages_size (l : layout_t) : Z := Z.shiftl (l_page_count l) SE_PAGE_SHIFT.

Definition get_heap_base : Z := u64 (image_base g + heap_offset_ g).

Definition get_heap_size : Z :=
  if EDMM_supported g then
    fold_left (fun heap_size l => if l_id l =? LAYOUT_ID_HEAP_MAX then u64 (heap_size + pages_size l) else heap_size)
      (gd_layouts g) (heap_size_ g)
  else heap_size_ g.

Definition get_dynamic_layout_by_id (id : Z) : option layout_t := List.find (fun l => l_id l =? id) (gd_layouts g).

Definition get_heap_min_size : Z :=
  match get_dynamic_layout_by_id LAYOUT_ID_HEAP_MIN with Some l => pages_size l | None => 0 end.

(** ** Dynamic ranges *)
Record dynamic_flags_attributes := MkFa { fa_si_flags : Z; fa_attributes : Z }.

Definition shift_pages (page_count : Z) : Z := u64 (Z.shiftl page_count SE_PAGE_SHIFT).

Definition check_heap_dyn_range (addr page_count : Z) : option dynamic_flags_attributes :=
  let heap_dyn_start := u64 (get_heap_base + get_heap_min_size) in
  let heap_dyn_size := u64 (get_heap_size - get_heap_min_size) in
  if (addr >=? heap_dyn_start) && (u64 (addr + shift_pages page_count) <=? u64 (heap_dyn_start + heap_dyn_size))
  then Some (MkFa SI_FLAGS_RW PAGE_ATTR_POST_ADD) else None.

Definition check_dynamic_entry_range (addr page_count entry_id entry_offset : Z) : option dynamic_flags_attributes :=
  if (entry_id <? LAYOUT_ID_HEAP_MIN) || (entry_id >? LAYOUT_ID_STACK_DYN_MIN) then None
  else
    layout ← get_dynamic_layout_by_id entry_id;
    let entry_start_addr := u64 (u64 (image_base g + l_rva layout) + entry_offset) in
    if (addr >=? entry_start_addr)
       && (u64 (addr + shift_pages page_count) <=? u64 (entry_start_addr + pages_size layout))
    then Some (MkFa (l_si_flags layout) (l_attributes layout)) else None.

Definition check_utility_thread_dynamic_stack (addr page_count : Z) : option dynamic_flags_attributes :=
  check_dynamic_entry_range addr page_count LAYOUT_ID_STACK_MAX 0.

(** The first success of a loop. *)
Fixpoint first_some {A B} (f : A -> option B) (l : list A) : option B :=
  match l with
  | [] => None
  | x :: l' => match f x with Some y => Some y | None => first_some f l' end
  end.

(** The identifiers LAYOUT_ID_TCS_DYN .. LAYOUT_ID_STACK_DYN_MIN *)
Definition dyn_ids : list Z :=
  [LAYOUT_ID_TCS_DYN; LAYOUT_ID_TD_DYN; LAYOUT_ID_SSA_DYN; LAYOUT_ID_STACK_DYN_MAX; LAYOUT_ID_STACK_DYN_MIN].

(** The value is what is written to [*fa]; [None] as offset: not written. *)
Definition check_dynamic_range (addr page_count : Z) : option (option Z * dynamic_flags_attributes) :=
  if addr >? 2 ^ 64 - 1 - shift_pages page_count then None
  else match check_heap_dyn_range addr page_count with
  | Some fa => Some (None, fa)
  | None =>
  match check_utility_thread_dynamic_stack addr page_count with
  | Some fa => Some (None, fa)
  | None =>
  match get_dynamic_layout_by_id LAYOUT_ID_THREAD_GROUP_DYN with
  | Some dt_layout =>
      first_some (fun id =>
        first_some (fun i =>
          let off := u64 (i * g_load_step dt_layout) in
          fa ← check_dynamic_entry_range addr page_count id off; Some (Some off, fa))
          (map Z.of_nat (seq 0 (Z.to_nat (u32 (g_load_times dt_layout + 1)))))) dyn_ids
  | None =>
      first_some (fun id =>
        fa ← check_dynamic_entry_range addr page_count id 0; Some (Some 0, fa)) dyn_ids
  end end end.

Definition is_dynamic_thread (tcs : Z) : bool :=
  negb (tcs =? 0) &&
  match check_dynamic_range tcs 1 with Some (_, fa) => fa_si_flags fa =? SI_FLAGS_TCS | None => false end.

(** ** Accepting pages

    [do_eaccept flags addr] is the EACCEPT instruction; a page that is not
    accepted aborts the enclave.  The functions return the pages accepted,
    with their flags, in order. *)
Definition SI_FLAG_TRIM : Z := 0x400.
Definition SI_FLAG_PENDING : Z := 0x8.
Definition SI_FLAG_MODIFIED : Z := 0x10.

Section Accept.
Variable do_eaccept : Z -> Z -> Z.

Fixpoint accept_forward_loop (fuel : nat) (sfl addr hi : Z) : res unit (list (Z * Z)) :=
  match fuel with
  | O => Stuck
  | S k =>
      if addr <? hi then
        if negb (do_eaccept sfl addr =? 0) then Stuck
        else rest ← accept_forward_loop k sfl (u64 (addr + SE_PAGE_SIZE)) hi; Ok ((sfl, addr) :: rest)
      else Ok []
  end.

Definition accept_fuel (lo hi : Z) : nat := (2 + Z.to_nat ((hi - lo) / SE_PAGE_SIZE))%nat.

Definition sgx_accept_forward (sfl lo hi : Z) : res unit (list (Z * Z)) :=
  accept_forward_loop (accept_fuel lo hi) sfl lo hi.

Fixpoint accept_backward_loop (fuel : nat) (sfl addr lo : Z) : res unit (list (Z * Z)) :=
  match fuel with
  | O => Stuck
  | S k =>
      if lo <? addr then
        let addr := u64 (addr - SE_PAGE_SIZE) in
        if negb (do_eaccept sfl addr =? 0) then Stuck
        else rest ← accept_backward_loop k sfl addr lo; Ok ((sfl, addr) :: rest)
      else Ok []
  end.

Definition sgx_accept_backward (sfl lo hi : Z) : res unit (list (Z * Z)) :=
  accept_backward_loop (accept_fuel lo hi) sfl hi lo.

Definition RW_PENDING : Z := Z.lor SI_FLAGS_RW SI_FLAG_PENDING.

(** -1 is [Err tt]. *)
Definition apply_EPC_pages (start_address page_count : Z) : res unit (list (Z * Z)) :=
  if start_address =? 0 then Err tt
  else match check_dynamic_range start_address page_count with
  | None => Err tt
  | Some (_, fa) =>
      let start := start_address in
      let end_ := u64 (start + shift_pages page_count) in
      if hasflag (fa_attributes fa) PAGE_DIR_GROW_DOWN
      then sgx_accept_forward RW_PENDING start end_
      else sgx_accept_backward RW_PENDING start end_
  end.

(** sgx_accept_forward_within_exception differs from sgx_accept_forward in
    its fixed flags only. *)
Definition apply_pages_within_exception (start_address page_count : Z) : res unit (list (Z * Z)) :=
  if start_address =? 0 then Err tt
  else match check_dynamic_range start_address page_count with
  | None => Err tt
  | Some _ => sgx_accept_forward RW_PENDING start_address (u64 (start_address + shift_pages page_count))
  end.

(** ** Adding a thread

    The pages of the dynamic entries, in the order of their identifiers. *)
Fixpoint apply_entries (ids : list Z) (offset : Z) : res unit (list (Z * Z)) :=
  match ids with
  | [] => Ok []
  | id :: ids' =>
      a ← match get_dynamic_layout_by_id id with
          | Some layout =>
              if hasflag (l_attributes layout) PAGE_ATTR_DYN_THREAD
              then apply_EPC_pages (u64 (u64 (image_base g + l_rva layout) + offset)) (l_page_count layout)
              else Ok []
          | None => Ok []
          end;
      b ← apply_entries ids' offset;
      Ok (a ++ b)
  end.

Definition tcs_ossa : field := Fld 16 8.
Definition tcs_ofs_base : field := Fld 48 8.
Definition tcs_ogs_base : field := Fld 56 8.

(** A field that is relative to the TCS made relative to the enclave. *)
Definition tcs_adjust (tcs : Z) (f : field) (page : list Z) : list Z :=
  fset f (u64 (u64 (tcs + fget f page) - image_base g)) page.

(** [tcs_template] is the template of g_global_data, [page] the content of
    the TCS page once its pages are added and [ocall] the status of the MKTCS
    OCALL.  The result is the TCS page and the pages accepted. *)
Definition do_add_thread (tcs_template page : list Z) (ocall : Z) (ptcs : Z)
  : res sgx_status_t (list Z * list (Z * Z)) :=
  match check_dynamic_range ptcs 1 with
  | None => Err SGX_ERROR_UNEXPECTED
  | Some (o, _) =>
      let offset := default 0 o in
      match get_dynamic_layout_by_id LAYOUT_ID_TCS_DYN with
      | None => Err SGX_ERROR_UNEXPECTED
      | Some tcs_layout =>
          if negb (u64 (u64 (image_base g + l_rva tcs_layout) + offset) =? ptcs) then Err SGX_ERROR_UNEXPECTED
          else match apply_entries dyn_ids offset with
          | Stuck => Stuck
          | Err _ => Err SGX_ERROR_UNEXPECTED
          | Ok accepted =>
              let page := splice 0 tcs_template page in
              let page := tcs_adjust ptcs tcs_ossa page in
              let page := tcs_adjust ptcs tcs_ofs_base page in
              let page := tcs_adjust ptcs tcs_ogs_base page in
              if negb (ocall =? 0) then Err SGX_ERROR_UNEXPECTED
              else match sgx_accept_backward (Z.lor SI_FLAG_TCS SI_FLAG_MODIFIED) ptcs (u64 (ptcs + SE_PAGE_SIZE)) with
              | Ok l => Ok (page, accepted ++ l)
              | Err _ => Err SGX_ERROR_UNEXPECTED
              | Stuck => Stuck
              end
          end
      end
  end.
End Accept.
End Trts.

(** * Theorems *)

(** An enclave as the loader places it: page aligned and inside the address
    space. *)
Definition enclave_ok (g : runtime) : Prop :=
  0 <= image_base g /\ image_base g mod 4096 = 0 /\ 0 < enclave_size_ g /\ enclave_size_ g mod 4096 = 0 /\
  image_base g + enclave_size_ g <= 2 ^ 64.

Section Boundaries.
Context (g : runtime) (Hg : enclave_ok g).

Abbreviation lo := (image_base g).
Abbreviation hi := (image_base g + enclave_size_ g).

Lemma enclave_end_eq : u64 (lo + enclave_size_ g - 1) = hi - 1.
Proof. destruct Hg as (? & ? & ? & ? & ?). apply u64_id. unfold is_u64. lia. Qed.

(** The last byte of a range, and the test for wrapping around. *)
Lemma range_end_spec a n : is_u64 a -> is_u64 n ->
  (a <=? range_end a n) = (a + Z.max 1 n <=? 2 ^ 64) /\
  (a + Z.max 1 n <= 2 ^ 64 -> range_end a n = a + Z.max 1 n - 1).
Proof.
  intros [? ?] [? ?]. unfold range_end. rewrite Z.gtb_ltb. destruct (Z.ltb_spec 0 n).
  - destruct (Z.leb_spec (a + Z.max 1 n) (2 ^ 64)) as [Hle|Hgt].
    + rewrite u64_id by (unfold is_u64; lia). split; [|lia]. apply Z.leb_le. lia.
    + replace (u64 (a + n - 1)) with (a + n - 1 - 2 ^ 64).
      2:{ unfold u64. rewrite <- (Z.mod_unique (a + n - 1) (2 ^ 64) 1 (a + n - 1 - 2 ^ 64)); lia. }
      split; [|lia]. apply Z.leb_gt. lia.
  - split; [|lia]. rewrite Z.leb_refl. symmetry. apply Z.leb_le. lia.
Qed.

Lemma within_spec a n : is_u64 a -> is_u64 n ->
  sgx_is_within_enclave g a n = true <-> lo <= a /\ a + Z.max 1 n <= hi.
Proof.
  intros Ha Hn. destruct (range_end_spec a n Ha Hn) as [E1 E2].
  destruct Hg as (? & ? & ? & ? & ?). unfold is_u64 in *.
  unfold sgx_is_within_enclave. rewrite enclave_end_eq, E1, !andb_true_iff, Z.geb_leb, !Z.leb_le.
  split.
  - intros [[Hw ?] He]. rewrite E2 in He by done. lia.
  - intros [? ?]. rewrite E2 by lia. lia.
Qed.

Lemma outside_spec a n : is_u64 a -> is_u64 n ->
  sgx_is_outside_enclave g a n = true <-> a + Z.max 1 n <= 2 ^ 64 /\ (a + Z.max 1 n <= lo \/ hi <= a).
Proof.
  intros Ha Hn. destruct (range_end_spec a n Ha Hn) as [E1 E2].
  destruct Hg as (? & ? & ? & ? & ?). unfold is_u64 in *.
  unfold sgx_is_outside_enclave. rewrite enclave_end_eq, E1, andb_true_iff, orb_true_iff, Z.gtb_ltb, !Z.ltb_lt, Z.leb_le.
  split.
  - intros [Hw He]. rewrite E2 in He by done. split; [done|]. lia.
  - intros [Hw He]. rewrite E2 by lia. split; [done|]. lia.
Qed.
End Boundaries.

(** ** sgx_ocalloc *)

(** [n] pages going down from [first]. *)
Definition pages_down (first : Z) (n : nat) : list Z := map (fun i => first - SE_PAGE_SIZE * Z.of_nat i) (seq 0 n).

Lemma pages_down_S first n : pages_down first (S n) = first :: pages_down (first - SE_PAGE_SIZE) n.
Proof.
  unfold pages_down. simpl. f_equal; [lia|]. rewrite <- seq_shift, map_map. apply map_ext. intros. lia.
Qed.

Lemma probe_pages_spec n : forall fuel page last, (n < fuel)%nat ->
  SE_PAGE_SIZE <= last -> page < 2 ^ 64 -> page - SE_PAGE_SIZE * Z.of_nat n < last ->
  (forall i, (i < n)%nat -> last <= page - SE_PAGE_SIZE * Z.of_nat i) ->
  probe_pages fuel page last = Some (pages_down page n).
Proof.
  induction n as [|n IH]; intros [|fuel] page last Hf Hl Hp Hend Hin; try lia; cbn [probe_pages];
    rewrite Z.geb_leb.
  - replace (last <=? page) with false; [done|]. symmetry. apply Z.leb_gt. lia.
  - pose proof (Hin 0%nat ltac:(lia)). unfold SE_PAGE_SIZE in *.
    replace (last <=? page) with true by (symmetry; apply Z.leb_le; lia).
    rewrite u64_id by (unfold is_u64; lia).
    rewrite (IH fuel (page - 4096) last); [by rewrite pages_down_S| lia..| |].
    + lia.
    + intros i Hi. specialize (Hin (S i) ltac:(lia)). lia.
Qed.

Section Ocalloc.
Context (g : runtime) (Hg : enclave_ok g).
Abbreviation lo := (image_base g).
Abbreviation hi := (image_base g + enclave_size_ g).

(** The buffer sgx_ocalloc computes, and the number of pages it probes. *)
Definition oc_addr (sp size : Z) : Z := (sp - size) - (sp - size) mod 16.
Definition oc_pages (sp addr : Z) : nat := Z.to_nat ((sp - 1) / 4096 - addr / 4096 + 1).

Lemma oc_addr_land sp size : is_u64 sp -> 0 <= size <= sp ->
  Z.land (sp - size) (u64 (Z.lnot (OC_ROUND - 1))) = oc_addr sp size.
Proof. intros [? ?] ?. apply (land_clear_low 4); [lia|]. unfold is_u64. lia. Qed.

Lemma trim_div x : is_u64 x -> TRIM_TO_PAGE x = 4096 * (x / 4096).
Proof. intros. rewrite TRIM_TO_PAGE_sub by done. unfold SE_PAGE_SIZE. pose proof (Z.div_mod x 4096). lia. Qed.

(** When the checks of sgx_ocalloc pass. *)
Definition oc_ok (sp size : Z) : Prop :=
  sp + 8 <= 2 ^ 64 /\ size <= sp /\ 4096 <= oc_addr sp size /\
  (sp + 8 <= lo \/ hi <= oc_addr sp size).

Lemma oc_addr_range sp size : 0 <= size <= sp ->
  0 <= oc_addr sp size /\ oc_addr sp size + size <= sp < oc_addr sp size + size + 16 /\ oc_addr sp size mod 16 = 0.
Proof.
  intros. unfold oc_addr. pose proof (Z.mod_pos_bound (sp - size) 16).
  pose proof (Z.div_mod (sp - size) 16). split_and!; lia.
Qed.

(** The side of the enclave the stack is on. *)
Lemma oc_side sp size : 0 <= size <= sp ->
  (sp + 8 <= lo \/ hi <= sp) ->
  (oc_addr sp size + Z.max 1 size <= lo \/ hi <= oc_addr sp size) ->
  sp + 8 <= lo \/ hi <= oc_addr sp size.
Proof.
  intros Hs H1 H2. destruct (oc_addr_range sp size Hs) as (? & ? & ?).
  destruct Hg as (? & ? & ? & ? & ?). destruct H1 as [?|?]; [by left|]. destruct H2 as [?|?]; [|by right].
  exfalso. assert (4096 <= enclave_size_ g) by (pose proof (Z.div_mod (enclave_size_ g) 4096); lia). lia.
Qed.

Lemma ocalloc_eval sp size : is_u64 sp -> is_u64 size ->
  (oc_ok sp size -> sgx_ocalloc g sp size = Ok (oc_addr sp size, pages_down (4096 * ((sp - 1) / 4096)) (oc_pages sp (oc_addr sp size)))) /\
  (~ oc_ok sp size -> sgx_ocalloc g sp size = Stuck).
Proof.
  intros Hsp Hsz. pose proof Hsp as [? ?]. pose proof Hsz as [? ?]. unfold sgx_ocalloc.
  destruct (sgx_is_outside_enclave g sp 8) eqn:E1; cbn [negb].
  2:{ split; [|done]. intros (? & ? & ? & Hs). exfalso. apply Bool.not_true_iff_false in E1. apply E1.
      apply outside_spec; [done..|unfold is_u64; lia|]. destruct (oc_addr_range sp size); [lia|]. lia. }
  apply outside_spec in E1; [|done|done|unfold is_u64; lia].
  destruct (Z.ltb_spec sp size) as [Hlt|Hge]; [split; [intros (? & ? & ?); lia|done]|].
  rewrite oc_addr_land by (try done; lia).
  destruct (oc_addr_range sp size) as (Ha0 & Ha & Ha16); [lia|].
  destruct (sgx_is_outside_enclave g (oc_addr sp size) size) eqn:E2; cbn [negb].
  2:{ split; [|done]. intros (? & ? & ? & Hs). exfalso. apply Bool.not_true_iff_false in E2. apply E2.
      apply outside_spec; [done|unfold is_u64; lia|done|]. destruct Hg as (? & ? & ? & ? & ?). lia. }
  apply outside_spec in E2; [|done|unfold is_u64; lia|done].
  rewrite (trim_div (oc_addr sp size)) by (unfold is_u64; lia).
  destruct (Z.eqb_spec (4096 * (oc_addr sp size / 4096)) 0) as [Hz|Hnz].
  { split; [|done]. intros (_ & _ & ? & _). exfalso. pose proof (Z.div_mod (oc_addr sp size) 4096).
    pose proof (Z.mod_pos_bound (oc_addr sp size) 4096). lia. }
  assert (Hp : 1 <= oc_addr sp size / 4096) by (pose proof (Z.div_pos (oc_addr sp size) 4096); lia).
  assert (4096 <= oc_addr sp size) by (pose proof (Z.div_mod (oc_addr sp size) 4096);
    pose proof (Z.mod_pos_bound (oc_addr sp size) 4096); lia).
  assert (Hok : oc_ok sp size).
  { split_and!; [lia..|]. apply oc_side; [lia|lia|lia]. }
  split; [intros _|done].
  rewrite (u64_id (sp - 1)) by (unfold is_u64; lia).
  rewrite (trim_div (sp - 1)) by (unfold is_u64; lia).
  assert (Hm : (oc_addr sp size - 1) / 4096 <= (sp - 1) / 4096) by (apply Z.div_le_mono; lia).
  assert (oc_addr sp size / 4096 - 1 <= (oc_addr sp size - 1) / 4096) by
    (clear; generalize (oc_addr sp size); intros; zlia).
  rewrite (probe_pages_spec (oc_pages sp (oc_addr sp size))); [done|..].
  - unfold oc_pages, SE_PAGE_SIZE. rewrite Z.mul_comm, Z.div_mul by lia. lia.
  - unfold SE_PAGE_SIZE. lia.
  - pose proof (Z.div_mod (sp - 1) 4096). pose proof (Z.mod_pos_bound (sp - 1) 4096). lia.
  - unfold oc_pages, SE_PAGE_SIZE. lia.
  - unfold oc_pages, SE_PAGE_SIZE. intros i Hi. lia.
Qed.
End Ocalloc.

Lemma elem_of_pages_down p first n :
  p ∈ pages_down first n <-> exists i, (i < n)%nat /\ p = first - SE_PAGE_SIZE * Z.of_nat i.
Proof.
  unfold pages_down. rewrite list_elem_of_In, in_map_iff. split.
  - intros (i & <- & Hi). apply in_seq in Hi. exists i. split; [lia|done].
  - intros (i & Hi & ->). exists i. split; [done|]. apply in_seq. lia.
Qed.


Definition sample_runtime : runtime :=
  MkRuntime 0x10000000 0x100000 0x20000 0x4000 true
    [MkLayout LAYOUT_ID_HEAP_MIN 3 4 0x20000 0 0 SI_FLAGS_RW;
     MkLayout LAYOUT_ID_HEAP_MAX 8 4 0x24000 0 0 SI_FLAGS_RW;
     MkLayout LAYOUT_ID_TCS_DYN 0x28 1 0x50000 0 0 SI_FLAGS_TCS;
     MkLayout LAYOUT_ID_TD_DYN 0x28 1 0x51000 0 0 SI_FLAGS_RW;
     MkLayout LAYOUT_ID_STACK_DYN_MIN 0x68 2 0x52000 0 0 SI_FLAGS_RW;
     MkLayout LAYOUT_ID_THREAD_GROUP_DYN 3 2 0x10000 0 0 0].

Lemma sample_runtime_ok : enclave_ok sample_runtime.
Proof. vm_compute. repeat split; discriminate. Qed.


(** ** Dynamic ranges *)

(** Where pages may be added while the enclave runs: the part of the heap
    above its minimum, the stack of the utility thread, and for every copy of
    the dynamic thread each of its entries. *)
Definition dyn_copies_max (g : runtime) : Z :=
  match get_dynamic_layout_by_id g LAYOUT_ID_THREAD_GROUP_DYN with Some dt => g_load_times dt | None => 0 end.
Definition dyn_step (g : runtime) : Z :=
  match get_dynamic_layout_by_id g LAYOUT_ID_THREAD_GROUP_DYN with Some dt => g_load_step dt | None => 0 end.

Inductive dyn_region (g : runtime) : Z -> Z -> Prop :=
| dr_heap :
    dyn_region g (image_base g + heap_offset_ g + get_heap_min_size g) (get_heap_size g - get_heap_min_size g)
| dr_stack l :
    get_dynamic_layout_by_id g LAYOUT_ID_STACK_MAX = Some l ->
    dyn_region g (image_base g + l_rva l) (pages_size l)
| dr_thread id l i :
    id ∈ dyn_ids -> get_dynamic_layout_by_id g id = Some l -> 0 <= i <= dyn_copies_max g ->
    dyn_region g (image_base g + l_rva l + i * dyn_step g) (pages_size l).

(** A layout table whose regions lie inside the enclave. *)
Definition dyn_ok (g : runtime) : Prop :=
  enclave_ok g /\ image_base g + enclave_size_ g < 2 ^ 64 /\ Forall layout_ok (gd_layouts g) /\
  0 <= heap_offset_ g /\ get_heap_min_size g <= get_heap_size g /\ heap_offset_ g + get_heap_size g <= enclave_size_ g /\
  dyn_copies_max g < 2 ^ 32 - 1 /\
  (forall id l, get_dynamic_layout_by_id g id = Some l -> id <= LAYOUT_ID_STACK_DYN_MIN ->
     l_rva l + dyn_copies_max g * dyn_step g + pages_size l <= enclave_size_ g).

Definition contained (a n start len : Z) : Prop := start <= a /\ a + 4096 * n <= start + len.

Section Dynamic.
Context (g : runtime) (Hd : dyn_ok g).

Lemma layout_by_id_In id l : get_dynamic_layout_by_id g id = Some l -> layout_ok l /\ l_id l = id.
Proof.
  intros [Hin He]%List.find_some. zbool. split; [|done].
  destruct Hd as (_ & _ & Hl & _). rewrite List.Forall_forall in Hl. by apply Hl.
Qed.

Lemma pages_size_eq l : pages_size l = l_page_count l * 4096.
Proof. unfold pages_size. rewrite Z.shiftl_mul_pow2 by done. done. Qed.

Lemma shift_pages_eq n : 0 <= n < 2 ^ 52 -> shift_pages n = 4096 * n.
Proof.
  intros. unfold shift_pages, SE_PAGE_SHIFT. rewrite Z.shiftl_mul_pow2 by lia.
  rewrite u64_id; [lia|unfold is_u64; lia].
Qed.

Lemma heap_min_nonneg : 0 <= get_heap_min_size g.
Proof.
  unfold get_heap_min_size. destruct (get_dynamic_layout_by_id g LAYOUT_ID_HEAP_MIN) as [l|] eqn:E; [|lia].
  apply layout_by_id_In in E as [(_ & _ & [? _] & _) _]. rewrite pages_size_eq. lia.
Qed.

Lemma group_nonneg : 0 <= dyn_copies_max g /\ 0 <= dyn_step g.
Proof.
  unfold dyn_copies_max, dyn_step.
  destruct (get_dynamic_layout_by_id g LAYOUT_ID_THREAD_GROUP_DYN) as [l|] eqn:E; [|lia].
  apply layout_by_id_In in E as [(_ & _ & [? _] & [? _] & _) _]. unfold g_load_times, g_load_step. lia.
Qed.

Lemma dyn_region_in_enclave start len : dyn_region g start len ->
  image_base g <= start /\ 0 <= len /\ start + len <= image_base g + enclave_size_ g.
Proof.
  pose proof heap_min_nonneg. pose proof group_nonneg. destruct Hd as (_ & _ & _ & ? & ? & ? & _ & He).
  intros [|l E|id l i Hid E Hi].
  - lia.
  - pose proof (He _ _ E ltac:(done)). apply layout_by_id_In in E as [(_ & _ & [? _] & [? _] & _) _].
    rewrite pages_size_eq in *. nia.
  - assert (id <= LAYOUT_ID_STACK_DYN_MIN) by
      (unfold dyn_ids in Hid; rewrite !elem_of_cons, elem_of_nil in Hid; unfold LAYOUT_ID_TCS_DYN, LAYOUT_ID_TD_DYN,
         LAYOUT_ID_SSA_DYN, LAYOUT_ID_STACK_DYN_MAX, LAYOUT_ID_STACK_DYN_MIN in *; lia).
    pose proof (He _ _ E ltac:(done)). apply layout_by_id_In in E as [(_ & _ & [? _] & [? _] & _) _].
    rewrite pages_size_eq in *. nia.
Qed.

(** The test both range checks end with. *)
Lemma range_test a n start len : is_u64 a -> 0 <= n < 2 ^ 52 -> a + 4096 * n < 2 ^ 64 ->
  0 <= start -> start + len < 2 ^ 64 -> 0 <= len ->
  (a >=? start) && (u64 (a + shift_pages n) <=? u64 (start + len)) = true <-> contained a n start len.
Proof.
  intros [? ?] Hn Hw ? Hl ?. rewrite shift_pages_eq by done.
  rewrite (u64_id (a + 4096 * n)), (u64_id (start + len)) by (unfold is_u64; lia).
  rewrite andb_true_iff, Z.geb_leb, !Z.leb_le. unfold contained. lia.
Qed.

Lemma region_bounds start len : dyn_region g start len -> 0 <= start /\ 0 <= len /\ start + len < 2 ^ 64.
Proof. intros H%dyn_region_in_enclave. destruct Hd as ((? & _) & ? & _). lia. Qed.

Section Range.
Context (a n : Z) (Ha : is_u64 a) (Hn : 0 <= n < 2 ^ 52) (Hw : a + 4096 * n < 2 ^ 64).

Lemma heap_range fa : check_heap_dyn_range g a n = Some fa <->
  contained a n (image_base g + heap_offset_ g + get_heap_min_size g) (get_heap_size g - get_heap_min_size g) /\
  fa = MkFa SI_FLAGS_RW PAGE_ATTR_POST_ADD.
Proof.
  pose proof (region_bounds _ _ (dr_heap g)) as Hb. pose proof heap_min_nonneg. destruct Hd as ((? & _) & ? & _ & ? & _).
  unfold check_heap_dyn_range, get_heap_base.
  rewrite (u64_id (image_base g + heap_offset_ g)), (u64_id (image_base g + _ + _)), (u64_id (get_heap_size g - _))
    by (unfold is_u64; lia).
  rewrite <- range_test by (try done; lia). case_match; split; [by intros [= <-]|by intros [_ ->]|done|by intros [? _]].
Qed.

Lemma entry_range id off fa l : get_dynamic_layout_by_id g id = Some l -> LAYOUT_ID_HEAP_MIN <= id <= LAYOUT_ID_STACK_DYN_MIN ->
  dyn_region g (image_base g + l_rva l + off) (pages_size l) -> 0 <= off ->
  check_dynamic_entry_range g a n id off = Some fa <->
  contained a n (image_base g + l_rva l + off) (pages_size l) /\ fa = MkFa (l_si_flags l) (l_attributes l).
Proof.
  intros E Hid Hr Hoff. pose proof (region_bounds _ _ Hr) as Hb.
  unfold check_dynamic_entry_range. replace ((id <? _) || _) with false.
  2:{ symmetry. apply orb_false_iff. rewrite Z.gtb_ltb, !Z.ltb_ge. lia. }
  rewrite E. cbn [mbind option_bind]. pose proof (layout_by_id_In id l E) as [(_ & _ & _ & [? ?] & _) _].
  destruct Hd as ((? & _) & ? & _).
  rewrite (u64_id (image_base g + l_rva l)), (u64_id (image_base g + l_rva l + off)) by (unfold is_u64; lia).
  rewrite <- range_test by (try done; lia). case_match; split; [by intros [= <-]|by intros [_ ->]|done|by intros [? _]].
Qed.

Lemma first_some_Some {A B} (f : A -> option B) l y : first_some f l = Some y -> exists x, x ∈ l /\ f x = Some y.
Proof.
  induction l as [|x l IH]; [done|]. cbn. destruct (f x) eqn:E.
  - intros [= <-]. exists x. split; [constructor|done].
  - intros H. destruct (IH H) as (x' & ? & ?). exists x'. split; [by constructor|done].
Qed.

Lemma first_some_None {A B} (f : A -> option B) l : first_some f l = None -> forall x, x ∈ l -> f x = None.
Proof.
  induction l as [|x l IH]; [by intros _ x ?%not_elem_of_nil|]. cbn. destruct (f x) eqn:E; [done|].
  intros H x' [->|Hx]%elem_of_cons; [done|]. by apply IH.
Qed.

Lemma dyn_ids_range id : id ∈ dyn_ids -> LAYOUT_ID_HEAP_MIN <= id <= LAYOUT_ID_STACK_DYN_MIN.
Proof.
  unfold dyn_ids. rewrite !elem_of_cons, elem_of_nil. unfold LAYOUT_ID_HEAP_MIN, LAYOUT_ID_TCS_DYN, LAYOUT_ID_TD_DYN,
    LAYOUT_ID_SSA_DYN, LAYOUT_ID_STACK_DYN_MAX, LAYOUT_ID_STACK_DYN_MIN. lia.
Qed.

Lemma entry_layout id off fa : check_dynamic_entry_range g a n id off = Some fa ->
  exists l, get_dynamic_layout_by_id g id = Some l.
Proof.
  unfold check_dynamic_entry_range. destruct (_ || _); [done|].
  destruct (get_dynamic_layout_by_id g id) as [l|]; [eauto|done].
Qed.

(** A copy of a dynamic thread: its offset, and its region. *)
Lemma thread_region id l i : id ∈ dyn_ids -> get_dynamic_layout_by_id g id = Some l -> 0 <= i <= dyn_copies_max g ->
  u64 (i * dyn_step g) = i * dyn_step g /\ 0 <= i * dyn_step g /\
  dyn_region g (image_base g + l_rva l + i * dyn_step g) (pages_size l).
Proof.
  intros Hid E Hi. pose proof (dr_thread g id l i Hid E Hi) as Hr. split_and!; [..|done].
  - pose proof (region_bounds _ _ Hr). pose proof group_nonneg. destruct (layout_by_id_In id l E) as [(_ & _ & _ & [? ?] & _) _].
    destruct Hd as ((? & _) & ? & _). apply u64_id. unfold is_u64. nia.
  - pose proof group_nonneg. nia.
Qed.

Lemma thread_entry id l i fa : id ∈ dyn_ids -> get_dynamic_layout_by_id g id = Some l -> 0 <= i <= dyn_copies_max g ->
  check_dynamic_entry_range g a n id (u64 (i * dyn_step g)) = Some fa <->
  contained a n (image_base g + l_rva l + i * dyn_step g) (pages_size l) /\ fa = MkFa (l_si_flags l) (l_attributes l).
Proof.
  intros Hid E Hi. destruct (thread_region id l i Hid E Hi) as (-> & ? & ?).
  apply entry_range; [done|by apply dyn_ids_range|done..].
Qed.

(** The search over the copies of the dynamic thread. *)
Definition thread_search : option (option Z * dynamic_flags_attributes) :=
  match get_dynamic_layout_by_id g LAYOUT_ID_THREAD_GROUP_DYN with
  | Some dt_layout =>
      first_some (fun id =>
        first_some (fun i =>
          let off := u64 (i * g_load_step dt_layout) in
          fa ← check_dynamic_entry_range g a n id off; Some (Some off, fa))
          (map Z.of_nat (seq 0 (Z.to_nat (u32 (g_load_times dt_layout + 1)))))) dyn_ids
  | None =>
      first_some (fun id =>
        fa ← check_dynamic_entry_range g a n id 0; Some (Some 0, fa)) dyn_ids
  end.

Lemma copies_In i : 0 <= i <= dyn_copies_max g <->
  i ∈ map Z.of_nat (seq 0 (Z.to_nat (u32 (dyn_copies_max g + 1)))).
Proof.
  pose proof group_nonneg. destruct Hd as (_ & _ & _ & _ & _ & _ & ? & _).
  rewrite u32_id by (unfold is_u32; lia). rewrite list_elem_of_In, in_map_iff. split.
  - intros Hi. exists (Z.to_nat i). rewrite in_seq. lia.
  - intros (k & <- & Hk%in_seq). lia.
Qed.

Lemma thread_search_Some r : thread_search = Some r ->
  exists id l i, id ∈ dyn_ids /\ get_dynamic_layout_by_id g id = Some l /\ 0 <= i <= dyn_copies_max g /\
    contained a n (image_base g + l_rva l + i * dyn_step g) (pages_size l) /\
    r = (Some (i * dyn_step g), MkFa (l_si_flags l) (l_attributes l)).
Proof.
  intros H. assert (exists id i fa, id ∈ dyn_ids /\ 0 <= i <= dyn_copies_max g /\
    check_dynamic_entry_range g a n id (u64 (i * dyn_step g)) = Some fa /\ r = (Some (u64 (i * dyn_step g)), fa))
    as (id & i & fa & Hid & Hi & Hc & ->).
  { unfold thread_search in H. pose proof copies_In as Hcp. unfold dyn_copies_max, dyn_step in *.
    destruct (get_dynamic_layout_by_id g LAYOUT_ID_THREAD_GROUP_DYN) as [dt|] eqn:E.
    - apply first_some_Some in H as (id & Hid & H). apply first_some_Some in H as (i & Hi & H).
      destruct (check_dynamic_entry_range g a n id _) as [fa|] eqn:Ec; [|done]. injection H as <-.
      exists id, i, fa. split_and!; [done|apply Hcp, Hi..|done|done].
    - apply first_some_Some in H as (id & Hid & H).
      destruct (check_dynamic_entry_range g a n id 0) as [fa|] eqn:Ec; [|done]. injection H as <-.
      exists id, 0, fa. split_and!; [done|lia..|done|done]. }
  destruct (entry_layout _ _ _ Hc) as (l & El). pose proof (proj1 (thread_entry id l i fa Hid El Hi) Hc) as [Hc' ->].
  destruct (thread_region id l i Hid El Hi) as (-> & _). eauto 10.
Qed.

Lemma thread_search_None id l i : thread_search = None -> id ∈ dyn_ids -> get_dynamic_layout_by_id g id = Some l ->
  0 <= i <= dyn_copies_max g -> ~ contained a n (image_base g + l_rva l + i * dyn_step g) (pages_size l).
Proof.
  intros H Hid El Hi Hc.
  pose proof (proj2 (thread_entry id l i (MkFa (l_si_flags l) (l_attributes l)) Hid El Hi) (conj Hc eq_refl)) as Hc'.
  unfold thread_search in H. pose proof (proj1 (copies_In i) Hi) as Hcp. unfold dyn_copies_max, dyn_step in *.
  destruct (get_dynamic_layout_by_id g LAYOUT_ID_THREAD_GROUP_DYN) as [dt|] eqn:E.
  - apply (first_some_None _ _ H id), first_some_None with (x := i) in Hid; [|done]. by rewrite Hc' in Hid.
  - apply (first_some_None _ _ H id) in Hid. replace i with 0 in Hc' by lia. change (u64 (0 * 0)) with 0 in Hc'. by rewrite Hc' in Hid.
Qed.
End Range.

(** check_dynamic_range accepts exactly the ranges inside a dynamic region. *)
Lemma check_dynamic_range_spec a n : is_u64 a -> 0 <= n < 2 ^ 52 ->
  match check_dynamic_range g a n with
  | Some _ => exists start len, dyn_region g start len /\ contained a n start len
  | None => forall start len, dyn_region g start len -> ~ contained a n start len
  end.
Proof.
  intros Ha Hn. unfold check_dynamic_range. rewrite shift_pages_eq by done. pose proof Ha as [? ?].
  destruct (a >? 2 ^ 64 - 1 - 4096 * n) eqn:Ew; rewrite Z.gtb_ltb in Ew; zbool.
  { intros start len Hr [? ?]. pose proof (region_bounds _ _ Hr). lia. }
  assert (Hw : a + 4096 * n < 2 ^ 64) by lia. pose proof (heap_range a n Ha Hn Hw) as Hh.
  destruct (check_heap_dyn_range g a n) as [fa|].
  { eexists _, _. split; [apply dr_heap|]. by apply (Hh fa). }
  assert (Hs : forall l, get_dynamic_layout_by_id g LAYOUT_ID_STACK_MAX = Some l -> forall fa,
    check_utility_thread_dynamic_stack g a n = Some fa <->
    contained a n (image_base g + l_rva l) (pages_size l) /\ fa = MkFa (l_si_flags l) (l_attributes l)).
  { intros l E fa. rewrite <- (Z.add_0_r (image_base g + l_rva l)).
    apply (entry_range a n Ha Hn Hw); [done|done|rewrite Z.add_0_r; by apply dr_stack|done]. }
  destruct (check_utility_thread_dynamic_stack g a n) as [fa|] eqn:Eu.
  { destruct (entry_layout a n _ _ _ Eu) as (l & El). eexists _, _. split; [by apply dr_stack|].
    by apply (Hs l El fa). }
  change (match thread_search a n with
          | Some _ => exists start len, dyn_region g start len /\ contained a n start len
          | None => forall start len, dyn_region g start len -> ~ contained a n start len end).
  destruct (thread_search a n) as [r|] eqn:Et.
  - apply thread_search_Some in Et as (id & l & i & Hid & El & Hi & Hc & _); [|done..].
    eexists _, _. split; [by eapply dr_thread|done].
  - intros start len [|l E|id l i Hid El Hi] Hc.
    + by pose proof (proj2 (Hh _) (conj Hc eq_refl)).
    + by pose proof (proj2 (Hs l E _) (conj Hc eq_refl)).
    + by apply (thread_search_None a n Ha Hn Hw id l i).
Qed.

(** *** The pages accepted *)
Definition pages_up (start : Z) (n : nat) : list Z := map (fun i => start + SE_PAGE_SIZE * Z.of_nat i) (seq 0 n).

Lemma pages_up_S start n : pages_up start (S n) = start :: pages_up (start + SE_PAGE_SIZE) n.
Proof.
  unfold pages_up. simpl. f_equal; [lia|]. rewrite <- seq_shift, map_map. apply map_ext. intros. lia.
Qed.

Lemma pages_up_snoc start n : pages_up start (S n) = pages_up start n ++ [start + SE_PAGE_SIZE * Z.of_nat n].
Proof. unfold pages_up. rewrite seq_S, map_app. done. Qed.
End Dynamic.

Section AcceptSpec.
Variable do_eaccept : Z -> Z -> Z.

(** All pages of the list are accepted, or the enclave aborts. *)
Definition accepts_all (sfl : Z) (ps : list Z) (r : res unit (list (Z * Z))) : Prop :=
  r = Ok (map (pair sfl) ps) \/ r = Stuck /\ exists p, p ∈ ps /\ do_eaccept sfl p <> 0.

Lemma accepts_all_cons sfl p ps r : accepts_all sfl ps r ->
  accepts_all sfl (p :: ps) (if negb (do_eaccept sfl p =? 0) then Stuck else rest ← r; Ok ((sfl, p) :: rest)).
Proof.
  intros H. destruct (Z.eqb_spec (do_eaccept sfl p) 0) as [E|E]; cbn [negb].
  - destruct H as [->|[-> (q & ? & ?)]]; [by left|]. right. split; [done|]. exists q. split; [by constructor|done].
  - right. split; [done|]. exists p. split; [constructor|done].
Qed.

Lemma accept_forward_spec n : forall fuel sfl addr, (n < fuel)%nat -> 0 <= addr ->
  addr + SE_PAGE_SIZE * Z.of_nat n < 2 ^ 64 ->
  accepts_all sfl (pages_up addr n) (accept_forward_loop do_eaccept fuel sfl addr (addr + SE_PAGE_SIZE * Z.of_nat n)).
Proof.
  induction n as [|n IH]; intros [|fuel] sfl addr Hf H0 Hw; try lia; cbn [accept_forward_loop].
  - replace (addr <? _) with false by (symmetry; apply Z.ltb_ge; lia). by left.
  - unfold SE_PAGE_SIZE in *. replace (addr <? _) with true by (symmetry; apply Z.ltb_lt; lia).
    rewrite pages_up_S. apply accepts_all_cons. rewrite u64_id by (unfold is_u64, SE_PAGE_SIZE; lia).
    specialize (IH fuel sfl (addr + 4096) ltac:(lia) ltac:(lia) ltac:(unfold SE_PAGE_SIZE; lia)). unfold SE_PAGE_SIZE in *.
    by replace (addr + 4096 + 4096 * Z.of_nat n) with (addr + 4096 * Z.of_nat (S n)) in IH by lia.
Qed.

Lemma accept_backward_spec n : forall fuel sfl lo, (n < fuel)%nat -> 0 <= lo ->
  lo + SE_PAGE_SIZE * Z.of_nat n < 2 ^ 64 ->
  accepts_all sfl (rev (pages_up lo n)) (accept_backward_loop do_eaccept fuel sfl (lo + SE_PAGE_SIZE * Z.of_nat n) lo).
Proof.
  induction n as [|n IH]; intros [|fuel] sfl lo Hf H0 Hw; try lia; cbn [accept_backward_loop].
  - replace (lo <? _) with false by (symmetry; apply Z.ltb_ge; lia). by left.
  - unfold SE_PAGE_SIZE in *. replace (lo <? _) with true by (symmetry; apply Z.ltb_lt; lia).
    replace (u64 (lo + 4096 * Z.of_nat (S n) - 4096)) with (lo + 4096 * Z.of_nat n) by (rewrite u64_id; [lia|unfold is_u64; lia]).
    rewrite pages_up_snoc, rev_app_distr. cbn [rev app]. apply accepts_all_cons. apply IH; unfold SE_PAGE_SIZE; lia.
Qed.
End AcceptSpec.

Lemma accept_fuel_enough lo n : (n < accept_fuel lo (lo + SE_PAGE_SIZE * Z.of_nat n))%nat.
Proof.
  unfold accept_fuel, SE_PAGE_SIZE. replace (lo + 4096 * Z.of_nat n - lo) with (Z.of_nat n * 4096) by lia.
  rewrite Z.div_mul by lia. lia.
Qed.


Lemma sample_runtime_dyn_ok : dyn_ok sample_runtime.
Proof.
  split; [exact sample_runtime_ok|]. split; [done|]. split.
  { repeat (apply Forall_cons; split; [repeat split; vm_compute; congruence|]). by apply Forall_nil. }
  split; [done|]. split; [done|]. split; [done|]. split; [done|].
  intros id l [Hin He]%List.find_some Hid. apply Z.eqb_eq in He. revert He Hid.
  repeat destruct Hin as [<-|Hin]; [..|done]; intros <-; vm_compute; congruence.
Qed.


(** The number of pages is shifted before it is checked: a request for 2^52
    pages is taken for an empty one and succeeds without adding a page. *)
Lemma page_count_wraps : apply_EPC_pages sample_runtime (fun _ _ => 0) 0x10024000 (2 ^ 52) = Ok [].
Proof. reflexivity. Qed.

(** ** Adding a thread *)

(** The offset check_dynamic_range writes is that of a copy of the thread. *)
Lemma check_dynamic_range_offset g a n r : dyn_ok g -> is_u64 a -> 0 <= n < 2 ^ 52 ->
  check_dynamic_range g a n = Some r ->
  exists i, 0 <= i <= dyn_copies_max g /\ default 0 (fst r) = i * dyn_step g.
Proof.
  intros Hd Ha Hn. pose proof (group_nonneg g Hd). pose proof Ha as [? ?].
  unfold check_dynamic_range. rewrite shift_pages_eq by done.
  destruct (a >? 2 ^ 64 - 1 - 4096 * n) eqn:Ew; [done|]. rewrite Z.gtb_ltb in Ew. zbool.
  destruct (check_heap_dyn_range g a n); [intros [= <-]; exists 0; split; [lia|done]|].
  destruct (check_utility_thread_dynamic_stack g a n); [intros [= <-]; exists 0; split; [lia|done]|].
  change (thread_search g a n = Some r -> exists i, 0 <= i <= dyn_copies_max g /\ default 0 (fst r) = i * dyn_step g).
  intros Hs. apply thread_search_Some in Hs as (id & l & i & _ & _ & Hi & _ & ->); [|done|done|done|lia]. eauto.
Qed.

Section Tcs.
Context (g : runtime) (tcs : Z).

Lemma tcs_adjust_len f page : 0 <= f_off f -> f_end f <= zlen page -> zlen (tcs_adjust g tcs f page) = zlen page.
Proof. apply zlen_fset. Qed.

Lemma tcs_adjust_same f page : f_width f = 8%nat -> 0 <= f_off f -> f_end f <= zlen page ->
  fget f (tcs_adjust g tcs f page) = u64 (u64 (tcs + fget f page) - image_base g).
Proof.
  intros Hw ? ?. unfold tcs_adjust. rewrite fget_fset_same by done. rewrite Hw. apply u64_id, u64_range.
Qed.

Lemma tcs_adjust_other f f' page : 0 <= f_off f -> f_end f <= zlen page -> 0 <= f_off f' ->
  (f_end f <= f_off f' \/ f_end f' <= f_off f) -> fget f' (tcs_adjust g tcs f page) = fget f' page.
Proof. intros. unfold tcs_adjust. apply fget_fset_other; [done..|lia]. Qed.

(** The TCS page do_add_thread writes. *)
Definition tcs_page (template page : list Z) : list Z :=
  tcs_adjust g tcs tcs_ogs_base (tcs_adjust g tcs tcs_ofs_base (tcs_adjust g tcs tcs_ossa (splice 0 template page))).

Lemma tcs_page_fields template page : zlen template = TCS_TEMPLATE_SIZE -> zlen page = SE_PAGE_SIZE ->
  zlen (tcs_page template page) = SE_PAGE_SIZE /\
  forall f, f ∈ [tcs_ossa; tcs_ofs_base; tcs_ogs_base] ->
    fget f (tcs_page template page) = u64 (u64 (tcs + fget f template) - image_base g).
Proof.
  intros Ht Hp. unfold TCS_TEMPLATE_SIZE, SE_PAGE_SIZE in *.
  assert (Hl : zlen (splice 0 template page) = 4096) by (rewrite zlen_splice; lia).
  assert (Htpl : forall f, 0 <= f_off f -> f_end f <= 72 -> fget f (splice 0 template page) = fget f template).
  { intros f ? Hf. unfold fget. f_equal. rewrite splice_0. apply slice_app_le; unfold f_end in *; lia. }
  assert (E : f_end tcs_ossa = 24 /\ f_end tcs_ofs_base = 56 /\ f_end tcs_ogs_base = 64) by done.
  assert (E' : f_off tcs_ossa = 16 /\ f_off tcs_ofs_base = 48 /\ f_off tcs_ogs_base = 56) by done.
  unfold tcs_page. split.
  - rewrite !tcs_adjust_len; rewrite ?tcs_adjust_len; rewrite ?tcs_adjust_len; lia.
  - intros f. rewrite !elem_of_cons, elem_of_nil. intros [->|[->|[->|[]]]].
    + rewrite (tcs_adjust_other tcs_ogs_base), (tcs_adjust_other tcs_ofs_base), tcs_adjust_same, Htpl; rewrite ?tcs_adjust_len; rewrite ?tcs_adjust_len; done || lia.
    + rewrite (tcs_adjust_other tcs_ogs_base), tcs_adjust_same, (tcs_adjust_other tcs_ossa), Htpl; rewrite ?tcs_adjust_len; rewrite ?tcs_adjust_len;
        done || lia.
    + rewrite tcs_adjust_same, (tcs_adjust_other tcs_ofs_base), (tcs_adjust_other tcs_ossa), Htpl; rewrite ?tcs_adjust_len; rewrite ?tcs_adjust_len; done || lia.
Qed.
End Tcs.

(** do_add_thread adds a thread only at a TCS of the layout table, and gives
    it the template with its three TCS-relative fields made relative to the
    enclave. *)
Theorem do_add_thread_tcs g do_eaccept template page ocall ptcs tcs acc : dyn_ok g -> is_u64 ptcs ->
  zlen template = TCS_TEMPLATE_SIZE -> zlen page = SE_PAGE_SIZE ->
  do_add_thread g do_eaccept template page ocall ptcs = Ok (tcs, acc) ->
  exists l i, get_dynamic_layout_by_id g LAYOUT_ID_TCS_DYN = Some l /\ 0 <= i <= dyn_copies_max g /\
    ptcs = image_base g + l_rva l + i * dyn_step g /\ zlen tcs = SE_PAGE_SIZE /\
    forall f, f ∈ [tcs_ossa; tcs_ofs_base; tcs_ogs_base] ->
      fget f tcs = u64 (u64 (ptcs + fget f template) - image_base g).
Proof.
  intros Hd Hp Ht Hpg. pose proof (tcs_page_fields g ptcs template page Ht Hpg) as [Hlen Hf]. unfold do_add_thread.
  destruct (check_dynamic_range g ptcs 1) as [[o fa]|] eqn:Ec; [|done].
  pose proof (check_dynamic_range_offset g ptcs 1 _ Hd Hp ltac:(lia) Ec) as (i & Hi & Ho). cbn [fst] in Ho. rewrite Ho.
  destruct (get_dynamic_layout_by_id g LAYOUT_ID_TCS_DYN) as [l|] eqn:El; [|done].
  destruct (Z.eqb_spec (u64 (u64 (image_base g + l_rva l) + i * dyn_step g)) ptcs) as [He|]; cbn [negb]; [|done].
  destruct (apply_entries g do_eaccept dyn_ids (i * dyn_step g)) as [accepted|e|]; [|done..].
  destruct (negb (ocall =? 0)); [done|]. destruct (sgx_accept_backward _ _ _ _) as [b|e|]; [|done..].
  intros [= <- <-]. exists l, i. fold (tcs_page g ptcs template page).
  pose proof (layout_by_id_In g Hd _ _ El) as [(_ & _ & _ & [? ?] & _) _].
  assert (Hid : LAYOUT_ID_TCS_DYN ∈ dyn_ids) by constructor.
  pose proof (region_bounds g Hd _ _ (dr_thread g _ l i Hid El Hi)) as Hb. pose proof Hd as ((? & _) & ? & _).
  pose proof (group_nonneg g Hd). assert (0 <= i * dyn_step g) by nia.
  rewrite (u64_id (image_base g + l_rva l)), u64_id in He by (unfold is_u64; lia).
  split_and!; [done|lia|lia|done|done|done].
Qed.

Lemma do_add_thread_tcs_witness : exists tcs acc,
  do_add_thread sample_runtime (fun _ _ => 0) (zreplicate 16 0 ++ le_bytes 8 0x3000 ++ zreplicate 48 0)
    (zreplicate 4096 0) 0 0x10060000 = Ok (tcs, acc) /\
  map snd acc = [0x10060000; 0x10061000; 0x10062000; 0x10063000; 0x10060000] /\
  fget tcs_ossa tcs = 0x63000 /\
  exists l i, get_dynamic_layout_by_id sample_runtime LAYOUT_ID_TCS_DYN = Some l /\
    0 <= i <= dyn_copies_max sample_runtime /\
    0x10060000 = image_base sample_runtime + l_rva l + i * dyn_step sample_runtime /\ zlen tcs = SE_PAGE_SIZE /\
    forall f, f ∈ [tcs_ossa; tcs_ofs_base; tcs_ogs_base] ->
      fget f tcs = u64 (u64 (0x10060000 + fget f (zreplicate 16 0 ++ le_bytes 8 0x3000 ++ zreplicate 48 0))
                     - image_base sample_runtime).
Proof.
  eexists _, _. split; [vm_compute; reflexivity|]. split; [reflexivity|]. split; [vm_compute; reflexivity|].
  eapply (do_add_thread_tcs sample_runtime (fun _ _ => 0) _ (zreplicate 4096 0) 0 0x10060000 _ _ sample_runtime_dyn_ok);
    [split; [lia|reflexivity]|vm_compute; reflexivity..].
Defined.

(** ** Random bytes: a successful call gives the number of bytes asked for, and
    a generator that never fails makes every call with valid arguments succeed. *)
Lemma read_rand_loop_length {R} (rd : R -> R * option Z) fuel : forall n acc r r' l, 0 <= n ->
  read_rand_loop rd fuel n acc r = (r', Ok l) -> zlen l = zlen acc + n.
Proof.
  induction fuel as [|k IH]; intros n acc r r' l Hn; cbn [read_rand_loop]; [done|].
  rewrite Z.gtb_ltb. destruct (Z.ltb_spec 0 n).
  - destruct (rd r) as [r1 [x|]]; [|done].
    assert (Hsz : 0 < (if n <? 4 then n else 4) <= n /\ (if n <? 4 then n else 4) <= 4) by (destruct (Z.ltb_spec n 4); lia).
    revert Hsz. generalize (if n <? 4 then n else 4). intros size Hsz Hl.
    apply IH in Hl; [|lia]. rewrite Hl, zlen_app, zlen_ztake, length_le_bytes. lia.
  - intros [= <- <-]. lia.
Qed.

Lemma read_rand_loop_total {R} (rd : R -> R * option Z) fuel : (forall r, exists x, snd (rd r) = Some x) ->
  forall n acc r, 0 <= n < Z.of_nat fuel -> exists r' l, read_rand_loop rd fuel n acc r = (r', Ok l).
Proof.
  intros Hrd. induction fuel as [|k IH]; intros n acc r Hn; [lia|]. cbn [read_rand_loop].
  rewrite Z.gtb_ltb. destruct (Z.ltb_spec 0 n); [|eauto].
  destruct (Hrd r) as [x Hx]. destruct (rd r) as [r1 o]. cbn in Hx. subst o.
  apply IH. destruct (Z.ltb_spec n 4); lia.
Qed.

Lemma read_rand_length {R} g (rd : R -> R * option Z) a n r r' l : is_u64 n ->
  sgx_read_rand g rd a n r = (r', Ok l) -> zlen l = n.
Proof.
  intros [? ?]. unfold sgx_read_rand. do 2 (case_match; [done|]). intros Hl.
  apply read_rand_loop_length in Hl; [|lia]. done.
Qed.

Lemma read_rand_total {R} g (rd : R -> R * option Z) a n r : (forall r, exists x, snd (rd r) = Some x) ->
  0 < n -> a <> 0 -> sgx_is_within_enclave g a n = true ->
  exists r' l, sgx_read_rand g rd a n r = (r', Ok l) /\ zlen l = n.
Proof.
  intros Hrd Hn Ha Hin. unfold sgx_read_rand. rewrite Hin.
  replace ((a =? 0) || (n =? 0)) with false by (symmetry; apply orb_false_iff; rewrite !Z.eqb_neq; lia).
  cbn [negb andb]. destruct (read_rand_loop_total rd (S (Z.to_nat n)) Hrd n [] r) as (r' & l & Hl); [lia|].
  exists r', l. split; [done|]. apply read_rand_loop_length in Hl; [|lia]. done.
Qed.
