(* ===== verification/Tcrypto.v ===== *)
(** * Keys and authenticated encryption inside the enclave

    sdk/selib/sgx_get_key.cpp (the wrapper of EGETKEY), and the AES-GCM and
    CMAC wrappers of sdk/tlibcrypto/ipp (sgx_aes_gcm.cpp, sgx_cmac128.cpp).
    What lies below them is a parameter: the processor (EGETKEY, RDRAND, the
    report of the enclave), the allocator and the status of the IPP calls
    ([Platform]), and the cipher itself ([AesGcm]), of which only the
    documented laws are used.  The state [W] is what decides the outcome of
    allocations, IPP calls and random numbers, so each may fail at any call. *)

From S2P Require Import Prelude Bytes Arch Trts.

#[local] Open Scope Z_scope.

(** ** Interfaces *)
Inductive IppStatus : Set :=
| ippStsNoErr | ippStsMemAllocErr | ippStsNullPtrErr | ippStsLengthErr | ippStsOtherErr.

Inductive egetkey_status_t : Set :=
| EGETKEY_SUCCESS | EGETKEY_INVALID_ATTRIBUTE | EGETKEY_INVALID_CPUSVN | EGETKEY_INVALID_ISVSVN
| EGETKEY_INVALID_KEYNAME | EGETKEY_OTHER.

(** The fields of the report body that are used. *)
Record report_body := MkReport { r_cpu_svn : list Z; r_isv_svn : Z; r_config_svn : Z; r_attr_flags : Z }.

Class Platform (W : Type) := {
  pf_malloc : W -> W * bool;
  pf_ipp : W -> W * IppStatus;
  pf_rdrand : W -> W * option Z;
  (** EGETKEY: the request determines the status and the key. *)
  pf_egetkey : list Z -> egetkey_status_t * list Z;
  pf_report : report_body }.

(** AES-GCM with a 128-bit key: key, iv, additional data, text. *)
Class AesGcm := {
  gcm_encrypt : list Z -> list Z -> list Z -> list Z -> list Z;
  gcm_decrypt : list Z -> list Z -> list Z -> list Z -> list Z;
  gcm_tag : list Z -> list Z -> list Z -> list Z -> list Z;
  cmac : list Z -> list Z -> list Z }.

Class AesGcmLaws (G : AesGcm) := {
  gcm_decrypt_encrypt key iv aad pt : gcm_decrypt key iv aad (gcm_encrypt key iv aad pt) = pt;
  gcm_encrypt_decrypt key iv aad ct : gcm_encrypt key iv aad (gcm_decrypt key iv aad ct) = ct;
  gcm_encrypt_length key iv aad pt : zlen (gcm_encrypt key iv aad pt) = zlen pt;
  gcm_tag_length key iv aad ct : zlen (gcm_tag key iv aad ct) = 16;
  cmac_length key m : zlen (cmac key m) = 16 }.

Section Tcrypto.
Context {W : Type} {PF : Platform W} {G : AesGcm}.
Variable g : runtime.

(** ** The wrappers of the IPP library *)
Definition ipp_call (err : IppStatus -> sgx_status_t) : M W sgx_status_t unit := fun w =>
  match pf_ipp w with
  | (w', ippStsNoErr) => (w', Ok tt)
  | (w', e) => (w', Err (err e))
  end.

Definition malloc_or (e : sgx_status_t) : M W sgx_status_t unit := fun w =>
  match pf_malloc w with (w', true) => (w', Ok tt) | (w', false) => (w', Err e) end.

Definition err_init (e : IppStatus) : sgx_status_t :=
  match e with
  | ippStsMemAllocErr => SGX_ERROR_OUT_OF_MEMORY
  | ippStsNullPtrErr | ippStsLengthErr => SGX_ERROR_INVALID_PARAMETER
  | _ => SGX_ERROR_UNEXPECTED
  end.
Definition err_start (e : IppStatus) : sgx_status_t :=
  match e with ippStsNullPtrErr | ippStsLengthErr => SGX_ERROR_INVALID_PARAMETER | _ => SGX_ERROR_UNEXPECTED end.
Definition err_crypt (e : IppStatus) : sgx_status_t :=
  match e with ippStsNullPtrErr => SGX_ERROR_INVALID_PARAMETER | _ => SGX_ERROR_UNEXPECTED end.
Definition err_size (e : IppStatus) : sgx_status_t := SGX_ERROR_UNEXPECTED.

Definition SGX_AESGCM_IV_SIZE : Z := 12.

(** A pointer with the bytes it points to, or NULL. *)
Definition plen (p : option (list Z)) : Z := zlen (default [] p).
Definition is_null {A} (p : option A) : bool := match p with None => true | Some _ => false end.

(** The check of the arguments; [src] is p_src with src_len bytes. *)
Definition gcm_args_bad (src : option (list Z)) (dst_null : bool) (iv : list Z) (aad : option (list Z)) : bool :=
  ((plen src >? 0) && dst_null) || negb (zlen iv =? SGX_AESGCM_IV_SIZE) || (is_null src && is_null aad).

(** ippsAES_GCMGetSize, malloc, ippsAES_GCMInit, ippsAES_GCMStart and, for a
    non-empty text, the encryption or decryption. *)
Definition gcm_run (src_len : Z) : M W sgx_status_t unit :=
  ipp_call err_size ;;
  malloc_or SGX_ERROR_OUT_OF_MEMORY ;;
  ipp_call err_init ;;
  ipp_call err_start ;;
  (if src_len >? 0 then ipp_call err_crypt else mret tt).

(** The results are what p_dst holds afterwards ([None]: it is not written)
    and the tag or the error.  An IPP call that fails has written nothing. *)
Definition sgx_rijndael128GCM_encrypt (key : list Z) (src : option (list Z)) (dst_null : bool) (iv : list Z)
    (aad : option (list Z)) (w : W) : W * (option (list Z) * res sgx_status_t (list Z)) :=
  if gcm_args_bad src dst_null iv aad then (w, (None, Err SGX_ERROR_INVALID_PARAMETER))
  else match gcm_run (plen src) w with
  | (w1, Ok _) =>
      let ct := gcm_encrypt key iv (default [] aad) (default [] src) in
      match ipp_call err_start w1 with
      | (w2, Ok _) => (w2, (Some ct, Ok (gcm_tag key iv (default [] aad) ct)))
      | (w2, Err e) => (w2, (Some (zreplicate (plen src) 0), Err e))
      | (w2, Stuck) => (w2, (None, Stuck))
      end
  | (w1, Err e) => (w1, (None, Err e))
  | (w1, Stuck) => (w1, (None, Stuck))
  end.

Definition sgx_rijndael128GCM_decrypt (key : list Z) (src : option (list Z)) (dst_null : bool) (iv : list Z)
    (aad : option (list Z)) (in_mac : list Z) (w : W) : W * (option (list Z) * res sgx_status_t unit) :=
  if gcm_args_bad src dst_null iv aad then (w, (None, Err SGX_ERROR_INVALID_PARAMETER))
  else match gcm_run (plen src) w with
  | (w1, Ok _) =>
      let ct := default [] src in
      match ipp_call err_start w1 with
      | (w2, Ok _) =>
          if bool_decide (in_mac = gcm_tag key iv (default [] aad) ct)
          then (w2, (Some (gcm_decrypt key iv (default [] aad) ct), Ok tt))
          else (w2, (Some (zreplicate (plen src) 0), Err SGX_ERROR_MAC_MISMATCH))
      | (w2, Err e) => (w2, (Some (zreplicate (plen src) 0), Err e))
      | (w2, Stuck) => (w2, (None, Stuck))
      end
  | (w1, Err e) => (w1, (None, Err e))
  | (w1, Stuck) => (w1, (None, Stuck))
  end.

(** sgx_rijndael128_cmac_msg, none of its pointers being NULL *)
Definition sgx_rijndael128_cmac_msg (key src : list Z) : M W sgx_status_t (list Z) :=
  ipp_call err_size ;;
  malloc_or SGX_ERROR_OUT_OF_MEMORY ;;
  ipp_call err_init ;;
  ipp_call err_start ;;
  ipp_call err_start ;;
  mret (cmac key src).

(** ** sgx_key_request_t *)
Definition SGX_KEYSELECT_SEAL : Z := 0x0004.
Definition SGX_KEYPOLICY_MRENCLAVE : Z := 0x0001.
Definition SGX_KEYPOLICY_MRSIGNER : Z := 0x0002.
Definition SGX_KEYPOLICY_NOISVPRODID : Z := 0x0004.
Definition SGX_KEYPOLICY_CONFIGID : Z := 0x0008.
Definition SGX_KEYPOLICY_ISVFAMILYID : Z := 0x0010.
Definition SGX_KEYPOLICY_ISVEXTPRODID : Z := 0x0020.
Definition KEY_POLICY_KSS : Z := Z.lor (Z.lor SGX_KEYPOLICY_CONFIGID SGX_KEYPOLICY_ISVFAMILYID) SGX_KEYPOLICY_ISVEXTPRODID.

Record sgx_key_request_t := MkKeyRequest {
  kr_name : Z; kr_policy : Z; kr_isv_svn : Z; kr_reserved1 : Z; kr_cpu_svn : list Z;
  kr_mask_flags : Z; kr_mask_xfrm : Z; kr_key_id : list Z; kr_misc_mask : Z; kr_config_svn : Z; kr_reserved2 : list Z }.

Definition sizeof_key_request : Z := 512.

Definition key_request_bytes (k : sgx_key_request_t) : list Z :=
  le_bytes 2 (kr_name k) ++ le_bytes 2 (kr_policy k) ++ le_bytes 2 (kr_isv_svn k) ++ le_bytes 2 (kr_reserved1 k) ++
  kr_cpu_svn k ++ le_bytes 8 (kr_mask_flags k) ++ le_bytes 8 (kr_mask_xfrm k) ++ kr_key_id k ++
  le_bytes 4 (kr_misc_mask k) ++ le_bytes 2 (kr_config_svn k) ++ kr_reserved2 k.

Definition key_request_of (b : list Z) : sgx_key_request_t :=
  MkKeyRequest (fget (Fld 0 2) b) (fget (Fld 2 2) b) (fget (Fld 4 2) b) (fget (Fld 6 2) b) (slice 8 16 b)
    (fget (Fld 24 8) b) (fget (Fld 32 8) b) (slice 40 32 b) (fget (Fld 72 4) b) (fget (Fld 76 2) b) (slice 78 434 b).

(** ** sgx_get_key: the request at address [kr_addr] and the key buffer at
    [key_addr] *)
Definition get_key_body (kr_addr : Z) (request : list Z) (key_addr : Z) : M W sgx_status_t (list Z) :=
  let key_request := key_request_of request in
  if (kr_addr =? 0) || negb (sgx_is_within_enclave g kr_addr sizeof_key_request) then merr SGX_ERROR_INVALID_PARAMETER
  else if negb (kr_reserved1 key_request =? 0) then merr SGX_ERROR_INVALID_PARAMETER
  else if existsb (fun b => negb (b =? 0)) (kr_reserved2 key_request) then merr SGX_ERROR_INVALID_PARAMETER
  else if (key_addr =? 0) || negb (sgx_is_within_enclave g key_addr 16) then merr SGX_ERROR_INVALID_PARAMETER
  else if hasflag (kr_policy key_request)
            (u32 (Z.lnot (Z.lor (Z.lor SGX_KEYPOLICY_MRENCLAVE SGX_KEYPOLICY_MRSIGNER) KEY_POLICY_KSS)))
  then merr SGX_ERROR_INVALID_PARAMETER
  else if negb (hasflag (r_attr_flags pf_report) SGX_FLAGS_KSS)
          && (hasflag (kr_policy key_request) KEY_POLICY_KSS || (kr_config_svn key_request >? 0))
  then merr SGX_ERROR_INVALID_PARAMETER
  else
    malloc_or SGX_ERROR_OUT_OF_MEMORY ;;
    match pf_egetkey request with
    | (EGETKEY_SUCCESS, key) => mret key
    | (EGETKEY_INVALID_ATTRIBUTE, _) => merr SGX_ERROR_INVALID_ATTRIBUTE
    | (EGETKEY_INVALID_CPUSVN, _) => merr SGX_ERROR_INVALID_CPUSVN
    | (EGETKEY_INVALID_ISVSVN, _) => merr SGX_ERROR_INVALID_ISVSVN
    | (EGETKEY_INVALID_KEYNAME, _) => merr SGX_ERROR_INVALID_KEYNAME
    | (EGETKEY_OTHER, _) => merr SGX_ERROR_UNEXPECTED
    end.

(** CLEANUP: on an error a key buffer is filled with random bytes. *)
Definition sgx_get_key (kr_addr : Z) (request : list Z) (key_addr : Z) : M W sgx_status_t (list Z) := fun w =>
  match get_key_body kr_addr request key_addr w with
  | (w1, Err e) => (if key_addr =? 0 then w1 else fst (sgx_read_rand g pf_rdrand key_addr 16 w1), Err e)
  | r => r
  end.
End Tcrypto.

(** * Theorems *)
Section Facts.
Context {W : Type} {PF : Platform W} {G : AesGcm}.

(** What a successful call has computed. *)
Lemma gcm_encrypt_Ok key src dn iv aad (w w' : W) dst tag :
  sgx_rijndael128GCM_encrypt key src dn iv aad w = (w', (dst, Ok tag)) ->
  dst = Some (gcm_encrypt key iv (default [] aad) (default [] src)) /\
  tag = gcm_tag key iv (default [] aad) (gcm_encrypt key iv (default [] aad) (default [] src)).
Proof.
  unfold sgx_rijndael128GCM_encrypt. destruct (gcm_args_bad _ _ _ _); [done|].
  destruct (gcm_run _ w) as [w1 [[]|e|]]; [|done..]. destruct (ipp_call _ w1) as [w2 [[]|e|]]; [|done..].
  by intros [= <- <- <-].
Qed.

Lemma gcm_decrypt_Ok key src dn iv aad mac (w w' : W) dst :
  sgx_rijndael128GCM_decrypt key src dn iv aad mac w = (w', (dst, Ok tt)) ->
  dst = Some (gcm_decrypt key iv (default [] aad) (default [] src)) /\
  mac = gcm_tag key iv (default [] aad) (default [] src).
Proof.
  unfold sgx_rijndael128GCM_decrypt. destruct (gcm_args_bad _ _ _ _); [done|].
  destruct (gcm_run _ w) as [w1 [[]|e|]]; [|done..]. destruct (ipp_call _ w1) as [w2 [[]|e|]]; [|done..].
  case_bool_decide; [|done]. by intros [= <- <-].
Qed.

(** The wrapper always returns. *)
Lemma gcm_never_stuck key src dn iv aad mac (w : W) :
  snd (snd (sgx_rijndael128GCM_decrypt key src dn iv aad mac w)) <> Stuck.
Proof.
  unfold sgx_rijndael128GCM_decrypt, gcm_run, ipp_call, malloc_or, mbind, M_bind.
  repeat (case_match; simplify_eq/=; try done).
Qed.

Lemma get_key_Ok g kr req ka (w w' : W) key :
  sgx_get_key g kr req ka w = (w', Ok key) -> pf_egetkey req = (EGETKEY_SUCCESS, key) /\
    sgx_is_within_enclave g kr 512 = true.
Proof.
  unfold sgx_get_key. destruct (get_key_body g kr req ka w) as [w1 [k|e|]] eqn:E; [|done..].
  intros [= <- <-]. unfold get_key_body in E. destruct ((kr =? 0) || _) eqn:E1; [done|]. zbool.
  repeat (case_match; [done|]). unfold mbind, M_bind, malloc_or in E.
  destruct (pf_malloc w) as [w2 []]; [|done]. destruct (pf_egetkey req) as [[] k']; [|done..].
  by injection E as _ ->.
Qed.
End Facts.

(** ** Platforms on which allocations, IPP calls and RDRAND do not fail *)
Class Healthy {W} (PF : Platform W) : Prop := {
  healthy_malloc w : snd (pf_malloc w) = true;
  healthy_ipp w : snd (pf_ipp w) = ippStsNoErr;
  healthy_rand w : exists x, snd (pf_rdrand w) = Some x }.

Section HealthyFacts.
Context {W : Type} {PF : Platform W} {H : Healthy PF} {G : AesGcm}.

Lemma ipp_healthy err w : exists w', ipp_call err w = (w', Ok tt).
Proof. unfold ipp_call. pose proof (healthy_ipp w). destruct (pf_ipp w) as [w' st]. cbn in *. subst. eauto. Qed.

Lemma malloc_healthy e w : exists w', malloc_or e w = (w', Ok tt).
Proof. unfold malloc_or. pose proof (healthy_malloc w). destruct (pf_malloc w) as [w' b]. cbn in *. subst. eauto. Qed.

(** Run a sequence of calls that cannot fail. *)
Ltac healthy_step :=
  match goal with
  | |- context [@mbind _ _ _ _ ?k (ipp_call ?e) ?w] =>
      let E := fresh in destruct (ipp_healthy e w) as [? E]; rewrite (bind_Ok _ k _ _ _ E); clear E
  | |- context [@mbind _ _ _ _ ?k (malloc_or ?e) ?w] =>
      let E := fresh in destruct (malloc_healthy e w) as [? E]; rewrite (bind_Ok _ k _ _ _ E); clear E
  | |- context [ipp_call ?e ?w] => destruct (ipp_healthy e w) as [? ->]
  end.

Lemma gcm_run_healthy n w : exists w', gcm_run n w = (w', Ok tt).
Proof. unfold gcm_run. repeat (healthy_step; cbv beta). destruct (n >? 0); cbn iota; [healthy_step|]; eauto. Qed.

Lemma cmac_healthy key src w : exists w', sgx_rijndael128_cmac_msg key src w = (w', Ok (cmac key src)).
Proof. unfold sgx_rijndael128_cmac_msg. repeat (healthy_step; cbv beta). eauto. Qed.

Lemma encrypt_healthy key src dn iv aad w : gcm_args_bad src dn iv aad = false ->
  let ct := gcm_encrypt key iv (default [] aad) (default [] src) in
  exists w', sgx_rijndael128GCM_encrypt key src dn iv aad w = (w', (Some ct, Ok (gcm_tag key iv (default [] aad) ct))).
Proof.
  intros Ha ct. unfold sgx_rijndael128GCM_encrypt. rewrite Ha.
  destruct (gcm_run_healthy (plen src) w) as [w1 ->]. healthy_step. eauto.
Qed.

Lemma decrypt_healthy key src dn iv aad w : gcm_args_bad src dn iv aad = false ->
  exists w', sgx_rijndael128GCM_decrypt key src dn iv aad (gcm_tag key iv (default [] aad) (default [] src)) w
    = (w', (Some (gcm_decrypt key iv (default [] aad) (default [] src)), Ok tt)).
Proof.
  intros Ha. unfold sgx_rijndael128GCM_decrypt. rewrite Ha.
  destruct (gcm_run_healthy (plen src) w) as [w1 ->]. healthy_step.
  rewrite bool_decide_eq_true_2 by done. eauto.
Qed.

(** The requests sgx_get_key passes to the processor. *)
Definition request_ok (k : sgx_key_request_t) : bool :=
  (kr_reserved1 k =? 0) && negb (existsb (fun b => negb (b =? 0)) (kr_reserved2 k)) &&
  negb (hasflag (kr_policy k) (u32 (Z.lnot (Z.lor (Z.lor SGX_KEYPOLICY_MRENCLAVE SGX_KEYPOLICY_MRSIGNER) KEY_POLICY_KSS)))) &&
  (hasflag (r_attr_flags pf_report) SGX_FLAGS_KSS ||
   negb (hasflag (kr_policy k) KEY_POLICY_KSS || (kr_config_svn k >? 0))).

Lemma get_key_healthy g kr req ka w key : kr <> 0 -> sgx_is_within_enclave g kr 512 = true ->
  ka <> 0 -> sgx_is_within_enclave g ka 16 = true -> request_ok (key_request_of req) = true ->
  pf_egetkey req = (EGETKEY_SUCCESS, key) -> exists w', sgx_get_key g kr req ka w = (w', Ok key).
Proof.
  intros Hkr Hin Hka Hin' Hr Hk. unfold sgx_get_key, get_key_body, sizeof_key_request. unfold request_ok in Hr.
  rewrite !andb_true_iff in Hr. destruct Hr as [[[Hr1 Hr2] Hr3] Hr4].
  apply negb_true_iff in Hr2, Hr3. rewrite Hin, Hin', Hr1, Hr2, Hr3.
  apply Z.eqb_neq in Hkr, Hka. rewrite Hkr, Hka. cbn [negb orb].
  replace (_ && _) with false by (destruct (hasflag (r_attr_flags pf_report) _); [done|]; cbn in *;
    symmetry; by apply negb_true_iff in Hr4).
  healthy_step. rewrite Hk. cbv beta. eauto.
Qed.
End HealthyFacts.

(** ** The bytes of a key request *)
Definition key_request_ok (k : sgx_key_request_t) : Prop :=
  is_u16 (kr_name k) /\ is_u16 (kr_policy k) /\ is_u16 (kr_isv_svn k) /\ is_u16 (kr_reserved1 k) /\
  zlen (kr_cpu_svn k) = 16 /\ is_u64 (kr_mask_flags k) /\ is_u64 (kr_mask_xfrm k) /\ zlen (kr_key_id k) = 32 /\
  is_u32 (kr_misc_mask k) /\ is_u16 (kr_config_svn k) /\ zlen (kr_reserved2 k) = 434.

(** Reading past a part of a record, and at its start. *)
Lemma slice_skip off n (a c : list Z) : zlen a <= off -> slice off n (a ++ c) = slice (off - zlen a) n c.
Proof. apply slice_app_ge. Qed.
Lemma fget_skip off w (a c : list Z) : zlen a <= off -> fget (Fld off w) (a ++ c) = fget (Fld (off - zlen a) w) c.
Proof. intros. unfold fget. cbn [f_off f_width]. by rewrite slice_app_ge. Qed.
Lemma slice_here off n (b c : list Z) : off = 0 -> n = zlen b -> slice off n (b ++ c) = b.
Proof. intros -> ->. rewrite slice_app_le by lia. apply slice_all. Qed.
Lemma fget_here off w v (c : list Z) : off = 0 -> 0 <= v < 256 ^ Z.of_nat w -> fget (Fld off w) (le_bytes w v ++ c) = v.
Proof. intros -> ?. by apply (fget_mid w []). Qed.

Lemma key_request_length k : key_request_ok k -> zlen (key_request_bytes k) = 512.
Proof.
  intros (_ & _ & _ & _ & H1 & _ & _ & H2 & _ & _ & H3). unfold key_request_bytes.
  rewrite !zlen_app, !length_le_bytes. lia.
Qed.

Lemma key_request_roundtrip k : key_request_ok k -> key_request_of (key_request_bytes k) = k.
Proof.
  intros (U1 & U2 & U3 & U4 & L1 & U5 & U6 & L2 & U7 & U8 & L3). destruct k as [nm po isv r1 cpu fl xf kid misc cfg r2].
  unfold key_request_of, key_request_bytes. cbn [kr_name kr_policy kr_isv_svn kr_reserved1 kr_cpu_svn
    kr_mask_flags kr_mask_xfrm kr_key_id kr_misc_mask kr_config_svn kr_reserved2] in *.
  f_equal; repeat first [rewrite fget_skip by (rewrite ?length_le_bytes; lia)
                        |rewrite slice_skip by (rewrite ?length_le_bytes; lia)].
  all: first [apply fget_here; [rewrite ?length_le_bytes; lia|assumption]
             |apply slice_here; rewrite ?length_le_bytes; lia
             |transitivity (slice 0 (zlen r2) r2); [f_equal; rewrite ?length_le_bytes; lia|apply slice_all]].
Qed.

(** ** Witnesses of the interfaces *)
Module ToyCrypto.
(** A stream cipher that adds the first byte of the key, with a polynomial
    tag. *)
Definition stream (key : list Z) : Z := match key with k :: _ => k | [] => 0 end.
Definition poly (l : list Z) : Z := fold_left (fun a b => (a * 257 + b) mod 2 ^ 61) l 7.

#[export] Instance gcm : AesGcm := {|
  gcm_encrypt key _ _ pt := map (fun b => Z.lxor b (stream key)) pt;
  gcm_decrypt key _ _ ct := map (fun b => Z.lxor b (stream key)) ct;
  gcm_tag key iv aad ct := le_bytes 16 (poly (key ++ iv ++ aad ++ ct));
  cmac key m := le_bytes 16 (poly (key ++ m)) |}.

Lemma stream_invol k l : map (fun b => Z.lxor b k) (map (fun b => Z.lxor b k) l) = l.
Proof.
  rewrite map_map. rewrite <- (map_id l) at 2. apply map_ext. intros b.
  by rewrite Z.lxor_assoc, Z.lxor_nilpotent, Z.lxor_0_r.
Qed.

#[export] Instance laws : AesGcmLaws gcm.
Proof.
  split; intros; cbn -[le_bytes].
  - apply stream_invol.
  - apply stream_invol.
  - by rewrite length_map.
  - by rewrite length_le_bytes.
  - by rewrite length_le_bytes.
Qed.

(** A platform on which nothing fails; the state counts the random numbers. *)
#[export] Instance platform : Platform Z := {|
  pf_malloc w := (w, true);
  pf_ipp w := (w, ippStsNoErr);
  pf_rdrand w := (w + 1, Some ((w * 1103515245 + 12345) mod 2 ^ 32));
  pf_egetkey req := (EGETKEY_SUCCESS, le_bytes 16 (poly req));
  pf_report := MkReport (zreplicate 16 1) 1 0 0x5 |}.

#[export] Instance healthy : Healthy platform.
Proof. split; [done|done|]. intros w. by eexists. Qed.
End ToyCrypto.
