(* ===== verification/Seal.v ===== *)
(** * Sealing

    sdk/tseal: the format of a sealed blob (sgx_tseal.h), its sizes
    (tSeal_util.cpp), sealing and unsealing with encrypted text (tSeal.cpp,
    tSeal_internal.cpp) and of additional text only (tSeal_aad.cpp).  A buffer
    is the address and the bytes there; buffers do not overlap.  The state is
    the platform's and the bytes of the buffers that are written, so what a
    failing call leaves behind is part of the model. *)

From S2P Require Import Prelude Bytes Arch Trts Tcrypto.

#[local] Open Scope Z_scope.

(** ** sgx_sealed_data_t *)
Definition SGX_SEAL_IV_SIZE : Z := 12.
Definition UINT32_MAX : Z := 0xffffffff.
Definition sizeof_sealed_data : Z := 560.
Definition sd_plain_text_offset : field := Fld 512 4.
Definition sd_payload_size : field := Fld 528 4.
Definition sd_payload_tag : Z := 544.
Definition sd_payload : Z := 560.

Definition sgx_calc_sealed_data_size (add_mac_txt_size txt_encrypt_size : Z) : Z :=
  if add_mac_txt_size >? UINT32_MAX - txt_encrypt_size then UINT32_MAX
  else
    let payload_size := u32 (add_mac_txt_size + txt_encrypt_size) in
    if payload_size >? UINT32_MAX - sizeof_sealed_data then UINT32_MAX
    else u32 (sizeof_sealed_data + payload_size).

(** [None]: the NULL pointer *)
Definition sgx_get_add_mac_txt_len (p : option (list Z)) : Z :=
  match p with
  | None => UINT32_MAX
  | Some sd =>
      let data_size := u32 (fget sd_payload_size sd - fget sd_plain_text_offset sd) in
      if data_size >? fget sd_payload_size sd then UINT32_MAX else data_size
  end.

Definition sgx_get_encrypt_txt_len (p : option (list Z)) : Z :=
  match p with None => UINT32_MAX | Some sd => fget sd_plain_text_offset sd end.

(** ** Constants of the default policy *)
Definition FLAGS_NON_SECURITY_BITS : Z :=
  Z.lor (Z.lor (Z.lor 0xFFFFFFFFFFFFC0 SGX_FLAGS_MODE64BIT) SGX_FLAGS_PROVISION_KEY) SGX_FLAGS_EINITTOKEN_KEY.
Definition TSEAL_DEFAULT_FLAGSMASK : Z := u64 (Z.lnot FLAGS_NON_SECURITY_BITS).
Definition MISC_NON_SECURITY_BITS : Z := 0x0FFFFFFF.
Definition TSEAL_DEFAULT_MISCMASK : Z := u32 (Z.lnot MISC_NON_SECURITY_BITS).

(** An argument buffer. *)
Record cbuf := MkBuf { b_addr : Z; b_data : list Z }.
Definition b_null (b : cbuf) : bool := b_addr b =? 0.
Definition b_ptr (b : cbuf) : option (list Z) := if b_null b then None else Some (b_data b).

(** The addresses of the local variables keyID, tmp_key_request and seal_key. *)
Record locals := MkLocals { l_key_id : Z; l_key_request : Z; l_seal_key : Z }.

(** The buffers sgx_unseal_data writes: *p_additional_MACtext, its length, the
    decrypted text, its length. *)
Record outs := MkOuts { o_mac : list Z; o_mac_len : Z; o_text : list Z; o_text_len : Z }.

Section Seal.
Context {W : Type} {PF : Platform W} {G : AesGcm}.
Variable g : runtime.
Variable loc : locals.

Abbreviation T B := (M (W * B) sgx_status_t).

Definition on_world {B A} (m : M W sgx_status_t A) : T B A := fun s =>
  let '(w, r) := m (fst s) in ((w, snd s), r).
Definition on_buf {B} (f : B -> B) : T B unit := fun s => ((fst s, f (snd s)), Ok tt).

Definition zero_iv : list Z := zreplicate SGX_SEAL_IV_SIZE 0.

(** sgx_get_key with the error codes passed on by the caller *)
Definition get_seal_key {B} (kr_addr : Z) (request : list Z) (err : sgx_status_t -> sgx_status_t) : T B (list Z) :=
  mcase (on_world (sgx_get_key g kr_addr request (l_seal_key loc))) mret (fun e => merr (err e)).

Definition seal_key_err (e : sgx_status_t) : sgx_status_t :=
  match e with SGX_ERROR_OUT_OF_MEMORY => SGX_ERROR_OUT_OF_MEMORY | _ => SGX_ERROR_UNEXPECTED end.
Definition unseal_key_err (e : sgx_status_t) : sgx_status_t :=
  match e with
  | SGX_ERROR_INVALID_CPUSVN | SGX_ERROR_INVALID_ISVSVN | SGX_ERROR_OUT_OF_MEMORY => e
  | _ => SGX_ERROR_MAC_MISMATCH
  end.

Definition store (off : Z) (o : option (list Z)) (buf : list Z) : list Z :=
  match o with Some d => splice off d buf | None => buf end.

Definition sgx_seal_data_iv (aad text : option (list Z)) (payload_iv key_request : list Z) : T (list Z) unit :=
  seal_key ← get_seal_key (l_key_request loc) key_request seal_key_err;
  tag ← (fun s =>
    let '(w, (dst, r)) := sgx_rijndael128GCM_encrypt seal_key text false payload_iv aad (fst s) in
    ((w, store sd_payload dst (snd s)), r));
  on_buf (splice sd_payload_tag tag) ;;
  (if plen aad >? 0 then on_buf (splice (sd_payload + plen text) (default [] aad)) else mret tt) ;;
  on_buf (fset sd_plain_text_offset (plen text)) ;;
  on_buf (fset sd_payload_size (u32 (plen aad + plen text))).

(** The key policies sgx_seal_data_ex accepts *)
Definition policy_bad (key_policy : Z) : bool :=
  hasflag key_policy (u32 (Z.lnot (Z.lor (Z.lor (Z.lor SGX_KEYPOLICY_MRENCLAVE SGX_KEYPOLICY_MRSIGNER) KEY_POLICY_KSS)
                                         SGX_KEYPOLICY_NOISVPRODID)))
  || (Z.land key_policy (Z.lor SGX_KEYPOLICY_MRENCLAVE SGX_KEYPOLICY_MRSIGNER) =? 0).

Definition mask_bad (m : sgx_attributes_t) : bool :=
  negb (hasflag (at_flags m) SGX_FLAGS_INITTED) || negb (hasflag (at_flags m) SGX_FLAGS_DEBUG).

Definition crosses (addr size : Z) : bool :=
  negb (sgx_is_within_enclave g addr size || sgx_is_outside_enclave g addr size).

Definition seal_request (key_policy : Z) (mask : sgx_attributes_t) (misc_mask : Z) (key_id : list Z) : sgx_key_request_t :=
  MkKeyRequest SGX_KEYSELECT_SEAL key_policy (r_isv_svn pf_report) 0 (r_cpu_svn pf_report)
    (at_flags mask) (at_xfrm mask) key_id misc_mask (r_config_svn pf_report) (zreplicate 434 0).

(** From memset(p_sealed_data) to the end, common to both sealing functions. *)
Definition seal_into (key_policy : Z) (mask : sgx_attributes_t) (misc_mask : Z) (aad text : option (list Z))
    (sealedDataSize : Z) : T (list Z) unit :=
  on_buf (fun b => zreplicate sealedDataSize 0) ;;
  keyID ← on_world (sgx_read_rand g pf_rdrand (l_key_id loc) 32);
  let request := key_request_bytes (seal_request key_policy mask misc_mask keyID) in
  sgx_seal_data_iv aad text zero_iv request ;;
  on_buf (splice 0 request).

(** [sealed_addr], [sealed_data_size]: the output buffer *)
Definition sgx_seal_data_ex (key_policy : Z) (mask : sgx_attributes_t) (misc_mask : Z) (aad text : cbuf)
    (sealed_data_size sealed_addr : Z) : T (list Z) unit :=
  let aad_len := zlen (b_data aad) in
  let text_len := zlen (b_data text) in
  let sealedDataSize := sgx_calc_sealed_data_size aad_len text_len in
  if sealedDataSize =? UINT32_MAX then merr SGX_ERROR_INVALID_PARAMETER
  else if policy_bad key_policy then merr SGX_ERROR_INVALID_PARAMETER
  else if mask_bad mask then merr SGX_ERROR_INVALID_PARAMETER
  else if (aad_len >? 0) && b_null aad then merr SGX_ERROR_INVALID_PARAMETER
  else if (text_len =? 0) || b_null text || negb (sgx_is_within_enclave g (b_addr text) text_len)
  then merr SGX_ERROR_INVALID_PARAMETER
  else if (sealed_addr =? 0) || negb (sgx_is_within_enclave g sealed_addr sealed_data_size)
  then merr SGX_ERROR_INVALID_PARAMETER
  else if (aad_len >? 0) && crosses (b_addr aad) aad_len then merr SGX_ERROR_INVALID_PARAMETER
  else if negb (sealedDataSize =? sealed_data_size) then merr SGX_ERROR_INVALID_PARAMETER
  else seal_into key_policy mask misc_mask (b_ptr aad) (b_ptr text) sealedDataSize.

Definition default_policy : Z :=
  if hasflag (r_attr_flags pf_report) SGX_FLAGS_KSS then Z.lor SGX_KEYPOLICY_MRSIGNER KEY_POLICY_KSS
  else SGX_KEYPOLICY_MRSIGNER.
Definition default_mask : sgx_attributes_t := MkAttr TSEAL_DEFAULT_FLAGSMASK 0.

Definition sgx_seal_data (aad text : cbuf) (sealed_data_size sealed_addr : Z) : T (list Z) unit :=
  sgx_seal_data_ex default_policy default_mask TSEAL_DEFAULT_MISCMASK aad text sealed_data_size sealed_addr.

Definition sgx_mac_aadata_ex (key_policy : Z) (mask : sgx_attributes_t) (misc_mask : Z) (aad : cbuf)
    (sealed_data_size sealed_addr : Z) : T (list Z) unit :=
  let aad_len := zlen (b_data aad) in
  let sealedDataSize := sgx_calc_sealed_data_size aad_len 0 in
  if sealedDataSize =? UINT32_MAX then merr SGX_ERROR_INVALID_PARAMETER
  else if policy_bad key_policy then merr SGX_ERROR_INVALID_PARAMETER
  else if mask_bad mask then merr SGX_ERROR_INVALID_PARAMETER
  else if (aad_len =? 0) || b_null aad then merr SGX_ERROR_INVALID_PARAMETER
  else if crosses (b_addr aad) aad_len then merr SGX_ERROR_INVALID_PARAMETER
  else if (sealed_addr =? 0) || negb (sgx_is_within_enclave g sealed_addr sealed_data_size)
  then merr SGX_ERROR_INVALID_PARAMETER
  else if negb (sealedDataSize =? sealed_data_size) then merr SGX_ERROR_INVALID_PARAMETER
  else seal_into key_policy mask misc_mask (b_ptr aad) None sealedDataSize.

Definition sgx_mac_aadata (aad : cbuf) (sealed_data_size sealed_addr : Z) : T (list Z) unit :=
  sgx_mac_aadata_ex default_policy default_mask TSEAL_DEFAULT_MISCMASK aad sealed_data_size sealed_addr.

(** ** Unsealing *)
Definition set_text (t : list Z) (o : outs) : outs := MkOuts (o_mac o) (o_mac_len o) t (o_text_len o).
Definition set_mac (m : list Z) (o : outs) : outs := MkOuts m (o_mac_len o) (o_text o) (o_text_len o).
Definition set_text_len (n : Z) (o : outs) : outs := MkOuts (o_mac o) (o_mac_len o) (o_text o) n.
Definition set_mac_len (n : Z) (o : outs) : outs := MkOuts (o_mac o) n (o_text o) (o_text_len o).

Definition sgx_unseal_data_helper (sealed_addr : Z) (sd : list Z) (aad_len : Z) (text_null : bool) (text_len : Z)
  : T outs unit :=
  (if text_len >? 0 then on_buf (fun o => set_text (splice 0 (zreplicate text_len 0) (o_text o)) o) else mret tt) ;;
  (if aad_len >? 0 then on_buf (fun o => set_mac (splice 0 (zreplicate aad_len 0) (o_mac o)) o) else mret tt) ;;
  seal_key ← get_seal_key sealed_addr (slice 0 sizeof_key_request sd) unseal_key_err;
  (fun s =>
    let '(w, (dst, r)) := sgx_rijndael128GCM_decrypt seal_key (Some (slice sd_payload text_len sd)) text_null zero_iv
                            (Some (slice (sd_payload + text_len) aad_len sd)) (slice sd_payload_tag 16 sd) (fst s) in
    ((w, set_text (store 0 dst (o_text (snd s))) (snd s)), r)) ;;
  (if aad_len >? 0
   then on_buf (fun o => set_mac (splice 0 (slice (sd_payload + text_len) aad_len sd) (o_mac o)) o)
   else mret tt).

(** [sealed]: the blob; the other arguments are addresses *)
Definition sgx_unseal_data (sealed : cbuf) (mac_addr mac_len_addr text_addr text_len_addr : Z) : T outs unit :=
  let sd := b_data sealed in
  if b_null sealed || negb (sgx_is_within_enclave g (b_addr sealed) sizeof_sealed_data)
  then merr SGX_ERROR_INVALID_PARAMETER
  else
  let encrypt_text_length := sgx_get_encrypt_txt_len (Some sd) in
  if encrypt_text_length =? UINT32_MAX then merr SGX_ERROR_MAC_MISMATCH
  else
  let add_text_length := sgx_get_add_mac_txt_len (Some sd) in
  if add_text_length =? UINT32_MAX then merr SGX_ERROR_MAC_MISMATCH
  else
  let sealedDataSize := sgx_calc_sealed_data_size add_text_length encrypt_text_length in
  if sealedDataSize =? UINT32_MAX then merr SGX_ERROR_MAC_MISMATCH
  else if negb (sgx_is_within_enclave g (b_addr sealed) sealedDataSize) then merr SGX_ERROR_INVALID_PARAMETER
  else if (add_text_length >? 0) && ((mac_addr =? 0) || (mac_len_addr =? 0)) then merr SGX_ERROR_INVALID_PARAMETER
  else if (encrypt_text_length <? 1) || (text_addr =? 0) || (text_len_addr =? 0) then merr SGX_ERROR_INVALID_PARAMETER
  else if negb (sgx_is_within_enclave g text_len_addr 4) then merr SGX_ERROR_INVALID_PARAMETER
  else
  s ← mget;
  let input_decrypted_text_length := o_text_len (snd s) in
  if input_decrypted_text_length <? encrypt_text_length then merr SGX_ERROR_INVALID_PARAMETER
  else if negb (sgx_is_within_enclave g text_addr input_decrypted_text_length) then merr SGX_ERROR_INVALID_PARAMETER
  else if negb (mac_len_addr =? 0) && crosses mac_len_addr 4 then merr SGX_ERROR_INVALID_PARAMETER
  else
  let additional_MACtext_length := if mac_len_addr =? 0 then 0 else o_mac_len (snd s) in
  if additional_MACtext_length <? add_text_length then merr SGX_ERROR_INVALID_PARAMETER
  else if (add_text_length >? 0) && crosses mac_addr additional_MACtext_length then merr SGX_ERROR_INVALID_PARAMETER
  else
    sgx_unseal_data_helper (b_addr sealed) sd add_text_length false encrypt_text_length ;;
    on_buf (set_text_len encrypt_text_length) ;;
    (if negb (mac_len_addr =? 0) then on_buf (set_mac_len add_text_length) else mret tt).

Definition sgx_unmac_aadata (sealed : cbuf) (mac_addr mac_len_addr : Z) : T outs unit :=
  let sd := b_data sealed in
  if b_null sealed || negb (sgx_is_within_enclave g (b_addr sealed) sizeof_sealed_data)
  then merr SGX_ERROR_INVALID_PARAMETER
  else
  let encrypt_text_length := sgx_get_encrypt_txt_len (Some sd) in
  if negb (encrypt_text_length =? 0) then merr SGX_ERROR_MAC_MISMATCH
  else
  let add_text_length := sgx_get_add_mac_txt_len (Some sd) in
  if (add_text_length =? UINT32_MAX) || (add_text_length =? 0) then merr SGX_ERROR_MAC_MISMATCH
  else
  let sealedDataSize := sgx_calc_sealed_data_size add_text_length encrypt_text_length in
  if sealedDataSize =? UINT32_MAX then merr SGX_ERROR_MAC_MISMATCH
  else if negb (sgx_is_within_enclave g (b_addr sealed) sealedDataSize) then merr SGX_ERROR_INVALID_PARAMETER
  else if (mac_addr =? 0) || (mac_len_addr =? 0) then merr SGX_ERROR_INVALID_PARAMETER
  else if crosses mac_len_addr 4 then merr SGX_ERROR_INVALID_PARAMETER
  else
  s ← mget;
  let additional_MACtext_length := o_mac_len (snd s) in
  if additional_MACtext_length <? add_text_length then merr SGX_ERROR_INVALID_PARAMETER
  else if crosses mac_addr additional_MACtext_length then merr SGX_ERROR_INVALID_PARAMETER
  else
    sgx_unseal_data_helper (b_addr sealed) sd add_text_length true encrypt_text_length ;;
    on_buf (set_mac_len add_text_length).
End Seal.

(** * Theorems *)

(** ** Sizes *)
Lemma calc_size_spec a t : is_u32 a -> is_u32 t ->
  sgx_calc_sealed_data_size a t = Z.min UINT32_MAX (sizeof_sealed_data + a + t).
Proof.
  intros [? ?] [? ?]. unfold sgx_calc_sealed_data_size, UINT32_MAX, sizeof_sealed_data. rewrite !Z.gtb_ltb.
  destruct (Z.ltb_spec (0xffffffff - t) a); [lia|].
  rewrite (u32_id (a + t)) by (unfold is_u32; lia).
  destruct (Z.ltb_spec (0xffffffff - 560) (a + t)); [lia|]. rewrite u32_id by (unfold is_u32; lia). lia.
Qed.

(** ** The bytes of a blob *)
Definition sealed_blob (request tag ct aad : list Z) : list Z :=
  request ++ le_bytes 4 (zlen ct) ++ zreplicate 12 0 ++ le_bytes 4 (zlen aad + zlen ct) ++ zreplicate 12 0 ++
  tag ++ ct ++ aad.

Lemma splice_skip off (b a c : list Z) : zlen a <= off -> splice off b (a ++ c) = a ++ splice (off - zlen a) b c.
Proof.
  intros. unfold splice. rewrite ztake_app_ge, zdrop_app_ge by lia. rewrite <- app_assoc. do 4 f_equal. lia.
Qed.

Lemma splice_here off (b b' c : list Z) : off = 0 -> zlen b = zlen b' -> splice off b (b' ++ c) = b ++ c.
Proof. intros -> E. rewrite splice_0. rewrite zdrop_app_ge by lia. by rewrite E, Z.sub_diag, zdrop_le0. Qed.

Ltac blob_len := rewrite ?zlen_zreplicate, ?length_le_bytes; unfold sd_payload, sd_payload_tag in *; lia.
(** Write over, and read, one part of a record. *)
Ltac blob_write := repeat (rewrite splice_skip by blob_len); rewrite splice_here by blob_len.
Ltac blob_read :=
  repeat first [rewrite fget_skip by blob_len|rewrite slice_skip by blob_len];
  first [rewrite fget_here by (first [blob_len|done])|rewrite slice_here by blob_len].

Lemma on_buf_bind {W B A} (f : B -> B) (k : unit -> M (W * B) sgx_status_t A) s :
  (on_buf f ≫= k) s = k tt (fst s, f (snd s)).
Proof. reflexivity. Qed.

Lemma on_buf_if_bind {W B A} (b : bool) (f : B -> B) (k : unit -> M (W * B) sgx_status_t A) s :
  ((if b then on_buf f else mret tt) ≫= k) s = k tt (fst s, if b then f (snd s) else snd s).
Proof. destruct b; [done|]. by destruct s. Qed.

Section Roundtrip.
Context {W : Type} {PF : Platform W} {HP : Healthy PF} {G : AesGcm} {GL : AesGcmLaws G}.
Context (g : runtime) (loc : locals).

Abbreviation iv := zero_iv.

Lemma zero_iv_len : zlen iv = SGX_AESGCM_IV_SIZE. Proof. reflexivity. Qed.

(** Every step of sealing on a healthy platform. *)
Lemma seal_iv_run aad text request key (w : W) :
  zlen request = 512 -> (text <> None \/ aad <> None) ->
  l_key_request loc <> 0 -> sgx_is_within_enclave g (l_key_request loc) 512 = true ->
  l_seal_key loc <> 0 -> sgx_is_within_enclave g (l_seal_key loc) 16 = true ->
  request_ok (key_request_of request) = true -> pf_egetkey request = (EGETKEY_SUCCESS, key) ->
  plen aad + plen text < 2 ^ 32 ->
  let ct := gcm_encrypt key iv (default [] aad) (default [] text) in
  let tag := gcm_tag key iv (default [] aad) ct in
  exists w', sgx_seal_data_iv g loc aad text iv request (w, zreplicate (560 + plen aad + plen text) 0)
    = ((w', sealed_blob (zreplicate 512 0) tag ct (default [] aad)), Ok tt).
Proof.
  intros Hl Hptr Hk1 Hk2 Hk3 Hk4 Hr Hk Hu ct tag.
  assert (Ha0 : 0 <= plen aad /\ 0 <= plen text) by (unfold plen; lia).
  assert (Hct : zlen ct = plen text) by (unfold ct; by rewrite gcm_encrypt_length).
  assert (Htag : zlen tag = 16) by apply gcm_tag_length.
  assert (Hargs : gcm_args_bad text false iv aad = false).
  { unfold gcm_args_bad. rewrite andb_false_r, zero_iv_len, Z.eqb_refl. cbn.
    destruct text, aad; cbn; [done..|]. by destruct Hptr. }
  destruct (get_key_healthy g _ request _ w key Hk1 Hk2 Hk3 Hk4 Hr Hk) as [w1 E1].
  destruct (encrypt_healthy key text false iv aad w1 Hargs) as [w2 E2]. fold ct tag in E2.
  exists w2. unfold sgx_seal_data_iv.
  rewrite (bind_Ok _ _ _ (w1, zreplicate (560 + plen aad + plen text) 0) key);
    [|unfold get_seal_key, mcase, on_world; cbn [fst snd]; by rewrite E1].
  rewrite (bind_Ok _ _ _ (w2, splice sd_payload ct (zreplicate (560 + plen aad + plen text) 0)) tag);
    [|cbn [fst snd]; by rewrite E2].
  rewrite !on_buf_bind, on_buf_if_bind. cbn [fst snd].
  set (b1 := splice sd_payload_tag tag (splice sd_payload ct (zreplicate (560 + plen aad + plen text) 0))).
  assert (Eb : (if plen aad >? 0 then splice (sd_payload + plen text) (default [] aad) b1 else b1)
    = zreplicate 512 0 ++ zreplicate 4 0 ++ zreplicate 12 0 ++ zreplicate 4 0 ++ zreplicate 12 0 ++ tag ++ ct ++ default [] aad).
  { unfold b1. replace (560 + plen aad + plen text) with (512 + (4 + (12 + (4 + (12 + (16 + (plen text + plen aad))))))) by lia.
    rewrite !zreplicate_add by lia. blob_write. blob_write.
    rewrite Z.gtb_ltb. destruct (Z.ltb_spec 0 (plen aad)).
    - rewrite <- (app_nil_r (zreplicate (plen aad) 0)). unfold plen in *. blob_write. by rewrite app_nil_r.
    - unfold plen in *. replace (default [] aad) with (@nil Z) by (destruct (default [] aad); [done|cbn in *; lia]).
      done. }
  rewrite Eb, on_buf_bind. unfold on_buf. cbn [fst snd].
  unfold fset, sd_plain_text_offset, sd_payload_size. cbn [f_off f_width].
  blob_write. blob_write. rewrite u32_id by (unfold is_u32; lia). unfold sealed_blob. by rewrite Hct.
Qed.

(** The platform and the stack can serve a sealing request. *)
Definition locals_ok : Prop :=
  l_key_id loc <> 0 /\ sgx_is_within_enclave g (l_key_id loc) 32 = true /\
  l_key_request loc <> 0 /\ sgx_is_within_enclave g (l_key_request loc) 512 = true /\
  l_seal_key loc <> 0 /\ sgx_is_within_enclave g (l_seal_key loc) 16 = true.

Definition keys_ok (pol : Z) (mask : sgx_attributes_t) (misc : Z) : Prop :=
  forall id, zlen id = 32 ->
    let k := seal_request pol mask misc id in
    key_request_ok k /\ request_ok k = true /\ fst (pf_egetkey (key_request_bytes k)) = EGETKEY_SUCCESS.

(** What sealing stores: the request, and the text encrypted and tagged with
    the key of that request. *)
Definition sealed_as (blob : list Z) (aad text : list Z) : Prop :=
  exists request key, zlen request = 512 /\ request_ok (key_request_of request) = true /\
    pf_egetkey request = (EGETKEY_SUCCESS, key) /\
    blob = sealed_blob request (gcm_tag key iv aad (gcm_encrypt key iv aad text)) (gcm_encrypt key iv aad text) aad.

Lemma seal_into_run pol mask misc aad text (w : W) b0 :
  locals_ok -> keys_ok pol mask misc -> (text <> None \/ aad <> None) -> plen aad + plen text < 2 ^ 32 ->
  exists w' blob, seal_into g loc pol mask misc aad text (560 + plen aad + plen text) (w, b0) = ((w', blob), Ok tt) /\
    sealed_as blob (default [] aad) (default [] text).
Proof.
  intros (L1 & L2 & L3 & L4 & L5 & L6) Hk Hptr Hu. unfold seal_into. rewrite on_buf_bind. cbn [fst snd].
  destruct (read_rand_total g pf_rdrand (l_key_id loc) 32 w healthy_rand ltac:(lia) L1 L2) as (w1 & id & E1 & Hid).
  destruct (Hk id Hid) as (Hok & Hr & Hg). set (k := seal_request pol mask misc id) in *.
  destruct (pf_egetkey (key_request_bytes k)) as [st key] eqn:Ek. cbn in Hg. subst st.
  assert (Hl : zlen (key_request_bytes k) = 512) by (by apply key_request_length).
  assert (Hr' : request_ok (key_request_of (key_request_bytes k)) = true) by (by rewrite key_request_roundtrip).
  destruct (seal_iv_run aad text _ key w1 Hl Hptr L3 L4 L5 L6 Hr' Ek Hu) as [w2 E2].
  rewrite (bind_Ok _ _ _ (w1, zreplicate (560 + plen aad + plen text) 0) id); [|unfold on_world; cbn [fst snd]; by rewrite E1].
  rewrite (bind_Ok _ _ _ _ _ E2). unfold on_buf. cbn [fst snd]. eexists _, _. split; [reflexivity|].
  exists (key_request_bytes k), key. split_and!; [done..|].
  unfold sealed_blob. rewrite splice_here; [done|done|]. etrans; [exact Hl|by rewrite zlen_zreplicate].
Qed.

(** ** Reading a blob back *)
Lemma blob_fields request tag ct aad : zlen request = 512 -> zlen tag = 16 -> zlen aad + zlen ct < 2 ^ 32 ->
  let b := sealed_blob request tag ct aad in
  zlen b = 560 + zlen aad + zlen ct /\ fget sd_plain_text_offset b = zlen ct /\
  fget sd_payload_size b = zlen aad + zlen ct /\ slice 0 512 b = request /\
  slice sd_payload_tag 16 b = tag /\ slice sd_payload (zlen ct) b = ct /\ slice (sd_payload + zlen ct) (zlen aad) b = aad.
Proof.
  intros Hr Ht Hu b. unfold b, sealed_blob, sd_plain_text_offset, sd_payload_size.
  split_and!; [rewrite !zlen_app, !zlen_zreplicate, !length_le_bytes; lia|by blob_read..| |].
  - by blob_read.
  - replace aad with (aad ++ []) at 3 by apply app_nil_r. by blob_read.
Qed.

Lemma blob_lengths blob aad text : sealed_as blob aad text -> zlen aad + zlen text < 2 ^ 32 ->
  zlen blob = 560 + zlen aad + zlen text /\ sgx_get_encrypt_txt_len (Some blob) = zlen text /\
  sgx_get_add_mac_txt_len (Some blob) = zlen aad.
Proof.
  intros (req & key & Hl & _ & _ & ->) Hu.
  assert (Hct : zlen (gcm_encrypt key iv aad text) = zlen text) by apply gcm_encrypt_length.
  revert Hct. generalize (gcm_encrypt key iv aad text). intros ct Hct.
  destruct (blob_fields req _ ct aad Hl (gcm_tag_length key iv aad ct) ltac:(lia)) as (H1 & H2 & H3 & _).
  rewrite Hct in *. split_and!; [done|done|].
  unfold sgx_get_add_mac_txt_len. rewrite H2, H3. replace (zlen aad + zlen text - zlen text) with (zlen aad) by lia.
  rewrite u32_id by (unfold is_u32; lia). rewrite Z.gtb_ltb. by destruct (Z.ltb_spec (zlen aad + zlen text) (zlen aad)); [lia|].
Qed.

Lemma splice_over (b : list Z) n l : zlen b = n -> 0 <= n <= zlen l ->
  splice 0 b (if n >? 0 then splice 0 (zreplicate n 0) l else l) = b ++ zdrop n l.
Proof.
  intros Hb Hn. rewrite splice_0, Hb. destruct (n >? 0) eqn:E; [|done].
  rewrite splice_0. rewrite zlen_zreplicate, zdrop_app_ge by (rewrite zlen_zreplicate; lia).
  rewrite zlen_zreplicate, zdrop_le0 by lia. do 2 f_equal. lia.
Qed.

Lemma helper_run addr blob aad text tn (w : W) o :
  sealed_as blob aad text -> zlen aad + zlen text < 2 ^ 32 -> addr <> 0 -> sgx_is_within_enclave g addr 512 = true ->
  locals_ok -> (tn = true -> text = []) ->
  zlen text <= zlen (o_text o) -> zlen aad <= zlen (o_mac o) ->
  exists w', sgx_unseal_data_helper g loc addr blob (zlen aad) tn (zlen text) (w, o)
    = ((w', MkOuts (aad ++ zdrop (zlen aad) (o_mac o)) (o_mac_len o)
                   (text ++ zdrop (zlen text) (o_text o)) (o_text_len o)), Ok tt).
Proof.
  intros (req & key & Hl & Hr & Hk & ->) Hu Ha Hin (_ & _ & _ & _ & L5 & L6) Htn Ht Hm.
  set (ct := gcm_encrypt key iv aad text). set (tag := gcm_tag key iv aad ct). set (blob := sealed_blob req tag ct aad).
  assert (Hct : zlen ct = zlen text) by (unfold ct; by rewrite gcm_encrypt_length).
  destruct (blob_fields req tag ct aad Hl (gcm_tag_length _ _ _ _) ltac:(lia)) as (_ & _ & _ & F1 & F2 & F3 & F4).
  fold blob in F1, F2, F3, F4. rewrite Hct in F3, F4.
  destruct (get_key_healthy g addr req (l_seal_key loc) w key Ha Hin L5 L6 Hr Hk) as [w1 E1].
  assert (Hargs : gcm_args_bad (Some ct) tn iv (Some aad) = false).
  { unfold gcm_args_bad. rewrite zero_iv_len, Z.eqb_refl. cbn [negb is_null andb]. rewrite !orb_false_r.
    change (plen (Some ct)) with (zlen ct). destruct tn; [|by rewrite andb_false_r].
    rewrite Hct, (Htn eq_refl). done. }
  destruct (decrypt_healthy key (Some ct) tn iv (Some aad) w1 Hargs) as [w2 E2].
  change (default [] (Some ct)) with ct in E2. change (default [] (Some aad)) with aad in E2. fold tag in E2.
  replace (gcm_decrypt key iv aad ct) with text in E2 by (unfold ct; by rewrite gcm_decrypt_encrypt).
  exists w2. unfold sgx_unseal_data_helper. rewrite !on_buf_if_bind. cbn [fst snd].
  set (o0 := if zlen text >? 0 then set_text (splice 0 (zreplicate (zlen text) 0) (o_text o)) o else o).
  set (o1 := if zlen aad >? 0 then set_mac (splice 0 (zreplicate (zlen aad) 0) (o_mac o0)) o0 else o0).
  rewrite (bind_Ok _ _ _ (w1, o1) key);
    [|unfold get_seal_key, mcase, on_world, sizeof_key_request; cbn [fst snd]; rewrite F1; by rewrite E1].
  rewrite (bind_Ok _ _ _ (w2, set_text (splice 0 text (o_text o1)) o1) tt);
    [|cbn [fst snd]; rewrite F2, F3, F4; by rewrite E2].
  rewrite F4. unfold on_buf, mret, M_ret.
  pose proof (splice_over text (zlen text) (o_text o) eq_refl ltac:(lia)) as S1.
  pose proof (splice_over aad (zlen aad) (o_mac o) eq_refl ltac:(lia)) as S2.
  assert (T1 : o_text o1 = if zlen text >? 0 then splice 0 (zreplicate (zlen text) 0) (o_text o) else o_text o)
    by (unfold o1, o0; by destruct (zlen aad >? 0), (zlen text >? 0)).
  assert (T2 : o_mac o1 = if zlen aad >? 0 then splice 0 (zreplicate (zlen aad) 0) (o_mac o) else o_mac o)
    by (unfold o1, o0; by destruct (zlen aad >? 0), (zlen text >? 0)).
  assert (T3 : o_mac_len o1 = o_mac_len o /\ o_text_len o1 = o_text_len o)
    by (unfold o1, o0; by destruct (zlen aad >? 0), (zlen text >? 0)).
  rewrite <- T1 in S1. rewrite <- T2 in S2. destruct T3 as [T3 T4].
  destruct (zlen aad >? 0) eqn:Ea; unfold set_mac, set_text; cbn [fst snd o_mac o_mac_len o_text o_text_len];
    rewrite S1, T3, T4; [by rewrite S2|]. do 3 f_equal. rewrite T2.
  assert (aad = []) as -> by (destruct aad; [done|cbn in Ea; lia]). cbn. by rewrite zdrop_le0.
Qed.

(** ** Arguments the functions accept *)
Definition seal_args_ok (pol : Z) (mask : sgx_attributes_t) (aad text : cbuf) (size addr : Z) : Prop :=
  0 < zlen (b_data text) /\ size = 560 + zlen (b_data aad) + zlen (b_data text) /\ size < UINT32_MAX /\
  policy_bad pol = false /\ mask_bad mask = false /\
  b_addr text <> 0 /\ sgx_is_within_enclave g (b_addr text) (zlen (b_data text)) = true /\
  addr <> 0 /\ sgx_is_within_enclave g addr size = true /\
  (0 < zlen (b_data aad) -> b_addr aad <> 0 /\ crosses g (b_addr aad) (zlen (b_data aad)) = false).

Definition unseal_args_ok (al tl addr mac_addr mac_len_addr text_addr text_len_addr : Z) (o : outs) : Prop :=
  addr <> 0 /\ sgx_is_within_enclave g addr 560 = true /\ sgx_is_within_enclave g addr (560 + al + tl) = true /\
  text_addr <> 0 /\ text_len_addr <> 0 /\ sgx_is_within_enclave g text_len_addr 4 = true /\
  tl <= o_text_len o /\ zlen (o_text o) = o_text_len o /\ sgx_is_within_enclave g text_addr (o_text_len o) = true /\
  zlen (o_mac o) = o_mac_len o /\ al <= o_mac_len o /\
  (mac_len_addr <> 0 -> crosses g mac_len_addr 4 = false) /\
  (0 < al -> mac_addr <> 0 /\ mac_len_addr <> 0 /\ crosses g mac_addr (o_mac_len o) = false).

Lemma b_ptr_data b : (0 < zlen (b_data b) -> b_addr b <> 0) -> default [] (b_ptr b) = b_data b.
Proof.
  intros H. unfold b_ptr, b_null. destruct (Z.eqb_spec (b_addr b) 0); [|done].
  destruct (b_data b); [done|]. cbn in H. lia.
Qed.

Lemma seal_data_run pol mask misc aad text size addr (w : W) b0 :
  locals_ok -> keys_ok pol mask misc -> seal_args_ok pol mask aad text size addr ->
  exists w' blob, sgx_seal_data_ex g loc pol mask misc aad text size addr (w, b0) = ((w', blob), Ok tt) /\
    sealed_as blob (b_data aad) (b_data text).
Proof.
  intros HL HK (Ht & -> & Hs & Hp & Hm & Hta & Htw & Hsa & Hsw & Haad). unfold UINT32_MAX in Hs.
  unfold sgx_seal_data_ex. rewrite calc_size_spec by (unfold is_u32; lia).
  unfold UINT32_MAX, sizeof_sealed_data. rewrite Z.min_r by lia.
  replace (_ =? 0xffffffff) with false by lia. rewrite Hp, Hm, Hsw. unfold b_null.
  replace (b_addr text =? 0) with false by lia. replace (addr =? 0) with false by lia.
  replace (zlen (b_data text) =? 0) with false by lia. rewrite Htw, Z.eqb_refl. cbn [negb orb].
  assert (Ea : (zlen (b_data aad) >? 0) && (b_addr aad =? 0) = false /\
    (zlen (b_data aad) >? 0) && crosses g (b_addr aad) (zlen (b_data aad)) = false).
  { rewrite Z.gtb_ltb. destruct (Z.ltb_spec 0 (zlen (b_data aad))) as [H|]; [|done].
    destruct (Haad H) as [? ->]. cbn [andb]. lia. }
  destruct Ea as [-> ->].
  assert (E1 : default [] (b_ptr aad) = b_data aad) by (apply b_ptr_data; intros ?; by apply Haad).
  assert (E2 : default [] (b_ptr text) = b_data text) by (apply b_ptr_data; done).
  destruct (seal_into_run pol mask misc (b_ptr aad) (b_ptr text) w b0 HL HK) as (w' & blob & E & Hb).
  - left. unfold b_ptr, b_null. by replace (b_addr text =? 0) with false by lia.
  - unfold plen. rewrite E1, E2. lia.
  - unfold plen in E. rewrite E1, E2 in E, Hb. eauto.
Qed.

Lemma unseal_run blob aad text addr mac_addr mac_len_addr text_addr text_len_addr (w : W) o :
  enclave_ok g -> is_u64 addr -> locals_ok -> sealed_as blob aad text ->
  0 < zlen text -> 560 + zlen aad + zlen text < UINT32_MAX ->
  unseal_args_ok (zlen aad) (zlen text) addr mac_addr mac_len_addr text_addr text_len_addr o ->
  exists w', sgx_unseal_data g loc (MkBuf addr blob) mac_addr mac_len_addr text_addr text_len_addr (w, o)
    = ((w', MkOuts (aad ++ zdrop (zlen aad) (o_mac o)) (if mac_len_addr =? 0 then o_mac_len o else zlen aad)
                   (text ++ zdrop (zlen text) (o_text o)) (zlen text)), Ok tt).
Proof.
  intros Hg Ha HL Hb Ht Hs (U1 & U2 & U3 & U4 & U5 & U6 & U7 & U8 & U9 & U10 & U11 & U12 & U13). unfold UINT32_MAX in Hs.
  destruct (blob_lengths blob aad text Hb ltac:(lia)) as (B1 & B2 & B3).
  unfold sgx_unseal_data, b_null, sizeof_sealed_data. cbn [b_addr b_data]. rewrite B2, B3.
  rewrite calc_size_spec by (unfold is_u32; lia). unfold UINT32_MAX, sizeof_sealed_data. rewrite Z.min_r by lia.
  rewrite U2, U3, U6. replace (addr =? 0) with false by lia. replace (text_addr =? 0) with false by lia.
  replace (text_len_addr =? 0) with false by lia. replace (zlen text =? 0xffffffff) with false by lia.
  replace (zlen aad =? 0xffffffff) with false by lia. replace (_ =? 0xffffffff) with false by lia.
  replace (zlen text <? 1) with false by lia. cbn [negb orb].
  assert (Hm : (zlen aad >? 0) && ((mac_addr =? 0) || (mac_len_addr =? 0)) = false /\
    (zlen aad >? 0) && crosses g mac_addr (if mac_len_addr =? 0 then 0 else o_mac_len o) = false /\
    ((if mac_len_addr =? 0 then 0 else o_mac_len o) <? zlen aad) = false).
  { rewrite Z.gtb_ltb. destruct (Z.ltb_spec 0 (zlen aad)) as [H|H].
    - destruct (U13 H) as (? & ? & Hc). replace (mac_addr =? 0) with false by lia.
      replace (mac_len_addr =? 0) with false by lia. rewrite Hc. split_and!; [done..|lia].
    - split_and!; [done..|]. destruct (mac_len_addr =? 0); lia. }
  destruct Hm as (-> & M2 & M3). rewrite (bind_Ok mget _ (w, o) (w, o) (w, o) eq_refl). cbn [fst snd].
  replace (o_text_len o <? zlen text) with false by lia. rewrite U9. cbn [negb].
  replace (negb (mac_len_addr =? 0) && crosses g mac_len_addr 4) with false
    by (destruct (Z.eqb_spec mac_len_addr 0); [done|]; cbn [negb andb]; by rewrite U12).
  rewrite M2, M3.
  assert (Hin : sgx_is_within_enclave g addr 512 = true).
  { apply within_spec in U2; [|done|done|unfold is_u64; lia]. apply within_spec; [done|done|unfold is_u64; lia|lia]. }
  destruct (helper_run addr blob aad text false w o Hb ltac:(lia) U1 Hin HL) as [w' E]; [done|lia|lia|].
  rewrite (bind_Ok _ _ _ _ _ E), on_buf_bind. cbn [fst snd]. exists w'.
  by destruct (mac_len_addr =? 0).
Qed.
End Roundtrip.

(** C32. What is sealed is unsealed: on a platform that does not run out of
    memory, sealing with arguments sgx_seal_data_ex accepts succeeds, and
    unsealing the blob, at any later time and from any address inside the
    enclave, returns the text, the additional text and their lengths, and
    leaves the rest of the output buffers as it was. *)
Theorem seal_unseal {W} {PF : Platform W} {HP : Healthy PF} {G : AesGcm} {GL : AesGcmLaws G} g loc
    pol mask misc aad text size saddr (w : W) b0 :
  enclave_ok g -> locals_ok g loc -> keys_ok pol mask misc -> seal_args_ok g pol mask aad text size saddr ->
  exists w1 blob, sgx_seal_data_ex g loc pol mask misc aad text size saddr (w, b0) = ((w1, blob), Ok tt) /\
    zlen blob = size /\
    forall w2 o addr mac_addr mac_len_addr text_addr text_len_addr, is_u64 addr ->
      unseal_args_ok g (zlen (b_data aad)) (zlen (b_data text)) addr mac_addr mac_len_addr text_addr text_len_addr o ->
      exists w3, sgx_unseal_data g loc (MkBuf addr blob) mac_addr mac_len_addr text_addr text_len_addr (w2, o)
        = ((w3, MkOuts (b_data aad ++ zdrop (zlen (b_data aad)) (o_mac o))
                       (if mac_len_addr =? 0 then o_mac_len o else zlen (b_data aad))
                       (b_data text ++ zdrop (zlen (b_data text)) (o_text o)) (zlen (b_data text))), Ok tt).
Proof.
  intros Hg HL HK HA. pose proof HA as (Ht & Hsz & Hs & _).
  destruct (seal_data_run g loc pol mask misc aad text size saddr w b0 HL HK HA) as (w1 & blob & E & Hb).
  exists w1, blob. split; [done|]. unfold UINT32_MAX in Hs.
  destruct (blob_lengths blob _ _ Hb ltac:(lia)) as (B1 & _). split; [lia|]. intros.
  apply unseal_run; try done. unfold UINT32_MAX. lia.
Qed.

Module Example_.
Definition loc : locals := MkLocals 0x10090000 0x10090100 0x10090400.
Definition aad : cbuf := MkBuf 0x10040000 [1; 2; 3].
Definition text : cbuf := MkBuf 0x10041000 [104; 101; 108; 108; 111].
Definition mask : sgx_attributes_t := default_mask.
Definition out0 : outs := MkOuts [9; 9; 9; 9] 4 (zreplicate 8 7) 8.

Lemma locals_fit : locals_ok sample_runtime loc.
Proof. vm_compute. repeat split; discriminate. Qed.

Lemma keys_fit : keys_ok (PF:=ToyCrypto.platform) SGX_KEYPOLICY_MRSIGNER mask TSEAL_DEFAULT_MISCMASK.
Proof.
  intros id Hid k. split; [|split; reflexivity].
  repeat split; try (exact Hid); try (vm_compute; congruence).
Qed.

Lemma seal_fits : seal_args_ok sample_runtime SGX_KEYPOLICY_MRSIGNER mask aad text 568 0x10030000.
Proof. vm_compute. repeat split; intros; try discriminate; reflexivity. Qed.

Lemma unseal_fits : unseal_args_ok sample_runtime 3 5 0x10050000 0x10060000 0x10061000 0x10062000 0x10063000 out0.
Proof. vm_compute. repeat split; intros; try discriminate; reflexivity. Qed.
End Example_.

Lemma seal_unseal_witness : exists w1 blob w3,
  sgx_seal_data_ex (PF:=ToyCrypto.platform) (G:=ToyCrypto.gcm) sample_runtime Example_.loc SGX_KEYPOLICY_MRSIGNER
    Example_.mask TSEAL_DEFAULT_MISCMASK Example_.aad Example_.text 568 0x10030000 (0, []) = ((w1, blob), Ok tt) /\
  sgx_unseal_data (PF:=ToyCrypto.platform) (G:=ToyCrypto.gcm) sample_runtime Example_.loc (MkBuf 0x10050000 blob)
    0x10060000 0x10061000 0x10062000 0x10063000 (w1, Example_.out0)
    = ((w3, MkOuts [1; 2; 3; 9] 3 [104; 101; 108; 108; 111; 7; 7; 7] 5), Ok tt).
Proof.
  destruct (seal_unseal (PF:=ToyCrypto.platform) (HP:=ToyCrypto.healthy) (G:=ToyCrypto.gcm) (GL:=ToyCrypto.laws)
    sample_runtime Example_.loc SGX_KEYPOLICY_MRSIGNER Example_.mask TSEAL_DEFAULT_MISCMASK Example_.aad Example_.text
    568 0x10030000 0 [] sample_runtime_ok Example_.locals_fit Example_.keys_fit Example_.seal_fits)
    as (w1 & blob & E & _ & H).
  destruct (H w1 Example_.out0 0x10050000 0x10060000 0x10061000 0x10062000 0x10063000
    ltac:(split; [lia|reflexivity]) Example_.unseal_fits) as [w3 E3].
  exists w1, blob, w3. split; [exact E|]. exact E3.
Defined.

(** ** Any blob *)
Section Authentic.
Context {W : Type} {PF : Platform W} {G : AesGcm} {GL : AesGcmLaws G}.
Context (g : runtime) (loc : locals).

(** The blob is what sealing [aad] and [text] under the key of its own request
    produces, as far as the lengths in it reach. *)
Definition authentic (sd : list Z) (aad text : list Z) : Prop :=
  exists key, pf_egetkey (slice 0 512 sd) = (EGETKEY_SUCCESS, key) /\
    slice sd_payload (zlen text) sd = gcm_encrypt key zero_iv aad text /\
    slice sd_payload_tag 16 sd = gcm_tag key zero_iv aad (gcm_encrypt key zero_iv aad text).

(** [o'] is [o] with at most zeros written over the first [n] bytes of each
    text buffer. *)
Definition blanked (n m : Z) (o o' : outs) : Prop :=
  o_mac_len o' = o_mac_len o /\ o_text_len o' = o_text_len o /\
  (o_text o' = o_text o \/ o_text o' = splice 0 (zreplicate n 0) (o_text o)) /\
  (o_mac o' = o_mac o \/ o_mac o' = splice 0 (zreplicate m 0) (o_mac o)).

Lemma splice_zeros_twice n (l : list Z) : splice 0 (zreplicate n 0) (splice 0 (zreplicate n 0) l) = splice 0 (zreplicate n 0) l.
Proof.
  rewrite (splice_0 _ (splice _ _ _)), !(splice_0 _ l). f_equal. rewrite zdrop_app_ge by lia.
  by rewrite Z.sub_diag, zdrop_le0.
Qed.

Lemma helper_authentic addr sd al tl (w w' : W) o o' r : 0 < tl -> 0 <= al -> 560 + tl + al <= zlen sd ->
  al <= zlen (o_mac o) -> tl <= zlen (o_text o) ->
  sgx_unseal_data_helper g loc addr sd al false tl (w, o) = ((w', o'), r) ->
  match r with
  | Ok _ => exists aad text, zlen aad = al /\ zlen text = tl /\ authentic sd aad text /\
              slice (sd_payload + tl) al sd = aad /\
              o' = MkOuts (aad ++ zdrop al (o_mac o)) (o_mac_len o) (text ++ zdrop tl (o_text o)) (o_text_len o)
  | Err _ => blanked tl al o o'
  | Stuck => False
  end.
Proof.
  intros Ht Ha Hsd Hm Htx. unfold sgx_unseal_data_helper. rewrite !on_buf_if_bind. cbn [fst snd].
  replace (tl >? 0) with true by lia.
  set (o0 := set_text _ o).
  set (o1 := if al >? 0 then set_mac (splice 0 (zreplicate al 0) (o_mac o0)) o0 else o0).
  assert (Hbl : blanked tl al o o1) by (unfold blanked, o1; destruct (al >? 0); cbn; auto).
  unfold get_seal_key, mcase, on_world, mbind, M_bind. cbn [fst snd].
  destruct (sgx_get_key g addr (slice 0 sizeof_key_request sd) (l_seal_key loc) w) as [w1 [key|e|]] eqn:Ek; cbn [fst snd].
  2:{ unfold merr. by intros [= <- <- <-]. }
  2:{ exfalso. revert Ek. unfold sgx_get_key, get_key_body, merr, mret, M_ret, malloc_or, mbind, M_bind.
      repeat (case_match; simplify_eq/=; try done). }
  apply get_key_Ok in Ek as [Ek _]. unfold mret at 1, M_ret at 1. cbn [fst snd].
  set (ct := slice sd_payload tl sd). set (aad := slice (sd_payload + tl) al sd).
  assert (Hct : zlen ct = tl) by (apply zlen_slice; unfold sd_payload; lia).
  assert (Haad : zlen aad = al) by (apply zlen_slice; unfold sd_payload; lia).
  destruct (sgx_rijndael128GCM_decrypt key (Some ct) false zero_iv (Some aad) (slice sd_payload_tag 16 sd) w1)
    as [w2 [dst [[]|e|]]] eqn:Ed; cbn [fst snd].
  - apply gcm_decrypt_Ok in Ed as [-> Htag]. change (default [] (Some ct)) with ct in *.
    change (default [] (Some aad)) with aad in *. intros E.
    set (text := gcm_decrypt key zero_iv aad ct) in *.
    assert (Ect : gcm_encrypt key zero_iv aad text = ct) by apply gcm_encrypt_decrypt.
    assert (Htl : zlen text = tl) by (rewrite <- Hct, <- Ect, gcm_encrypt_length; done).
    assert (Hr : r = Ok tt /\ o' = MkOuts (aad ++ zdrop al (o_mac o)) (o_mac_len o) (text ++ zdrop tl (o_text o)) (o_text_len o)).
    { pose proof (splice_over text tl (o_text o) Htl ltac:(lia)) as S1.
      pose proof (splice_over aad al (o_mac o) Haad ltac:(lia)) as S2. replace (tl >? 0) with true in S1 by lia.
      unfold o1 in E. destruct (al >? 0) eqn:Eal; cbn [store set_text set_mac on_buf mret M_ret o_text o_mac] in E;
        injection E as <- <- <-; (split; [done|]); cbn; rewrite S1; [by rewrite S2|].
      assert (Hz : al = 0) by lia. f_equal. rewrite (zdrop_le0 al) by lia.
      by assert (aad = []) as -> by (apply length_zero_iff_nil; lia). }
    destruct Hr as [-> ->]. exists aad, text. split_and!; [done|done| |done|done].
    exists key. rewrite Htl, Ect. split_and!; [done|done|by rewrite Htag].
  - intros [= <- <- <-]. destruct Hbl as (B1 & B2 & B3 & B4). unfold blanked. cbn. split_and!; [done|done| |done].
    assert (Hd : dst = None \/ dst = Some (zreplicate tl 0)).
    { revert Ed. unfold sgx_rijndael128GCM_decrypt. unfold plen. change (default [] (Some ct)) with ct. rewrite Hct.
      repeat (case_match; simplify_eq/=; try done); intros [= <- <- <-]; auto. }
    right. assert (Ho1 : o_text o1 = splice 0 (zreplicate tl 0) (o_text o)) by (unfold o1; by destruct (al >? 0)).
    rewrite Ho1. destruct Hd as [-> | ->]; cbn [store]; by rewrite ?splice_zeros_twice.
  - by pose proof (gcm_never_stuck key (Some ct) false zero_iv (Some aad) (slice sd_payload_tag 16 sd) w1) as Hn; rewrite Ed in Hn.
Qed.
End Authentic.

(** The lengths a blob claims. *)
Lemma get_lengths sd : bytes_ok sd ->
  0 <= sgx_get_encrypt_txt_len (Some sd) <= UINT32_MAX /\ 0 <= sgx_get_add_mac_txt_len (Some sd) <= UINT32_MAX.
Proof.
  intros Hb.
  pose proof (fget_range sd_plain_text_offset sd Hb ltac:(done)) as H1. change (256 ^ _) with (2 ^ 32) in H1.
  pose proof (fget_range sd_payload_size sd Hb ltac:(done)) as H2. change (256 ^ _) with (2 ^ 32) in H2.
  unfold sgx_get_encrypt_txt_len, sgx_get_add_mac_txt_len, UINT32_MAX. split; [lia|].
  case_match; [lia|]. pose proof (u32_range (fget sd_payload_size sd - fget sd_plain_text_offset sd)) as [? ?]. lia.
Qed.


Lemma bytes_ok_check l : forallb byte_ok l = true -> bytes_ok l.
Proof.
  intros H. apply List.Forall_forall. intros b Hb. rewrite forallb_forall in H. specialize (H b Hb).
  unfold byte_ok in H. zbool. lia.
Qed.

(** A blob whose tag was changed. *)
Definition tampered : list Z :=
  sealed_blob (key_request_bytes (seal_request (PF:=ToyCrypto.platform) SGX_KEYPOLICY_MRSIGNER default_mask
                 TSEAL_DEFAULT_MISCMASK (zreplicate 32 0))) (zreplicate 16 5) [1; 2; 3; 4; 5] [6; 7]
  ++ zreplicate (0x1000 - 567) 0.


(** sgx_seal_data_ex accepts a policy with SGX_KEYPOLICY_NOISVPRODID, which
    sgx_get_key refuses: valid arguments end in SGX_ERROR_UNEXPECTED. *)
Lemma noisvprodid_unexpected :
  let pol := Z.lor SGX_KEYPOLICY_MRSIGNER SGX_KEYPOLICY_NOISVPRODID in
  seal_args_ok sample_runtime pol Example_.mask Example_.aad Example_.text 568 0x10030000 /\
  snd (sgx_seal_data_ex (PF:=ToyCrypto.platform) (G:=ToyCrypto.gcm) sample_runtime Example_.loc pol Example_.mask
         TSEAL_DEFAULT_MISCMASK Example_.aad Example_.text 568 0x10030000 (0, [])) = Err SGX_ERROR_UNEXPECTED.
Proof. split; [vm_compute; repeat split; intros; try discriminate; reflexivity|vm_compute; reflexivity]. Qed.
