(* ===== verification/Thread.v ===== *)
(** * Thread library: mutexes and condition variables

    sdk/tlibthread with the untrusted events it waits on
    (psw/urts/enclave_mutex.cpp, common/src/se_event.c).

    - The queues of waiting threads are intrusive: the links are the m_next
      fields of the thread data.  The macros QUEUE_* are the class
      [ThreadQueue]; [linked] is the code's instance over a store of links,
      [ideal] keeps a list.
    - A critical section under a spin lock is one function on the mutex or
      condition variable.  [sgx_thread_cond_wait] takes the lock of a mutex
      while it holds the lock of the condition variable, so the latter is a
      field ([c_lock], the holder).
    - [mach] is an enclave with all its threads; a thread is a program counter
      [pc] between the critical sections and untrusted calls of the API
      function it is in, [exec] one step of one thread.  The futex of an event
      may return without a wake-up ([LSpurious]).

    TD2TCS is left implicit: a thread is the address of its thread data. *)

From stdpp Require Import functions gmap.
From S2P Require Import Prelude Bytes Arch Trts.

#[local] Open Scope Z_scope.

Definition SGX_THREAD_T_NULL : Z := 0.
Definition SGX_THREAD_MUTEX_NONRECURSIVE : Z := 0x01.
Definition SGX_THREAD_MUTEX_RECURSIVE : Z := 0x02.
Definition EPERM : Z := 1.
Definition ENOMEM : Z := 12.
Definition EBUSY : Z := 16.
Definition EINVAL : Z := 22.

(** ** Queues *)

(** [N] is the store of the m_next fields, [Q] the head of a queue.  A
    traversal that does not end is [None].  [queue_search] is QUEUE_FOREACH
    stopped at a thread, its result the value of the loop variable;
    [queue_drain] the loop of sgx_thread_cond_broadcast, with the threads it
    removes. *)
Class ThreadQueue (N Q : Type) := {
  QUEUE_INIT : Q;
  QUEUE_FIRST : Q -> Z;
  QUEUE_INSERT_TAIL : N -> Q -> Z -> N * Q;
  QUEUE_REMOVE_HEAD : N -> Q -> Q;
  queue_search : N -> Q -> Z -> option Z;
  QUEUE_COUNT_ALL : N -> Q -> option Z;
  queue_drain : N -> Q -> option (Q * list Z) }.

Module Linked.
Record sgx_thread_queue_t := MkQueue { m_first : Z; m_last : Z }.

(** m_next of the threads that have been in a queue *)
Abbreviation links := (gmap Z Z).
Definition QUEUE_NEXT (nx : links) (elm : Z) : Z := default SGX_THREAD_T_NULL (nx !! elm).

Definition insert_tail (nx : links) (q : sgx_thread_queue_t) (elm : Z) : links * sgx_thread_queue_t :=
  let nx := <[elm := SGX_THREAD_T_NULL]> nx in
  if negb (m_first q =? SGX_THREAD_T_NULL) then (<[m_last q := elm]> nx, MkQueue (m_first q) elm)
  else (nx, MkQueue elm elm).

Definition remove_head (nx : links) (q : sgx_thread_queue_t) : sgx_thread_queue_t :=
  let first := QUEUE_NEXT nx (m_first q) in
  MkQueue first (if first =? SGX_THREAD_T_NULL then SGX_THREAD_T_NULL else m_last q).

(** The elements of a queue without repetition are threads with a link. *)
Definition fuel (nx : links) : nat := S (size nx).

Fixpoint search (fuel : nat) (nx : links) (var self : Z) : option Z :=
  match fuel with
  | O => None
  | S k =>
      if var =? SGX_THREAD_T_NULL then Some var
      else if var =? self then Some var
      else search k nx (QUEUE_NEXT nx var) self
  end.

Fixpoint count_all (fuel : nat) (nx : links) (var total : Z) : option Z :=
  match fuel with
  | O => None
  | S k => if var =? SGX_THREAD_T_NULL then Some total else count_all k nx (QUEUE_NEXT nx var) (u64 (total + 1))
  end.

Fixpoint drain (fuel : nat) (nx : links) (q : sgx_thread_queue_t) : option (sgx_thread_queue_t * list Z) :=
  match fuel with
  | O => None
  | S k =>
      let waiter := m_first q in
      if waiter =? SGX_THREAD_T_NULL then Some (q, [])
      else '(q', ws) ← drain k nx (remove_head nx q); Some (q', waiter :: ws)
  end.

#[export] Instance linked : ThreadQueue links sgx_thread_queue_t := {
  QUEUE_INIT := MkQueue SGX_THREAD_T_NULL SGX_THREAD_T_NULL;
  QUEUE_FIRST := m_first;
  QUEUE_INSERT_TAIL := insert_tail;
  QUEUE_REMOVE_HEAD := remove_head;
  queue_search nx q self := search (fuel nx) nx (m_first q) self;
  QUEUE_COUNT_ALL nx q := count_all (fuel nx) nx (m_first q) 0;
  queue_drain nx q := drain (fuel nx) nx q }.
End Linked.

(** The specification: a queue is the list of its threads. *)
Module Ideal.
#[export] Instance ideal : ThreadQueue unit (list Z) := {
  QUEUE_INIT := [];
  QUEUE_FIRST l := default SGX_THREAD_T_NULL (head l);
  QUEUE_INSERT_TAIL _ l t := (tt, l ++ [t]);
  QUEUE_REMOVE_HEAD _ l := tail l;
  queue_search _ l t := Some (if bool_decide (t ∈ l) then t else SGX_THREAD_T_NULL);
  QUEUE_COUNT_ALL _ l := Some (zlen l);
  queue_drain _ l := Some ([], l) }.
End Ideal.
Import Linked Ideal.

(** ** Mutexes and condition variables *)
Record sgx_thread_mutex_t (Q : Type) := MkMutex {
  m_refcount : Z; m_control : Z; m_owner : Z; m_queue : Q }.
Arguments MkMutex {Q}.
Arguments m_refcount {Q}.
Arguments m_control {Q}.
Arguments m_owner {Q}.
Arguments m_queue {Q}.

Record sgx_thread_cond_t (Q : Type) := MkCond { c_lock : Z; c_queue : Q }.
Arguments MkCond {Q}.
Arguments c_lock {Q}.
Arguments c_queue {Q}.

(** How an iteration of the loop of sgx_thread_mutex_lock ends *)
Inductive lock_out : Set := Returns (code : Z) | Waits.

Section Api.
Context {N Q : Type} {TQ : ThreadQueue N Q}.

Abbreviation mutex_t := (sgx_thread_mutex_t Q).
Abbreviation cond_t := (sgx_thread_cond_t Q).

Definition sgx_thread_mutex_init (mutex : mutex_t) : mutex_t :=
  MkMutex 0 SGX_THREAD_MUTEX_NONRECURSIVE SGX_THREAD_T_NULL QUEUE_INIT.

Definition sgx_thread_mutex_destroy (mutex : mutex_t) : mutex_t * Z :=
  if negb (m_owner mutex =? SGX_THREAD_T_NULL) || negb (QUEUE_FIRST (m_queue mutex) =? SGX_THREAD_T_NULL)
  then (mutex, EBUSY)
  else (MkMutex 0 0 (m_owner mutex) (m_queue mutex), 0).

Definition bad_control (mutex : mutex_t) : bool :=
  negb (m_control mutex =? SGX_THREAD_MUTEX_RECURSIVE) && negb (m_control mutex =? SGX_THREAD_MUTEX_NONRECURSIVE).

(** The tests that lock and trylock start with; [None]: the mutex is not
    available. *)
Definition attempt (self : Z) (nx : N) (mutex : mutex_t) : option (mutex_t * Z) :=
  if bad_control mutex then Some (mutex, EINVAL)
  else if (m_control mutex =? SGX_THREAD_MUTEX_RECURSIVE) && (m_owner mutex =? self)
  then Some (MkMutex (u64 (m_refcount mutex + 1)) (m_control mutex) (m_owner mutex) (m_queue mutex), 0)
  else if (m_owner mutex =? SGX_THREAD_T_NULL)
       && ((QUEUE_FIRST (m_queue mutex) =? self) || (QUEUE_FIRST (m_queue mutex) =? SGX_THREAD_T_NULL))
  then
    let q := if QUEUE_FIRST (m_queue mutex) =? self then QUEUE_REMOVE_HEAD nx (m_queue mutex) else m_queue mutex in
    Some (MkMutex (u64 (m_refcount mutex + 1)) (m_control mutex) self q, 0)
  else None.

(** One iteration of the loop, up to the untrusted wait *)
Definition mutex_lock_iter (self : Z) (nx : N) (mutex : mutex_t) : option (N * mutex_t * lock_out) :=
  match attempt self nx mutex with
  | Some (mutex', r) => Some (nx, mutex', Returns r)
  | None =>
      waiter ← queue_search nx (m_queue mutex) self;
      if waiter =? SGX_THREAD_T_NULL then
        let '(nx', q) := QUEUE_INSERT_TAIL nx (m_queue mutex) self in
        Some (nx', MkMutex (m_refcount mutex) (m_control mutex) (m_owner mutex) q, Waits)
      else Some (nx, mutex, Waits)
  end.

Definition sgx_thread_mutex_trylock (self : Z) (nx : N) (mutex : mutex_t) : mutex_t * Z :=
  match attempt self nx mutex with
  | Some r => r
  | None => (mutex, EBUSY)
  end.

(** The status and [*pwaiter], which the callers set to NULL before. *)
Definition sgx_thread_mutex_unlock_lazy (self : Z) (mutex : mutex_t) : mutex_t * (Z * Z) :=
  if bad_control mutex then (mutex, (EINVAL, SGX_THREAD_T_NULL))
  else if m_owner mutex =? SGX_THREAD_T_NULL then (mutex, (EINVAL, SGX_THREAD_T_NULL))
  else if negb (m_owner mutex =? self) then (mutex, (EPERM, SGX_THREAD_T_NULL))
  else
    let refcount := u64 (m_refcount mutex - 1) in
    if refcount =? 0
    then (MkMutex refcount (m_control mutex) SGX_THREAD_T_NULL (m_queue mutex), (0, QUEUE_FIRST (m_queue mutex)))
    else (MkMutex refcount (m_control mutex) (m_owner mutex) (m_queue mutex), (0, SGX_THREAD_T_NULL)).

Definition sgx_thread_cond_destroy (cond : cond_t) : Z :=
  if negb (QUEUE_FIRST (c_queue cond) =? SGX_THREAD_T_NULL) then EBUSY else 0.

(** ** The machine *)

(** Where a thread is.  [PIdle r]: in the enclave's own code, [r] is what its
    last call returned.  The flag of the lock states tells that
    sgx_thread_cond_wait called sgx_thread_mutex_lock. *)
Inductive pc : Set :=
  | PIdle (r : Z)
  | PLock (k : bool) (m : Z)            (* at the top of the loop *)
  | PLockWait (k : bool) (m : Z)        (* about to call se_event_wait *)
  | PLockSleep (k : bool) (m : Z)       (* in the futex *)
  | PWake (ws : list Z)                 (* about to wake ws, then to return 0 *)
  | PCondUnlock (c m : Z)               (* queued, holding c, about to unlock m *)
  | PCondLoop (c m waiter : Z)          (* holding c, at the top of the loop *)
  | PCondOcall (c m waiter : Z)         (* about to wake waiter and to wait *)
  | PCondSleep (c m : Z)                (* in the futex *)
  | PCondCheck (c m : Z)                (* about to look for itself in c *)
  | PCondBreak (c m : Z).               (* not in the queue, holding c *)

(** [s_held m t]: successful lock and trylock calls of [t] on [m] minus
    successful unlocks, as the caller counts them. *)
Record mach := MkMach {
  s_next : N;
  s_mutex : Z -> mutex_t;
  s_cond : Z -> cond_t;
  s_pc : Z -> pc;
  s_event : Z -> Z;
  s_held : Z -> Z -> Z }.

Definition set_pc (t : Z) (p : pc) (s : mach) : mach :=
  MkMach (s_next s) (s_mutex s) (s_cond s) (<[t := p]> (s_pc s)) (s_event s) (s_held s).
Definition set_mutex (m : Z) (nx : N) (mu : mutex_t) (s : mach) : mach :=
  MkMach nx (<[m := mu]> (s_mutex s)) (s_cond s) (s_pc s) (s_event s) (s_held s).
Definition set_cond (c : Z) (nx : N) (co : cond_t) (s : mach) : mach :=
  MkMach nx (s_mutex s) (<[c := co]> (s_cond s)) (s_pc s) (s_event s) (s_held s).
Definition set_event (t : Z) (v : Z) (s : mach) : mach :=
  MkMach (s_next s) (s_mutex s) (s_cond s) (s_pc s) (<[t := v]> (s_event s)) (s_held s).
Definition add_held (m t : Z) (d : Z) (s : mach) : mach :=
  MkMach (s_next s) (s_mutex s) (s_cond s) (s_pc s) (s_event s)
    (<[m := <[t := s_held s m t + d]> (s_held s m)]> (s_held s)).

(** [d] when the call succeeded *)
Definition on_success (r d : Z) : Z := if r =? 0 then d else 0.

(** An int *)
Definition i32 (x : Z) : Z := u32 (x + 2 ^ 31) - 2 ^ 31.

(** se_event_wake *)
Definition se_event_wake (t : Z) (s : mach) : mach := set_event t (i32 (s_event s t + 1)) s.
(** se_event_wait up to the futex: whether it sleeps *)
Definition se_event_wait (t : Z) (s : mach) : mach * bool :=
  (set_event t (i32 (s_event s t - 1)) s, s_event s t =? 0).
(** FUTEX_WAIT with the value -1 *)
Definition asleep (t : Z) (s : mach) : bool := s_event s t =? -1.

Variable g : runtime.

(** CHECK_PARAMETER fails *)
Definition bad_parameter (addr size : Z) : bool := (addr =? 0) || negb (sgx_is_within_enclave g addr size).
Definition sizeof_mutex : Z := 40.
Definition sizeof_cond : Z := 24.
Definition bad_mutex (m : Z) : bool := bad_parameter m sizeof_mutex.
Definition bad_cond (c : Z) : bool := bad_parameter c sizeof_cond.

Inductive op : Set :=
  | OpInit (m : Z) | OpDestroy (m : Z) | OpLock (m : Z) | OpTrylock (m : Z) | OpUnlock (m : Z)
  | OpCondInit (c : Z) | OpCondDestroy (c : Z) | OpCondWait (c m : Z) | OpSignal (c : Z)
  | OpBroadcast (c : Z) (malloc : bool).

Definition ret (t r : Z) (s : mach) : option mach := Some (set_pc t (PIdle r) s).

(** SPIN_LOCK waits while the lock is held. *)
Definition unlocked (c : Z) (s : mach) : bool := c_lock (s_cond s c) =? 0.
Definition set_lock (c holder : Z) (s : mach) : mach :=
  set_cond c (s_next s) (MkCond holder (c_queue (s_cond s c))) s.

Definition sgx_thread_mutex_unlock (t m : Z) (s : mach) : option mach :=
  if bad_mutex m then ret t EINVAL s
  else
    let '(mu, (r, waiter)) := sgx_thread_mutex_unlock_lazy t (s_mutex s m) in
    let s := add_held m t (on_success r (-1)) (set_mutex m (s_next s) mu s) in
    if negb (r =? 0) then ret t r s
    else if negb (waiter =? SGX_THREAD_T_NULL) then Some (set_pc t (PWake [waiter]) s)
    else ret t 0 s.

Definition sgx_thread_cond_signal (t c : Z) (s : mach) : option mach :=
  if bad_cond c then ret t EINVAL s
  else if negb (unlocked c s) then None
  else
    let co := s_cond s c in
    let waiter := QUEUE_FIRST (c_queue co) in
    if waiter =? SGX_THREAD_T_NULL then ret t 0 s
    else Some (set_pc t (PWake [waiter])
           (set_cond c (s_next s) (MkCond (c_lock co) (QUEUE_REMOVE_HEAD (s_next s) (c_queue co))) s)).

Definition sgx_thread_cond_broadcast (t c : Z) (malloc : bool) (s : mach) : option mach :=
  if bad_cond c then ret t EINVAL s
  else if negb (unlocked c s) then None
  else
    let co := s_cond s c in
    n_waiter ← QUEUE_COUNT_ALL (s_next s) (c_queue co);
    if n_waiter =? 0 then ret t 0 s
    else if negb malloc then ret t ENOMEM s
    else
      '(q, ws) ← queue_drain (s_next s) (c_queue co);
      Some (set_pc t (PWake ws) (set_cond c (s_next s) (MkCond (c_lock co) q) s)).

(** The start of sgx_thread_cond_wait *)
Definition sgx_thread_cond_wait (t c m : Z) (s : mach) : option mach :=
  if bad_cond c || bad_mutex m then ret t EINVAL s
  else if negb (unlocked c s) then None
  else
    let '(nx, q) := QUEUE_INSERT_TAIL (s_next s) (c_queue (s_cond s c)) t in
    Some (set_pc t (PCondUnlock c m) (set_cond c nx (MkCond t q) s)).

(** A call of the API by thread [t] *)
Definition call (t : Z) (o : op) (s : mach) : option mach :=
  match o with
  | OpInit m =>
      if bad_mutex m then ret t EINVAL s
      else ret t 0 (set_mutex m (s_next s) (sgx_thread_mutex_init (s_mutex s m)) s)
  | OpDestroy m =>
      if bad_mutex m then ret t EINVAL s
      else let '(mu, r) := sgx_thread_mutex_destroy (s_mutex s m) in ret t r (set_mutex m (s_next s) mu s)
  | OpLock m => if bad_mutex m then ret t EINVAL s else Some (set_pc t (PLock false m) s)
  | OpTrylock m =>
      if bad_mutex m then ret t EINVAL s
      else
        let '(mu, r) := sgx_thread_mutex_trylock t (s_next s) (s_mutex s m) in
        ret t r (add_held m t (on_success r 1) (set_mutex m (s_next s) mu s))
  | OpUnlock m => sgx_thread_mutex_unlock t m s
  | OpCondInit c =>
      if bad_cond c then ret t EINVAL s else ret t 0 (set_cond c (s_next s) (MkCond 0 QUEUE_INIT) s)
  | OpCondDestroy c =>
      if bad_cond c then ret t EINVAL s
      else if negb (unlocked c s) then None
      else ret t (sgx_thread_cond_destroy (s_cond s c)) s
  | OpCondWait c m => sgx_thread_cond_wait t c m s
  | OpSignal c => sgx_thread_cond_signal t c s
  | OpBroadcast c malloc => sgx_thread_cond_broadcast t c malloc s
  end.

(** The next step of a thread inside an API function *)
Definition run (t : Z) (s : mach) : option mach :=
  match s_pc s t with
  | PIdle _ => None
  | PLock k m =>
      '(nx, mu, out) ← mutex_lock_iter t (s_next s) (s_mutex s m);
      let s := set_mutex m nx mu s in
      match out with
      | Returns r => ret t (if k then 0 else r) (add_held m t (on_success r 1) s)
      | Waits => Some (set_pc t (PLockWait k m) s)
      end
  | PLockWait k m =>
      let '(s, sleeps) := se_event_wait t s in
      Some (set_pc t (if sleeps then PLockSleep k m else PLock k m) s)
  | PLockSleep k m => if asleep t s then None else Some (set_pc t (PLock k m) s)
  | PWake [] => ret t 0 s
  | PWake (w :: ws) => Some (set_pc t (PWake ws) (se_event_wake w s))
  | PCondUnlock c m =>
      let '(mu, (r, waiter)) := sgx_thread_mutex_unlock_lazy t (s_mutex s m) in
      let s := add_held m t (on_success r (-1)) (set_mutex m (s_next s) mu s) in
      if negb (r =? 0) then ret t r (set_lock c 0 s) else Some (set_pc t (PCondLoop c m waiter) s)
  | PCondLoop c m waiter => Some (set_pc t (PCondOcall c m waiter) (set_lock c 0 s))
  | PCondOcall c m waiter =>
      if waiter =? SGX_THREAD_T_NULL then
        let '(s, sleeps) := se_event_wait t s in
        Some (set_pc t (if sleeps then PCondSleep c m else PCondCheck c m) s)
      else Some (set_pc t (PCondOcall c m SGX_THREAD_T_NULL) (se_event_wake waiter s))
  | PCondSleep c m => if asleep t s then None else Some (set_pc t (PCondCheck c m) s)
  | PCondCheck c m =>
      if negb (unlocked c s) then None
      else
        tmp ← queue_search (s_next s) (c_queue (s_cond s c)) t;
        let s := set_lock c t s in
        Some (set_pc t (if tmp =? SGX_THREAD_T_NULL then PCondBreak c m else PCondLoop c m SGX_THREAD_T_NULL) s)
  | PCondBreak c m => Some (set_pc t (PLock true m) (set_lock c 0 s))
  end.

(** The futex returns although it was not woken. *)
Definition spurious (t : Z) (s : mach) : option mach :=
  match s_pc s t with
  | PLockSleep k m => Some (set_pc t (PLock k m) s)
  | PCondSleep c m => Some (set_pc t (PCondCheck c m) s)
  | _ => None
  end.

Inductive label : Set := LCall (t : Z) (o : op) | LRun (t : Z) | LSpurious (t : Z).

Definition exec (l : label) (s : mach) : option mach :=
  match l with
  | LCall t o => match s_pc s t with PIdle _ => call t o s | _ => None end
  | LRun t => run t s
  | LSpurious t => spurious t s
  end.

Fixpoint exec_all (ls : list label) (s : mach) : option mach :=
  match ls with
  | [] => Some s
  | l :: ls' => s' ← exec l s; exec_all ls' s'
  end.

(** ** Runs

    [threads] are the threads of the enclave, [sp] tells whether futexes may
    return spuriously.  What is asked of the enclave's code: objects are not
    initialised while they are in use, a thread waits on a condition variable
    with a mutex it holds, and locks are not nested 2^64 - 1 times. *)
Variable threads : list Z.
Variable sp : bool.

Definition shallow (mu : mutex_t) : Prop := m_refcount mu < 2 ^ 64 - 1.

Definition client_ok (l : label) (s : mach) : Prop :=
  match l with
  | LCall t o =>
      t ∈ threads /\
      match o with
      | OpInit m => m_owner (s_mutex s m) = 0 /\ QUEUE_FIRST (m_queue (s_mutex s m)) = 0
      | OpCondInit c => c_lock (s_cond s c) = 0 /\ QUEUE_FIRST (c_queue (s_cond s c)) = 0
      | OpTrylock m => shallow (s_mutex s m)
      | OpCondWait c m => m_owner (s_mutex s m) = t
      | _ => True
      end
  | LRun t => match s_pc s t with PLock _ m => shallow (s_mutex s m) | _ => True end
  | LSpurious t => sp = true
  end.

(** Nothing is locked, queued or running; a mutex may have any control word
    (static initialisers, memory that is initialised later). *)
Definition initial (s : mach) : Prop :=
  (forall m, exists ctl, s_mutex s m = MkMutex 0 ctl 0 QUEUE_INIT) /\
  (forall c, s_cond s c = MkCond 0 QUEUE_INIT) /\
  (forall t, s_pc s t = PIdle 0) /\ (forall t, s_event s t = 0) /\ (forall m t, s_held s m t = 0).

Inductive reach (s0 : mach) : mach -> Prop :=
  | reach_start : reach s0 s0
  | reach_step l s s' : reach s0 s -> client_ok l s -> exec l s = Some s' -> reach s0 s'.

(** A step of a thread inside an API function *)
Definition run_step (s s' : mach) : Prop := exists t, client_ok (LRun t) s /\ exec (LRun t) s = Some s'.
End Api.
Arguments mach : clear implicits.
