(* ===== verification/ThreadInv.v ===== *)
(** * Invariants of the thread library

    Proved for the machine with lists as queues ([Ideal]); ThreadSim.v shows
    that the machine with linked queues does the same steps.

    - [inv]: who is in which queue, who holds which lock, and how often;
      it holds whatever the untrusted side does.
    - [winv]: with futexes that only return when woken, a thread that waits
      has exactly one wake-up coming if it has been released, and none
      otherwise. *)

From stdpp Require Import functions gmap.
From S2P Require Import Prelude Bytes Arch Trts Thread.
Import Ideal.

#[local] Open Scope Z_scope.

Abbreviation amach := (mach unit (list Z)).
Abbreviation amutex := (sgx_thread_mutex_t (list Z)).
Abbreviation acond := (sgx_thread_cond_t (list Z)).

(** ** Where the threads of a queue are *)
Definition lock_pc (m : Z) (p : pc) : Prop :=
  match p with PLock _ m' | PLockWait _ m' | PLockSleep _ m' => m' = m | _ => False end.
Definition wait_pc (m : Z) (p : pc) : Prop :=
  match p with PLockWait _ m' | PLockSleep _ m' => m' = m | _ => False end.
Definition cond_pc (c : Z) (p : pc) : Prop :=
  match p with
  | PCondUnlock c' _ | PCondLoop c' _ _ | PCondOcall c' _ _ | PCondSleep c' _ | PCondCheck c' _ => c' = c
  | _ => False
  end.
Definition hold_pc (c : Z) (p : pc) : Prop :=
  match p with PCondUnlock c' _ | PCondLoop c' _ _ | PCondBreak c' _ => c' = c | _ => False end.
Definition unlock_pc (m : Z) (p : pc) : Prop := match p with PCondUnlock _ m' => m' = m | _ => False end.
Definition queued_pc (c : Z) (p : pc) : Prop := match p with PCondUnlock c' _ => c' = c | _ => False end.

(** [h t]: how often [t] holds the mutex *)
Definition owned (mu : amutex) (h : Z -> Z) : Prop :=
  0 <= m_refcount mu < 2 ^ 64 /\
  h (m_owner mu) = m_refcount mu /\ (forall t, t <> m_owner mu -> h t = 0) /\
  (m_owner mu = 0 <-> m_refcount mu = 0).

Record minv (m : Z) (mu : amutex) (h : Z -> Z) (pcs : Z -> pc) : Prop := {
  mi_queue : forall t, t ∈ m_queue mu -> t <> 0 /\ lock_pc m (pcs t);
  mi_nodup : NoDup (m_queue mu);
  mi_wait : forall t, wait_pc m (pcs t) -> t ∈ m_queue mu;
  mi_own : owned mu h;
  mi_ctl : bad_control mu = true -> m_queue mu = [] /\ m_owner mu = 0;
  mi_rec : m_control mu = SGX_THREAD_MUTEX_RECURSIVE -> m_owner mu ∉ m_queue mu;
  mi_unlock : forall t, unlock_pc m (pcs t) -> m_owner mu = t /\ t <> 0 }.

Record cinv (c : Z) (co : acond) (pcs : Z -> pc) : Prop := {
  ci_queue : forall t, t ∈ c_queue co -> t <> 0 /\ cond_pc c (pcs t);
  ci_nodup : NoDup (c_queue co);
  ci_lock : forall t, t <> 0 -> c_lock co = t <-> hold_pc c (pcs t);
  ci_queued : forall t, queued_pc c (pcs t) -> t ∈ c_queue co }.

Record inv (threads : list Z) (a : amach) : Prop := {
  i_mutex : forall m, minv m (s_mutex a m) (s_held a m) (s_pc a);
  i_cond : forall c, cinv c (s_cond a c) (s_pc a);
  i_idle : forall t, t ∉ threads -> exists r, s_pc a t = PIdle r }.

(** ** Steps that move one thread *)
Lemma fn_at {A} (f : Z -> A) (t u : Z) (p : A) : <[t := p]> f u = if decide (t = u) then p else f u.
Proof. reflexivity. Qed.

(** Split on which thread (or object) an updated function is applied to. *)
Ltac fn_split :=
  repeat match goal with
  | |- context [<[?t := ?p]> ?f ?u] => rewrite (fn_at f t u p)
  | H : context [<[?t := ?p]> ?f ?u] |- _ => rewrite (fn_at f t u p) in H
  end;
  repeat match goal with
  | |- context [decide (?t = ?u)] => destruct (decide (t = u)); [subst|]; try congruence; try done
  | H : context [decide (?t = ?u)] |- _ => destruct (decide (t = u)); [subst|]; try congruence; try done
  end.

(** A mutex the step does not touch *)
Lemma minv_pc m mu h pcs t p :
  minv m mu h pcs -> (lock_pc m (pcs t) -> t ∈ m_queue mu -> lock_pc m p) -> (wait_pc m p -> t ∈ m_queue mu) ->
  (unlock_pc m p -> m_owner mu = t /\ t <> 0) -> minv m mu h (<[t := p]> pcs).
Proof.
  intros [] H1 H2 H3. split; try done; intros u Hu.
  - destruct (mi_queue0 u Hu). fn_split; naive_solver.
  - fn_split; naive_solver.
  - fn_split; naive_solver.
Qed.

(** A condition variable the step does not touch *)
Lemma cinv_pc c co pcs t p :
  cinv c co pcs -> (cond_pc c (pcs t) -> t ∈ c_queue co -> cond_pc c p) -> (hold_pc c p <-> hold_pc c (pcs t)) ->
  (queued_pc c p -> t ∈ c_queue co) -> cinv c co (<[t := p]> pcs).
Proof.
  intros [] H1 H2 H3. split; try done; intros u Hu.
  - destruct (ci_queue0 u Hu). fn_split; naive_solver.
  - rewrite fn_at. destruct (decide _) as [->|]; rewrite (ci_lock0 u Hu); naive_solver.
  - fn_split; naive_solver.
Qed.

(** ** The operations on a mutex *)
Lemma u64_small x : 0 <= x < 2 ^ 64 -> u64 x = x.
Proof. apply u64_id. Qed.

Lemma bad_control_eq {Q R} (mu : sgx_thread_mutex_t Q) (nu : sgx_thread_mutex_t R) :
  m_control mu = m_control nu -> bad_control mu = bad_control nu.
Proof. unfold bad_control. by intros ->. Qed.

Lemma first_null (l : list Z) : (forall t, t ∈ l -> t <> 0) -> default 0 (head l) = 0 -> l = [].
Proof. destruct l as [|x l]; [done|]. cbn. intros H ->. destruct (H 0); [left|done]. Qed.

Definition add_fn (h : Z -> Z) (t d : Z) : Z -> Z := <[t := h t + d]> h.

Lemma owned_held mu h t : owned mu h -> 0 <= h t /\ (h t <> 0 -> m_owner mu = t).
Proof.
  intros (? & Ho & Hn & ?). destruct (decide (t = m_owner mu)) as [->|Ht]; [lia|].
  rewrite (Hn t Ht). lia.
Qed.

Lemma owned_ext mu h h' : (forall t, h t = h' t) -> owned mu h -> owned mu h'.
Proof. intros He (? & ? & Hn & ?). repeat split; try lia; rewrite <- ?He; try done. intros. rewrite <- He. auto. Qed.

Lemma add_fn_0 h t u : add_fn h t 0 u = h u.
Proof. unfold add_fn. rewrite fn_at. case_decide; [subst; lia|done]. Qed.

(** A call that fails leaves the count of the caller. *)
Lemma minv_failed m mu h pcs t : minv m mu h pcs -> minv m mu (add_fn h t 0) pcs.
Proof. intros []. split; try done. eapply owned_ext; [|done]. intros. by rewrite add_fn_0. Qed.

Lemma owned_add mu mu' h t d :
  owned mu h -> (m_owner mu = t \/ m_owner mu = 0) -> m_refcount mu' = m_refcount mu + d -> 0 <= m_refcount mu' < 2 ^ 64 ->
  (if m_refcount mu' =? 0 then m_owner mu' = 0 else m_owner mu' = t) -> t <> 0 -> owned mu' (add_fn h t d).
Proof.
  intros (? & Ho & Hn & H0) Ht Hd Hr Hw Ht0. unfold add_fn.
  assert (h t = m_refcount mu) as Hht by (destruct Ht as [<-|He]; [done|]; rewrite Hn by lia; lia).
  assert (forall u, u <> t -> h u = 0) as Hu.
  { intros u Hu. destruct (decide (u = m_owner mu)) as [->|]; [|auto]. destruct Ht; [done|]. lia. }
  destruct (Z.eqb_spec (m_refcount mu') 0); (split; [lia|]); (split; [|split]); rewrite ?Hw; try lia.
  - fn_split. rewrite Hu by done. lia.
  - intros u. fn_split; intros; first [lia|auto].
  - by fn_split.
  - intros u. fn_split; intros; first [done|auto].
Qed.

(** The queue after an acquisition: the caller was its head or it is empty. *)
Lemma acquire_queue (l : list Z) t :
  (forall u, u ∈ l -> u <> 0) -> t <> 0 -> NoDup l -> ((default 0 (head l) =? t) || (default 0 (head l) =? 0))%bool = true ->
  (if default 0 (head l) =? t then tail l else l) = tail l /\ (t ∉ tail l) /\ (forall u, u ∈ tail l -> u ∈ l) /\
  (forall u, u ∈ l -> u <> t -> u ∈ tail l).
Proof.
  intros Hn Ht Hd H. destruct l as [|x l]; cbn in *; [split_ifs; set_solver|].
  assert (x <> 0) by (apply Hn; left). apply NoDup_cons in Hd as [Hx _].
  destruct (Z.eqb_spec x t) as [->|]; [set_solver|]. destruct (Z.eqb_spec x 0); [done|]. done.
Qed.

(** lock and trylock that return: with 0 the caller is the owner, one level
    deeper. *)
Lemma attempt_minv m mu h pcs t mu' r p :
  minv m mu h pcs -> t <> 0 -> shallow mu -> attempt (TQ := ideal) t tt mu = Some (mu', r) ->
  ~ unlock_pc m (pcs t) -> ~ lock_pc m p -> ~ unlock_pc m p ->
  minv m mu' (add_fn h t (on_success r 1)) (<[t := p]> pcs).
Proof.
  intros Hm Ht Hs Ha Hu Hl Hp. pose proof (mi_own _ _ _ _ Hm) as Ho. pose proof Ho as (Hrc & _ & _ & Hz).
  assert (~ wait_pc m p) as Hwp by (intros H; apply Hl; by destruct p).
  unfold attempt in Ha. destruct (bad_control mu) eqn:Hb; simplify_eq.
  { apply minv_failed, minv_pc; try done. intros _ Hq. rewrite (proj1 (mi_ctl _ _ _ _ Hm Hb)) in Hq. set_solver. }
  assert (forall u, unlock_pc m (pcs u) -> u <> t) as Hut by (intros u H ->; by apply Hu).
  destruct (_ && _) eqn:Hc in Ha; simplify_eq; zbool.
  - assert (m_owner mu ∉ m_queue mu) as Hnq by (by apply (mi_rec _ _ _ _ Hm)).
    destruct Hm. split; cbn -[add_fn on_success bad_control]; try done.
    + intros u Hq. destruct (mi_queue0 u Hq). by fn_split.
    + intros u. fn_split; auto.
    + rewrite u64_small by (unfold shallow in Hs; lia).
      eapply (owned_add mu); cbn; [done|auto| |unfold shallow in Hs; lia| |done]; [done|].
      destruct (Z.eqb_spec (m_refcount mu + 1) 0); [lia|done].
    + intros u. fn_split; auto.
  - destruct (_ && _) eqn:Hd in Ha; simplify_eq; zbool.
    cbn [QUEUE_FIRST QUEUE_REMOVE_HEAD ideal] in *. unfold SGX_THREAD_T_NULL in *. destruct Hm.
    destruct (acquire_queue (m_queue mu) t) as (Hq & Hnq & Hsub & Hsup); try done; [by intros u []%mi_queue0|].
    rewrite Hq. split; cbn -[add_fn on_success bad_control]; try done.
    + intros u Hu'. destruct (mi_queue0 u); [by apply Hsub|]. fn_split; set_solver.
    + destruct (m_queue mu); [done|]. by apply NoDup_cons in mi_nodup0 as [].
    + intros u Hw. fn_split. apply Hsup; auto.
    + rewrite u64_small by (unfold shallow in Hs; lia).
      eapply (owned_add mu); cbn; [done|auto| |unfold shallow in Hs; lia| |done]; [done|].
      destruct (Z.eqb_spec (m_refcount mu + 1) 0); [lia|done].
    + rewrite (bad_control_eq _ mu) by done. by rewrite Hb.
    + intros u Hx. fn_split. destruct (mi_unlock0 u Hx). congruence.
Qed.

(** lock that waits: the caller is in the queue, at its end if it was not. *)
Lemma wait_minv m mu h pcs t mu' out k :
  minv m mu h pcs -> t <> 0 -> pcs t = PLock k m -> mutex_lock_iter (TQ := ideal) t tt mu = Some (tt, mu', out) ->
  attempt (TQ := ideal) t tt mu = None ->
  out = Waits /\ m_owner mu' = m_owner mu /\ m_control mu' = m_control mu /\ m_refcount mu' = m_refcount mu /\
  m_queue mu' = (if bool_decide (t ∈ m_queue mu) then m_queue mu else m_queue mu ++ [t]) /\
  minv m mu' h (<[t := PLockWait k m]> pcs).
Proof.
  intros Hm Ht Hpc Hi Ha. unfold mutex_lock_iter in Hi. rewrite Ha in Hi. cbn in Hi.
  destruct (bool_decide_reflect (t ∈ m_queue mu)) as [Hq|Hq].
  - destruct (Z.eqb_spec t SGX_THREAD_T_NULL); [done|]. simplify_eq. do 5 (split; [done|]).
    by apply minv_pc.
  - rewrite Z.eqb_refl in Hi. simplify_eq. cbn [m_owner m_control m_refcount m_queue]. do 5 (split; [done|]).
    assert (bad_control mu = false) as Hb.
    { unfold attempt in Ha. by destruct (bad_control mu). }
    destruct Hm. split; cbn -[bad_control]; try done.
    + intros u [Hu| ->%list_elem_of_singleton]%elem_of_app.
      * destruct (mi_queue0 u Hu). by fn_split.
      * split; [done|]. by rewrite fn_lookup_insert.
    + apply NoDup_app. split; [done|]. split; [|apply NoDup_singleton]. set_solver.
    + intros u Hu. fn_split; set_solver.
    + rewrite (bad_control_eq _ mu) by done. by rewrite Hb.
    + intros Hc. specialize (mi_rec0 Hc). apply not_elem_of_app. split; [done|]. intros He%list_elem_of_singleton.
      unfold attempt in Ha. by rewrite Hb, Hc, He, !Z.eqb_refl in Ha.
    + intros u Hu. fn_split; auto.
Qed.

(** unlock *)
Lemma unlock_minv m mu h pcs t mu' r w p :
  minv m mu h pcs -> t <> 0 -> sgx_thread_mutex_unlock_lazy (TQ := ideal) t mu = (mu', (r, w)) ->
  ~ lock_pc m (pcs t) -> ~ lock_pc m p -> ~ unlock_pc m p ->
  minv m mu' (add_fn h t (on_success r (-1))) (<[t := p]> pcs).
Proof.
  intros Hm Ht Hu Hl Hl' Hp. pose proof (mi_own _ _ _ _ Hm) as Ho. pose proof Ho as (Hrc & _ & _ & Hz).
  assert (~ wait_pc m p) as Hwp by (intros H; apply Hl'; by destruct p).
  assert (forall mu0, minv m mu0 h pcs -> minv m mu0 (add_fn h t 0) (<[t := p]> pcs)) as Hfail
    by (intros; by apply minv_failed, minv_pc).
  unfold sgx_thread_mutex_unlock_lazy in Hu.
  destruct (bad_control mu) eqn:Hb; simplify_eq; [by apply Hfail|].
  destruct (Z.eqb_spec (m_owner mu) SGX_THREAD_T_NULL); simplify_eq; [by apply Hfail|].
  destruct (Z.eqb_spec (m_owner mu) t); simplify_eq/=; [|by apply Hfail].
  unfold SGX_THREAD_T_NULL in *. rewrite u64_small in Hu by lia.
  assert (forall mu1, m_refcount mu1 = m_refcount mu - 1 -> m_control mu1 = m_control mu -> m_queue mu1 = m_queue mu ->
    m_owner mu1 = (if m_refcount mu - 1 =? 0 then 0 else m_owner mu) ->
    minv m mu1 (add_fn h (m_owner mu) (-1)) (<[m_owner mu := p]> pcs)) as Hgo.
  { intros mu1 Hr1 Hc1 Hq1 Ho1. destruct Hm. split; rewrite ?Hq1; try done.
    - intros u Hq. destruct (mi_queue0 u Hq). by fn_split.
    - intros u Hw. fn_split. auto.
    - eapply (owned_add mu); [done|auto|lia|lia| |done]. rewrite Hr1, Ho1. by destruct (_ =? _).
    - rewrite (bad_control_eq _ mu) by done. by rewrite Hb.
    - rewrite Hc1, Ho1. intros Hc. destruct (_ =? _); [|auto]. by intros []%mi_queue0.
    - intros u Hx. fn_split. destruct (mi_unlock0 u Hx). congruence. }
  destruct (m_refcount mu - 1 =? 0) eqn:Hr; simplify_eq; apply Hgo; cbn; by rewrite ?Hr.
Qed.

(** init and destroy of a mutex that is not in use *)
Lemma reset_minv m mu h pcs ctl :
  minv m mu h pcs -> m_owner mu = 0 -> m_queue mu = [] -> minv m (MkMutex 0 ctl 0 []) h pcs.
Proof.
  intros [] Ho Hq. rewrite Hq in *. split; cbn; try done.
  - destruct mi_own0 as (? & H1 & H2 & H3). rewrite Ho in *. (split; [cbn; lia|]). (split; [cbn; lia|]).
    split; [exact H2|done].
  - by intros _ ?%elem_of_nil.
  - intros u Hu. destruct (mi_unlock0 u Hu). congruence.
Qed.

(** ** The operations on a condition variable *)

(** A thread that takes the lock, or the holder that releases it *)
Lemma lock_cinv c co pcs t p holder :
  cinv c co pcs -> t <> 0 ->
  (holder = t /\ c_lock co = 0 /\ hold_pc c p \/ holder = 0 /\ hold_pc c (pcs t) /\ ~ hold_pc c p) ->
  (t ∈ c_queue co -> cond_pc c p) -> ~ queued_pc c p -> cinv c (MkCond holder (c_queue co)) (<[t := p]> pcs).
Proof.
  intros [] Ht Hh Hq Hp. split; cbn; try done.
  - intros u Hu. destruct (ci_queue0 u Hu). fn_split; naive_solver.
  - intros u Hu. pose proof (ci_lock0 u Hu) as Hl. pose proof (ci_lock0 t Ht) as Hl'.
    fn_split; destruct Hh as [(-> & H0 & H1)|(-> & H0 & H1)].
    + done.
    + split; [congruence|done].
    + rewrite <- Hl, H0. split; congruence.
    + rewrite <- Hl. apply Hl' in H0. split; congruence.
  - intros u Hu. fn_split. auto.
Qed.

(** sgx_thread_cond_wait enters the queue. *)
Lemma insert_cinv c co pcs t m :
  cinv c co pcs -> t <> 0 -> c_lock co = 0 -> ~ cond_pc c (pcs t) ->
  cinv c (MkCond t (c_queue co ++ [t])) (<[t := PCondUnlock c m]> pcs).
Proof.
  intros [] Ht Hc Hp. assert (t ∉ c_queue co) as Hn by (by intros []%ci_queue0). split; cbn.
  - intros u [Hu| ->%list_elem_of_singleton]%elem_of_app.
    + destruct (ci_queue0 u Hu). by fn_split.
    + split; [done|]. by rewrite fn_lookup_insert.
  - apply NoDup_app. split; [done|]. split; [|apply NoDup_singleton]. intros u Hu ->%list_elem_of_singleton. done.
  - intros u Hu. pose proof (ci_lock0 u Hu). fn_split. split; [done|]. intros Hh. exfalso. apply Hu. naive_solver.
  - intros u Hu. apply elem_of_app. fn_split; [right; by apply list_elem_of_singleton|left; auto].
Qed.

(** Threads removed from the head *)
Lemma remove_cinv c co pcs l1 l2 :
  cinv c co pcs -> c_queue co = l1 ++ l2 -> c_lock co = 0 -> cinv c (MkCond (c_lock co) l2) pcs.
Proof.
  intros [] Hq Hl. rewrite Hq in *. split; cbn; try done.
  - intros u Hu. destruct (ci_queue0 u); [|done]. apply elem_of_app. by right.
  - by apply NoDup_app in ci_nodup0 as (_ & _ & ?).
  - intros u Hu. destruct (ci_queue0 u) as [Hu0 _]; [auto|]. exfalso. apply Hu0. rewrite <- Hl. symmetry.
    apply ci_lock0; [done|]. by destruct (pcs u).
Qed.

(** ** The invariant over the steps *)

(** The move of a thread from [p] to [p'] as an object sees it that is not
    touched *)
Definition quiet_m (m : Z) (p p' : pc) : Prop :=
  (lock_pc m p -> lock_pc m p') /\ (wait_pc m p' -> wait_pc m p) /\ ~ unlock_pc m p'.
Definition quiet_c (c : Z) (p p' : pc) : Prop :=
  (cond_pc c p -> cond_pc c p') /\ (hold_pc c p' <-> hold_pc c p) /\ ~ queued_pc c p'.

Lemma quiet_minv m mu h pcs t p : minv m mu h pcs -> quiet_m m (pcs t) p -> minv m mu h (<[t := p]> pcs).
Proof. intros Hm (? & ? & ?). apply minv_pc; try done; [auto|]. intros. apply (mi_wait _ _ _ _ Hm). auto. Qed.

Lemma quiet_cinv c co pcs t p : cinv c co pcs -> quiet_c c (pcs t) p -> cinv c co (<[t := p]> pcs).
Proof. intros Hm (? & ? & ?). apply cinv_pc; try done; auto. Qed.

Section Step.
Variable g : runtime.
Variable threads : list Z.
Hypothesis Hnull : 0 ∉ threads.

Abbreviation inv' := (inv threads).

Lemma inv_thread a t : inv' a -> ~ (exists r, s_pc a t = PIdle r) -> t ∈ threads /\ t <> 0.
Proof.
  intros Hi Hp. assert (t ∈ threads) as Ht.
  { destruct (decide (t ∈ threads)); [done|]. by destruct Hp; apply (i_idle _ _ Hi). }
  split; [done|]. by intros ->.
Qed.

Lemma idle_upd a t p : inv' a -> t ∈ threads -> forall u, u ∉ threads -> exists r, <[t := p]> (s_pc a) u = PIdle r.
Proof. intros Hi Ht u Hu. rewrite fn_lookup_insert_ne by congruence. by apply (i_idle _ _ Hi). Qed.

Lemma inv_move a t p ev :
  inv' a -> t ∈ threads -> (forall m, quiet_m m (s_pc a t) p) -> (forall c, quiet_c c (s_pc a t) p) ->
  inv' (MkMach (s_next a) (s_mutex a) (s_cond a) (<[t := p]> (s_pc a)) ev (s_held a)).
Proof.
  intros Hi Ht Hm Hc. split; cbn.
  - intros m. apply quiet_minv; [apply (i_mutex _ _ Hi)|auto].
  - intros c. apply quiet_cinv; [apply (i_cond _ _ Hi)|auto].
  - by apply idle_upd.
Qed.

Lemma inv_mutex a t p m mu nx hs :
  inv' a -> t ∈ threads -> minv m mu (hs m) (<[t := p]> (s_pc a)) ->
  (forall m', m' <> m -> hs m' = s_held a m') ->
  (forall m', m' <> m -> quiet_m m' (s_pc a t) p) -> (forall c, quiet_c c (s_pc a t) p) ->
  inv' (MkMach nx (<[m := mu]> (s_mutex a)) (s_cond a) (<[t := p]> (s_pc a)) (s_event a) hs).
Proof.
  intros Hi Ht Hmu Hh Hm Hc. split; cbn.
  - intros m'. fn_split. rewrite Hh by done. apply quiet_minv; [apply (i_mutex _ _ Hi)|auto].
  - intros c. apply quiet_cinv; [apply (i_cond _ _ Hi)|auto].
  - by apply idle_upd.
Qed.

Lemma add_held_at (a : amach) m t d : s_held (add_held m t d a) m = add_fn (s_held a m) t d.
Proof. cbn. by rewrite fn_lookup_insert. Qed.

(** The same for a step that counts the call *)
Lemma inv_mutex_held a t p m mu nx d :
  inv' a -> t ∈ threads -> minv m mu (add_fn (s_held a m) t d) (<[t := p]> (s_pc a)) ->
  (forall m', m' <> m -> quiet_m m' (s_pc a t) p) -> (forall c, quiet_c c (s_pc a t) p) ->
  inv' (set_pc t p (add_held m t d (set_mutex m nx mu a))).
Proof.
  intros Hi Ht Hm Hq Hc. apply (inv_mutex a t p m mu nx (s_held (add_held m t d a))); try done.
  - by rewrite add_held_at.
  - intros m' Hm'. cbn. by fn_split.
Qed.

Lemma inv_cond a t p c co nx :
  inv' a -> t ∈ threads -> cinv c co (<[t := p]> (s_pc a)) ->
  (forall m, minv m (s_mutex a m) (s_held a m) (<[t := p]> (s_pc a))) ->
  (forall c', c' <> c -> quiet_c c' (s_pc a t) p) ->
  inv' (MkMach nx (s_mutex a) (<[c := co]> (s_cond a)) (<[t := p]> (s_pc a)) (s_event a) (s_held a)).
Proof.
  intros Hi Ht Hco Hm Hc. split; cbn; [done| |].
  - intros c'. fn_split. apply quiet_cinv; [apply (i_cond _ _ Hi)|auto].
  - by apply idle_upd.
Qed.

Ltac quiet := solve [intros; repeat split; cbn in *; try done; intros; congruence].

(** The queue of a condition variable whose lock is free: its threads are
    about to wait, waiting or about to look. *)
Lemma inv_signal a t c ws q :
  inv' a -> t ∈ threads -> (exists r, s_pc a t = PIdle r) -> c_lock (s_cond a c) = 0 -> c_queue (s_cond a c) = ws ++ q ->
  inv' (set_pc t (PWake ws) (set_cond c (s_next a) (MkCond (c_lock (s_cond a c)) q) a)).
Proof.
  intros Hi Ht [r Hpc] Hl Hq. apply (inv_cond a t); try done.
  - apply quiet_cinv; [|rewrite Hpc; quiet]. by eapply remove_cinv; [apply (i_cond _ _ Hi)| |].
  - intros m. apply quiet_minv; [apply (i_mutex _ _ Hi)|rewrite Hpc; quiet].
  - rewrite Hpc. quiet.
Qed.

Lemma inv_unlock a t m a' :
  inv' a -> t ∈ threads -> t <> 0 -> (exists r, s_pc a t = PIdle r) -> sgx_thread_mutex_unlock g t m a = Some a' -> inv' a'.
Proof.
  intros Hi Ht Ht0 [r Hpc] Hc. unfold sgx_thread_mutex_unlock in Hc. destruct (bad_mutex g m).
  { unfold ret in Hc. simplify_eq. apply (inv_move a t); try done; rewrite Hpc; quiet. }
  destruct (sgx_thread_mutex_unlock_lazy t (s_mutex a m)) as [mu [r' w]] eqn:Hu.
  assert (forall p, (forall m, quiet_m m (PIdle r) p) -> (forall c, quiet_c c (PIdle r) p) -> (forall m, ~ lock_pc m p) ->
    inv' (set_pc t p (add_held m t (on_success r' (-1)) (set_mutex m (s_next a) mu a)))) as Hgo.
  { intros p Hm Hq Hl. apply inv_mutex_held; rewrite ?Hpc; auto.
    eapply unlock_minv; [apply (i_mutex _ _ Hi)|done|done|rewrite Hpc; by intros []|auto|]. by destruct (Hm m) as (_ & _ & ?). }
  destruct (negb _); [unfold ret in Hc; simplify_eq; apply Hgo; quiet|].
  destruct (negb _); unfold ret in Hc; simplify_eq; apply Hgo; quiet.
Qed.

Lemma inv_call a t o a' :
  inv' a -> client_ok threads true (LCall t o) a -> (exists r, s_pc a t = PIdle r) -> call g t o a = Some a' -> inv' a'.
Proof.
  intros Hi [Ht Ho] Hidle Hc. assert (t <> 0) as Ht0 by (by intros ->). destruct Hidle as [r Hpc] eqn:Hid. clear Hid.
  assert (forall r', inv' (set_pc t (PIdle r') a)) as Hret.
  { intros r'. apply (inv_move a t); try done; rewrite Hpc; quiet. }
  assert (forall r' m mu, minv m mu (s_held a m) (<[t := PIdle r']> (s_pc a)) ->
    inv' (set_pc t (PIdle r') (set_mutex m (s_next a) mu a))) as Hmut.
  { intros r' m mu Hm. apply (inv_mutex a t); try done; rewrite Hpc; quiet. }
  destruct o; cbn [call] in Hc.
  all: try (destruct (bad_mutex g m) eqn:Hb; [unfold ret in Hc; simplify_eq; apply Hret|]).
  all: try (destruct (bad_cond g c) eqn:Hb; [unfold ret in Hc; simplify_eq; apply Hret|]).
  all: unfold ret in Hc.
  - destruct Ho as [Ho Hq]. simplify_eq. apply Hmut.
    apply quiet_minv; [|rewrite Hpc; quiet]. pose proof (i_mutex _ _ Hi m) as Hm.
    eapply reset_minv; [done|done|]. apply first_null; [|done]. by intros u []%(mi_queue _ _ _ _ Hm).
  - pose proof (i_mutex _ _ Hi m) as Hm. unfold sgx_thread_mutex_destroy in Hc.
    destruct (Z.eqb_spec (m_owner (s_mutex a m)) SGX_THREAD_T_NULL) as [Ho'|]; cbn [negb orb] in Hc.
    2:{ simplify_eq. apply Hmut, quiet_minv; [done|rewrite Hpc; quiet]. }
    destruct (Z.eqb_spec (QUEUE_FIRST (m_queue (s_mutex a m))) SGX_THREAD_T_NULL) as [Hf|]; cbn [negb] in Hc.
    2:{ simplify_eq. apply Hmut, quiet_minv; [done|rewrite Hpc; quiet]. }
    simplify_eq. apply Hmut, quiet_minv; [|rewrite Hpc; quiet].
    assert (m_queue (s_mutex a m) = []) as Hq.
    { apply first_null; [|done]. by intros u []%(mi_queue _ _ _ _ Hm). }
    rewrite Hq, Ho'. by eapply reset_minv.
  - simplify_eq. apply (inv_move a t); try done; rewrite Hpc; quiet.
  - unfold sgx_thread_mutex_trylock in Hc. destruct (s_next a). pose proof (i_mutex _ _ Hi m) as Hm.
    destruct (attempt t tt (s_mutex a m)) as [[mu r']|] eqn:Ha; simplify_eq.
    + apply inv_mutex_held; try done; try (rewrite Hpc; quiet).
      eapply attempt_minv; try done; try (rewrite Hpc); by intros [].
    + apply inv_mutex_held; try done; try (rewrite Hpc; quiet).
      apply minv_failed, quiet_minv; [done|rewrite Hpc; quiet].
  - eapply inv_unlock; eauto.
  - destruct Ho as [Hl Hf]. simplify_eq. pose proof (i_cond _ _ Hi c) as Hco.
    assert (c_queue (s_cond a c) = []) as Hq.
    { apply first_null; [|done]. by intros u []%(ci_queue _ _ _ Hco). }
    apply (inv_cond a t); try done; try (rewrite Hpc; quiet).
    + apply quiet_cinv; [|rewrite Hpc; quiet]. rewrite <- Hl. by eapply (remove_cinv _ _ _ []).
    + intros m. apply quiet_minv; [apply (i_mutex _ _ Hi)|rewrite Hpc; quiet].
  - destruct (negb _); simplify_eq. apply Hret.
  - unfold sgx_thread_cond_wait in Hc. destruct (_ || _); [unfold ret in Hc; simplify_eq; apply Hret|].
    destruct (unlocked c a) eqn:Hun; cbn [negb] in Hc; [|done]. cbn in Hc. injection Hc as <-.
    unfold unlocked in Hun. apply Z.eqb_eq in Hun.
    apply (inv_cond a t); try done; try (rewrite Hpc; quiet).
    + apply insert_cinv; try done; [apply (i_cond _ _ Hi)|]. rewrite Hpc. by intros [].
    + intros m'. apply minv_pc; [apply (i_mutex _ _ Hi)|rewrite Hpc; by intros []|by intros []|]. cbn. by intros <-.
  - unfold sgx_thread_cond_signal in Hc. destruct (bad_cond g c); [unfold ret in Hc; simplify_eq; apply Hret|].
    destruct (unlocked c a) eqn:Hun; cbn [negb] in Hc; [|done]. unfold unlocked in Hun. apply Z.eqb_eq in Hun.
    destruct (c_queue (s_cond a c)) as [|w q] eqn:Hq; cbn in Hc; unfold ret in Hc; simplify_eq; [apply Hret|].
    destruct (w =? SGX_THREAD_T_NULL); simplify_eq; [apply Hret|]. by eapply inv_signal; eauto.
  - unfold sgx_thread_cond_broadcast in Hc. destruct (bad_cond g c); [unfold ret in Hc; simplify_eq; apply Hret|].
    destruct (unlocked c a) eqn:Hun; cbn [negb] in Hc; [|done]. unfold unlocked in Hun. apply Z.eqb_eq in Hun.
    cbn in Hc. unfold ret in Hc. destruct (_ =? 0); simplify_eq; [apply Hret|].
    destruct malloc; cbn in Hc; simplify_eq; [|apply Hret].
    eapply inv_signal; eauto. by rewrite app_nil_r.
Qed.

(** An iteration of lock: it returns with the outcome of [attempt], or the
    caller waits in the queue. *)
Lemma lock_iter_cases a t k m a' :
  inv' a -> s_pc a t = PLock k m -> run t a = Some a' ->
  (exists mu r, attempt t tt (s_mutex a m) = Some (mu, r) /\
     a' = set_pc t (PIdle (if k then 0 else r)) (add_held m t (on_success r 1) (set_mutex m tt mu a))) \/
  (exists mu, attempt t tt (s_mutex a m) = None /\ mutex_lock_iter t tt (s_mutex a m) = Some (tt, mu, Waits) /\
     a' = set_pc t (PLockWait k m) (set_mutex m tt mu a)).
Proof.
  intros Hi Hpc Hr. destruct (inv_thread a t Hi) as [_ Ht0]; [by rewrite Hpc; intros []|].
  unfold run in Hr. rewrite Hpc in Hr. destruct (s_next a).
  destruct (attempt t tt (s_mutex a m)) as [[mu r]|] eqn:Ha.
  - left. unfold mutex_lock_iter in Hr. rewrite Ha in Hr. cbn in Hr. unfold ret in Hr. simplify_eq. eauto.
  - right. destruct (mutex_lock_iter t tt (s_mutex a m)) as [[[[] mu] out]|] eqn:Hl; [|done].
    destruct (wait_minv _ _ _ _ _ _ _ _ (i_mutex _ _ Hi m) Ht0 Hpc Hl Ha) as (-> & _). cbn in Hr. simplify_eq. eauto.
Qed.

(** The unlock inside sgx_thread_cond_wait succeeds. *)
Lemma cond_unlock_ok a t c m :
  inv' a -> s_pc a t = PCondUnlock c m ->
  exists mu w, sgx_thread_mutex_unlock_lazy t (s_mutex a m) = (mu, (0, w)) /\
    run t a = Some (set_pc t (PCondLoop c m w) (add_held m t (-1) (set_mutex m (s_next a) mu a))).
Proof.
  intros Hi Hpc. pose proof (i_mutex _ _ Hi m) as Hm.
  destruct (mi_unlock _ _ _ _ Hm t) as [Ho Ht]; [by rewrite Hpc|].
  unfold run. rewrite Hpc. unfold sgx_thread_mutex_unlock_lazy.
  destruct (bad_control _) eqn:Hb; [by apply (mi_ctl _ _ _ _ Hm) in Hb as []; congruence|].
  rewrite Ho. destruct (Z.eqb_spec t SGX_THREAD_T_NULL); [done|]. rewrite Z.eqb_refl. cbn [negb].
  destruct (_ =? 0); eauto.
Qed.

Lemma inv_run a t a' : inv' a -> client_ok threads true (LRun t) a -> run t a = Some a' -> inv' a'.
Proof.
  intros Hi Hcl Hr. assert (t ∈ threads /\ t <> 0) as [Ht Ht0].
  { apply (inv_thread a); [done|]. intros [r Hp]. unfold run in Hr. by rewrite Hp in Hr. }
  assert (forall p ev, (forall m, quiet_m m (s_pc a t) p) -> (forall c, quiet_c c (s_pc a t) p) ->
    inv' (MkMach (s_next a) (s_mutex a) (s_cond a) (<[t := p]> (s_pc a)) ev (s_held a))) as Hmove
    by (intros; by apply inv_move).
  assert (forall c p h, (forall m, quiet_m m (s_pc a t) p) -> (forall c', c' <> c -> quiet_c c' (s_pc a t) p) ->
    (h = t /\ c_lock (s_cond a c) = 0 /\ hold_pc c p \/ h = 0 /\ hold_pc c (s_pc a t) /\ ~ hold_pc c p) ->
    (t ∈ c_queue (s_cond a c) -> cond_pc c p) -> ~ queued_pc c p -> inv' (set_pc t p (set_lock c h a))) as Hlock.
  { intros c p h Hm Hc Hh Hq Hp. apply (inv_cond a t); try done.
    - apply lock_cinv; try done. apply (i_cond _ _ Hi).
    - intros m. apply quiet_minv; [apply (i_mutex _ _ Hi)|done]. }
  destruct (s_pc a t) eqn:Hpc.
  - unfold run in Hr. by rewrite Hpc in Hr.
  - cbn [client_ok] in Hcl. rewrite Hpc in Hcl.
    destruct (lock_iter_cases a t k m a') as [(mu & r & Ha & ->)|(mu & Ha & Hl & ->)]; try done.
    + apply inv_mutex_held; try done; try (rewrite Hpc; quiet).
      eapply attempt_minv; [apply (i_mutex _ _ Hi)|..]; try done; try (rewrite Hpc); by intros [].
    + destruct (wait_minv _ _ _ _ _ _ _ _ (i_mutex _ _ Hi m) Ht0 Hpc Hl Ha) as (_ & _ & _ & _ & _ & Hm).
      apply (inv_mutex a t); try done; rewrite Hpc; quiet.
  - unfold run in Hr. rewrite Hpc in Hr. cbn in Hr. simplify_eq. by destruct (_ =? 0); apply Hmove; quiet.
  - unfold run in Hr. rewrite Hpc in Hr. destruct (asleep t a); simplify_eq. apply Hmove; quiet.
  - unfold run in Hr. rewrite Hpc in Hr. unfold ret in Hr. destruct ws as [|w ws]; simplify_eq; apply Hmove; quiet.
  - destruct (cond_unlock_ok a t c m) as (mu & w & Hu & Hrun); try done. rewrite Hrun in Hr. simplify_eq.
    apply inv_mutex_held; try done; try (rewrite Hpc; quiet).
    eapply (unlock_minv m _ _ _ t mu 0); [apply (i_mutex _ _ Hi)|..]; try done; try (rewrite Hpc); by intros [].
  - unfold run in Hr. rewrite Hpc in Hr. simplify_eq. apply Hlock; try quiet. right. repeat split. by intros [].
  - unfold run in Hr. rewrite Hpc in Hr. destruct (waiter =? SGX_THREAD_T_NULL); cbn in Hr; simplify_eq.
    + destruct (s_event a t =? 0); apply Hmove; quiet.
    + apply Hmove; quiet.
  - unfold run in Hr. rewrite Hpc in Hr. destruct (asleep t a); simplify_eq. apply Hmove; quiet.
  - unfold run in Hr. rewrite Hpc in Hr. destruct (unlocked c a) eqn:Hun; cbn [negb] in Hr; [|done].
    unfold unlocked in Hun. apply Z.eqb_eq in Hun. cbn in Hr.
    destruct (bool_decide_reflect (t ∈ c_queue (s_cond a c))) as [Hq|Hq].
    + destruct (Z.eqb_spec t SGX_THREAD_T_NULL); [done|]. simplify_eq. apply Hlock; try quiet. by left.
    + rewrite Z.eqb_refl in Hr. simplify_eq. apply Hlock; try quiet. by left.
  - unfold run in Hr. rewrite Hpc in Hr. simplify_eq. apply Hlock; try quiet.
    + right. repeat split. by intros [].
    + intros Hq%(ci_queue _ _ _ (i_cond _ _ Hi c)). rewrite Hpc in Hq. by destruct Hq.
Qed.

Lemma inv_spurious a t a' : inv' a -> spurious t a = Some a' -> inv' a'.
Proof.
  intros Hi Hs. unfold spurious in Hs. destruct (s_pc a t) eqn:Hpc; simplify_eq;
    (apply inv_move; [done|apply (inv_thread a t Hi); rewrite Hpc; by intros []|..]; rewrite Hpc; quiet).
Qed.

Lemma inv_initial a : initial a -> inv' a.
Proof.
  intros (Hm & Hc & Hp & _ & Hh). split.
  - intros m. destruct (Hm m) as [ctl ->]. split; cbn -[bad_control]; try done; try (intros t; by rewrite Hp).
    + by intros t ?%elem_of_nil.
    + constructor.
    + by intros _ ?%elem_of_nil.
  - intros c. rewrite Hc. split; cbn; try done.
    + by intros t ?%elem_of_nil.
    + constructor.
    + intros t Ht. rewrite Hp. cbn. split; [congruence|done].
    + intros t. by rewrite Hp.
  - intros t _. exists 0. apply Hp.
Qed.

Lemma inv_exec sp l a a' : inv' a -> client_ok threads sp l a -> exec g l a = Some a' -> inv' a'.
Proof.
  intros Hi Hc He. destruct l as [t o|t|t]; cbn [exec] in He.
  - destruct (s_pc a t) eqn:Hp; try done. eapply inv_call; eauto.
  - eapply inv_run; eauto.
  - by eapply inv_spurious.
Qed.

Lemma inv_reach sp a0 a : initial a0 -> reach g threads sp a0 a -> inv' a.
Proof. intros H0. induction 1 as [|l a a' _ IH Hc He]; [by apply inv_initial|by eapply inv_exec]. Qed.
End Step.
