(* ===== verification/ThreadSim.v ===== *)
(** * Linked queues refine lists

    The machine of Thread.v over the linked queues of the code does, step by
    step, what the machine over lists does ([exec_sim]), so the invariants of
    ThreadInv.v hold of it.  The links of all queues share one store; they do
    not interfere because a thread is in at most one queue. *)

From stdpp Require Import functions gmap.
From S2P Require Import Prelude Bytes Arch Trts Thread ThreadInv.
Import Linked Ideal.

#[local] Open Scope Z_scope.

(** ** Representation of one queue *)
Fixpoint chain (nx : links) (p : Z) (l : list Z) : Prop :=
  match l with
  | [] => p = 0
  | x :: l' => p = x /\ x <> 0 /\ is_Some (nx !! x) /\ chain nx (QUEUE_NEXT nx x) l'
  end.

Definition q_rep (nx : links) (q : sgx_thread_queue_t) (l : list Z) : Prop :=
  chain nx (m_first q) l /\ m_last q = default 0 (last l).

Lemma chain_frame nx x v p l : x ∉ l -> chain nx p l -> chain (<[x := v]> nx) p l.
Proof.
  revert p. induction l as [|y l IH]; intros p Hx; [done|]. apply not_elem_of_cons in Hx as [Hy Hx].
  intros (-> & ? & ? & Hc). split; [done|]. split; [done|]. unfold QUEUE_NEXT in *.
  rewrite lookup_insert_ne by done. split; [done|]. by apply IH.
Qed.

Lemma chain_snoc nx p l t : t <> 0 -> t ∉ l -> NoDup l -> l <> [] -> chain nx p l -> nx !! t = Some 0 ->
  chain (<[default 0 (last l) := t]> nx) p (l ++ [t]).
Proof.
  intros Ht. revert p. induction l as [|y l IH]; intros p Hn Hd Hl Hc Hnx; [done|].
  apply NoDup_cons in Hd as [Hy Hd]. apply not_elem_of_cons in Hn as [Hty Hn].
  destruct Hc as (-> & Hy0 & Hs & Hc). destruct l as [|z l].
  - cbn. unfold QUEUE_NEXT. rewrite !lookup_insert_eq, lookup_insert_ne, Hnx by done. by repeat split.
  - rewrite last_cons_cons. cbn [app chain]. split; [done|]. split; [done|].
    assert (default 0 (last (z :: l)) <> y) as Hne.
    { intros <-. apply Hy. destruct (last_is_Some (z :: l)) as [_ [w Hw]]; [done|]. rewrite Hw. cbn. by apply last_Some_elem_of. }
    unfold QUEUE_NEXT in *. rewrite lookup_insert_ne by done. split; [done|]. by apply IH.
Qed.

Lemma rep_init nx : q_rep nx (MkQueue 0 0) [].
Proof. done. Qed.

Lemma rep_first nx q l : q_rep nx q l -> m_first q = default 0 (head l).
Proof. intros [H _]. by destruct l; [|destruct H]. Qed.

Lemma rep_nonnull nx q l x : q_rep nx q l -> x ∈ l -> x <> 0.
Proof.
  intros [H _]. revert H. generalize (m_first q). induction l as [|y l IH]; intros p Hc Hx; [by apply elem_of_nil in Hx|].
  destruct Hc as (-> & ? & _ & Hc). apply elem_of_cons in Hx as [->|]; [done|]. by eapply IH.
Qed.

Lemma rep_insert nx q l t nx' q' :
  q_rep nx q l -> t <> 0 -> t ∉ l -> NoDup l -> insert_tail nx q t = (nx', q') ->
  q_rep nx' q' (l ++ [t]) /\
  (forall q2 l2, q_rep nx q2 l2 -> t ∉ l2 -> (forall x, x ∈ l -> x ∉ l2) -> q_rep nx' q2 l2).
Proof.
  intros Hr Ht Hn Hd Hi. pose proof (rep_first _ _ _ Hr) as Hf. destruct Hr as [Hc Hl].
  unfold insert_tail, SGX_THREAD_T_NULL in Hi. destruct l as [|x l].
  - cbn in Hf. rewrite Hf in Hi. cbn in Hi. simplify_eq. split.
    + split; [|done]. cbn. unfold QUEUE_NEXT. rewrite lookup_insert_eq. by repeat split.
    + intros q2 l2 [? ?] ? _. split; [|done]. by apply chain_frame.
  - destruct (Z.eqb_spec (m_first q) 0) as [H0|_]; [by destruct Hc as (? & ? & _); congruence|]. cbn [negb] in Hi.
    simplify_eq. split.
    + split; [|by rewrite last_snoc]. cbn [m_first]. rewrite Hl. apply chain_snoc; try done.
      * by apply chain_frame.
      * by rewrite lookup_insert_eq.
    + intros q2 l2 [? ?] ? Hdis. split; [|done]. apply chain_frame; [|by apply chain_frame].
      rewrite Hl. destruct (last_is_Some (x :: l)) as [_ [w Hw]]; [done|]. rewrite Hw. by apply Hdis, last_Some_elem_of.
Qed.

Lemma rep_remove nx q x l : q_rep nx q (x :: l) -> q_rep nx (remove_head nx q) l.
Proof.
  intros [(Hf & Hx & _ & Hc) Hl]. unfold remove_head, SGX_THREAD_T_NULL. rewrite Hf. split; cbn [m_first m_last]; [done|].
  destruct l as [|y l]; [cbn in Hc; by rewrite Hc|]. destruct Hc as (-> & Hy & _).
  destruct (Z.eqb_spec y 0); [done|]. rewrite Hl. by rewrite last_cons_cons.
Qed.

(** The fuel of the traversals is enough. *)
Lemma chain_dom nx p l x : chain nx p l -> x ∈ l -> is_Some (nx !! x).
Proof.
  revert p. induction l as [|y l IH]; intros p Hc Hx; [by apply elem_of_nil in Hx|].
  destruct Hc as (_ & _ & Hs & Hc). apply elem_of_cons in Hx as [->|]; [done|]. by eapply IH.
Qed.

Lemma chain_fuel nx p l : NoDup l -> chain nx p l -> (length l < fuel nx)%nat.
Proof.
  intros Hd Hc. unfold fuel. rewrite <- (size_list_to_set (C := gset Z) l Hd), <- (size_dom (D := gset Z) nx).
  apply Nat.lt_succ_r, subseteq_size. intros x Hx%elem_of_list_to_set. apply elem_of_dom. by eapply chain_dom.
Qed.

Lemma search_chain nx n p l t : chain nx p l -> (length l < n)%nat -> t <> 0 ->
  search n nx p t = Some (if bool_decide (t ∈ l) then t else 0).
Proof.
  intros Hc Hn Ht. revert p n Hc Hn. induction l as [|x l IH]; intros p n Hc Hn; (destruct n as [|n]; [cbn in Hn; lia|]); cbn [search].
  - cbn in Hc. by subst.
  - destruct Hc as (-> & Hx & _ & Hc). unfold SGX_THREAD_T_NULL. destruct (Z.eqb_spec x 0); [done|].
    destruct (Z.eqb_spec x t) as [->|Hne].
    + by rewrite bool_decide_true by left.
    + rewrite (IH _ n Hc) by (cbn in Hn; lia). f_equal. destruct (bool_decide_reflect (t ∈ l)) as [Hi|Hi].
      * by rewrite bool_decide_true by (by right).
      * rewrite bool_decide_false; [done|]. by rewrite elem_of_cons; intros [->|].
Qed.

Lemma count_chain nx n p l k : chain nx p l -> (length l < n)%nat -> 0 <= k -> k + zlen l < 2 ^ 64 ->
  count_all n nx p k = Some (k + zlen l).
Proof.
  intros Hc Hn. revert p n k Hc Hn. induction l as [|x l IH]; intros p n k Hc Hn Hk Hb;
    (destruct n as [|n]; [cbn in Hn; lia|]); cbn [count_all].
  - cbn in Hc. subst. cbn. f_equal. lia.
  - destruct Hc as (-> & Hx & _ & Hc). unfold SGX_THREAD_T_NULL. destruct (Z.eqb_spec x 0); [done|].
    cbn [length] in *. rewrite u64_small by lia. rewrite (IH _ n) by (done || lia). f_equal. lia.
Qed.

Lemma drain_chain nx n q l : q_rep nx q l -> (length l < n)%nat -> drain n nx q = Some (MkQueue 0 0, l).
Proof.
  revert n q. induction l as [|x l IH]; intros n q Hr Hn; (destruct n as [|n]; [cbn in Hn; lia|]); cbn [drain].
  - destruct q as [f z], Hr as [Hf Hl]. cbn in Hf, Hl. by subst.
  - pose proof (rep_first _ _ _ Hr) as Hf. cbn in Hf. pose proof (rep_nonnull _ _ _ x Hr ltac:(left)) as Hx.
    rewrite Hf. unfold SGX_THREAD_T_NULL. destruct (Z.eqb_spec x 0); [done|].
    rewrite (IH n (remove_head nx q)); [done|by apply (rep_remove nx q x)|cbn in Hn; lia].
Qed.

(** ** The two machines *)
Abbreviation cmach := (mach links sgx_thread_queue_t).

Record rel (s : cmach) (a : amach) : Prop := {
  r_mutex : forall m, m_refcount (s_mutex s m) = m_refcount (s_mutex a m) /\
    m_control (s_mutex s m) = m_control (s_mutex a m) /\ m_owner (s_mutex s m) = m_owner (s_mutex a m) /\
    q_rep (s_next s) (m_queue (s_mutex s m)) (m_queue (s_mutex a m));
  r_cond : forall c, c_lock (s_cond s c) = c_lock (s_cond a c) /\
    q_rep (s_next s) (c_queue (s_cond s c)) (c_queue (s_cond a c));
  r_pc : s_pc s = s_pc a;
  r_event : s_event s = s_event a;
  r_held : s_held s = s_held a }.

(** The threads of [a]'s queues: [t] is in none of them. *)
Definition nowhere (a : amach) (t : Z) : Prop :=
  (forall m, t ∉ m_queue (s_mutex a m)) /\ (forall c, t ∉ c_queue (s_cond a c)).

Section Sim.
Variable g : runtime.
Variable threads : list Z.
Hypothesis Hnull : 0 ∉ threads.
Hypothesis Hmany : zlen threads < 2 ^ 64.

Lemma mutex_disjoint a m m' x : inv threads a -> x ∈ m_queue (s_mutex a m) -> x ∈ m_queue (s_mutex a m') -> m = m'.
Proof.
  intros Hi H1%(mi_queue _ _ _ _ (i_mutex _ _ Hi m)) H2%(mi_queue _ _ _ _ (i_mutex _ _ Hi m')).
  destruct H1 as [_ H1], H2 as [_ H2]. destruct (s_pc a x); cbn in *; first [done|congruence].
Qed.

Lemma cond_disjoint a c c' x : inv threads a -> x ∈ c_queue (s_cond a c) -> x ∈ c_queue (s_cond a c') -> c = c'.
Proof.
  intros Hi H1%(ci_queue _ _ _ (i_cond _ _ Hi c)) H2%(ci_queue _ _ _ (i_cond _ _ Hi c')).
  destruct H1 as [_ H1], H2 as [_ H2]. destruct (s_pc a x); cbn in *; first [done|congruence].
Qed.

Lemma kinds_disjoint a m c x : inv threads a -> x ∈ m_queue (s_mutex a m) -> x ∈ c_queue (s_cond a c) -> False.
Proof.
  intros Hi H1%(mi_queue _ _ _ _ (i_mutex _ _ Hi m)) H2%(ci_queue _ _ _ (i_cond _ _ Hi c)).
  destruct H1 as [_ H1], H2 as [_ H2]. by destruct (s_pc a x); cbn in *.
Qed.

Lemma rel_pc s a t p : rel s a -> rel (set_pc t p s) (set_pc t p a).
Proof. intros []. split; cbn; try done. by rewrite r_pc0. Qed.

Lemma rel_event s a t v : rel s a -> rel (set_event t v s) (set_event t v a).
Proof. intros []. split; cbn; try done. by rewrite r_event0. Qed.

Lemma rel_held s a m t d : rel s a -> rel (add_held m t d s) (add_held m t d a).
Proof. intros []. split; cbn; try done. by rewrite r_held0. Qed.

(** A mutex or condition variable is replaced; the links of the other queues
    are kept. *)
Lemma rel_mutex s a m nx mu am :
  rel s a -> m_refcount mu = m_refcount am -> m_control mu = m_control am -> m_owner mu = m_owner am ->
  q_rep nx (m_queue mu) (m_queue am) ->
  (forall m', m' <> m -> q_rep nx (m_queue (s_mutex s m')) (m_queue (s_mutex a m'))) ->
  (forall c, q_rep nx (c_queue (s_cond s c)) (c_queue (s_cond a c))) ->
  rel (set_mutex m nx mu s) (set_mutex m tt am a).
Proof.
  intros [] H1 H2 H3 H4 Hm Hc. split; cbn; try done.
  - intros m'. fn_split. destruct (r_mutex0 m') as (? & ? & ? & _). auto.
  - intros c. destruct (r_cond0 c). auto.
Qed.

Lemma rel_cond s a c nx co ac :
  rel s a -> c_lock co = c_lock ac -> q_rep nx (c_queue co) (c_queue ac) ->
  (forall m, q_rep nx (m_queue (s_mutex s m)) (m_queue (s_mutex a m))) ->
  (forall c', c' <> c -> q_rep nx (c_queue (s_cond s c')) (c_queue (s_cond a c'))) ->
  rel (set_cond c nx co s) (set_cond c tt ac a).
Proof.
  intros [] H1 H2 Hm Hc. split; cbn; try done.
  - intros m. destruct (r_mutex0 m) as (? & ? & ? & _). auto.
  - intros c'. fn_split. destruct (r_cond0 c'). auto.
Qed.

Lemma rel_mutex_same s a m mu am :
  rel s a -> m_refcount mu = m_refcount am -> m_control mu = m_control am -> m_owner mu = m_owner am ->
  q_rep (s_next s) (m_queue mu) (m_queue am) -> rel (set_mutex m (s_next s) mu s) (set_mutex m (s_next a) am a).
Proof.
  intros Hr H1 H2 H3 H4. destruct (s_next a). apply rel_mutex; try done; intros; by apply Hr.
Qed.

Lemma rel_cond_same s a c co ac :
  rel s a -> c_lock co = c_lock ac -> q_rep (s_next s) (c_queue co) (c_queue ac) ->
  rel (set_cond c (s_next s) co s) (set_cond c (s_next a) ac a).
Proof. intros Hr H1 H2. destruct (s_next a). apply rel_cond; try done; intros; by apply Hr. Qed.

Lemma rel_lock s a c h : rel s a -> rel (set_lock c h s) (set_lock c h a).
Proof. intros Hr. apply rel_cond_same; try done. by apply Hr. Qed.

(** ** The operations *)
Lemma attempt_sim s a m t :
  inv threads a -> rel s a -> t <> 0 ->
  match attempt t (s_next s) (s_mutex s m), attempt t tt (s_mutex a m) with
  | Some (mu, r), Some (am, r') =>
      r = r' /\ m_refcount mu = m_refcount am /\ m_control mu = m_control am /\ m_owner mu = m_owner am /\
      q_rep (s_next s) (m_queue mu) (m_queue am)
  | None, None => True
  | _, _ => False
  end.
Proof.
  intros Hi Hr Ht. destruct (r_mutex _ _ Hr m) as (H1 & H2 & H3 & H4). pose proof (rep_first _ _ _ H4) as Hf.
  unfold attempt, bad_control, SGX_THREAD_T_NULL. cbn [QUEUE_FIRST QUEUE_REMOVE_HEAD linked ideal]. rewrite H1, H2, H3, Hf.
  unfold SGX_THREAD_T_NULL. destruct (_ && _); [done|]. destruct (_ && _); [done|].
  destruct (m_owner (s_mutex a m) =? 0); cbn [andb]; [|done]. destruct (_ || _) eqn:Hq; [|done].
  cbn [m_refcount m_control m_owner m_queue]. do 4 (split; [done|]).
  destruct (m_queue (s_mutex a m)) as [|x l]; cbn [head default tail] in *; [by destruct (Z.eqb_spec 0 t)|].
  destruct (_ =? t); [|done]. by eapply rep_remove.
Qed.

Lemma unlock_sim s a m t :
  rel s a ->
  let '(mu, (r, w)) := sgx_thread_mutex_unlock_lazy t (s_mutex s m) in
  let '(am, (r', w')) := sgx_thread_mutex_unlock_lazy t (s_mutex a m) in
  r = r' /\ w = w' /\ m_refcount mu = m_refcount am /\ m_control mu = m_control am /\ m_owner mu = m_owner am /\
  q_rep (s_next s) (m_queue mu) (m_queue am).
Proof.
  intros Hr. destruct (r_mutex _ _ Hr m) as (H1 & H2 & H3 & H4). pose proof (rep_first _ _ _ H4) as Hf.
  unfold sgx_thread_mutex_unlock_lazy, bad_control, SGX_THREAD_T_NULL. cbn [QUEUE_FIRST linked ideal].
  rewrite H1, H2, H3, Hf. repeat case_match; simplify_eq; do 5 (split; [done|]); done.
Qed.

(** A thread in no queue enters one. *)
Lemma insert_sim s a l q t nx q' :
  inv threads a -> rel s a -> t <> 0 -> nowhere a t -> q_rep (s_next s) q l -> NoDup l -> t ∉ l ->
  insert_tail (s_next s) q t = (nx, q') ->
  q_rep nx q' (l ++ [t]) /\
  (forall m, (forall x, x ∈ l -> x ∉ m_queue (s_mutex a m)) ->
     q_rep nx (m_queue (s_mutex s m)) (m_queue (s_mutex a m))) /\
  (forall c, (forall x, x ∈ l -> x ∉ c_queue (s_cond a c)) ->
     q_rep nx (c_queue (s_cond s c)) (c_queue (s_cond a c))).
Proof.
  intros Hi Hr Ht [Hnm Hnc] Hq Hd Hn Hins. destruct (rep_insert _ _ _ _ _ _ Hq Ht Hn Hd Hins) as [H1 H2].
  split; [done|]. split; intros o Ho; apply H2; try done; [apply (r_mutex _ _ Hr)|apply (r_cond _ _ Hr)].
Qed.

(** ** Steps *)
Definition orel (o : option cmach) (o' : option amach) : Prop :=
  match o, o' with Some s, Some a => rel s a | None, None => True | _, _ => False end.

Lemma orel_ret s a t r : rel s a -> orel (ret t r s) (ret t r a).
Proof. apply rel_pc. Qed.

Lemma idle_nowhere a t r : inv threads a -> s_pc a t = PIdle r -> nowhere a t.
Proof.
  intros Hi Hp. split; intros o Ho.
  - apply (mi_queue _ _ _ _ (i_mutex _ _ Hi o)) in Ho as [_ Ho]. by rewrite Hp in Ho.
  - apply (ci_queue _ _ _ (i_cond _ _ Hi o)) in Ho as [_ Ho]. by rewrite Hp in Ho.
Qed.

Lemma lock_nowhere a t k m : inv threads a -> s_pc a t = PLock k m -> t ∉ m_queue (s_mutex a m) -> nowhere a t.
Proof.
  intros Hi Hp Hn. split; intros o Ho.
  - pose proof Ho as Ho'. apply (mi_queue _ _ _ _ (i_mutex _ _ Hi o)) in Ho' as [_ Ho'].
    rewrite Hp in Ho'. cbn in Ho'. by subst.
  - apply (ci_queue _ _ _ (i_cond _ _ Hi o)) in Ho as [_ Ho]. by rewrite Hp in Ho.
Qed.

Lemma queue_short a c : inv threads a -> zlen (c_queue (s_cond a c)) < 2 ^ 64.
Proof.
  intros Hi. pose proof (i_cond _ _ Hi c) as Hc. enough (length (c_queue (s_cond a c)) <= length threads)%nat by lia.
  apply submseteq_length, NoDup_submseteq; [by apply ci_nodup in Hc|]. intros x Hx%(ci_queue _ _ _ Hc).
  apply (inv_thread threads Hnull a x Hi). intros [r Hp]. rewrite Hp in Hx. by destruct Hx.
Qed.

Lemma unlocked_sim s a c : rel s a -> unlocked c s = unlocked c a.
Proof. intros Hr. unfold unlocked. by destruct (r_cond _ _ Hr c) as [-> _]. Qed.

Lemma cond_wait_sim s a t c m :
  inv threads a -> rel s a -> t <> 0 -> (exists r, s_pc a t = PIdle r) ->
  orel (sgx_thread_cond_wait g t c m s) (sgx_thread_cond_wait g t c m a).
Proof.
  intros Hi Hr Ht [r Hp]. unfold sgx_thread_cond_wait. destruct (_ || _); [by apply orel_ret|].
  rewrite (unlocked_sim s a c Hr). destruct (unlocked c a); cbn [negb]; [|done].
  cbn [QUEUE_INSERT_TAIL linked ideal]. destruct (insert_tail _ _ t) as [nx q] eqn:Hins.
  pose proof (idle_nowhere a t r Hi Hp) as Hn. pose proof (i_cond _ _ Hi c) as Hc.
  destruct (insert_sim s a _ _ t nx q Hi Hr Ht Hn (proj2 (r_cond _ _ Hr c)) (ci_nodup _ _ _ Hc) (proj2 Hn c) Hins)
    as (H1 & H2 & H3).
  apply rel_pc, rel_cond; cbn; try done.
  - intros m'. apply H2. intros x Hx Hx'. by eapply kinds_disjoint.
  - intros c' Hc'. apply H3. intros x Hx Hx'. by apply Hc', (cond_disjoint a c' c x).
Qed.

Lemma signal_sim s a t c :
  inv threads a -> rel s a -> orel (sgx_thread_cond_signal g t c s) (sgx_thread_cond_signal g t c a).
Proof.
  intros Hi Hr. unfold sgx_thread_cond_signal. destruct (bad_cond g c); [by apply orel_ret|].
  rewrite (unlocked_sim s a c Hr). destruct (unlocked c a); cbn [negb]; [|done].
  cbn [QUEUE_FIRST QUEUE_REMOVE_HEAD linked ideal]. destruct (r_cond _ _ Hr c) as [Hl Hq].
  rewrite (rep_first _ _ _ Hq). unfold SGX_THREAD_T_NULL. destruct (_ =? 0) eqn:H0; [by apply orel_ret|].
  apply rel_pc, rel_cond_same; [done|done|]. cbn [c_queue].
  destruct (c_queue (s_cond a c)) as [|x l]; [done|]. by eapply rep_remove.
Qed.

Lemma broadcast_sim s a t c b :
  inv threads a -> rel s a -> orel (sgx_thread_cond_broadcast g t c b s) (sgx_thread_cond_broadcast g t c b a).
Proof.
  intros Hi Hr. unfold sgx_thread_cond_broadcast. destruct (bad_cond g c); [by apply orel_ret|].
  rewrite (unlocked_sim s a c Hr). destruct (unlocked c a); cbn [negb]; [|done].
  destruct (r_cond _ _ Hr c) as [Hl Hq]. pose proof (ci_nodup _ _ _ (i_cond _ _ Hi c)) as Hd.
  pose proof (chain_fuel _ _ _ Hd (proj1 Hq)) as Hfu. pose proof (queue_short a c Hi).
  cbn [QUEUE_COUNT_ALL queue_drain linked ideal]. rewrite (count_chain _ _ _ _ 0 (proj1 Hq) Hfu) by lia.
  rewrite (drain_chain _ _ _ _ Hq Hfu). cbn [mbind option_bind]. rewrite Z.add_0_l.
  destruct (_ =? 0); [by apply orel_ret|]. destruct b; cbn [negb]; [|by apply orel_ret].
  by apply rel_pc, rel_cond_same.
Qed.

Lemma mutex_unlock_sim s a t m : rel s a -> orel (sgx_thread_mutex_unlock g t m s) (sgx_thread_mutex_unlock g t m a).
Proof.
  intros Hr. unfold sgx_thread_mutex_unlock. destruct (bad_mutex g m); [by apply orel_ret|].
  pose proof (unlock_sim s a m t Hr) as Hu. destruct (sgx_thread_mutex_unlock_lazy t (s_mutex s m)) as [mu [r w]].
  destruct (sgx_thread_mutex_unlock_lazy t (s_mutex a m)) as [am [r' w']]. destruct Hu as (-> & -> & H1 & H2 & H3 & H4).
  assert (rel (add_held m t (on_success r' (-1)) (set_mutex m (s_next s) mu s))
              (add_held m t (on_success r' (-1)) (set_mutex m (s_next a) am a))) by (by apply rel_held, rel_mutex_same).
  destruct (negb _); [by apply orel_ret|]. destruct (negb _); [by apply rel_pc|by apply orel_ret].
Qed.

Lemma destroy_sim s a t m : rel s a ->
  orel (call g t (OpDestroy m) s) (call g t (OpDestroy m) a).
Proof.
  intros Hr. cbn [call]. destruct (bad_mutex g m); [by apply orel_ret|].
  destruct (r_mutex _ _ Hr m) as (H1 & H2 & H3 & H4). unfold sgx_thread_mutex_destroy.
  cbn [QUEUE_FIRST linked ideal]. rewrite H3, (rep_first _ _ _ H4). unfold SGX_THREAD_T_NULL.
  destruct (_ || _); by apply orel_ret, rel_mutex_same.
Qed.

Lemma call_sim s a t o :
  inv threads a -> rel s a -> t <> 0 -> (exists r, s_pc a t = PIdle r) -> orel (call g t o s) (call g t o a).
Proof.
  intros Hi Hr Ht Hp. destruct o; [|by apply destroy_sim|..]; cbn [call].
  - destruct (bad_mutex g m); [by apply orel_ret|]. by apply orel_ret, rel_mutex_same.
  - destruct (bad_mutex g m); [by apply orel_ret|]. by apply rel_pc.
  - destruct (bad_mutex g m); [by apply orel_ret|]. unfold sgx_thread_mutex_trylock.
    pose proof (attempt_sim s a m t Hi Hr Ht) as Ha. destruct (s_next a) eqn:Hna.
    destruct (attempt t (s_next s) (s_mutex s m)) as [[mu r]|], (attempt t tt (s_mutex a m)) as [[am r']|]; try done.
    + destruct Ha as (-> & H1 & H2 & H3 & H4). rewrite <- Hna. by apply orel_ret, rel_held, rel_mutex_same.
    + destruct (r_mutex _ _ Hr m) as (H1 & H2 & H3 & H4). rewrite <- Hna. by apply orel_ret, rel_held, rel_mutex_same.
  - by apply mutex_unlock_sim.
  - destruct (bad_cond g c); [by apply orel_ret|]. by apply orel_ret, rel_cond_same.
  - destruct (bad_cond g c); [by apply orel_ret|]. rewrite (unlocked_sim s a c Hr).
    destruct (unlocked c a); cbn [negb]; [|done]. unfold sgx_thread_cond_destroy. cbn [QUEUE_FIRST linked ideal].
    rewrite (rep_first _ _ _ (proj2 (r_cond _ _ Hr c))). by apply orel_ret.
  - by apply cond_wait_sim.
  - by apply signal_sim.
  - by apply broadcast_sim.
Qed.

Lemma lock_sim s a t k m :
  inv threads a -> rel s a -> t <> 0 -> s_pc a t = PLock k m -> orel (run t s) (run t a).
Proof.
  intros Hi Hr Ht Hp. unfold run. rewrite (r_pc _ _ Hr), Hp. unfold mutex_lock_iter. destruct (s_next a) eqn:Hna.
  pose proof (attempt_sim s a m t Hi Hr Ht) as Ha.
  destruct (attempt t (s_next s) (s_mutex s m)) as [[mu r]|], (attempt t tt (s_mutex a m)) as [[am r']|]; try done.
  { destruct Ha as (-> & H1 & H2 & H3 & H4). cbn [mbind option_bind]. rewrite <- Hna.
    by apply orel_ret, rel_held, rel_mutex_same. }
  destruct (r_mutex _ _ Hr m) as (H1 & H2 & H3 & H4). pose proof (i_mutex _ _ Hi m) as Hm.
  pose proof (mi_nodup _ _ _ _ Hm) as Hd. cbn [queue_search linked ideal].
  rewrite (search_chain _ _ _ _ t (proj1 H4) (chain_fuel _ _ _ Hd (proj1 H4)) Ht). cbn [mbind option_bind].
  unfold SGX_THREAD_T_NULL. destruct (bool_decide_reflect (t ∈ m_queue (s_mutex a m))) as [Hq|Hq].
  { destruct (Z.eqb_spec t 0); [done|]. cbn [mbind option_bind]. rewrite <- Hna. by apply rel_pc, rel_mutex_same. }
  cbn [Z.eqb QUEUE_INSERT_TAIL linked ideal]. destruct (insert_tail _ _ t) as [nx q] eqn:Hins.
  pose proof (lock_nowhere a t k m Hi Hp Hq) as Hn.
  destruct (insert_sim s a _ _ t nx q Hi Hr Ht Hn H4 Hd Hq Hins) as (G1 & G2 & G3).
  apply rel_pc, rel_mutex; cbn; try done.
  - intros m' Hm'. apply G2. intros x Hx Hx'. by apply Hm', (mutex_disjoint a m' m x).
  - intros c. apply G3. intros x Hx Hx'. by eapply kinds_disjoint.
Qed.

Lemma run_sim s a t : inv threads a -> rel s a -> orel (run t s) (run t a).
Proof.
  intros Hi Hr. destruct (decide (t ∈ threads)) as [Hin|Hin].
  2:{ destruct (i_idle _ _ Hi t Hin) as [r Hp]. unfold run. by rewrite (r_pc _ _ Hr), Hp. }
  assert (t <> 0) as Ht by (by intros ->).
  destruct (s_pc a t) eqn:Hp; [|by eapply lock_sim|..]; unfold run; rewrite (r_pc _ _ Hr), Hp.
  - done.
  - cbn [se_event_wait]. rewrite (r_event _ _ Hr). by apply rel_pc, rel_event.
  - unfold asleep. rewrite (r_event _ _ Hr). destruct (_ =? _); [done|]. by apply rel_pc.
  - destruct ws as [|w ws]; [by apply orel_ret|]. unfold se_event_wake. rewrite (r_event _ _ Hr).
    by apply rel_pc, rel_event.
  - pose proof (unlock_sim s a m t Hr) as Hu. destruct (sgx_thread_mutex_unlock_lazy t (s_mutex s m)) as [mu [r w]].
    destruct (sgx_thread_mutex_unlock_lazy t (s_mutex a m)) as [am [r' w']].
    destruct Hu as (-> & -> & H1 & H2 & H3 & H4).
    assert (rel (add_held m t (on_success r' (-1)) (set_mutex m (s_next s) mu s))
                (add_held m t (on_success r' (-1)) (set_mutex m (s_next a) am a))) by (by apply rel_held, rel_mutex_same).
    destruct (negb _); [by apply orel_ret, rel_lock|by apply rel_pc].
  - by apply rel_pc, rel_lock.
  - destruct (_ =? SGX_THREAD_T_NULL); unfold se_event_wait, se_event_wake; rewrite (r_event _ _ Hr);
      by apply rel_pc, rel_event.
  - unfold asleep. rewrite (r_event _ _ Hr). destruct (_ =? _); [done|]. by apply rel_pc.
  - rewrite (unlocked_sim s a c Hr). destruct (unlocked c a); cbn [negb]; [|done].
    destruct (r_cond _ _ Hr c) as [_ Hq]. pose proof (ci_nodup _ _ _ (i_cond _ _ Hi c)) as Hd.
    cbn [queue_search linked ideal].
    rewrite (search_chain _ _ _ _ t (proj1 Hq) (chain_fuel _ _ _ Hd (proj1 Hq)) Ht). cbn [mbind option_bind].
    by apply rel_pc, rel_lock.
  - by apply rel_pc, rel_lock.
Qed.

(** One step of the linked machine is the same step of the list machine. *)
Lemma exec_sim s a l sp :
  inv threads a -> rel s a -> client_ok threads sp l a -> orel (exec g l s) (exec g l a).
Proof.
  intros Hi Hr Hc. destruct l as [t o|t|t]; cbn [exec].
  - rewrite (r_pc _ _ Hr). destruct (s_pc a t) eqn:Hp; try done. apply call_sim; eauto.
    destruct Hc as [Ht _]. by intros ->.
  - by apply run_sim.
  - unfold spurious. rewrite (r_pc _ _ Hr). by destruct (s_pc a t); try done; apply rel_pc.
Qed.

Lemma client_sim s a l sp : rel s a -> client_ok threads sp l s <-> client_ok threads sp l a.
Proof.
  intros Hr. destruct l as [t o|t|t]; cbn [client_ok]; [|rewrite (r_pc _ _ Hr); destruct (s_pc a t); try done|done].
  - destruct o; cbn [client_ok]; try done.
    + destruct (r_mutex _ _ Hr m) as (_ & _ & -> & H). cbn. by rewrite (rep_first _ _ _ H).
    + unfold shallow. by destruct (r_mutex _ _ Hr m) as (-> & _).
    + destruct (r_cond _ _ Hr c) as [-> H]. cbn. by rewrite (rep_first _ _ _ H).
    + by destruct (r_mutex _ _ Hr m) as (_ & _ & -> & _).
  - unfold shallow. by destruct (r_mutex _ _ Hr m) as (-> & _).
Qed.

(** The initial state of the list machine for one of the linked machine *)
Definition abstracted (s : cmach) : amach :=
  MkMach tt (fun m => MkMutex 0 (m_control (s_mutex s m)) 0 []) (fun c => MkCond 0 [])
    (s_pc s) (s_event s) (s_held s).

Lemma initial_sim s : initial s -> initial (abstracted s) /\ rel s (abstracted s).
Proof.
  intros (Hm & Hc & Hp & He & Hh). split.
  - split; [by eexists|]. by split.
  - split; try done.
    + intros m. destruct (Hm m) as [ctl H]. cbn. rewrite H. by repeat split.
    + intros c. rewrite Hc. by repeat split.
Qed.

(** Every run of the linked machine is a run of the list machine. *)
Lemma reach_sim sp s0 s : initial s0 -> reach g threads sp s0 s ->
  exists a, reach g threads sp (abstracted s0) a /\ rel s a /\ inv threads a.
Proof.
  intros H0 Hre. destruct (initial_sim s0 H0) as [Ha0 Hr0].
  induction Hre as [|l s s' _ (a & Hra & Hr & Hi) Hc He].
  - exists (abstracted s0). split; [constructor|]. split; [done|]. by apply inv_initial.
  - apply (client_sim s a) in Hc; [|done]. pose proof (exec_sim s a l sp Hi Hr Hc) as Ho. rewrite He in Ho.
    destruct (exec g l a) as [a'|] eqn:Hea; [|done]. exists a'. split; [by eapply reach_step|]. split; [done|].
    by eapply inv_exec.
Qed.
End Sim.
