(* ===== verification/ThreadWake.v ===== *)
(** * Wake-ups are not lost

    With futexes that return only when they are woken, each waiting thread
    that has been released (it is the head of the queue of a free mutex, or
    it has left the queue of its condition variable) has exactly one wake-up
    on its way: in its event, or in the hands of a thread that is about to
    send it.  A thread that has not been released has none. *)

From stdpp Require Import functions gmap.
From S2P Require Import Prelude Bytes Arch Trts Thread ThreadInv.
Import Ideal.

#[local] Open Scope Z_scope.

(** Wake-ups in the event of a thread at [p]; a sleeping thread has already
    taken one. *)
Definition tok (p : pc) (e : Z) : Z :=
  match p with PLockSleep _ _ | PCondSleep _ _ => e + 1 | _ => e end.

(** Wake-ups of [t] that a thread at [p] is about to send *)
Definition wakes (t : Z) (p : pc) : Z :=
  match p with
  | PWake ws => Z.of_nat (count_occ Z.eq_dec ws t)
  | PCondLoop _ _ w | PCondOcall _ _ w => if w =? t then 1 else 0
  | _ => 0
  end.

Definition sum_wakes (t : Z) (pcs : Z -> pc) (l : list Z) : Z := foldr (fun u n => wakes t (pcs u) + n) 0 l.

Definition front (mu : amutex) (t : Z) : Prop := m_owner mu = 0 /\ head (m_queue mu) = Some t.
#[export] Instance front_dec mu t : Decision (front mu t).
Proof. unfold front. apply _. Defined.

#[export] Instance wait_pc_dec m p : Decision (wait_pc m p).
Proof. destruct p; cbn; apply _. Defined.

(** Whether [t], at [p], has been released *)
Definition released (a : amach) (t : Z) (p : pc) : Z :=
  match p with
  | PLockWait _ m | PLockSleep _ m => if decide (front (s_mutex a m) t) then 1 else 0
  | PCondLoop c _ _ | PCondOcall c _ _ | PCondSleep c _ => if decide (t ∈ c_queue (s_cond a c)) then 0 else 1
  | _ => 0
  end.
Definition owed (a : amach) (t : Z) : Z := released a t (s_pc a t).

Record winv1 (threads : list Z) (a : amach) (t : Z) : Prop := {
  w_balance : sum_wakes t (s_pc a) threads + tok (s_pc a t) (s_event a t) = owed a t;
  w_tok : 0 <= tok (s_pc a t) (s_event a t);
  w_check : forall c m, s_pc a t = PCondCheck c m -> t ∉ c_queue (s_cond a c);
  w_lock : forall k m, s_pc a t = PLock k m -> t ∈ m_queue (s_mutex a m) -> front (s_mutex a m) t }.
Definition winv (threads : list Z) (a : amach) : Prop := forall t, t <> 0 -> winv1 threads a t.

Lemma wakes_nonneg t p : 0 <= wakes t p.
Proof. destruct p; cbn; try lia; by destruct (_ =? _). Qed.

Lemma sum_nonneg t pcs l : 0 <= sum_wakes t pcs l.
Proof. induction l as [|u l IH]; cbn; [lia|]. pose proof (wakes_nonneg t (pcs u)). unfold sum_wakes in IH. lia. Qed.

Lemma sum_notin t pcs l u p : u ∉ l -> sum_wakes t (<[u := p]> pcs) l = sum_wakes t pcs l.
Proof.
  induction l as [|x l IH]; cbn; intros Hu; [done|]. apply not_elem_of_cons in Hu as [Hx Hu].
  rewrite fn_lookup_insert_ne by done. unfold sum_wakes in IH. by rewrite IH.
Qed.

Lemma sum_move t pcs l u p : NoDup l -> u ∈ l ->
  sum_wakes t (<[u := p]> pcs) l = sum_wakes t pcs l - wakes t (pcs u) + wakes t p.
Proof.
  induction l as [|x l IH]; intros Hd Hu; [by apply elem_of_nil in Hu|]. apply NoDup_cons in Hd as [Hx Hd].
  change (wakes t (<[u:=p]> pcs x) + sum_wakes t (<[u:=p]> pcs) l =
          wakes t (pcs x) + sum_wakes t pcs l - wakes t (pcs u) + wakes t p).
  apply elem_of_cons in Hu as [->|Hu].
  - rewrite fn_lookup_insert, sum_notin by done. lia.
  - rewrite fn_lookup_insert_ne by (intros ->; done). rewrite IH by done. lia.
Qed.

Lemma sum_member t pcs l : 0 < sum_wakes t pcs l -> exists u, u ∈ l /\ 0 < wakes t (pcs u).
Proof.
  induction l as [|x l IH]; [cbn; lia|]. change (0 < wakes t (pcs x) + sum_wakes t pcs l -> exists u, u ∈ x :: l /\ 0 < wakes t (pcs u)).
  intros H. destruct (decide (0 < wakes t (pcs x))) as [Hx|Hx]; [exists x; split; [left|done]|].
  destruct IH as (u & Hu & ?); [pose proof (wakes_nonneg t (pcs x)); lia|]. exists u. split; [by right|done].
Qed.

Lemma released_range a t p : 0 <= released a t p <= 1.
Proof. destruct p; cbn; try lia; case_decide; lia. Qed.

Section Wake.
Variable g : runtime.
Variable threads : list Z.
Hypothesis Hnull : 0 ∉ threads.
Hypothesis Hdup : NoDup threads.

Abbreviation inv' := (inv threads).
Abbreviation winv' := (winv threads).

(** A step of [t] to [p]: what each thread gains on its way and in its event is
    what it is owed more. *)
Lemma winv_intro a a' t p :
  winv' a -> t ∈ threads -> s_pc a' = <[t := p]> (s_pc a) ->
  (forall u, u <> 0 -> wakes u p - wakes u (s_pc a t)
     + (tok (s_pc a' u) (s_event a' u) - tok (s_pc a u) (s_event a u)) = owed a' u - owed a u
     /\ 0 <= tok (s_pc a' u) (s_event a' u)) ->
  (forall u c m, u <> 0 -> s_pc a' u = PCondCheck c m -> u ∉ c_queue (s_cond a' c)) ->
  (forall u k m, u <> 0 -> s_pc a' u = PLock k m -> u ∈ m_queue (s_mutex a' m) -> front (s_mutex a' m) u) ->
  winv' a'.
Proof.
  intros Hw Ht Hp Hb Hc Hl u Hu. destruct (Hb u Hu) as [Hb1 Hb2]. split; eauto.
  rewrite Hp at 1. rewrite sum_move by done. pose proof (w_balance _ _ _ (Hw u Hu)). lia.
Qed.

Lemma released_same a a' t p :
  (forall m, wait_pc m p -> front (s_mutex a' m) t <-> front (s_mutex a m) t) ->
  (forall c, cond_pc c p -> t ∈ c_queue (s_cond a' c) <-> t ∈ c_queue (s_cond a c)) ->
  released a' t p = released a t p.
Proof.
  intros Hm Hc. destruct p; cbn [released]; try done.
  all: first [pose proof (Hm m eq_refl) | pose proof (Hc c eq_refl)].
  all: repeat case_decide; tauto || done.
Qed.

Lemma tok_other p e e' : tok p e' - tok p e = e' - e.
Proof. destruct p; cbn; lia. Qed.

(** A step that changes no queue and no owner *)
Lemma winv_local a a' t p :
  winv' a -> t ∈ threads -> t <> 0 -> s_pc a' = <[t := p]> (s_pc a) ->
  (forall m, s_mutex a' m = s_mutex a m) -> (forall c, c_queue (s_cond a' c) = c_queue (s_cond a c)) ->
  (forall u, u <> 0 -> u <> t -> wakes u p - wakes u (s_pc a t) + s_event a' u - s_event a u = 0 /\ s_event a u <= s_event a' u) ->
  (wakes t p - wakes t (s_pc a t) + (tok p (s_event a' t) - tok (s_pc a t) (s_event a t))
     = released a t p - released a t (s_pc a t) /\ 0 <= tok p (s_event a' t)) ->
  (forall c m, p = PCondCheck c m -> t ∉ c_queue (s_cond a c)) ->
  (forall k m, p = PLock k m -> t ∈ m_queue (s_mutex a m) -> front (s_mutex a m) t) ->
  winv' a'.
Proof.
  intros Hw Ht Ht0 Hp Hm Hq Ho Hs Hc Hl.
  assert (forall u q, released a' u q = released a u q) as Hrel
    by (intros; apply released_same; intros; by rewrite ?Hm, ?Hq).
  apply (winv_intro a a' t p); try done.
  - intros u Hu. unfold owed. rewrite Hp, Hrel. destruct (decide (u = t)) as [->|Hne].
    + rewrite fn_lookup_insert. done.
    + rewrite fn_lookup_insert_ne by done. rewrite tok_other. destruct (Ho u Hu Hne).
      pose proof (w_tok _ _ _ (Hw u Hu)). pose proof (tok_other (s_pc a u) (s_event a u) (s_event a' u)). lia.
  - intros u c m Hu. rewrite Hp, Hq. destruct (decide (u = t)) as [->|Hne].
    + rewrite fn_lookup_insert. apply Hc.
    + rewrite fn_lookup_insert_ne by done. apply (w_check _ _ _ (Hw u Hu)).
  - intros u k m Hu. rewrite Hp, Hm. destruct (decide (u = t)) as [->|Hne].
    + rewrite fn_lookup_insert. apply Hl.
    + rewrite fn_lookup_insert_ne by done. apply (w_lock _ _ _ (Hw u Hu)).
Qed.

(** A step on the mutex [m]; the events are kept. *)
Lemma winv_mutex a a' t p m mu :
  winv' a -> t ∈ threads -> t <> 0 -> s_pc a' = <[t := p]> (s_pc a) -> s_event a' = s_event a ->
  s_mutex a' = <[m := mu]> (s_mutex a) -> s_cond a' = s_cond a ->
  (forall u, u <> 0 -> u <> t -> wakes u p - wakes u (s_pc a t) =
     if decide (wait_pc m (s_pc a u))
     then (if decide (front mu u) then 1 else 0) - (if decide (front (s_mutex a m) u) then 1 else 0) else 0) ->
  (wakes t p - wakes t (s_pc a t) + (tok p (s_event a t) - tok (s_pc a t) (s_event a t))
     = released a' t p - released a t (s_pc a t) /\ 0 <= tok p (s_event a t)) ->
  (forall c m', p <> PCondCheck c m') -> (forall k m', p <> PLock k m') ->
  (forall u k, u <> 0 -> u <> t -> s_pc a u = PLock k m -> u ∈ m_queue mu ->
     u ∈ m_queue (s_mutex a m) /\ (front (s_mutex a m) u -> front mu u)) ->
  winv' a'.
Proof.
  intros Hw Ht Ht0 Hp He Hm Hcd Ho Hs Hc Hl Hlock.
  assert (forall u, u <> 0 -> u <> t -> wakes u p - wakes u (s_pc a t) = owed a' u - owed a u) as Hoth.
  { intros u Hu Hne. rewrite (Ho u Hu Hne). unfold owed. rewrite Hp, fn_lookup_insert_ne by done.
    case_decide as Hwp.
    - destruct (s_pc a u); cbn in Hwp; try done; subst; cbn [released]; by rewrite Hm, fn_lookup_insert.
    - rewrite (released_same a a'); [lia| |by rewrite Hcd].
      intros m' Hm'. rewrite Hm, fn_lookup_insert_ne; [done|]. by intros ->. }
  apply (winv_intro a a' t p); try done.
  - intros u Hu. destruct (decide (u = t)) as [->|Hne].
    + unfold owed. by rewrite Hp, He, fn_lookup_insert.
    + rewrite <- (Hoth u Hu Hne), Hp, He, fn_lookup_insert_ne by done. pose proof (w_tok _ _ _ (Hw u Hu)). lia.
  - intros u c m' Hu. rewrite Hp, Hcd. destruct (decide (u = t)) as [->|Hne].
    + rewrite fn_lookup_insert. intros ->. by destruct (Hc c m').
    + rewrite fn_lookup_insert_ne by done. apply (w_check _ _ _ (Hw u Hu)).
  - intros u k m' Hu. rewrite Hp, Hm. destruct (decide (u = t)) as [->|Hne].
    + rewrite fn_lookup_insert. intros ->. by destruct (Hl k m').
    + rewrite fn_lookup_insert_ne by done. pose proof (w_lock _ _ _ (Hw u Hu) k m') as Hu'. fn_split.
      intros Hpu Hin. destruct (Hlock u k Hu Hne Hpu Hin). auto.
Qed.

(** ** The operations on a mutex *)
Lemma wait_in_queue a m u : inv' a -> wait_pc m (s_pc a u) -> u ∈ m_queue (s_mutex a m).
Proof. intros Hi. apply (mi_wait _ _ _ _ (i_mutex _ _ Hi m)). Qed.

Lemma queue_nodup a m : inv' a -> NoDup (m_queue (s_mutex a m)).
Proof. intros Hi. apply (mi_nodup _ _ _ _ (i_mutex _ _ Hi m)). Qed.

(** After an acquisition nobody is released, and nobody was but the caller. *)
Lemma attempt_front a t m mu r :
  inv' a -> t <> 0 -> attempt t tt (s_mutex a m) = Some (mu, r) ->
  mu = s_mutex a m \/
  (forall u, u ∈ m_queue (s_mutex a m) -> u <> t -> ~ front (s_mutex a m) u) /\ (forall u, ~ front mu u) /\
  (forall u, u ∈ m_queue mu -> u ∈ m_queue (s_mutex a m)).
Proof.
  intros Hi Ht Ha. pose proof (i_mutex _ _ Hi m) as Hm. unfold attempt in Ha.
  destruct (bad_control _); simplify_eq; [by left|]. right.
  destruct (_ && _) eqn:Hc in Ha; simplify_eq; zbool.
  { split; [|split]; [|intros u [G _]; cbn in G; congruence|done]. intros u _ _ [G _]. congruence. }
  destruct (_ && _) eqn:Hd in Ha; simplify_eq; zbool. cbn [QUEUE_FIRST QUEUE_REMOVE_HEAD ideal] in *.
  unfold SGX_THREAD_T_NULL in *.
  destruct (acquire_queue (m_queue (s_mutex a m)) t) as (Hq & Hnq & Hsub & Hsup); try done.
  { by intros u []%(mi_queue _ _ _ _ Hm). }
  { by apply mi_nodup in Hm. }
  rewrite Hq. split; [|split]; [|intros u [G _]; cbn in G; congruence|done].
  intros u Hu Hne [_ Hh]. assert (u <> 0) by (by apply (mi_queue _ _ _ _ Hm) in Hu as []).
  match goal with E : (_ || _)%bool = true |- _ => rewrite Hh in E; apply orb_true_iff in E as [?%Z.eqb_eq|?%Z.eqb_eq] end; done.
Qed.

Lemma winv_acquire a t m mu r k d r' :
  inv' a -> winv' a -> t ∈ threads -> t <> 0 -> (s_pc a t = PLock k m \/ s_pc a t = PIdle r') ->
  attempt t tt (s_mutex a m) = Some (mu, r) -> forall v,
  winv' (set_pc t (PIdle v) (add_held m t d (set_mutex m tt mu a))).
Proof.
  intros Hi Hw Ht Ht0 Hpc Ha v. pose proof (attempt_front a t m mu r Hi Ht0 Ha) as Hf.
  apply (winv_mutex a _ t (PIdle v) m mu); try done.
  - intros u Hu Hne. replace (wakes u (s_pc a t)) with 0 by (by destruct Hpc as [->| ->]). cbn [wakes].
    case_decide as Hwp; [|done]. destruct Hf as [->|(H1 & H2 & _)]; [lia|].
    rewrite (decide_False (P := front mu u)) by auto.
    rewrite decide_False; [done|]. apply H1; [by apply wait_in_queue|done].
  - pose proof (w_tok _ _ _ (Hw t Ht0)) as Hk. destruct Hpc as [Hpc|Hpc]; rewrite Hpc in *; cbn in *; lia.
  - intros u k' Hu Hne Hp Hin. destruct Hf as [->|(H1 & H2 & H3)]; [done|]. split; [auto|].
    intros Hfr. exfalso. by apply (H1 u); auto.
Qed.

Lemma front_snoc mu mu' t u :
  m_owner mu' = m_owner mu -> m_queue mu' = m_queue mu ++ [t] -> m_queue mu <> [] -> front mu' u <-> front mu u.
Proof. intros Ho Hq Hn. unfold front. rewrite Ho, Hq. by destruct (m_queue mu). Qed.

(** A thread that starts to wait has not been released. *)
Lemma winv_wait a t k m mu :
  inv' a -> winv' a -> t ∈ threads -> t <> 0 -> s_pc a t = PLock k m -> attempt t tt (s_mutex a m) = None ->
  mutex_lock_iter t tt (s_mutex a m) = Some (tt, mu, Waits) ->
  winv' (set_pc t (PLockWait k m) (set_mutex m tt mu a)).
Proof.
  intros Hi Hw Ht Ht0 Hp Ha Hl.
  destruct (wait_minv _ _ _ _ _ _ _ _ (i_mutex _ _ Hi m) Ht0 Hp Hl Ha) as (_ & Ho & _ & _ & Hq & _).
  assert (~ front (s_mutex a m) t) as Hnf.
  { intros [H1 H2]. unfold attempt in Ha. cbn [QUEUE_FIRST ideal] in Ha. rewrite H1, H2 in Ha. cbn in Ha.
    rewrite Z.eqb_refl in Ha. destruct (bad_control _); [done|]. by destruct (_ && _). }
  assert (t ∉ m_queue (s_mutex a m)) as Hn by (intros Hin; by apply Hnf, (w_lock _ _ _ (Hw t Ht0) k m)).
  rewrite bool_decide_false in Hq by done.
  assert (forall u, u ∈ m_queue (s_mutex a m) -> front mu u <-> front (s_mutex a m) u) as Hf.
  { intros u Hu. apply (front_snoc _ _ t); try done. intros He. rewrite He in Hu. by apply elem_of_nil in Hu. }
  assert (~ front mu t) as Hnf'.
  { intros [H1 H2]. rewrite Hq in H2. destruct (m_queue (s_mutex a m)) as [|x l] eqn:Hqe.
    - unfold attempt in Ha. cbn [QUEUE_FIRST ideal] in Ha. rewrite Hqe, <- Ho, H1 in Ha. cbn in Ha.
      rewrite orb_true_r in Ha. destruct (bad_control _); [done|]. by destruct (_ && _).
    - cbn in H2. simplify_eq. apply Hn. left. }
  apply (winv_mutex a _ t (PLockWait k m) m mu); try done.
  - intros u Hu Hne. rewrite Hp. cbn [wakes]. case_decide as Hwp; [|done].
    pose proof (Hf u (wait_in_queue a m u Hi Hwp)). repeat case_decide; tauto || lia.
  - pose proof (w_tok _ _ _ (Hw t Ht0)) as Hk. rewrite Hp in *. cbn [tok wakes released set_pc set_mutex s_mutex] in *.
    rewrite fn_lookup_insert, decide_False by done. lia.
  - intros u k' Hu Hne _ Hin. rewrite Hq in Hin. apply elem_of_app in Hin as [Hin|Hin].
    + split; [done|]. by apply Hf.
    + by apply list_elem_of_singleton in Hin.
Qed.

(** An unlock that frees the mutex releases the head of its queue, and the
    caller is about to wake it. *)
Lemma unlock_front a t m mu r w :
  inv' a -> winv' a -> t <> 0 -> ~ lock_pc m (s_pc a t) ->
  sgx_thread_mutex_unlock_lazy t (s_mutex a m) = (mu, (r, w)) ->
  m_queue mu = m_queue (s_mutex a m) /\
  (mu = s_mutex a m /\ w = 0 \/
   (forall u, ~ front (s_mutex a m) u) /\ (forall u, u <> 0 -> front mu u <-> w = u) /\
   (w <> 0 -> wait_pc m (s_pc a w) /\ w <> t)).
Proof.
  intros Hi Hw Ht Hlp Hu. pose proof (i_mutex _ _ Hi m) as Hm. unfold sgx_thread_mutex_unlock_lazy, SGX_THREAD_T_NULL in Hu.
  destruct (bad_control _); simplify_eq; [by split; [|left]|].
  destruct (Z.eqb_spec (m_owner (s_mutex a m)) 0) as [|Hno]; simplify_eq; [by split; [|left]|].
  destruct (Z.eqb_spec (m_owner (s_mutex a m)) t) as [Ho|]; cbn [negb] in Hu; simplify_eq; [|by split; [|left]].
  destruct (_ =? 0); simplify_eq; (split; [done|right]); (split; [by intros u []|]).
  - cbn [QUEUE_FIRST ideal]. split.
    + intros u Hu0. unfold front. cbn. destruct (m_queue (s_mutex a m)) as [|x l]; cbn; [by split; [intros [_ ?] | intros <-]|].
      split; [by intros [_ [= ->]]|by intros ->].
    + destruct (m_queue (s_mutex a m)) as [|x l] eqn:Hq; cbn; [done|]. intros Hx.
      assert (x ∈ m_queue (s_mutex a m)) as Hin by (rewrite Hq; left).
      destruct (mi_queue _ _ _ _ Hm x Hin) as [_ Hlx].
      destruct (s_pc a x) eqn:Hpx; cbn in Hlx; try done; subst.
      * destruct (w_lock _ _ _ (Hw x Hx) _ _ Hpx Hin). congruence.
      * split; [done|]. intros He. apply Hlp. by rewrite <- He, Hpx.
      * split; [done|]. intros He. apply Hlp. by rewrite <- He, Hpx.
  - split; [|done]. intros u Hu0. unfold front. cbn. split; [by intros []|by intros <-].
Qed.

Lemma winv_unlock a t m mu r w d p :
  inv' a -> winv' a -> t ∈ threads -> t <> 0 -> ~ lock_pc m (s_pc a t) ->
  sgx_thread_mutex_unlock_lazy t (s_mutex a m) = (mu, (r, w)) ->
  (forall u, u <> 0 -> wakes u p = if decide (w = u) then 1 else 0) ->
  (forall u, wakes u (s_pc a t) = 0) -> tok (s_pc a t) (s_event a t) = s_event a t -> tok p (s_event a t) = s_event a t ->
  released a t p = released a t (s_pc a t) -> ~ wait_pc m p ->
  (forall c m', p <> PCondCheck c m') -> (forall k m', p <> PLock k m') ->
  winv' (set_pc t p (add_held m t d (set_mutex m (s_next a) mu a))).
Proof.
  intros Hi Hw Ht Ht0 Hlp Hu Hwp Hw0 Hk1 Hk2 Hrel Hwm Hc Hl.
  destruct (unlock_front a t m mu r w Hi Hw Ht0 Hlp Hu) as [Hq Hf].
  apply (winv_mutex a _ t p m mu); try done.
  - intros u Hu0 Hne. rewrite Hw0, (Hwp u Hu0). destruct Hf as [[-> ->]|(H1 & H2 & H3)].
    + rewrite decide_False by done. case_decide; lia.
    + rewrite (decide_False (P := front (s_mutex a m) u)) by auto.
      destruct (decide (wait_pc m (s_pc a u))) as [Hwpu|Hwpu].
      * rewrite (decide_ext (front mu u) (w = u)) by auto. lia.
      * rewrite decide_False; [done|]. intros ->. by destruct (H3 Hu0).
  - pose proof (w_tok _ _ _ (Hw t Ht0)) as Hk. rewrite Hk1 in Hk. rewrite Hw0, (Hwp t Ht0), Hk1, Hk2.
    rewrite (released_same a), Hrel; [|intros m' Hm'; cbn; rewrite fn_lookup_insert_ne; [done|by intros ->]|done].
    rewrite decide_False; [lia|]. intros ->. destruct Hf as [[_ ->]|(_ & _ & H3)]; [done|]. by destruct (H3 Ht0).
  - intros u k Hu0 Hne Hpu. rewrite Hq. intros Hin. split; [done|]. intros Hfr.
    destruct Hf as [[-> _]|(H1 & _)]; [done|]. by destruct (H1 u).
Qed.

(** ** The operations on a condition variable *)
Lemma winv_cond a a' t p r c co :
  winv' a -> t ∈ threads -> t <> 0 -> s_pc a t = PIdle r -> s_pc a' = <[t := p]> (s_pc a) -> s_event a' = s_event a ->
  s_mutex a' = s_mutex a -> s_cond a' = <[c := co]> (s_cond a) ->
  tok p (s_event a t) = s_event a t -> wakes t p = 0 -> released a' t p = 0 ->
  (forall u, u <> 0 -> u <> t -> wakes u p = released a' u (s_pc a u) - released a u (s_pc a u)) ->
  (forall k m, p <> PLock k m) -> (forall c m, p <> PCondCheck c m) ->
  (forall u, u <> 0 -> u <> t -> u ∈ c_queue co -> u ∈ c_queue (s_cond a c)) ->
  winv' a'.
Proof.
  intros Hw Ht Ht0 Hp Hp' He Hm Hc Hk Hwt Hrt Ho Hl Hck Hsub. apply (winv_intro a a' t p); try done.
  - intros u Hu. pose proof (w_tok _ _ _ (Hw u Hu)) as Hu'. unfold owed. rewrite Hp', He.
    destruct (decide (u = t)) as [->|Hne].
    + rewrite fn_lookup_insert, Hk, Hwt, Hrt, Hp in *. cbn in *. lia.
    + rewrite fn_lookup_insert_ne, Ho, Hp by done. cbn. lia.
  - intros u c' m Hu. rewrite Hp', Hc. destruct (decide (u = t)) as [->|Hne].
    + rewrite fn_lookup_insert. intros ->. by destruct (Hck c' m).
    + rewrite fn_lookup_insert_ne by done. intros Hpu. pose proof (w_check _ _ _ (Hw u Hu) c' m Hpu). fn_split. auto.
  - intros u k m Hu. rewrite Hp', Hm. destruct (decide (u = t)) as [->|Hne].
    + rewrite fn_lookup_insert. intros ->. by destruct (Hl k m).
    + rewrite fn_lookup_insert_ne by done. apply (w_lock _ _ _ (Hw u Hu)).
Qed.

Lemma winv_insert a t c m r nx :
  winv' a -> t ∈ threads -> t <> 0 -> s_pc a t = PIdle r ->
  winv' (set_pc t (PCondUnlock c m) (set_cond c nx (MkCond t (c_queue (s_cond a c) ++ [t])) a)).
Proof.
  intros Hw Ht Ht0 Hp. eapply (winv_cond a _ t _ r c); try done.
  - intros u Hu Hne. cbn [wakes]. rewrite (released_same a); [lia|done|]. intros c' _. cbn. fn_split. cbn.
    rewrite elem_of_app, list_elem_of_singleton. tauto.
  - cbn. intros u Hu Hne. rewrite elem_of_app, list_elem_of_singleton. tauto.
Qed.

(** Threads in the queue of a condition variable whose lock is free *)
Lemma queued_waiting a c u :
  inv' a -> winv' a -> c_lock (s_cond a c) = 0 -> u ∈ c_queue (s_cond a c) ->
  u <> 0 /\ exists m w, s_pc a u = PCondOcall c m w \/ s_pc a u = PCondSleep c m.
Proof.
  intros Hi Hw Hl Hu. pose proof (i_cond _ _ Hi c) as Hc. destruct (ci_queue _ _ _ Hc u Hu) as [Hu0 Hp].
  split; [done|]. pose proof (ci_lock _ _ _ Hc u Hu0) as Hlk.
  assert (~ hold_pc c (s_pc a u)) as Hnh by (intros H; apply Hlk in H; congruence).
  destruct (s_pc a u) eqn:Hpu; cbn in Hp, Hnh; try done; subst.
  - eauto.
  - exists m, 0. by right.
  - by destruct (w_check _ _ _ (Hw u Hu0) _ _ Hpu).
Qed.

Lemma winv_signal a t c ws q r :
  inv' a -> winv' a -> t ∈ threads -> t <> 0 -> s_pc a t = PIdle r -> c_lock (s_cond a c) = 0 ->
  c_queue (s_cond a c) = ws ++ q ->
  winv' (set_pc t (PWake ws) (set_cond c (s_next a) (MkCond (c_lock (s_cond a c)) q) a)).
Proof.
  intros Hi Hw Ht Ht0 Hp Hl Hq. pose proof (ci_nodup _ _ _ (i_cond _ _ Hi c)) as Hd. rewrite Hq in Hd.
  apply NoDup_app in Hd as (Hd1 & Hd2 & Hd3).
  assert (t ∉ ws) as Htw.
  { intros Hin. destruct (queued_waiting a c t) as (_ & m & w & [H|H]); try done; [|congruence..].
    rewrite Hq. apply elem_of_app. by left. }
  eapply (winv_cond a _ t _ r c); try done.
  - cbn [wakes]. rewrite (proj1 (count_occ_not_In _ _ _)); [done|]. by rewrite <- list_elem_of_In.
  - intros u Hu Hne. cbn [wakes]. destruct (decide (u ∈ ws)) as [Hin|Hin].
    + rewrite (proj1 (NoDup_count_occ' Z.eq_dec ws)); [|by apply NoDup_ListNoDup|by apply list_elem_of_In].
      assert (u ∈ c_queue (s_cond a c)) as Huq by (rewrite Hq; apply elem_of_app; by left).
      destruct (queued_waiting a c u) as (_ & m & w & Hpu); try done.
      assert (released a u (s_pc a u) = 0) as -> by (by destruct Hpu as [-> | ->]; cbn; rewrite decide_True).
      destruct Hpu as [-> | ->]; cbn; rewrite fn_lookup_insert; cbn; rewrite decide_False by auto; done.
    + rewrite (proj1 (count_occ_not_In _ _ _)) by (by rewrite <- list_elem_of_In).
      rewrite (released_same a); [lia|done|]. intros c' _. cbn. fn_split. cbn. rewrite Hq, elem_of_app. tauto.
  - cbn. intros u Hu Hne Hin. rewrite Hq. apply elem_of_app. by right.
Qed.

(** ** The invariant over the steps *)
Lemma i32_small x : -2 ^ 31 <= x < 2 ^ 31 -> i32 x = x.
Proof. intros. unfold i32. rewrite u32_id; [lia|]. unfold is_u32. lia. Qed.

(** A call that returns at once and changes no queue and no owner *)
Lemma winv_ret a a' t r r' :
  winv' a -> t ∈ threads -> t <> 0 -> s_pc a t = PIdle r -> s_pc a' = <[t := PIdle r']> (s_pc a) ->
  s_event a' = s_event a -> (forall m, s_mutex a' m = s_mutex a m) ->
  (forall c, c_queue (s_cond a' c) = c_queue (s_cond a c)) -> winv' a'.
Proof.
  intros Hw Ht Ht0 Hp Hp' He Hm Hc. apply (winv_local a a' t (PIdle r')); try done; rewrite Hp, He.
  - intros. cbn. lia.
  - pose proof (w_tok _ _ _ (Hw t Ht0)) as H. rewrite Hp in H. cbn in *. lia.
Qed.

(** init and destroy of a mutex that is not in use *)
Lemma winv_reset a t r r' m ctl :
  inv' a -> winv' a -> t ∈ threads -> t <> 0 -> s_pc a t = PIdle r -> m_queue (s_mutex a m) = [] ->
  winv' (set_pc t (PIdle r') (set_mutex m (s_next a) (MkMutex 0 ctl 0 []) a)).
Proof.
  intros Hi Hw Ht Ht0 Hp Hq. eapply (winv_mutex a _ t (PIdle r') m); try done.
  - intros u Hu Hne. rewrite Hp. cbn [wakes]. case_decide as Hwp; [|done].
    apply wait_in_queue in Hwp; [|done]. rewrite Hq in Hwp. by apply elem_of_nil in Hwp.
  - pose proof (w_tok _ _ _ (Hw t Ht0)) as H. rewrite Hp in *. cbn in *. lia.
  - cbn. by intros u k Hu Hne Hpu ?%elem_of_nil.
Qed.

Lemma winv_unlock_call a t m a' r :
  inv' a -> winv' a -> t ∈ threads -> t <> 0 -> s_pc a t = PIdle r -> sgx_thread_mutex_unlock g t m a = Some a' -> winv' a'.
Proof.
  intros Hi Hw Ht Ht0 Hp Hc. unfold sgx_thread_mutex_unlock, ret in Hc.
  destruct (bad_mutex g m); [simplify_eq; by apply (winv_ret a _ t r EINVAL)|].
  destruct (sgx_thread_mutex_unlock_lazy t (s_mutex a m)) as [mu [r' w]] eqn:Hu.
  assert (forall p, (forall u, u <> 0 -> wakes u p = if decide (w = u) then 1 else 0) -> tok p (s_event a t) = s_event a t ->
    released a t p = 0 -> ~ wait_pc m p -> (forall c m', p <> PCondCheck c m') -> (forall k m', p <> PLock k m') ->
    winv' (set_pc t p (add_held m t (on_success r' (-1)) (set_mutex m (s_next a) mu a)))) as Hgo.
  { intros p H1 H2 H3 H4 H5 H6. eapply winv_unlock; try done; rewrite ?Hp; try done. by intros []. }
  destruct (negb (r' =? 0)) eqn:Hr'.
  { simplify_eq. apply Hgo; try done; try (by intros []). intros u Hu0. rewrite decide_False; [done|]. intros ->.
    unfold sgx_thread_mutex_unlock_lazy in Hu. repeat case_match; by simplify_eq. }
  destruct (Z.eqb_spec w SGX_THREAD_T_NULL) as [->|Hw0]; cbn [negb] in Hc; simplify_eq; apply Hgo; try done; try (by intros []).
  intros u Hu0. cbn. destruct (Z.eq_dec w u) as [->|]; [by rewrite decide_True|by rewrite decide_False].
Qed.

Lemma winv_call a t o a' :
  inv' a -> winv' a -> client_ok threads false (LCall t o) a -> (exists r, s_pc a t = PIdle r) ->
  call g t o a = Some a' -> winv' a'.
Proof.
  intros Hi Hw [Ht Ho] [r Hp] Hc. assert (t <> 0) as Ht0 by (by intros ->).
  assert (forall m, QUEUE_FIRST (m_queue (s_mutex a m)) = 0 -> m_queue (s_mutex a m) = []) as Hnil.
  { intros m Hf. apply first_null; [|done]. by intros u []%(mi_queue _ _ _ _ (i_mutex _ _ Hi m)). }
  assert (forall m u, <[m := s_mutex a m]> (s_mutex a) u = s_mutex a u) as Hid by (intros; by fn_split).
  destruct o; cbn [call] in Hc; unfold ret in Hc.
  all: try (destruct (bad_mutex g m); [simplify_eq; by apply (winv_ret a _ t r EINVAL)|]).
  all: try (destruct (bad_cond g c); [simplify_eq; by apply (winv_ret a _ t r EINVAL)|]).
  - simplify_eq. eapply winv_reset; eauto. apply Hnil, Ho.
  - unfold sgx_thread_mutex_destroy, SGX_THREAD_T_NULL in Hc.
    destruct (Z.eqb_spec (m_owner (s_mutex a m)) 0) as [Ho'|]; cbn [negb orb] in Hc; simplify_eq.
    2:{ apply (winv_ret a _ t r EBUSY); try done. apply Hid. }
    destruct (Z.eqb_spec (QUEUE_FIRST (m_queue (s_mutex a m))) 0) as [Hf|]; cbn [negb] in Hc; simplify_eq.
    2:{ apply (winv_ret a _ t r EBUSY); try done. apply Hid. }
    rewrite (Hnil m Hf), Ho'. eapply winv_reset; eauto.
  - simplify_eq. apply (winv_local a _ t (PLock false m)); try done; rewrite ?Hp; cbn.
    + intros. lia.
    + pose proof (w_tok _ _ _ (Hw t Ht0)) as H. rewrite Hp in H. cbn in H. lia.
    + intros k m' _ Hin%(mi_queue _ _ _ _ (i_mutex _ _ Hi m')). rewrite Hp in Hin. by destruct Hin.
  - unfold sgx_thread_mutex_trylock in Hc. destruct (s_next a) eqn:Hna.
    destruct (attempt t tt (s_mutex a m)) as [[mu r']|] eqn:Ha; simplify_eq.
    + eapply (winv_acquire a t m mu r' false); eauto.
    + apply (winv_ret a _ t r EBUSY); try done. apply Hid.
  - eapply winv_unlock_call; eauto.
  - destruct Ho as [Hl Hf]. simplify_eq. apply (winv_ret a _ t r 0); try done. intros c'. cbn. fn_split. cbn.
    symmetry. apply first_null; [|done]. by intros u []%(ci_queue _ _ _ (i_cond _ _ Hi c')).
  - destruct (negb _); simplify_eq. by eapply (winv_ret a _ t r).
  - unfold sgx_thread_cond_wait, ret in Hc. destruct (_ || _); [injection Hc as <-; by apply (winv_ret a _ t r EINVAL)|].
    destruct (unlocked c a); cbn [negb] in Hc; [|done]. cbn in Hc. injection Hc as <-. by eapply winv_insert.
  - unfold sgx_thread_cond_signal, ret in Hc. destruct (bad_cond g c); [simplify_eq; by apply (winv_ret a _ t r EINVAL)|].
    destruct (unlocked c a) eqn:Hun; cbn [negb] in Hc; [|done]. unfold unlocked in Hun. apply Z.eqb_eq in Hun.
    destruct (c_queue (s_cond a c)) as [|w q] eqn:Hq; cbn in Hc; simplify_eq; [by eapply (winv_ret a _ t r)|].
    destruct (w =? SGX_THREAD_T_NULL); simplify_eq; [by eapply (winv_ret a _ t r)|]. by eapply winv_signal; eauto.
  - unfold sgx_thread_cond_broadcast, ret in Hc. destruct (bad_cond g c); [simplify_eq; by apply (winv_ret a _ t r EINVAL)|].
    destruct (unlocked c a) eqn:Hun; cbn [negb] in Hc; [|done]. unfold unlocked in Hun. apply Z.eqb_eq in Hun.
    cbn in Hc. destruct (_ =? 0); simplify_eq; [by eapply (winv_ret a _ t r)|].
    destruct malloc; cbn in Hc; simplify_eq; [|by eapply (winv_ret a _ t r)].
    eapply winv_signal; eauto. by rewrite app_nil_r.
Qed.

(** The event of a thread, when a wake-up of it is on its way *)
Lemma event_small a u : winv' a -> u <> 0 -> -1 <= s_event a u <= 1.
Proof.
  intros Hw Hu. destruct (Hw u Hu) as [Hb Hk _ _]. pose proof (sum_nonneg u (s_pc a) threads).
  pose proof (released_range a u (s_pc a u)). unfold owed in Hb. destruct (s_pc a u); cbn in *; lia.
Qed.

Lemma winv_wake a t w p :
  winv' a -> t ∈ threads -> t <> 0 ->
  (forall u, u <> 0 -> wakes u p = wakes u (s_pc a t) - if decide (w = u) then 1 else 0) ->
  (forall e, tok p e = e /\ tok (s_pc a t) e = e) -> released a t p = released a t (s_pc a t) ->
  (forall c m, p <> PCondCheck c m) -> (forall k m, p <> PLock k m) ->
  winv' (set_pc t p (se_event_wake w a)).
Proof.
  intros Hw Ht Ht0 Hwk Hk Hrel Hc Hl.
  assert (forall u, u <> 0 -> s_event (se_event_wake w a) u = s_event a u + if decide (w = u) then 1 else 0) as Hev.
  { intros u Hu. unfold se_event_wake. cbn. pose proof (event_small a u Hw Hu).
    fn_split; [rewrite i32_small|]; lia. }
  apply (winv_local a _ t p); try done; [|split; [|rewrite (proj1 (Hk _))]|by intros c m ?%Hc|by intros k m ?%Hl].
  - intros u Hu Hne. change (s_event (set_pc t p (se_event_wake w a)) u) with (s_event (se_event_wake w a) u).
    rewrite (Hwk u Hu), (Hev u Hu). case_decide; lia.
  - change (s_event (set_pc t p (se_event_wake w a)) t) with (s_event (se_event_wake w a) t).
    rewrite (proj1 (Hk _)), (proj2 (Hk _)), (Hwk t Ht0), (Hev t Ht0). lia.
  - change (s_event (set_pc t p (se_event_wake w a)) t) with (s_event (se_event_wake w a) t).
    rewrite (Hev t Ht0). pose proof (w_tok _ _ _ (Hw t Ht0)) as H. rewrite (proj2 (Hk _)) in H. case_decide; lia.
Qed.

(** A thread calls se_event_wait: it sleeps, or it takes its wake-up. *)
Lemma winv_take a t p ps pg :
  winv' a -> t ∈ threads -> t <> 0 -> s_pc a t = p -> tok p (s_event a t) = s_event a t ->
  (forall e, tok ps e = e + 1) -> (forall e, tok pg e = e) -> (forall u, u <> 0 -> wakes u ps = 0) ->
  (forall u, u <> 0 -> wakes u p = 0) -> (forall u, wakes u pg = 0) ->
  released a t ps = released a t p -> released a t pg = 0 ->
  (forall c m, ps <> PCondCheck c m) -> (forall k m, ps <> PLock k m) ->
  (forall c m, pg = PCondCheck c m -> released a t p = 1 -> t ∉ c_queue (s_cond a c)) ->
  (forall k m, pg = PLock k m -> released a t p = 1 -> front (s_mutex a m) t) ->
  let '(a', sleeps) := se_event_wait t a in winv' (set_pc t (if sleeps then ps else pg) a').
Proof.
  intros Hw Ht Ht0 Hp Hkp Hks Hkg Hws Hwp Hwg Hrs Hrg Hs1 Hs2 Hg1 Hg2. cbn. pose proof (event_small a t Hw Ht0).
  destruct (Hw t Ht0) as [Hb Hk _ _]. rewrite Hp in Hb, Hk. unfold owed in Hb. rewrite Hp in Hb. rewrite Hkp in *.
  pose proof (sum_nonneg t (s_pc a) threads). pose proof (released_range a t p).
  rewrite i32_small by lia.
  assert (forall q, (forall u, u <> 0 -> wakes u q = 0) ->
    forall u, u <> 0 -> u <> t -> wakes u q - wakes u (s_pc a t)
      + s_event (set_pc t q (set_event t (s_event a t - 1) a)) u - s_event a u = 0 /\
      s_event a u <= s_event (set_pc t q (set_event t (s_event a t - 1) a)) u) as Hoth.
  { intros q Hq u Hu Hne. cbn. rewrite fn_lookup_insert_ne by done. rewrite Hp, Hq, Hwp by done. lia. }
  destruct (Z.eqb_spec (s_event a t) 0) as [He|He].
  - apply (winv_local a _ t ps); try done; [by apply Hoth| |by intros c m ?%Hs1|by intros k m ?%Hs2].
    cbn. rewrite fn_lookup_insert, Hks, Hp, Hws, (Hwp t Ht0), Hrs, Hkp by done. lia.
  - assert (released a t p = 1) as Hr1 by lia.
    apply (winv_local a _ t pg); try done; [by apply Hoth| |intros c m Hc; by apply (Hg1 c m)|intros k m Hc _; by apply (Hg2 k m)].
    cbn. rewrite fn_lookup_insert, Hkg, Hp, Hwg, (Hwp t Ht0), Hrg, Hkp. lia.
Qed.

(** A sleeping thread is woken. *)
Lemma winv_awake a t p pg :
  winv' a -> t ∈ threads -> t <> 0 -> s_pc a t = p -> (forall e, tok p e = e + 1) -> asleep t a = false ->
  (forall e, tok pg e = e) -> (forall u, wakes u p = 0) -> (forall u, wakes u pg = 0) -> released a t pg = 0 ->
  (forall c m, pg = PCondCheck c m -> released a t p = 1 -> t ∉ c_queue (s_cond a c)) ->
  (forall k m, pg = PLock k m -> released a t p = 1 -> front (s_mutex a m) t) ->
  winv' (set_pc t pg a).
Proof.
  intros Hw Ht Ht0 Hp Hkp Has Hkg Hwp Hwg Hrg Hg1 Hg2. unfold asleep in Has. apply Z.eqb_neq in Has.
  destruct (Hw t Ht0) as [Hb Hk _ _]. unfold owed in Hb. rewrite Hp, Hkp in *.
  pose proof (sum_nonneg t (s_pc a) threads). pose proof (released_range a t p).
  assert (released a t p = 1) as Hr1 by lia.
  apply (winv_local a _ t pg); try done; [| |intros c m Hc; by apply (Hg1 c m)|intros k m Hc _; by apply (Hg2 k m)]; cbn.
  - intros u Hu Hne. rewrite Hp, Hwp, Hwg. lia.
  - rewrite Hp, Hwp, Hwg, Hkp, Hkg, Hrg. lia.
Qed.

(** A step that changes the program counter only *)
Lemma winv_pc a a' t p :
  winv' a -> t ∈ threads -> t <> 0 -> s_pc a' = <[t := p]> (s_pc a) -> s_event a' = s_event a ->
  (forall m, s_mutex a' m = s_mutex a m) -> (forall c, c_queue (s_cond a' c) = c_queue (s_cond a c)) ->
  (forall u, u <> 0 -> wakes u p = wakes u (s_pc a t)) -> (forall e, tok p e = tok (s_pc a t) e) ->
  released a t p = released a t (s_pc a t) -> (forall c m, p <> PCondCheck c m) ->
  (forall k m, p = PLock k m -> t ∉ m_queue (s_mutex a m)) -> winv' a'.
Proof.
  intros Hw Ht Ht0 Hp He Hm Hq Hwk Hk Hr Hc Hl. apply (winv_local a a' t p); try done; rewrite ?He.
  - intros u Hu _. rewrite Hwk by done. lia.
  - rewrite Hwk, Hk, Hr by done. pose proof (w_tok _ _ _ (Hw t Ht0)). lia.
  - by intros c m ?%Hc.
  - by intros k m ?%Hl.
Qed.

Lemma winv_run a t a' : inv' a -> winv' a -> run t a = Some a' -> winv' a'.
Proof.
  intros Hi Hw Hr. assert (t ∈ threads /\ t <> 0) as [Ht Ht0].
  { apply (inv_thread threads Hnull a); [done|]. intros [r Hp]. unfold run in Hr. by rewrite Hp in Hr. }
  destruct (s_pc a t) eqn:Hp.
  - unfold run in Hr. by rewrite Hp in Hr.
  - destruct (lock_iter_cases threads Hnull a t k m a') as [(mu & r & Ha & ->)|(mu & Ha & Hl & ->)]; try done.
    + eapply (winv_acquire a t m mu r k _ 0); eauto.
    + by apply winv_wait.
  - unfold run in Hr. rewrite Hp in Hr.
    pose proof (winv_take a t _ (PLockSleep k m) (PLock k m) Hw Ht Ht0 Hp) as H. destruct (se_event_wait t a).
    simplify_eq. apply H; try done. cbn. intros k' m' [= <- <-]. by case_decide.
  - unfold run in Hr. rewrite Hp in Hr. destruct (asleep t a) eqn:Has; simplify_eq.
    apply (winv_awake a t _ (PLock k m) Hw Ht Ht0 Hp); try done. cbn. intros k' m' [= <- <-]. by case_decide.
  - unfold run in Hr. rewrite Hp in Hr. destruct ws as [|w ws]; unfold ret in Hr; simplify_eq.
    + by apply (winv_pc a _ t (PIdle 0)); rewrite ?Hp.
    + apply winv_wake; rewrite ?Hp; try done. intros u Hu. cbn. destruct (Z.eq_dec w u); case_decide; try done; lia.
  - destruct (cond_unlock_ok threads a t c m Hi Hp) as (mu & w & Hu & Hrun). rewrite Hrun in Hr. simplify_eq.
    eapply winv_unlock; try done; rewrite ?Hp; try done; try (by intros []).
    + intros u Hu0. cbn. destruct (Z.eqb_spec w u); by case_decide.
    + cbn. rewrite decide_True; [done|]. apply (ci_queued _ _ _ (i_cond _ _ Hi c)). by rewrite Hp.
  - unfold run in Hr. rewrite Hp in Hr. simplify_eq. apply (winv_pc a _ t (PCondOcall c m waiter)); rewrite ?Hp; try done.
    intros c'. cbn. by fn_split.
  - unfold run in Hr. rewrite Hp in Hr. destruct (Z.eqb_spec waiter SGX_THREAD_T_NULL) as [Hz|Hw0].
    + subst waiter. pose proof (winv_take a t _ (PCondSleep c m) (PCondCheck c m) Hw Ht Ht0 Hp) as H.
      destruct (se_event_wait t a). simplify_eq. apply H; try done.
      * intros u Hu. cbn. by destruct u.
      * cbn. intros c' m' [= <- <-]. by case_decide.
    + simplify_eq. apply winv_wake; rewrite ?Hp; try done. intros u Hu. cbn [wakes]. unfold SGX_THREAD_T_NULL.
      destruct (Z.eqb_spec 0 u), (Z.eqb_spec waiter u); case_decide; try done; congruence.
  - unfold run in Hr. rewrite Hp in Hr. destruct (asleep t a) eqn:Has; simplify_eq.
    apply (winv_awake a t _ (PCondCheck c m) Hw Ht Ht0 Hp); try done. cbn. intros c' m' [= <- <-]. by case_decide.
  - unfold run in Hr. rewrite Hp in Hr. destruct (unlocked c a); cbn [negb] in Hr; [|done]. cbn in Hr.
    rewrite bool_decide_false in Hr by (by apply (w_check _ _ _ (Hw t Ht0) c m)). cbn in Hr. simplify_eq.
    apply (winv_pc a _ t (PCondBreak c m)); rewrite ?Hp; try done. intros c'. cbn. by fn_split.
  - unfold run in Hr. rewrite Hp in Hr. simplify_eq. apply (winv_pc a _ t (PLock true m)); rewrite ?Hp; try done.
    + intros c'. cbn. by fn_split.
    + intros k m' _ Hin%(mi_queue _ _ _ _ (i_mutex _ _ Hi m')). rewrite Hp in Hin. by destruct Hin.
Qed.

Lemma winv_initial a : initial a -> winv' a.
Proof.
  intros (Hm & Hc & Hp & He & _) t Ht. split; rewrite ?Hp, ?He; try done. unfold owed. rewrite Hp. cbn.
  rewrite Z.add_0_r. clear -Hp. induction threads as [|u l IH]; cbn; [done|]. rewrite Hp. exact IH.
Qed.

Lemma winv_exec l a a' : inv' a -> winv' a -> client_ok threads false l a -> exec g l a = Some a' -> winv' a'.
Proof.
  intros Hi Hw Hc He. destruct l as [t o|t|t]; cbn [exec] in He.
  - destruct (s_pc a t) eqn:Hp; try done. eapply winv_call; eauto.
  - by eapply winv_run.
  - done.
Qed.

Lemma winv_reach a0 a : initial a0 -> reach g threads false a0 a -> inv' a /\ winv' a.
Proof.
  intros H0. induction 1 as [|l a a' _ [Hi Hw] Hc He]; [split; [by apply inv_initial|by apply winv_initial]|].
  split; [by eapply inv_exec|by eapply winv_exec].
Qed.
End Wake.
