(* ===== verification/ThreadProps.v ===== *)
(** * Correctness of the thread library

    The theorems on the machine with the linked queues of the code: mutual
    exclusion whatever the untrusted side does, and no lost wake-ups with
    futexes that return only when woken. *)

From stdpp Require Import functions gmap relations.
From S2P Require Import Prelude Bytes Arch Trts Thread ThreadInv ThreadSim ThreadWake.
Import Linked Ideal.

#[local] Open Scope Z_scope.

Section Progress.
Variable g : runtime.
Variable threads : list Z.
Hypothesis Hnull : 0 ∉ threads.
Hypothesis Hdup : NoDup threads.
Hypothesis Hmany : zlen threads < 2 ^ 64.

Abbreviation astep := (run_step (TQ := ideal) g threads false).
Abbreviation good a := (inv threads a /\ winv threads a).

Lemma astep_good a a' : good a -> astep a a' -> good a'.
Proof.
  intros [Hi Hw] (t & Hc & He). split; [by eapply inv_exec|by eapply (winv_exec g threads Hnull Hdup (LRun t))].
Qed.

Lemma rtc_good a a' : good a -> rtc astep a a' -> good a'.
Proof. intros Hg Hr. induction Hr; [done|]. eauto using astep_good. Qed.

Lemma astep_intro a t a' :
  run t a = Some a' -> (forall k m, s_pc a t = PLock k m -> shallow (s_mutex a m)) -> astep a a'.
Proof. intros Hr Hs. exists t. split; [|done]. cbn. destruct (s_pc a t) eqn:Hp; try done. by eapply Hs. Qed.

(** ** Delivering a wake-up *)

(** A thread about to wake [w] does so: [w] has a wake-up in its event,
    everything else it depends on is as before. *)
Definition delivered (w : Z) (a a' : amach) : Prop :=
  s_pc a' w = s_pc a w /\ (forall m, s_mutex a' m = s_mutex a m) /\
  (forall c, c_queue (s_cond a' c) = c_queue (s_cond a c)).

Lemma delivered_refl w a : delivered w a a.
Proof. done. Qed.

Lemma delivered_trans w a b c : delivered w a b -> delivered w b c -> delivered w a c.
Proof. intros (? & ? & ?) (? & H2 & H3). split; [congruence|]. split; intros; by rewrite ?H2, ?H3. Qed.

Lemma delivered_set w u p a a' : u <> w -> (forall m, s_mutex a' m = s_mutex a m) ->
  (forall c, c_queue (s_cond a' c) = c_queue (s_cond a c)) -> s_pc a' = <[u := p]> (s_pc a) -> delivered w a a'.
Proof. intros Hne Hm Hc Hp. split; [|done]. by rewrite Hp, fn_lookup_insert_ne. Qed.

Lemma event_wake a w p u : good a -> w <> 0 -> s_event (set_pc u p (se_event_wake w a)) w = s_event a w + 1.
Proof.
  intros [_ Hw] Hw0. cbn. rewrite fn_lookup_insert. pose proof (event_small threads a w Hw Hw0). rewrite i32_small by lia. done.
Qed.

Lemma deliver_list a w u ws :
  good a -> w <> 0 -> u <> w -> s_pc a u = PWake ws -> w ∈ ws -> 0 <= tok (s_pc a w) (s_event a w) ->
  exists a', rtc astep a a' /\ delivered w a a' /\ 0 < tok (s_pc a' w) (s_event a' w).
Proof.
  revert a. induction ws as [|x ws IH]; intros a Hg Hw0 Hne Hp Hin Hk; [by apply elem_of_nil in Hin|].
  set (a1 := set_pc u (PWake ws) (se_event_wake x a)).
  assert (astep a a1) as Hstep by (apply (astep_intro a u); [unfold run; by rewrite Hp|by rewrite Hp]).
  assert (delivered w a a1) as Hd by (by eapply (delivered_set w u (PWake ws))).
  destruct (decide (x = w)) as [->|Hx].
  - exists a1. split; [by apply rtc_once|]. split; [done|]. unfold a1 at 2. rewrite event_wake by done.
    rewrite (proj1 Hd). pose proof (tok_other (s_pc a w) (s_event a w) (s_event a w + 1)). lia.
  - destruct (IH a1) as (a2 & Hr & Hd2 & Hk2); try done.
    + by eapply astep_good.
    + cbn. by rewrite fn_lookup_insert.
    + apply elem_of_cons in Hin as [->|]; done.
    + rewrite (proj1 Hd). unfold a1. cbn. by rewrite fn_lookup_insert_ne.
    + exists a2. split; [by eapply rtc_l|]. split; [by eapply delivered_trans|done].
Qed.

Lemma deliver_ocall a w u c m :
  good a -> w <> 0 -> u <> w -> s_pc a u = PCondOcall c m w -> 0 <= tok (s_pc a w) (s_event a w) ->
  exists a', rtc astep a a' /\ delivered w a a' /\ 0 < tok (s_pc a' w) (s_event a' w).
Proof.
  intros Hg Hw0 Hne Hp Hk. exists (set_pc u (PCondOcall c m SGX_THREAD_T_NULL) (se_event_wake w a)).
  assert (delivered w a (set_pc u (PCondOcall c m SGX_THREAD_T_NULL) (se_event_wake w a))) as Hd
    by (by eapply (delivered_set w u)).
  split; [|split; [done|]].
  - apply rtc_once, (astep_intro a u); [|by rewrite Hp]. unfold run. rewrite Hp.
    by destruct (Z.eqb_spec w SGX_THREAD_T_NULL).
  - rewrite (proj1 Hd), event_wake by done.
    pose proof (tok_other (s_pc a w) (s_event a w) (s_event a w + 1)). lia.
Qed.

Definition parked (p : pc) : Prop :=
  match p with PLockWait _ _ | PLockSleep _ _ | PCondOcall _ _ 0 | PCondSleep _ _ => True | _ => False end.

(** A released thread that waits gets its wake-up. *)
Lemma deliver a w :
  good a -> w <> 0 -> parked (s_pc a w) -> owed a w = 1 ->
  exists a', rtc astep a a' /\ delivered w a a' /\ 0 < tok (s_pc a' w) (s_event a' w).
Proof.
  intros Hg Hw0 Hpk Ho. destruct Hg as [Hi Hw]. destruct (Hw w Hw0) as [Hb Hk _ _]. rewrite Ho in Hb.
  destruct (decide (0 < tok (s_pc a w) (s_event a w))) as [Hlt|Hlt].
  { exists a. split; [done|]. split; [apply delivered_refl|done]. }
  destruct (sum_member w (s_pc a) threads) as (u & Hu & Hwu); [lia|].
  assert (u <> w) as Hne.
  { intros ->. destruct (s_pc a w) as [| | | | | | |? ? x| | |]; cbn [wakes parked] in *; try done.
    destruct x; try done. destruct (Z.eqb_spec 0 w); [by subst|lia]. }
  destruct (s_pc a u) eqn:Hp; cbn in Hwu; try lia.
  - eapply (deliver_list a w u ws); try done. apply list_elem_of_In, (count_occ_In Z.eq_dec). lia.
  - destruct (Z.eqb_spec waiter w) as [->|]; [|lia].
    set (a1 := set_pc u (PCondOcall c m w) (set_lock c 0 a)).
    assert (astep a a1) as Hstep by (apply (astep_intro a u); [unfold run; by rewrite Hp|by rewrite Hp]).
    assert (delivered w a a1) as Hd.
    { eapply (delivered_set w u); try done. intros c'. cbn. by fn_split. }
    destruct (deliver_ocall a1 w u c m) as (a2 & Hr & Hd2 & Hk2); try done.
    + eapply astep_good; [|done]. done.
    + cbn. by rewrite fn_lookup_insert.
    + by rewrite (proj1 Hd).
    + exists a2. split; [by eapply rtc_l|]. split; [by eapply delivered_trans|done].
  - destruct (Z.eqb_spec waiter w) as [->|]; [|lia]. by eapply (deliver_ocall a w u).
Qed.

(** Where a thread goes when it is woken *)
Definition woken (p : pc) : pc :=
  match p with
  | PLockWait k m | PLockSleep k m => PLock k m
  | PCondOcall c m _ | PCondSleep c m => PCondCheck c m
  | _ => p
  end.

Lemma wake_up a w :
  good a -> w <> 0 -> parked (s_pc a w) -> 0 < tok (s_pc a w) (s_event a w) ->
  exists a', astep a a' /\ s_pc a' w = woken (s_pc a w) /\ (forall m, s_mutex a' m = s_mutex a m) /\
    (forall c, c_queue (s_cond a' c) = c_queue (s_cond a c)).
Proof.
  intros Hg Hw0 Hpk Hk.
  assert (exists ev, astep a (MkMach (s_next a) (s_mutex a) (s_cond a) (<[w := woken (s_pc a w)]> (s_pc a)) ev (s_held a)))
    as [ev Hs].
  { destruct (s_pc a w) as [| | | | | | |c m x| | |] eqn:Hp; cbn in Hpk, Hk; try done.
    all: eexists; apply (astep_intro a w); [unfold run; rewrite Hp|by rewrite Hp].
    - cbn. destruct (Z.eqb_spec (s_event a w) 0); [lia|]. done.
    - unfold asleep. destruct (Z.eqb_spec (s_event a w) (-1)); [lia|]. done.
    - destruct x; try done. cbn. destruct (Z.eqb_spec (s_event a w) 0); [lia|]. done.
    - unfold asleep. destruct (Z.eqb_spec (s_event a w) (-1)); [lia|]. done. }
  eexists. split; [exact Hs|]. cbn. by rewrite fn_lookup_insert.
Qed.

(** ** Acquiring a free mutex *)
Lemma acquire_front a m w k :
  good a -> w <> 0 -> front (s_mutex a m) w -> s_pc a w = PLock k m ->
  exists a', astep a a' /\ m_owner (s_mutex a' m) = w /\ s_held a' m w = 1 /\ exists r, s_pc a' w = PIdle r.
Proof.
  intros [Hi Hw] Hw0 [Ho Hh] Hp. pose proof (i_mutex _ _ Hi m) as Hm.
  pose proof (mi_own _ _ _ _ Hm) as (_ & Hown & Hzero & Hz). rewrite (proj1 Hz Ho), Ho in *.
  assert (bad_control (s_mutex a m) = false) as Hb.
  { destruct (bad_control _) eqn:Hb; [|done]. apply (mi_ctl _ _ _ _ Hm) in Hb as [Hq _]. by rewrite Hq in Hh. }
  assert (exists mu, attempt w tt (s_mutex a m) = Some (mu, 0) /\ m_owner mu = w) as (mu & Ha & Hmu).
  { unfold attempt. cbn [QUEUE_FIRST ideal]. rewrite Hb, Hh, Ho. change (default SGX_THREAD_T_NULL (Some w)) with w.
    destruct (Z.eqb_spec 0 w); [by subst|]. rewrite andb_false_r. unfold SGX_THREAD_T_NULL. rewrite !Z.eqb_refl. by eexists. }
  eexists. split; [apply (astep_intro a w)|].
  - unfold run. rewrite Hp. unfold mutex_lock_iter. destruct (s_next a). rewrite Ha. cbn [mbind option_bind]. done.
  - intros k' m' Hp'. rewrite Hp in Hp'. simplify_eq. unfold shallow. rewrite (proj1 Hz eq_refl). lia.
  - cbn. rewrite !fn_lookup_insert. rewrite (Hzero w) by done. split; [done|]. split; [done|]. eauto.
Qed.

Lemma mutex_progress_ideal a m w :
  good a -> front (s_mutex a m) w ->
  exists a', rtc astep a a' /\ m_owner (s_mutex a' m) = w /\ s_held a' m w = 1 /\ exists r, s_pc a' w = PIdle r.
Proof.
  intros Hg Hf. pose proof Hg as [Hi Hw].
  assert (w ∈ m_queue (s_mutex a m)) as Hin by (destruct Hf as [_ Hh]; by apply head_Some_elem_of).
  destruct (mi_queue _ _ _ _ (i_mutex _ _ Hi m) w Hin) as [Hw0 Hlp].
  destruct (decide (wait_pc m (s_pc a w))) as [Hwp|Hwp].
  - assert (parked (s_pc a w) /\ exists k, woken (s_pc a w) = PLock k m) as [Hpk [k Hk]].
    { destruct (s_pc a w); cbn in Hwp; try done; subst; cbn; eauto. }
    destruct (deliver a w) as (a1 & Hr1 & (Hd1 & Hd2 & Hd3) & Hk1); try done.
    { unfold owed. destruct (s_pc a w); cbn in Hwp; try done; subst; cbn; by rewrite decide_True. }
    assert (good a1) as Hg1 by (by eapply rtc_good).
    destruct (wake_up a1 w) as (a2 & Hs2 & Hp2 & Hm2 & _); try done; [by rewrite Hd1|].
    assert (good a2) as Hg2 by (by eapply astep_good).
    destruct (acquire_front a2 m w k) as (a3 & Hs3 & H3); try done.
    { by rewrite Hm2, Hd2. }
    { by rewrite Hp2, Hd1. }
    exists a3. split; [|done]. etrans; [done|]. by apply rtc_r with a2; [apply rtc_once|].
  - assert (exists k, s_pc a w = PLock k m) as [k Hp].
    { destruct (s_pc a w); cbn in Hlp, Hwp; try done; subst; eauto. }
    destruct (acquire_front a m w k) as (a' & Hs & H'); try done. exists a'. split; [by apply rtc_once|done].
Qed.

(** ** Returning from a condition variable *)

(** The holder of the lock of [c] releases it. *)
Lemma free_lock a c t m :
  good a -> s_pc a t = PCondCheck c m ->
  exists a', rtc astep a a' /\ c_lock (s_cond a' c) = 0 /\ s_pc a' t = s_pc a t.
Proof.
  intros Hg Hp. pose proof Hg as [Hi Hw]. set (h := c_lock (s_cond a c)).
  destruct (decide (h = 0)) as [H0|H0]; [exists a; done|].
  assert (hold_pc c (s_pc a h)) as Hh by (by apply (ci_lock _ _ _ (i_cond _ _ Hi c) h H0)).
  assert (h <> t) as Hne by (intros ->; by rewrite Hp in Hh).
  assert (forall b p, good b -> s_pc b h = p -> (exists m' w, p = PCondLoop c m' w \/ p = PCondBreak c m') ->
    s_pc b t = s_pc a t -> exists b', astep b b' /\ c_lock (s_cond b' c) = 0 /\ s_pc b' t = s_pc a t) as Hrel.
  { intros b p Hgb Hpb (m' & w & Hpp) Hbt.
    destruct Hpp as [-> | ->]; eexists; (split; [apply (astep_intro b h); [unfold run; by rewrite Hpb|by rewrite Hpb]|]);
      cbn; rewrite fn_lookup_insert, fn_lookup_insert_ne by done; done. }
  destruct (s_pc a h) eqn:Hph; cbn in Hh; try done; subst.
  - destruct (cond_unlock_ok threads a h c m0 Hi Hph) as (mu & w & _ & Hrun).
    assert (astep a (set_pc h (PCondLoop c m0 w) (add_held m0 h (-1) (set_mutex m0 (s_next a) mu a)))) as Hs
      by (apply (astep_intro a h); [done|by rewrite Hph]).
    edestruct Hrel as (b' & Hs' & Hb'); [by eapply astep_good|cbn; by rewrite fn_lookup_insert|by eauto| |].
    { cbn. by rewrite fn_lookup_insert_ne. }
    exists b'. split; [|done]. by eapply rtc_l; [|apply rtc_once].
  - edestruct (Hrel a) as (b' & Hs' & Hb'); [done|done|by eauto|done|]. exists b'. split; [by apply rtc_once|done].
  - edestruct (Hrel a) as (b' & Hs' & Hb'); [done|done|exists m0, 0; by right|done|]. exists b'. split; [by apply rtc_once|done].
Qed.

Lemma check_progress a c t m :
  good a -> t <> 0 -> s_pc a t = PCondCheck c m -> exists a', rtc astep a a' /\ s_pc a' t = PLock true m.
Proof.
  intros Hg Ht0 Hp. destruct (free_lock a c t m Hg Hp) as (a1 & Hr1 & Hl1 & Hp1). rewrite Hp in Hp1.
  assert (good a1) as Hg1 by (by eapply rtc_good).
  assert (astep a1 (set_pc t (PCondBreak c m) (set_lock c t a1))) as Hs2.
  { apply (astep_intro a1 t); [|by rewrite Hp1]. unfold run, unlocked. rewrite Hp1, Hl1. cbn.
    rewrite bool_decide_false; [done|]. destruct Hg1 as [_ Hw1]. by apply (w_check _ _ _ (Hw1 t Ht0) c m). }
  eexists. split; [etrans; [done|]; apply rtc_l with (1 := Hs2), rtc_once, (astep_intro _ t)|].
  - unfold run. cbn. rewrite fn_lookup_insert. done.
  - cbn. by rewrite fn_lookup_insert.
  - cbn. by rewrite fn_lookup_insert.
Qed.

(** A thread that waits on [c] *)
Definition waits_on (c m : Z) (p : pc) : Prop :=
  p = PCondSleep c m \/ p = PCondCheck c m \/ exists w, p = PCondLoop c m w \/ p = PCondOcall c m w.

Lemma park_progress a c t m :
  good a -> t <> 0 -> (s_pc a t = PCondSleep c m \/ s_pc a t = PCondOcall c m 0) -> t ∉ c_queue (s_cond a c) ->
  exists a', rtc astep a a' /\ s_pc a' t = PLock true m.
Proof.
  intros Hg Ht0 Hp Hn. assert (parked (s_pc a t) /\ woken (s_pc a t) = PCondCheck c m) as [Hpk Hwk].
  { by destruct Hp as [-> | ->]. }
  destruct (deliver a t) as (a1 & Hr1 & (Hd1 & _) & Hk1); try done.
  { unfold owed. destruct Hp as [-> | ->]; cbn; by rewrite decide_False. }
  assert (good a1) as Hg1 by (by eapply rtc_good).
  destruct (wake_up a1 t) as (a2 & Hs2 & Hp2 & _); try done; [by rewrite Hd1|].
  destruct (check_progress a2 c t m) as (a3 & Hr3 & H3); try done.
  { by eapply astep_good. }
  { by rewrite Hp2, Hd1. }
  exists a3. split; [|done]. etrans; [done|]. by eapply rtc_l.
Qed.

Lemma signal_progress_ideal a c t m :
  good a -> t <> 0 -> waits_on c m (s_pc a t) -> t ∉ c_queue (s_cond a c) ->
  exists a', rtc astep a a' /\ s_pc a' t = PLock true m.
Proof.
  intros Hg Ht0 Hp Hn.
  assert (forall b w, good b -> s_pc b t = PCondOcall c m w -> t ∉ c_queue (s_cond b c) ->
    exists a', rtc astep b a' /\ s_pc a' t = PLock true m) as Hoc.
  { intros b w Hgb Hpb Hnb. destruct (decide (w = 0)) as [->|Hw0]; [by eapply park_progress; eauto|].
    assert (astep b (set_pc t (PCondOcall c m SGX_THREAD_T_NULL) (se_event_wake w b))) as Hs.
    { apply (astep_intro b t); [|by rewrite Hpb]. unfold run. rewrite Hpb. by destruct (Z.eqb_spec w SGX_THREAD_T_NULL). }
    edestruct (park_progress _ c t m (astep_good _ _ Hgb Hs)) as (a' & Hr & H'); try done.
    { right. cbn. by rewrite fn_lookup_insert. }
    exists a'. split; [by eapply rtc_l|done]. }
  destruct Hp as [Hp|[Hp|(w & [Hp|Hp])]].
  - by eapply park_progress; eauto.
  - by eapply check_progress.
  - assert (astep a (set_pc t (PCondOcall c m w) (set_lock c 0 a))) as Hs
      by (apply (astep_intro a t); [unfold run; by rewrite Hp|by rewrite Hp]).
    edestruct (Hoc _ w (astep_good _ _ Hg Hs)) as (a' & Hr & H').
    { cbn. by rewrite fn_lookup_insert. }
    { cbn. by rewrite fn_lookup_insert. }
    exists a'. split; [by eapply rtc_l|done].
  - by eapply Hoc.
Qed.

(** ** The linked machine *)
Abbreviation cstep := (run_step (TQ := linked) g threads false).

Lemma rtc_sim s a a' : good a -> rel s a -> rtc astep a a' -> exists s', rtc cstep s s' /\ rel s' a'.
Proof.
  intros Hg Hr Hp. revert s Hr. induction Hp as [a|a b a' (t & Hc & He) Hp IH]; intros s Hr; [by exists s|].
  pose proof (exec_sim g threads Hnull Hmany s a (LRun t) false (proj1 Hg) Hr Hc) as Ho. rewrite He in Ho.
  destruct (exec g (LRun t) s) as [s1|] eqn:Hs; [|done].
  destruct (IH (astep_good a b Hg (ex_intro _ t (conj Hc He))) s1 Ho) as (s' & Hr' & H').
  exists s'. split; [|done]. eapply rtc_l; [|done]. exists t. split; [|done]. by apply (client_sim threads s a).
Qed.

Lemma reach_good s0 s : initial s0 -> reach (TQ := linked) g threads false s0 s ->
  exists a, rel s a /\ good a.
Proof.
  intros H0 Hre. destruct (reach_sim g threads Hnull Hmany false s0 s H0 Hre) as (a & Hra & Hr & _).
  exists a. split; [done|]. eapply (winv_reach g threads Hnull Hdup); [|done]. by apply initial_sim.
Qed.
End Progress.

(** * Theorems *)

(** C37. Mutual exclusion, whatever the untrusted side does: in every state
    that the threads can reach, at most one thread holds a mutex; the owner
    and the count in the mutex are that thread and how often it holds it; and
    the linked queue of the mutex is a list without repetition of threads
    inside sgx_thread_mutex_lock, in which every waiting thread is. *)
Theorem mutex_exclusive g threads sp s0 s m :
  0 ∉ threads -> zlen threads < 2 ^ 64 -> initial s0 -> reach (TQ := linked) g threads sp s0 s ->
  (forall t u, 0 < s_held s m t -> 0 < s_held s m u -> t = u) /\
  (forall t, t <> 0 -> 0 < s_held s m t <-> m_owner (s_mutex s m) = t) /\
  m_refcount (s_mutex s m) = s_held s m (m_owner (s_mutex s m)) /\
  exists l, NoDup l /\ q_rep (s_next s) (m_queue (s_mutex s m)) l /\
    (forall t, t ∈ l -> lock_pc m (s_pc s t)) /\ (forall t, wait_pc m (s_pc s t) -> t ∈ l).
Proof.
  intros Hnull Hmany H0 Hre. destruct (reach_sim g threads Hnull Hmany sp s0 s H0 Hre) as (a & _ & Hr & Hi).
  destruct (r_mutex _ _ Hr m) as (H1 & H2 & H3 & H4). rewrite (r_held _ _ Hr), (r_pc _ _ Hr), H1, H3.
  destruct (i_mutex _ _ Hi m). pose proof mi_own as (_ & Hc & Hn & Hz).
  assert (forall t, 0 < s_held a m t -> m_owner (s_mutex a m) = t) as Hown.
  { intros t Ht. apply (owned_held _ _ t mi_own). lia. }
  split; [intros t u Ht%Hown Hu%Hown; congruence|]. split; [|split; [done|]].
  - intros t Ht. split; [apply Hown|]. intros <-. rewrite Hc. pose proof (owned_held _ _ (m_owner (s_mutex a m)) mi_own). lia.
  - exists (m_queue (s_mutex a m)). split; [done|]. split; [done|]. split; [by intros t []%mi_queue|done].
Qed.

(** C38. A free mutex with waiting threads is acquired: from every reachable
    state, steps of the threads already inside the library lead to a state in
    which the first thread of the queue owns the mutex and has returned.  A
    wake-up is therefore never lost. *)
Theorem mutex_progress g threads s0 s m w :
  0 ∉ threads -> NoDup threads -> zlen threads < 2 ^ 64 -> initial s0 -> reach (TQ := linked) g threads false s0 s ->
  m_owner (s_mutex s m) = 0 -> m_first (m_queue (s_mutex s m)) = w -> w <> 0 ->
  exists s', rtc (run_step (TQ := linked) g threads false) s s' /\ m_owner (s_mutex s' m) = w /\ s_held s' m w = 1 /\
    exists r, s_pc s' w = PIdle r.
Proof.
  intros Hnull Hdup Hmany H0 Hre Ho Hf Hw0.
  destruct (reach_good g threads Hnull Hdup Hmany s0 s H0 Hre) as (a & Hr & Hg).
  destruct (r_mutex _ _ Hr m) as (_ & _ & H3 & H4).
  assert (front (s_mutex a m) w) as Hfr.
  { split; [congruence|]. rewrite (rep_first _ _ _ H4) in Hf. by destruct (head _); cbn in Hf; subst. }
  destruct (mutex_progress_ideal g threads Hnull Hdup a m w Hg Hfr) as (a' & Hp & G1 & G2 & G3).
  destruct (rtc_sim g threads Hnull Hdup Hmany s a a' Hg Hr Hp) as (s' & Hp' & Hr').
  exists s'. split; [done|]. destruct (r_mutex _ _ Hr' m) as (_ & _ & -> & _).
  by rewrite (r_held _ _ Hr'), (r_pc _ _ Hr').
Qed.

(** C39. A thread that waits on a condition variable and has been taken off its
    queue by a signal or broadcast goes on to lock its mutex again, by steps
    of the threads already inside the library. *)
Theorem signal_progress g threads s0 s c m t :
  0 ∉ threads -> NoDup threads -> zlen threads < 2 ^ 64 -> initial s0 -> reach (TQ := linked) g threads false s0 s ->
  waits_on c m (s_pc s t) -> queue_search (s_next s) (c_queue (s_cond s c)) t = Some SGX_THREAD_T_NULL ->
  exists s', rtc (run_step (TQ := linked) g threads false) s s' /\ s_pc s' t = PLock true m.
Proof.
  intros Hnull Hdup Hmany H0 Hre Hp Hq.
  destruct (reach_good g threads Hnull Hdup Hmany s0 s H0 Hre) as (a & Hr & Hg). rewrite (r_pc _ _ Hr) in Hp.
  assert (t <> 0) as Ht0.
  { apply (inv_thread threads Hnull a t (proj1 Hg)). intros [r Hpr]. rewrite Hpr in Hp. unfold waits_on in Hp. naive_solver. }
  assert (t ∉ c_queue (s_cond a c)) as Hn.
  { destruct (r_cond _ _ Hr c) as [_ Hc]. pose proof (ci_nodup _ _ _ (i_cond _ _ (proj1 Hg) c)) as Hd.
    cbn [queue_search linked] in Hq.
    rewrite (search_chain _ _ _ _ t (proj1 Hc) (chain_fuel _ _ _ Hd (proj1 Hc)) Ht0) in Hq.
    destruct (bool_decide_reflect (t ∈ c_queue (s_cond a c))); [|done]. by injection Hq as ->. }
  destruct (signal_progress_ideal g threads Hnull Hdup a c t m Hg Ht0 Hp Hn) as (a' & Hpa & H').
  destruct (rtc_sim g threads Hnull Hdup Hmany s a a' Hg Hr Hpa) as (s' & Hp' & Hr').
  exists s'. by rewrite (r_pc _ _ Hr').
Qed.

(** ** Concrete runs

    Two threads, one mutex and one condition variable in the sample enclave *)
Module Runs.
Definition t1 : Z := 0x10050000.
Definition t2 : Z := 0x10051000.
Definition mx : Z := 0x10040000.
Definition cv : Z := 0x10041000.
Definition start : mach links sgx_thread_queue_t :=
  MkMach ∅ (fun _ => MkMutex 0 SGX_THREAD_MUTEX_NONRECURSIVE 0 (MkQueue 0 0)) (fun _ => MkCond 0 (MkQueue 0 0))
    (fun _ => PIdle 0) (fun _ => 0) (fun _ _ => 0).
Definition after (ls : list label) : option (mach links sgx_thread_queue_t) := exec_all sample_runtime ls start.

Lemma start_initial : initial start.
Proof. repeat split; by eexists. Qed.

(** [t1] locks, [t2] waits, [t1] unlocks. *)
Definition handover : list label :=
  [LCall t1 (OpLock mx); LRun t1; LCall t2 (OpLock mx); LRun t2; LRun t2; LCall t1 (OpUnlock mx)].

(** [t1] waits on the condition variable, [t2] signals it. *)
Definition signalled : list label :=
  [LCall t1 (OpLock mx); LRun t1; LCall t1 (OpCondWait cv mx); LRun t1; LRun t1; LRun t1; LCall t2 (OpSignal cv)].
End Runs.
Import Runs.


Fixpoint path_ok (sp : bool) (ls : list label) (s : mach links sgx_thread_queue_t) : Prop :=
  match ls with
  | [] => True
  | l :: ls' => client_ok [t1; t2] sp l s /\
      match exec sample_runtime l s with Some s' => path_ok sp ls' s' | None => False end
  end.

Lemma path_reach sp ls s s' :
  reach sample_runtime [t1; t2] sp start s -> path_ok sp ls s -> exec_all sample_runtime ls s = Some s' ->
  reach sample_runtime [t1; t2] sp start s'.
Proof.
  revert s. induction ls as [|l ls IH]; intros s Hs Hp He; cbn in *; [by simplify_eq|]. destruct Hp as [Hc Hp].
  destruct (exec sample_runtime l s) as [s1|] eqn:H1; [|done]. cbn in He. eapply IH; [|done|done]. by eapply reach_step.
Qed.

Lemma threads_ok : (0 ∉ [t1; t2]) /\ NoDup [t1; t2] /\ zlen [t1; t2] < 2 ^ 64.
Proof. split; [|split]; [apply (bool_decide_unpack _); by vm_compute..|done]. Qed.

Lemma handover_path : path_ok false handover start.
Proof. vm_compute. repeat (constructor || split). Qed.

Lemma signalled_path : path_ok false signalled start.
Proof. vm_compute. repeat (constructor || split). Qed.

Lemma after_reach sp ls s : path_ok sp ls start -> after ls = Some s -> reach sample_runtime [t1; t2] sp start s.
Proof. unfold after. intros Hp. by apply path_reach; [apply reach_start|]. Qed.

Lemma mutex_exclusive_witness :
  exists s, after handover = Some s /\ m_refcount (s_mutex s mx) = s_held s mx (m_owner (s_mutex s mx)) /\
    forall t u, 0 < s_held s mx t -> 0 < s_held s mx u -> t = u.
Proof.
  destruct (after handover) as [s|] eqn:Hs; [|by vm_compute in Hs].
  exists s. split; [done|]. destruct threads_ok as (H1 & _ & H3).
  destruct (mutex_exclusive sample_runtime [t1; t2] false start s mx H1 H3 start_initial) as (G1 & _ & G3 & _); [|done].
  exact (after_reach false handover s handover_path Hs).
Defined.

Lemma mutex_progress_witness :
  exists s s', after handover = Some s /\ rtc (run_step sample_runtime [t1; t2] false) s s' /\
    m_owner (s_mutex s' mx) = t2 /\ s_held s' mx t2 = 1.
Proof.
  destruct (after handover) as [s|] eqn:Hs; [|by vm_compute in Hs].
  assert ((fun s => (m_owner (s_mutex s mx), m_first (m_queue (s_mutex s mx)))) <$> after handover = Some (0, t2)) as Hc
    by (vm_compute; reflexivity).
  rewrite Hs in Hc. injection Hc as Ho Hf. destruct threads_ok as (H1 & H2 & H3).
  destruct (mutex_progress sample_runtime [t1; t2] start s mx t2 H1 H2 H3 start_initial) as (s' & G1 & G2 & G3 & _);
    [|exact Ho|exact Hf|done|exists s, s'; exact (conj eq_refl (conj G1 (conj G2 G3)))].
  exact (after_reach false handover s handover_path Hs).
Defined.

Lemma signal_progress_witness :
  exists s s', after signalled = Some s /\ s_pc s t1 = PCondSleep cv mx /\
    rtc (run_step sample_runtime [t1; t2] false) s s' /\ s_pc s' t1 = PLock true mx.
Proof.
  destruct (after signalled) as [s|] eqn:Hs; [|by vm_compute in Hs].
  assert ((fun s => (s_pc s t1, queue_search (s_next s) (c_queue (s_cond s cv)) t1)) <$> after signalled
          = Some (PCondSleep cv mx, Some 0)) as Hc by (vm_compute; reflexivity).
  rewrite Hs in Hc. injection Hc as Hp Hq. destruct threads_ok as (H1 & H2 & H3).
  destruct (signal_progress sample_runtime [t1; t2] start s cv mx t1 H1 H2 H3 start_initial) as (s' & G1 & G2);
    [|left; exact Hp|exact Hq|exists s, s'; exact (conj eq_refl (conj Hp (conj G1 G2)))].
  exact (after_reach false signalled s signalled_path Hs).
Defined.


(** A call of sgx_thread_cond_wait with a mutex the caller does not hold fails
    and leaves the caller in the queue of the condition variable: a later
    signal wakes it, although it does not wait, and not the thread that does. *)
Lemma cond_wait_error_stays :
  (fun s => (s_pc s t1, s_pc s t2, m_first (c_queue (s_cond s cv)), s_event s t1)) <$>
    after [LCall t1 (OpCondWait cv mx); LRun t1;
           LCall t2 (OpLock mx); LRun t2; LCall t2 (OpCondWait cv mx); LRun t2; LRun t2; LRun t2;
           LCall t1 (OpSignal cv); LRun t1; LRun t1]
  = Some (PIdle 0, PCondSleep cv mx, t2, 1).
Proof. vm_compute. reflexivity. Qed.
