(* ===== verification/Lru.v ===== *)
(** * The cache of the protected file system

    lru_cache of sdk/protected_fs/sgx_tprotected_fs (lru_cache.h,
    lru_cache.cpp): a list of keys, the most recently used first, and a hash
    map from keys to data.  An entry of the map also has an iterator of the
    list; keys are not repeated in the list, so it is the place of the key.
    [m_it] is the position of the iterator of a traversal.  A failed [assert]
    is [Stuck]: [add] of a key that is present, and a key of the list that is
    not in the map.  The allocations of [add] are made by its caller. *)

From stdpp Require Import gmap.
From S2P Require Import Prelude Bytes.

#[local] Open Scope Z_scope.

Record lru_cache (D : Type) := MkCache { c_list : list Z; c_map : gmap Z D; c_it : nat }.
Arguments MkCache {D}.
Arguments c_list {D}.
Arguments c_map {D}.
Arguments c_it {D}.

Section Lru.
Context {D : Type}.
Abbreviation cache := (lru_cache D).

Definition cache_empty : cache := MkCache [] ∅ 0.

Definition add (key : Z) (data : D) (c : cache) : res unit cache :=
  match c_map c !! key with
  | Some _ => Stuck
  | None => Ok (MkCache (key :: c_list c) (<[key := data]> (c_map c)) (c_it c))
  end.

Definition find (key : Z) (c : cache) : option D := c_map c !! key.

(** list.erase of the iterator and push_front *)
Definition to_front (key : Z) (l : list Z) : list Z := key :: filter (.≠ key) l.

Definition get (key : Z) (c : cache) : cache * option D :=
  match c_map c !! key with
  | None => (c, None)
  | Some data => (MkCache (to_front key (c_list c)) (c_map c) (c_it c), Some data)
  end.

(** assert(list.size() == map.size()) *)
Definition size (c : cache) : res unit Z :=
  if bool_decide (length (c_list c) = base.size (c_map c)) then Ok (u32 (zlen (c_list c))) else Stuck.

(** The data at the traversal's iterator: [None] is NULL, at the end of the list. *)
Definition at_it (c : cache) : res unit (option (Z * D)) :=
  match c_list c !! c_it c with
  | None => Ok None
  | Some key => match c_map c !! key with Some data => Ok (Some (key, data)) | None => Stuck end
  end.

Definition get_first (c : cache) : cache * res unit (option (Z * D)) :=
  let c := MkCache (c_list c) (c_map c) 0 in (c, at_it c).

Definition get_next (c : cache) : cache * res unit (option (Z * D)) :=
  let c := MkCache (c_list c) (c_map c) (S (c_it c)) in (c, at_it c).

Definition get_last (c : cache) : res unit (option (Z * D)) :=
  match last (c_list c) with
  | None => Ok None
  | Some key => match c_map c !! key with Some data => Ok (Some (key, data)) | None => Stuck end
  end.

Definition remove_last (c : cache) : res unit cache :=
  match last (c_list c) with
  | None => Ok c
  | Some key =>
      match c_map c !! key with
      | None => Stuck
      | Some _ => Ok (MkCache (removelast (c_list c)) (delete key (c_map c)) (c_it c))
      end
  end.

(** ** Well-formed caches: the list enumerates the keys of the map. *)
Definition cache_wf (c : cache) : Prop :=
  NoDup (c_list c) /\ forall key, key ∈ c_list c <-> is_Some (c_map c !! key).
End Lru.

(** * Theorems *)
Section Facts.
Context {D : Type}.
Implicit Types (c : lru_cache D) (key : Z) (l : list Z).

Lemma cache_wf_empty : cache_wf (cache_empty (D := D)).
Proof. split; [constructor|]. intros key. cbn. rewrite lookup_empty. split; [by intros ?%elem_of_nil|by intros []]. Qed.

Lemma wf_size c : cache_wf c -> base.size (c_map c) = length (c_list c).
Proof.
  intros [Hd Hk]. rewrite <- size_dom.
  assert (dom (c_map c) = list_to_set (C := gset Z) (c_list c)) as ->.
  { apply set_eq. intros key. rewrite elem_of_dom, elem_of_list_to_set. by rewrite Hk. }
  by apply size_list_to_set.
Qed.

Lemma size_wf c : cache_wf c -> zlen (c_list c) < 2 ^ 32 -> size c = Ok (zlen (c_list c)).
Proof.
  intros Hw Hl. unfold size. rewrite bool_decide_eq_true_2 by (by rewrite wf_size). rewrite u32_id; [done|]. unfold is_u32. lia.
Qed.

Lemma add_wf c key (d : D) : cache_wf c -> c_map c !! key = None ->
  add key d c = Ok (MkCache (key :: c_list c) (<[key := d]> (c_map c)) (c_it c)) /\
  cache_wf (MkCache (key :: c_list c) (<[key := d]> (c_map c)) (c_it c)).
Proof.
  intros [Hd Hk] Hn. unfold add. rewrite Hn. split; [done|]. split; cbn [c_list c_map].
  - constructor; [|done]. rewrite Hk, Hn. by intros [].
  - intros k. rewrite elem_of_cons, lookup_insert_is_Some'. rewrite Hk. intuition congruence.
Qed.

Lemma elem_of_to_front k key l : key ∈ l -> k ∈ to_front key l <-> k ∈ l.
Proof.
  intros Hin. unfold to_front. rewrite elem_of_cons, list_elem_of_filter. split; [intuition congruence|].
  destruct (decide (k = key)); tauto.
Qed.

Lemma to_front_nodup key l : NoDup l -> NoDup (to_front key l).
Proof. intros Hd. unfold to_front. constructor; [rewrite list_elem_of_filter; naive_solver|by apply NoDup_filter]. Qed.

Lemma get_wf c key (d : D) : cache_wf c -> c_map c !! key = Some d ->
  get key c = (MkCache (to_front key (c_list c)) (c_map c) (c_it c), Some d) /\
  cache_wf (MkCache (to_front key (c_list c)) (c_map c) (c_it c)).
Proof.
  intros [Hd Hk] Hs. unfold get. rewrite Hs. split; [done|]. split; cbn [c_list c_map]; [by apply to_front_nodup|].
  intros k. rewrite elem_of_to_front; [apply Hk|]. apply Hk. by exists d.
Qed.

Lemma last_split l key : last l = Some key -> l = removelast l ++ [key].
Proof.
  intros Hl. destruct l as [|x l] using rev_ind; [done|].
  rewrite last_snoc in Hl. injection Hl as ->. by rewrite removelast_last.
Qed.

(** The last key is removed with its data. *)
Lemma remove_last_wf c key (d : D) : cache_wf c -> last (c_list c) = Some key -> c_map c !! key = Some d ->
  let c' := MkCache (removelast (c_list c)) (delete key (c_map c)) (c_it c) in
  get_last c = Ok (Some (key, d)) /\ remove_last c = Ok c' /\ cache_wf c'.
Proof.
  intros [Hd Hk] Hl Hs c'. unfold get_last, remove_last. rewrite Hl, Hs. do 2 (split; [done|]).
  pose proof (last_split _ _ Hl) as E. rewrite E in Hd, Hk.
  apply NoDup_app in Hd as (Hd1 & Hd2 & _). split; [done|]. cbn [c_list c_map c']. intros k.
  rewrite lookup_delete_is_Some, <- Hk, elem_of_app, list_elem_of_singleton. split.
  - intros Hin. split; [|by left]. intros ->. apply (Hd2 _ Hin). by apply list_elem_of_singleton.
  - intros [Hne [?|Heq]]; [done|congruence].
Qed.

End Facts.
