(* ===== verification/Pfs.v ===== *)
(** * Protected file system: nodes, keys and the file object

    sdk/protected_fs/sgx_tprotected_fs: the layout of the nodes of a file
    (protected_fs_nodes.h), the file object (protected_fs_file.h) and the
    derivation of keys (file_crypto.cpp).

    - A node of the tree is named by its physical number, the key of the
      cache, which stands for the pointer to it: 1 is root_mht, the others are
      in the cache for as long as they are allocated.  A pointer to a node that
      has been deleted is a number that is not in the cache; using it is
      [Stuck], and so is a failed [assert].
    - The state of a method is the file object together with the world [W] that
      decides what the platform and the untrusted functions return.  A method
      that returns false or NULL is [Err tt]; last_error is in the object.
    - The methods run under the mutex of the file object, so each is one step. *)

From stdpp Require Import gmap.
From S2P Require Import Prelude Bytes Arch Trts Tcrypto Seal Thread Lru.

#[local] Open Scope Z_scope.

Definition NODE_SIZE : Z := 4096.
Definition SGX_FILE_ID : Z := 0x5347585F46494C45.
Definition SGX_FILE_MAJOR_VERSION : Z := 0x01.
Definition SGX_FILE_MINOR_VERSION : Z := 0x00.
Definition FILENAME_MAX_LEN : Z := 260.
Definition MD_USER_DATA_SIZE : Z := 3072.
Definition ATTACHED_DATA_NODES_COUNT : Z := 96.
Definition CHILD_MHT_NODES_COUNT : Z := 32.
Definition MAX_PAGES_IN_CACHE : Z := 48.
Definition FILE_MHT_NODE_TYPE : Z := 1.
Definition FILE_DATA_NODE_TYPE : Z := 2.
Definition PATHNAME_MAX_LEN : Z := 512.
Definition FULLNAME_MAX_LEN : Z := PATHNAME_MAX_LEN + FILENAME_MAX_LEN.
Definition MAX_MODE_STRING_LEN : Z := 5.
Definition ENOENT : Z := 2.
Definition EIO : Z := 5.
Definition EACCES : Z := 13.
Definition ENAMETOOLONG : Z := 36.
Definition ENOTSUP : Z := 95.

(** An int64_t *)
Definition i64 (x : Z) : Z := u64 (x + 2 ^ 63) - 2 ^ 63.

(** ** The meta-data node *)
Record meta_data_plain_t := MkPlain {
  p_file_id : Z; p_major_version : Z; p_minor_version : Z; p_meta_data_key_id : list Z; p_cpu_svn : list Z;
  p_isv_svn : Z; p_use_user_kdk_key : Z; p_attribute_mask : list Z; p_meta_data_gmac : list Z; p_update_flag : Z }.

Record meta_data_encrypted_t := MkEnc {
  e_clean_filename : list Z; e_size : Z; e_mc : list Z; e_mht_key : list Z; e_mht_gmac : list Z; e_data : list Z }.

Record meta_data_node_t := MkMeta { plain_part : meta_data_plain_t; encrypted_part : list Z; padding : list Z }.

Definition sizeof_meta_data_encrypted : Z := 3392.

Definition plain_bytes (p : meta_data_plain_t) : list Z :=
  le_bytes 8 (p_file_id p) ++ le_bytes 1 (p_major_version p) ++ le_bytes 1 (p_minor_version p) ++
  p_meta_data_key_id p ++ p_cpu_svn p ++ le_bytes 2 (p_isv_svn p) ++ le_bytes 1 (p_use_user_kdk_key p) ++
  p_attribute_mask p ++ p_meta_data_gmac p ++ le_bytes 1 (p_update_flag p).

Definition meta_bytes (m : meta_data_node_t) : list Z := plain_bytes (plain_part m) ++ encrypted_part m ++ padding m.

Definition meta_of (b : list Z) : meta_data_node_t :=
  MkMeta (MkPlain (fget (Fld 0 8) b) (fget (Fld 8 1) b) (fget (Fld 9 1) b) (slice 10 32 b) (slice 42 16 b)
            (fget (Fld 58 2) b) (fget (Fld 60 1) b) (slice 61 16 b) (slice 77 16 b) (fget (Fld 93 1) b))
    (slice 94 3392 b) (slice 3486 610 b).

Definition enc_bytes (e : meta_data_encrypted_t) : list Z :=
  e_clean_filename e ++ le_bytes 8 (u64 (e_size e)) ++ e_mc e ++ e_mht_key e ++ e_mht_gmac e ++ e_data e.

Definition enc_of (b : list Z) : meta_data_encrypted_t :=
  MkEnc (slice 0 260 b) (i64 (fget (Fld 260 8) b)) (slice 268 20 b) (slice 288 16 b) (slice 304 16 b) (slice 320 3072 b).

(** ** Nodes of the tree

    file_mht_node_t and file_data_node_t have the same fields.  The crypto data
    of a child is the key and the gmac at one of 128 slots of the plain text of
    its parent: data_nodes_crypto, then mht_nodes_crypto. *)
Record file_node := MkNode {
  n_type : Z; n_number : Z; n_parent : Z; n_need_writing : bool; n_new_node : bool; n_phys : Z;
  n_cipher : list Z; n_plain : list Z }.

Definition slot_of (ty number : Z) : Z :=
  if ty =? FILE_DATA_NODE_TYPE then number mod ATTACHED_DATA_NODES_COUNT
  else ATTACHED_DATA_NODES_COUNT + (number - 1) mod CHILD_MHT_NODES_COUNT.
Definition slot_key (plain : list Z) (i : Z) : list Z := slice (32 * i) 16 plain.
Definition slot_gmac (plain : list Z) (i : Z) : list Z := slice (32 * i + 16) 16 plain.
Definition set_slot (i : Z) (key gmac : list Z) (plain : list Z) : list Z :=
  splice (32 * i) key (splice (32 * i + 16) gmac plain).

Definition zero_node : list Z := zreplicate NODE_SIZE 0.

Definition mht_physical (mht_node_number : Z) : Z :=
  u64 (1 + u64 (mht_node_number * (1 + ATTACHED_DATA_NODES_COUNT))).

(** mht_node_number, data_node_number, physical_mht_node_number and
    physical_data_node_number of an offset in the file; assert(offset >=
    MD_USER_DATA_SIZE) is checked by the callers. *)
Record node_numbers := MkNumbers { nn_mht : Z; nn_data : Z; nn_physical_mht : Z; nn_physical_data : Z }.
Definition get_node_numbers (offset : Z) : node_numbers :=
  let data_node_number := u64 (offset - MD_USER_DATA_SIZE) / NODE_SIZE in
  let mht_node_number := data_node_number / ATTACHED_DATA_NODES_COUNT in
  let physical_data_node_number := u64 (data_node_number + 1 + 1 + mht_node_number) in
  let physical_mht_node_number :=
    u64 (physical_data_node_number - data_node_number mod ATTACHED_DATA_NODES_COUNT - 1) in
  MkNumbers mht_node_number data_node_number physical_mht_node_number physical_data_node_number.

(** ** The untrusted functions

    Each returns the status of the OCALL and what the function returned. *)
Class Ocalls (W : Type) := {
  u_exclusive_file_open : list Z -> bool -> W -> W * (sgx_status_t * (Z * Z * Z));
  u_check_if_file_exists : list Z -> W -> W * (sgx_status_t * Z);
  u_fread_node : Z -> Z -> W -> W * (sgx_status_t * (Z * list Z));
  u_fwrite_node : Z -> Z -> list Z -> W -> W * (sgx_status_t * Z);
  u_fclose : Z -> W -> W * (sgx_status_t * Z);
  u_fflush : Z -> W -> W * (sgx_status_t * Z);
  u_remove : list Z -> W -> W * (sgx_status_t * Z);
  u_recovery_file_open : list Z -> W -> W * (sgx_status_t * Z);
  u_fwrite_recovery_node : Z -> list Z -> W -> W * (sgx_status_t * Z);
  u_do_file_recovery : list Z -> list Z -> Z -> W -> W * (sgx_status_t * Z) }.

(** ** The file object *)
Inductive protected_fs_status_e : Set :=
| SGX_FILE_STATUS_OK | SGX_FILE_STATUS_NOT_INITIALIZED | SGX_FILE_STATUS_FLUSH_ERROR
| SGX_FILE_STATUS_WRITE_TO_DISK_FAILED | SGX_FILE_STATUS_CRYPTO_ERROR | SGX_FILE_STATUS_CORRUPTED
| SGX_FILE_STATUS_MEMORY_CORRUPTED | SGX_FILE_STATUS_CLOSED.

#[export] Instance status_eq_dec : EqDecision protected_fs_status_e.
Proof. solve_decision. Defined.

Record open_mode_t := MkMode { om_read : bool; om_write : bool; om_append : bool; om_binary : bool; om_update : bool }.

Record protected_fs_file (W : Type) := MkFile {
  file_meta_data : meta_data_node_t; encrypted_part_plain : meta_data_encrypted_t; root_mht : file_node; file : Z;
  open_mode : open_mode_t; read_only : bool; offset : Z; end_of_file : bool; real_file_size : Z;
  need_writing : bool; last_error : Z; file_status : protected_fs_status_e;
  use_user_kdk_key : Z; user_kdk_key : list Z; cur_key : list Z; session_master_key : list Z; master_key_count : Z;
  recovery_filename : list Z; cache : lru_cache file_node; world : W }.
Arguments MkFile {W}.
Arguments file_meta_data {W}.
Arguments encrypted_part_plain {W}.
Arguments root_mht {W}.
Arguments file {W}.
Arguments open_mode {W}.
Arguments read_only {W}.
Arguments offset {W}.
Arguments end_of_file {W}.
Arguments real_file_size {W}.
Arguments need_writing {W}.
Arguments last_error {W}.
Arguments file_status {W}.
Arguments use_user_kdk_key {W}.
Arguments user_kdk_key {W}.
Arguments cur_key {W}.
Arguments session_master_key {W}.
Arguments master_key_count {W}.
Arguments recovery_filename {W}.
Arguments cache {W}.
Arguments world {W}.

Section File.
Context {W : Type} {PF : Platform W} {G : AesGcm} {OC : Ocalls W}.
Abbreviation pfs := (protected_fs_file W).
Abbreviation FM := (M pfs unit).

Definition set_file_meta_data (v : meta_data_node_t) (s : pfs) : pfs :=
  MkFile v (encrypted_part_plain s) (root_mht s) (file s) (open_mode s) (read_only s) (offset s) (end_of_file s)
    (real_file_size s) (need_writing s) (last_error s) (file_status s) (use_user_kdk_key s) (user_kdk_key s)
    (cur_key s) (session_master_key s) (master_key_count s) (recovery_filename s) (cache s) (world s).
Definition set_encrypted_part_plain (v : meta_data_encrypted_t) (s : pfs) : pfs :=
  MkFile (file_meta_data s) v (root_mht s) (file s) (open_mode s) (read_only s) (offset s) (end_of_file s)
    (real_file_size s) (need_writing s) (last_error s) (file_status s) (use_user_kdk_key s) (user_kdk_key s)
    (cur_key s) (session_master_key s) (master_key_count s) (recovery_filename s) (cache s) (world s).
Definition set_root_mht (v : file_node) (s : pfs) : pfs :=
  MkFile (file_meta_data s) (encrypted_part_plain s) v (file s) (open_mode s) (read_only s) (offset s)
    (end_of_file s) (real_file_size s) (need_writing s) (last_error s) (file_status s) (use_user_kdk_key s)
    (user_kdk_key s) (cur_key s) (session_master_key s) (master_key_count s) (recovery_filename s) (cache s)
    (world s).
Definition set_file (v : Z) (s : pfs) : pfs :=
  MkFile (file_meta_data s) (encrypted_part_plain s) (root_mht s) v (open_mode s) (read_only s) (offset s)
    (end_of_file s) (real_file_size s) (need_writing s) (last_error s) (file_status s) (use_user_kdk_key s)
    (user_kdk_key s) (cur_key s) (session_master_key s) (master_key_count s) (recovery_filename s) (cache s)
    (world s).
Definition set_open_mode (v : open_mode_t) (s : pfs) : pfs :=
  MkFile (file_meta_data s) (encrypted_part_plain s) (root_mht s) (file s) v (read_only s) (offset s)
    (end_of_file s) (real_file_size s) (need_writing s) (last_error s) (file_status s) (use_user_kdk_key s)
    (user_kdk_key s) (cur_key s) (session_master_key s) (master_key_count s) (recovery_filename s) (cache s)
    (world s).
Definition set_read_only (v : bool) (s : pfs) : pfs :=
  MkFile (file_meta_data s) (encrypted_part_plain s) (root_mht s) (file s) (open_mode s) v (offset s)
    (end_of_file s) (real_file_size s) (need_writing s) (last_error s) (file_status s) (use_user_kdk_key s)
    (user_kdk_key s) (cur_key s) (session_master_key s) (master_key_count s) (recovery_filename s) (cache s)
    (world s).
Definition set_offset (v : Z) (s : pfs) : pfs :=
  MkFile (file_meta_data s) (encrypted_part_plain s) (root_mht s) (file s) (open_mode s) (read_only s) v
    (end_of_file s) (real_file_size s) (need_writing s) (last_error s) (file_status s) (use_user_kdk_key s)
    (user_kdk_key s) (cur_key s) (session_master_key s) (master_key_count s) (recovery_filename s) (cache s)
    (world s).
Definition set_end_of_file (v : bool) (s : pfs) : pfs :=
  MkFile (file_meta_data s) (encrypted_part_plain s) (root_mht s) (file s) (open_mode s) (read_only s)
    (offset s) v (real_file_size s) (need_writing s) (last_error s) (file_status s) (use_user_kdk_key s)
    (user_kdk_key s) (cur_key s) (session_master_key s) (master_key_count s) (recovery_filename s) (cache s)
    (world s).
Definition set_real_file_size (v : Z) (s : pfs) : pfs :=
  MkFile (file_meta_data s) (encrypted_part_plain s) (root_mht s) (file s) (open_mode s) (read_only s) (offset s)
    (end_of_file s) v (need_writing s) (last_error s) (file_status s) (use_user_kdk_key s) (user_kdk_key s)
    (cur_key s) (session_master_key s) (master_key_count s) (recovery_filename s) (cache s) (world s).
Definition set_need_writing (v : bool) (s : pfs) : pfs :=
  MkFile (file_meta_data s) (encrypted_part_plain s) (root_mht s) (file s) (open_mode s) (read_only s) (offset s)
    (end_of_file s) (real_file_size s) v (last_error s) (file_status s) (use_user_kdk_key s) (user_kdk_key s)
    (cur_key s) (session_master_key s) (master_key_count s) (recovery_filename s) (cache s) (world s).
Definition set_last_error (v : Z) (s : pfs) : pfs :=
  MkFile (file_meta_data s) (encrypted_part_plain s) (root_mht s) (file s) (open_mode s) (read_only s) (offset s)
    (end_of_file s) (real_file_size s) (need_writing s) v (file_status s) (use_user_kdk_key s) (user_kdk_key s)
    (cur_key s) (session_master_key s) (master_key_count s) (recovery_filename s) (cache s) (world s).
Definition set_file_status (v : protected_fs_status_e) (s : pfs) : pfs :=
  MkFile (file_meta_data s) (encrypted_part_plain s) (root_mht s) (file s) (open_mode s) (read_only s) (offset s)
    (end_of_file s) (real_file_size s) (need_writing s) (last_error s) v (use_user_kdk_key s) (user_kdk_key s)
    (cur_key s) (session_master_key s) (master_key_count s) (recovery_filename s) (cache s) (world s).
Definition set_use_user_kdk_key (v : Z) (s : pfs) : pfs :=
  MkFile (file_meta_data s) (encrypted_part_plain s) (root_mht s) (file s) (open_mode s) (read_only s) (offset s)
    (end_of_file s) (real_file_size s) (need_writing s) (last_error s) (file_status s) v (user_kdk_key s)
    (cur_key s) (session_master_key s) (master_key_count s) (recovery_filename s) (cache s) (world s).
Definition set_user_kdk_key (v : list Z) (s : pfs) : pfs :=
  MkFile (file_meta_data s) (encrypted_part_plain s) (root_mht s) (file s) (open_mode s) (read_only s) (offset s)
    (end_of_file s) (real_file_size s) (need_writing s) (last_error s) (file_status s) (use_user_kdk_key s) v
    (cur_key s) (session_master_key s) (master_key_count s) (recovery_filename s) (cache s) (world s).
Definition set_cur_key (v : list Z) (s : pfs) : pfs :=
  MkFile (file_meta_data s) (encrypted_part_plain s) (root_mht s) (file s) (open_mode s) (read_only s) (offset s)
    (end_of_file s) (real_file_size s) (need_writing s) (last_error s) (file_status s) (use_user_kdk_key s)
    (user_kdk_key s) v (session_master_key s) (master_key_count s) (recovery_filename s) (cache s) (world s).
Definition set_session_master_key (v : list Z) (s : pfs) : pfs :=
  MkFile (file_meta_data s) (encrypted_part_plain s) (root_mht s) (file s) (open_mode s) (read_only s) (offset s)
    (end_of_file s) (real_file_size s) (need_writing s) (last_error s) (file_status s) (use_user_kdk_key s)
    (user_kdk_key s) (cur_key s) v (master_key_count s) (recovery_filename s) (cache s) (world s).
Definition set_master_key_count (v : Z) (s : pfs) : pfs :=
  MkFile (file_meta_data s) (encrypted_part_plain s) (root_mht s) (file s) (open_mode s) (read_only s) (offset s)
    (end_of_file s) (real_file_size s) (need_writing s) (last_error s) (file_status s) (use_user_kdk_key s)
    (user_kdk_key s) (cur_key s) (session_master_key s) v (recovery_filename s) (cache s) (world s).
Definition set_recovery_filename (v : list Z) (s : pfs) : pfs :=
  MkFile (file_meta_data s) (encrypted_part_plain s) (root_mht s) (file s) (open_mode s) (read_only s) (offset s)
    (end_of_file s) (real_file_size s) (need_writing s) (last_error s) (file_status s) (use_user_kdk_key s)
    (user_kdk_key s) (cur_key s) (session_master_key s) (master_key_count s) v (cache s) (world s).
Definition set_cache (v : lru_cache file_node) (s : pfs) : pfs :=
  MkFile (file_meta_data s) (encrypted_part_plain s) (root_mht s) (file s) (open_mode s) (read_only s) (offset s)
    (end_of_file s) (real_file_size s) (need_writing s) (last_error s) (file_status s) (use_user_kdk_key s)
    (user_kdk_key s) (cur_key s) (session_master_key s) (master_key_count s) (recovery_filename s) v (world s).
Definition set_world (v : W) (s : pfs) : pfs :=
  MkFile (file_meta_data s) (encrypted_part_plain s) (root_mht s) (file s) (open_mode s) (read_only s) (offset s)
    (end_of_file s) (real_file_size s) (need_writing s) (last_error s) (file_status s) (use_user_kdk_key s)
    (user_kdk_key s) (cur_key s) (session_master_key s) (master_key_count s) (recovery_filename s) (cache s) v.

(** last_error = e; return false *)
Definition fail {A} (e : Z) : FM A := mmod (set_last_error e) ;; merr tt.

(** A function of the world, its result as a value *)
Definition on_world {A} (f : W -> W * A) : FM A := fun s =>
  let '(w, a) := f (world s) in (set_world w s, Ok a).

(** status != SGX_SUCCESS ? status : e *)
Definition status_or (status : sgx_status_t) (e : Z) : Z :=
  match status with SGX_SUCCESS => e | _ => sgx_status_code status end.
Definition ok_status (status : sgx_status_t) : bool := match status with SGX_SUCCESS => true | _ => false end.

(** A call whose error becomes last_error *)
Definition try_status {A} (m : M W sgx_status_t A) : FM A := fun s =>
  match m (world s) with
  | (w, Ok a) => (set_world w s, Ok a)
  | (w, Err e) => (set_last_error (sgx_status_code e) (set_world w s), Err tt)
  | (w, Stuck) => (set_world w s, Stuck)
  end.

(** new, caught std::bad_alloc *)
Definition new_or_fail : FM unit := b ← on_world pf_malloc; if (b : bool) then mret tt else fail ENOMEM.

(** The node a pointer refers to, and its modification *)
Definition node_at (key : Z) : FM file_node := fun s =>
  if key =? 1 then (s, Ok (root_mht s))
  else match c_map (cache s) !! key with Some n => (s, Ok n) | None => (s, Stuck) end.

Definition cache_set (key : Z) (n : file_node) (c : lru_cache file_node) : lru_cache file_node :=
  MkCache (c_list c) (<[key := n]> (c_map c)) (c_it c).

Definition upd_node (key : Z) (f : file_node -> file_node) : FM unit := fun s =>
  if key =? 1 then (set_root_mht (f (root_mht s)) s, Ok tt)
  else match c_map (cache s) !! key with
       | Some n => (set_cache (cache_set key (f n) (cache s)) s, Ok tt)
       | None => (s, Stuck)
       end.

Definition set_need (b : bool) (n : file_node) : file_node :=
  MkNode (n_type n) (n_number n) (n_parent n) b (n_new_node n) (n_phys n) (n_cipher n) (n_plain n).
Definition set_new (b : bool) (n : file_node) : file_node :=
  MkNode (n_type n) (n_number n) (n_parent n) (n_need_writing n) b (n_phys n) (n_cipher n) (n_plain n).
Definition set_cipher (c : list Z) (n : file_node) : file_node :=
  MkNode (n_type n) (n_number n) (n_parent n) (n_need_writing n) (n_new_node n) (n_phys n) c (n_plain n).
Definition set_plain (p : list Z) (n : file_node) : file_node :=
  MkNode (n_type n) (n_number n) (n_parent n) (n_need_writing n) (n_new_node n) (n_phys n) (n_cipher n) p.

(** lru_cache::add, which allocates twice *)
Definition cache_add (key : Z) (n : file_node) : FM unit :=
  new_or_fail ;; new_or_fail ;;
  s ← mget;
  c ← mlift (add key n (cache s));
  mmod (set_cache c).

(** The chain of parents up to the root has at most 13 nodes: a number below
    2^64 divided 13 times by 32 is 0. *)
Definition depth_fuel : nat := 14.

(** ** Keys (file_crypto.cpp)

    Addresses of the local buffers, of cur_key and of report *)
Variable g : runtime.
Variables a_local a_cur_key a_report : Z.

Definition MAX_LABEL_LEN : Z := 64.
Definition MAX_MASTER_KEY_USAGES : Z := 65536.
Definition chars (str : string) : list Z := map (fun c => Z.of_N (Ascii.N_of_ascii c)) (String.list_ascii_of_string str).
Definition MASTER_KEY_NAME : list Z := chars "SGX-PROTECTED-FS-MASTER-KEY".
Definition RANDOM_KEY_NAME : list Z := chars "SGX-PROTECTED-FS-RANDOM-KEY".
Definition METADATA_KEY_NAME : list Z := chars "SGX-PROTECTED-FS-METADATA-KEY".

(** kdf_input_t with index 1 and a 128-bit output; the compiler aligns
    node_number and the end of the structure at 8 bytes. *)
Definition kdf_input (label : list Z) (node_number : Z) (nonce : list Z) : list Z :=
  le_bytes 4 0x01 ++ (label ++ zreplicate (MAX_LABEL_LEN - zlen label) 0) ++ zreplicate 4 0 ++
  le_bytes 8 node_number ++ (nonce ++ zreplicate (32 - zlen nonce) 0) ++ le_bytes 4 0x80 ++ zreplicate 4 0.

Definition generate_secure_blob (key label : list Z) (physical_node_number : Z) : FM (list Z) :=
  if zlen label >? MAX_LABEL_LEN then fail EINVAL
  else
    nonce16 ← try_status (sgx_read_rand g pf_rdrand (a_local + 80) 16);
    try_status (sgx_rijndael128_cmac_msg key (kdf_input label physical_node_number nonce16)).

Definition set_key_id (key_id : list Z) (m : meta_data_node_t) : meta_data_node_t :=
  let p := plain_part m in
  MkMeta (MkPlain (p_file_id p) (p_major_version p) (p_minor_version p) key_id (p_cpu_svn p) (p_isv_svn p)
            (p_use_user_kdk_key p) (p_attribute_mask p) (p_meta_data_gmac p) (p_update_flag p))
    (encrypted_part m) (padding m).

Definition generate_secure_blob_from_user_kdk (restore : bool) : FM unit :=
  s ← mget;
  nonce32 ← (if restore then mret (p_meta_data_key_id (plain_part (file_meta_data s)))
             else try_status (sgx_read_rand g pf_rdrand (a_local + 80) 32));
  k ← try_status (sgx_rijndael128_cmac_msg (user_kdk_key s) (kdf_input METADATA_KEY_NAME 0 nonce32));
  mmod (set_cur_key k) ;;
  if restore then mret tt else mmod (fun s : pfs => set_file_meta_data (set_key_id nonce32 (file_meta_data s)) s).

Definition init_session_master_key : FM unit :=
  k ← generate_secure_blob (zreplicate 16 0) MASTER_KEY_NAME 0;
  mmod (set_session_master_key k) ;;
  mmod (set_master_key_count 0).

Definition derive_random_node_key (physical_node_number : Z) : FM unit :=
  s ← mget;
  mmod (set_master_key_count (u32 (master_key_count s + 1))) ;;
  (if master_key_count s >? MAX_MASTER_KEY_USAGES then init_session_master_key else mret tt) ;;
  s ← mget;
  k ← generate_secure_blob (session_master_key s) RANDOM_KEY_NAME physical_node_number;
  mmod (set_cur_key k).

Definition md_key_request (isv_svn : Z) (cpu_svn key_id : list Z) : sgx_key_request_t :=
  MkKeyRequest SGX_KEYSELECT_SEAL SGX_KEYPOLICY_MRSIGNER isv_svn 0 cpu_svn TSEAL_DEFAULT_FLAGSMASK 0 key_id
    TSEAL_DEFAULT_MISCMASK 0 (zreplicate 434 0).

Definition set_key_info (key_id cpu_svn : list Z) (isv_svn : Z) (m : meta_data_node_t) : meta_data_node_t :=
  let p := plain_part m in
  MkMeta (MkPlain (p_file_id p) (p_major_version p) (p_minor_version p) key_id cpu_svn isv_svn
            (p_use_user_kdk_key p) (p_attribute_mask p) (p_meta_data_gmac p) (p_update_flag p))
    (encrypted_part m) (padding m).

Definition generate_random_meta_data_key : FM unit :=
  s ← mget;
  if use_user_kdk_key s =? 1 then generate_secure_blob_from_user_kdk false
  else
    let cpu_svn := r_cpu_svn pf_report in
    let isv_svn := r_isv_svn pf_report in
    key_id ← try_status (sgx_read_rand g pf_rdrand (a_local + 40) 32);
    k ← try_status (sgx_get_key g a_local (key_request_bytes (md_key_request isv_svn cpu_svn key_id)) a_cur_key);
    mmod (set_cur_key k) ;;
    mmod (fun s : pfs => set_file_meta_data (set_key_info key_id cpu_svn isv_svn (file_meta_data s)) s).

Definition restore_current_meta_data_key (import_key : option (list Z)) : FM unit :=
  s ← mget;
  match import_key with
  | Some k => mmod (set_cur_key k)
  | None =>
      let p := plain_part (file_meta_data s) in
      if use_user_kdk_key s =? 1 then generate_secure_blob_from_user_kdk true
      else if bool_decide (p_meta_data_key_id p = zreplicate 32 0) then fail (sgx_status_code SGX_ERROR_FILE_NO_KEY_ID)
      else
        k ← try_status (sgx_get_key g a_local
              (key_request_bytes (md_key_request (p_isv_svn p) (p_cpu_svn p) (p_meta_data_key_id p))) a_cur_key);
        mmod (set_cur_key k)
  end.
End File.
