(* ===== verification/PfsIo.v ===== *)
(** * Protected file system: flushing, reading and writing

    file_flush.cpp and file_read_write.cpp.  The loops over the cache are
    [cache_each]; the loops over the chain of parents have [depth_fuel] steps.
    An assertion of the source that fails is [Stuck], as is running out of
    fuel.  When a call of the cipher fails, the crypto data of the node being
    encrypted is left as it was, where the source may clear the gmac: the file
    is then in the state SGX_FILE_STATUS_CRYPTO_ERROR and cannot be used. *)

From stdpp Require Import gmap.
From S2P Require Import Prelude Bytes Arch Trts Tcrypto Seal Thread Lru Pfs.

#[local] Open Scope Z_scope.

Section Io.
Context {W : Type} {PF : Platform W} {G : AesGcm} {OC : Ocalls W}.
Variable g : runtime.
Variables a_local a_cur_key : Z.
Abbreviation pfs := (protected_fs_file W).
Abbreviation FM := (M pfs unit).
Abbreviation derive_random_node_key := (derive_random_node_key g a_local).
Abbreviation generate_random_meta_data_key := (generate_random_meta_data_key g a_local a_cur_key).

Definition out_of_fuel {A} : FM A := mlift Stuck.
Definition assert_ (b : bool) : FM unit := mlift (assertc b).

(** ** Traversals: for (data = get_first(); data != NULL; data = get_next()) *)
Definition cache_step (f : lru_cache file_node -> lru_cache file_node * res unit (option (Z * file_node)))
    : FM (option (Z * file_node)) := fun s =>
  let '(c, r) := f (cache s) in (set_cache c s, r).

Fixpoint each_loop {A} (fuel : nat) (body : A -> Z -> FM A) (a : A) (data : option (Z * file_node)) : FM A :=
  match fuel, data with
  | _, None => mret a
  | O, _ => out_of_fuel
  | S k, Some (key, _) =>
      a' ← body a key;
      next ← cache_step get_next;
      each_loop k body a' next
  end.

Definition cache_each {A} (body : A -> Z -> FM A) (a : A) : FM A :=
  s ← mget;
  first ← cache_step get_first;
  each_loop (length (c_list (cache s))) body a first.

(** ** Untrusted functions on the open file *)

(** (status != SGX_SUCCESS) ? status : (result32 != -1) ? result32 : EIO *)
Definition io_error (status : sgx_status_t) (result32 : Z) : Z :=
  status_or status (if result32 =? -1 then EIO else u32 result32).

Definition io_ok (status : sgx_status_t) (result : Z) : bool := ok_status status && (result =? 0).

Definition fread_node (number : Z) : FM (list Z) :=
  s ← mget;
  r ← on_world (u_fread_node (file s) number);
  let '(status, (result32, buffer)) := r in
  if io_ok status result32 then mret buffer else fail (io_error status result32).

Definition fwrite_node (number : Z) (data : list Z) : FM unit :=
  s ← mget;
  r ← on_world (u_fwrite_node (file s) number data);
  let '(status, result32) := r in
  if io_ok status result32 then mret tt else fail (io_error status result32).

(** The calls whose result is ignored *)
Definition fwrite_node_ (number : Z) (data : list Z) : FM unit :=
  s ← mget; on_world (u_fwrite_node (file s) number data) ;; mret tt.
Definition fflush_ : FM unit := s ← mget; on_world (u_fflush (file s)) ;; mret tt.

(** ** The recovery file *)
Definition recovery_node (phys : Z) (cipher : list Z) : list Z := le_bytes 8 phys ++ cipher.

Definition write_recovery_node (recovery_file : Z) (data : list Z) : FM unit :=
  s ← mget;
  r ← on_world (u_fwrite_recovery_node recovery_file data);
  let '(status, result) := r in
  if io_ok status result then mret tt
  else
    on_world (u_fclose recovery_file) ;;
    on_world (u_remove (recovery_filename s)) ;;
    fail (status_or status (sgx_status_code SGX_ERROR_FILE_CANT_WRITE_RECOVERY_FILE)).

Definition write_recovery_file : FM unit :=
  s ← mget;
  r ← on_world (u_recovery_file_open (recovery_filename s));
  let '(status, recovery_file) := r in
  if negb (ok_status status) || (recovery_file =? 0)
  then fail (status_or status (sgx_status_code SGX_ERROR_FILE_CANT_OPEN_RECOVERY_FILE))
  else
    cache_each (fun _ key =>
      n ← node_at key;
      if negb (n_need_writing n) || n_new_node n then mret tt
      else write_recovery_node recovery_file (recovery_node (n_phys n) (n_cipher n))) tt ;;
    s ← mget;
    (if n_need_writing (root_mht s) && negb (n_new_node (root_mht s))
     then write_recovery_node recovery_file (recovery_node (n_phys (root_mht s)) (n_cipher (root_mht s)))
     else mret tt) ;;
    write_recovery_node recovery_file (recovery_node 0 (meta_bytes (file_meta_data s))) ;;
    on_world (u_fclose recovery_file) ;;
    mret tt.

Definition with_update_flag (v : Z) (m : meta_data_node_t) : meta_data_node_t :=
  let p := plain_part m in
  MkMeta (MkPlain (p_file_id p) (p_major_version p) (p_minor_version p) (p_meta_data_key_id p) (p_cpu_svn p)
            (p_isv_svn p) (p_use_user_kdk_key p) (p_attribute_mask p) (p_meta_data_gmac p) v)
    (encrypted_part m) (padding m).

(** fflush, where it has to succeed *)
Definition fflush_or (on_error : FM unit) : FM unit :=
  s ← mget;
  r ← on_world (u_fflush (file s));
  let '(status, result) := r in
  if io_ok status result then mret tt
  else
    mmod (set_last_error (status_or status (sgx_status_code SGX_ERROR_FILE_FLUSH_FAILED))) ;;
    on_error ;; merr tt.

Definition set_update_flag (flush_to_disk : bool) : FM unit :=
  s ← mget;
  let off := with_update_flag 0 (file_meta_data s) in
  r ← on_world (u_fwrite_node (file s) 0 (meta_bytes (with_update_flag 1 (file_meta_data s))));
  let '(status, result32) := r in
  mmod (set_file_meta_data off) ;;
  if negb (io_ok status result32) then fail (io_error status result32)
  else if flush_to_disk then fflush_or (fwrite_node_ 0 (meta_bytes off)) else mret tt.

Definition clear_update_flag : FM unit :=
  s ← mget;
  assert_ (p_update_flag (plain_part (file_meta_data s)) =? 0) ;;
  fwrite_node_ 0 (meta_bytes (file_meta_data s)) ;;
  fflush_.

(** ** Encrypting the changes *)
Definition empty_iv : list Z := zreplicate SGX_AESGCM_IV_SIZE 0.

(** sgx_rijndael128GCM_encrypt under cur_key; [put] stores the cipher text *)
Definition encrypt_to (src : list Z) (put : list Z -> FM unit) : FM (list Z) := fun s =>
  let '(w, (dst, r)) := sgx_rijndael128GCM_encrypt (cur_key s) (Some src) false empty_iv None (world s) in
  ((match dst with Some c => put c | None => mret tt end) ;;
   match r with Ok gmac => mret gmac | Err e => fail (sgx_status_code e) | Stuck => mlift Stuck end) (set_world w s).

(** while (file_mht_node->mht_node_number != 0) set need_writing, on the chain
    of parents from [key]; with [check], each is asserted to be set already. *)
Fixpoint mark_parents (fuel : nat) (check : bool) (key : Z) : FM unit :=
  match fuel with
  | O => out_of_fuel
  | S k =>
      p ← node_at key;
      if n_number p =? 0 then mret tt
      else
        assert_ (negb check || n_need_writing p) ;;
        upd_node key (set_need true) ;;
        mark_parents k check (n_parent p)
  end.

(** The key and gmac of a node go to its slot in the parent. *)
Definition store_crypto (n : file_node) (gmac : list Z) : FM unit :=
  s ← mget;
  upd_node (n_parent n)
    (fun p => set_plain (set_slot (slot_of (n_type n) (n_number n)) (cur_key s) gmac (n_plain p)) p).

Definition update_node (key : Z) (n : file_node) : FM unit :=
  derive_random_node_key (n_phys n) ;;
  gmac ← encrypt_to (n_plain n) (fun c => upd_node key (set_cipher c));
  store_crypto n gmac.

Definition update_data_node (key : Z) : FM unit :=
  n ← node_at key;
  if (n_type n =? FILE_DATA_NODE_TYPE) && n_need_writing n then
    update_node key n ;;
    mark_parents depth_fuel true (n_parent n)
  else mret tt.

(** mht_list.push_front for a changed mht node *)
Definition collect_mht (mht_list : list (Z * Z)) (key : Z) : FM (list (Z * Z)) :=
  n ← node_at key;
  mret (if (n_type n =? FILE_MHT_NODE_TYPE) && n_need_writing n then (n_number n, key) :: mht_list else mht_list).

(** mht_list.sort(mht_order): higher number first *)
Fixpoint insert_mht (x : Z * Z) (l : list (Z * Z)) : list (Z * Z) :=
  match l with
  | [] => [x]
  | y :: l' => if fst x >=? fst y then x :: l else y :: insert_mht x l'
  end.
Fixpoint sort_mht (l : list (Z * Z)) : list (Z * Z) :=
  match l with [] => [] | x :: l' => insert_mht x (sort_mht l') end.

Fixpoint update_mht_nodes (mht_list : list (Z * Z)) : FM unit :=
  match mht_list with
  | [] => mret tt
  | (_, key) :: l => n ← node_at key; update_node key n ;; update_mht_nodes l
  end.

Definition set_mht_crypto (key gmac : list Z) (e : meta_data_encrypted_t) : meta_data_encrypted_t :=
  MkEnc (e_clean_filename e) (e_size e) (e_mc e) key gmac (e_data e).

Definition update_root : FM unit :=
  s ← mget;
  derive_random_node_key (n_phys (root_mht s)) ;;
  gmac ← encrypt_to (n_plain (root_mht s)) (fun c => mmod (fun s : pfs => set_root_mht (set_cipher c (root_mht s)) s));
  mmod (fun s => set_encrypted_part_plain (set_mht_crypto (cur_key s) gmac (encrypted_part_plain s)) s).

Definition update_all_data_and_mht_nodes : FM unit :=
  cache_each (fun _ key => update_data_node key) tt ;;
  mht_list ← cache_each collect_mht [];
  update_mht_nodes (sort_mht mht_list) ;;
  update_root.

Definition set_gmac (gmac : list Z) (m : meta_data_node_t) : meta_data_node_t :=
  let p := plain_part m in
  MkMeta (MkPlain (p_file_id p) (p_major_version p) (p_minor_version p) (p_meta_data_key_id p) (p_cpu_svn p)
            (p_isv_svn p) (p_use_user_kdk_key p) (p_attribute_mask p) gmac (p_update_flag p))
    (encrypted_part m) (padding m).

Definition set_encrypted_part (c : list Z) (m : meta_data_node_t) : meta_data_node_t :=
  MkMeta (plain_part m) c (padding m).

Definition update_meta_data_node : FM unit :=
  generate_random_meta_data_key ;;
  s ← mget;
  gmac ← encrypt_to (enc_bytes (encrypted_part_plain s))
           (fun c => mmod (fun s : pfs => set_file_meta_data (set_encrypted_part c (file_meta_data s)) s));
  mmod (fun s => set_file_meta_data (set_gmac gmac (file_meta_data s)) s).

(** ** Writing the changes *)
Definition write_node (key : Z) : FM unit :=
  n ← node_at key;
  if negb (n_need_writing n) then mret tt
  else
    fwrite_node (n_phys n) (n_cipher n) ;;
    upd_node key (fun n => set_new false (set_need false n)).

Definition tree_changed (s : pfs) : bool :=
  (e_size (encrypted_part_plain s) >? MD_USER_DATA_SIZE) && n_need_writing (root_mht s).

Definition write_all_changes_to_disk (flush_to_disk : bool) : FM unit :=
  s ← mget;
  (if tree_changed s then
     cache_each (fun _ key => write_node key) tt ;;
     s ← mget;
     fwrite_node 1 (n_cipher (root_mht s)) ;;
     mmod (fun s => set_root_mht (set_new false (set_need false (root_mht s))) s)
   else mret tt) ;;
  s ← mget;
  fwrite_node 0 (meta_bytes (file_meta_data s)) ;;
  if flush_to_disk then fflush_or (mret tt) else mret tt.

(** [m]; if it fails, [on_error], the new status, and return false *)
Definition or_status (m : FM unit) (on_error : FM unit) (st : protected_fs_status_e) : FM unit :=
  mcase m mret (fun _ => on_error ;; mmod (set_file_status st) ;; merr tt).

Definition internal_flush (flush_to_disk : bool) : FM unit :=
  s ← mget;
  if negb (need_writing s) then mret tt
  else
    (if tree_changed s then
       or_status write_recovery_file (mret tt) SGX_FILE_STATUS_FLUSH_ERROR ;;
       or_status (set_update_flag flush_to_disk) (mret tt) SGX_FILE_STATUS_FLUSH_ERROR ;;
       or_status update_all_data_and_mht_nodes clear_update_flag SGX_FILE_STATUS_CRYPTO_ERROR
     else mret tt) ;;
    or_status update_meta_data_node clear_update_flag SGX_FILE_STATUS_CRYPTO_ERROR ;;
    or_status (write_all_changes_to_disk flush_to_disk) (mret tt) SGX_FILE_STATUS_WRITE_TO_DISK_FAILED ;;
    mmod (set_need_writing false).

(** ** Getting nodes (file_read_write.cpp) *)

(** sgx_rijndael128GCM_decrypt; a MAC mismatch means that the file is corrupted. *)
Definition decrypt_from (key gmac cipher : list Z) : FM (list Z) := fun s =>
  let '(w, (dst, r)) := sgx_rijndael128GCM_decrypt key (Some cipher) false empty_iv None gmac (world s) in
  (match r with
   | Ok _ => mret (default [] dst)
   | Err e =>
       mmod (set_last_error (sgx_status_code e)) ;;
       (match e with SGX_ERROR_MAC_MISMATCH => mmod (set_file_status SGX_FILE_STATUS_CORRUPTED) | _ => mret tt end) ;;
       merr tt
   | Stuck => mlift Stuck
   end) (set_world w s).

(** The part that read_data_node and read_mht_node share: a node that is not in
    the cache is read from the disk and checked against its parent. *)
Definition load_node (ty number physical_node_number parent : Z) : FM Z :=
  new_or_fail ;;
  cipher ← fread_node physical_node_number;
  p ← node_at parent;
  plain ← decrypt_from (slot_key (n_plain p) (slot_of ty number)) (slot_gmac (n_plain p) (slot_of ty number)) cipher;
  cache_add physical_node_number (MkNode ty number parent false false physical_node_number cipher plain) ;;
  mret physical_node_number.

Fixpoint read_mht_node_loop (fuel : nat) (mht_node_number : Z) : FM Z :=
  match fuel with
  | O => out_of_fuel
  | S k =>
      if mht_node_number =? 0 then mret 1
      else
        let physical_node_number := mht_physical mht_node_number in
        s ← mget;
        match find physical_node_number (cache s) with
        | Some _ => mret physical_node_number
        | None =>
            parent ← read_mht_node_loop k ((mht_node_number - 1) / CHILD_MHT_NODES_COUNT);
            load_node FILE_MHT_NODE_TYPE mht_node_number physical_node_number parent
        end
  end.
Definition read_mht_node : Z -> FM Z := read_mht_node_loop depth_fuel.

(** A new node, zero except for the fields that are set *)
Definition new_node_ (ty number physical_node_number parent : Z) : file_node :=
  MkNode ty number parent false true physical_node_number zero_node zero_node.

Definition append_mht_node (mht_node_number : Z) : FM Z :=
  parent ← read_mht_node ((mht_node_number - 1) / CHILD_MHT_NODES_COUNT);
  let physical_node_number := mht_physical mht_node_number in
  new_or_fail ;;
  cache_add physical_node_number (new_node_ FILE_MHT_NODE_TYPE mht_node_number physical_node_number parent) ;;
  mret physical_node_number.

Definition unexpected {A} : FM A := fail (sgx_status_code SGX_ERROR_UNEXPECTED).

Definition get_mht_node : FM Z :=
  s ← mget;
  if offset s <? MD_USER_DATA_SIZE then unexpected
  else
    let mht_node_number := nn_mht (get_node_numbers (offset s)) in
    if mht_node_number =? 0 then mret 1
    else if (u64 (offset s - MD_USER_DATA_SIZE) mod (ATTACHED_DATA_NODES_COUNT * NODE_SIZE) =? 0)
         && (offset s =? e_size (encrypted_part_plain s))
    then append_mht_node mht_node_number
    else read_mht_node mht_node_number.

Definition append_data_node : FM Z :=
  parent ← get_mht_node;
  new_or_fail ;;
  s ← mget;
  let nn := get_node_numbers (offset s) in
  cache_add (nn_physical_data nn) (new_node_ FILE_DATA_NODE_TYPE (nn_data nn) (nn_physical_data nn) parent) ;;
  mret (nn_physical_data nn).

Definition cache_get (key : Z) : FM (option file_node) := fun s =>
  let '(c, r) := get key (cache s) in (set_cache c s, Ok r).

Definition read_data_node : FM Z :=
  s ← mget;
  let nn := get_node_numbers (offset s) in
  r ← cache_get (nn_physical_data nn);
  match r with
  | Some _ => mret (nn_physical_data nn)
  | None =>
      parent ← get_mht_node;
      load_node FILE_DATA_NODE_TYPE (nn_data nn) (nn_physical_data nn) parent
  end.

(** Bump all the parents. *)
Fixpoint bump_parents (fuel : nat) (key : Z) : FM unit :=
  match fuel with
  | O => out_of_fuel
  | S k =>
      p ← node_at key;
      if n_number p =? 0 then mret tt
      else cache_get (n_phys p) ;; bump_parents k (n_parent p)
  end.

(** if (file_status == SGX_FILE_STATUS_OK) file_status = SGX_FILE_STATUS_FLUSH_ERROR,
    after the assertion of the opposite *)
Definition flush_failed : FM unit :=
  s ← mget;
  assert_ (negb (bool_decide (file_status s = SGX_FILE_STATUS_OK))).

(** while (cache.size() > MAX_PAGES_IN_CACHE) *)
Fixpoint shrink_cache (fuel : nat) : FM unit :=
  match fuel with
  | O => out_of_fuel
  | S k =>
      s ← mget;
      n ← mlift (size (cache s));
      if n <=? MAX_PAGES_IN_CACHE then mret tt
      else
        data ← mlift (get_last (cache s));
        match data with
        | None => out_of_fuel
        | Some (_, node) =>
            if negb (n_need_writing node) then
              c ← mlift (remove_last (cache s));
              mmod (set_cache c) ;; shrink_cache k
            else mcase (internal_flush false) (fun _ => shrink_cache k) (fun _ => flush_failed ;; merr tt)
        end
  end.

Definition shrink_fuel (s : pfs) : nat := S (2 * length (c_list (cache s))).

Definition get_data_node : FM Z :=
  s ← mget;
  if offset s <? MD_USER_DATA_SIZE then unexpected
  else
    r ← mcase (if (u64 (offset s - MD_USER_DATA_SIZE) mod NODE_SIZE =? 0)
                  && (offset s =? e_size (encrypted_part_plain s))
               then append_data_node else read_data_node)
          (fun key => n ← node_at key; bump_parents depth_fuel (n_parent n) ;; mret (Some key))
          (fun _ => mret None);
    s ← mget;
    shrink_cache (shrink_fuel s) ;;
    match r with Some key => mret key | None => merr tt end.

(** ** write *)

(** What write and read check first; [None]: go on. *)
Definition common_checks (mutex_lock size count : Z) (bad_buffer : bool) (buffer_error : Z) (allowed : pfs -> bool) : FM bool :=
  s ← mget;
  if negb (mutex_lock =? 0) then
    mmod (set_last_error (u32 mutex_lock)) ;; mmod (set_file_status SGX_FILE_STATUS_MEMORY_CORRUPTED) ;; mret false
  else if (size >? 2 ^ 32 - 1) || (count >? 2 ^ 32 - 1) then mmod (set_last_error EINVAL) ;; mret false
  else if bad_buffer then mmod (set_last_error buffer_error) ;; mret false
  else if negb (bool_decide (file_status s = SGX_FILE_STATUS_OK))
  then mmod (set_last_error (sgx_status_code SGX_ERROR_FILE_BAD_STATUS)) ;; mret false
  else if negb (allowed s) then mmod (set_last_error EACCES) ;; mret false
  else mret true.

Definition set_md_data (d : list Z) (e : meta_data_encrypted_t) : meta_data_encrypted_t :=
  MkEnc (e_clean_filename e) (e_size e) (e_mc e) (e_mht_key e) (e_mht_gmac e) d.
Definition set_size (n : Z) (e : meta_data_encrypted_t) : meta_data_encrypted_t :=
  MkEnc (e_clean_filename e) n (e_mc e) (e_mht_key e) (e_mht_gmac e) (e_data e).

(** offset += n; if (offset > size) size = offset *)
Definition advance (n : Z) : FM unit :=
  mmod (fun s : pfs => set_offset (i64 (offset s + n)) s) ;;
  mmod (fun s =>
    if offset s >? e_size (encrypted_part_plain s)
    then set_encrypted_part_plain (set_size (offset s) (encrypted_part_plain s)) s else s).

(** The first block of user data is in the meta-data node; the result is what
    is left to write. *)
Definition write_md (data : list Z) : FM (list Z) :=
  s ← mget;
  if offset s <? MD_USER_DATA_SIZE then
    let place := MD_USER_DATA_SIZE - offset s in
    let now := ztake place data in
    mmod (fun s => set_encrypted_part_plain
            (set_md_data (splice (offset s) now (e_data (encrypted_part_plain s))) (encrypted_part_plain s)) s) ;;
    advance (zlen now) ;;
    mmod (set_need_writing true) ;;
    mret (zdrop place data)
  else mret data.

(** One iteration of the loop of write once it has the node *)
Definition write_to_node (key : Z) (data : list Z) : FM (list Z) :=
  s ← mget;
  let offset_in_node := u64 (offset s - MD_USER_DATA_SIZE) mod NODE_SIZE in
  let place := NODE_SIZE - offset_in_node in
  let now := ztake place data in
  upd_node key (fun n => set_plain (splice offset_in_node now (n_plain n)) n) ;;
  advance (zlen now) ;;
  n ← node_at key;
  (if negb (n_need_writing n) then
     upd_node key (set_need true) ;;
     mark_parents depth_fuel false (n_parent n) ;;
     mmod (fun s : pfs => set_root_mht (set_need true (root_mht s)) s) ;;
     mmod (set_need_writing true)
   else mret tt) ;;
  mret (zdrop place data).

(** The result is what could not be written. *)
Fixpoint write_loop (fuel : nat) (data : list Z) : FM (list Z) :=
  match fuel, data with
  | _, [] => mret []
  | O, _ => out_of_fuel
  | S k, _ => mcase get_data_node (fun key => rest ← write_to_node key data; write_loop k rest) (fun _ => mret data)
  end.

Definition write_fuel (n : Z) : nat := S (S (Z.to_nat (n / NODE_SIZE))).

(** [data]: the size * count bytes at [ptr].  [mutex_lock] is what
    sgx_thread_mutex_lock returns on the mutex of the file object. *)
Definition write (mutex_lock ptr : Z) (data : list Z) (size count : Z) : FM Z :=
  if (ptr =? 0) || (size =? 0) || (count =? 0) then mret 0
  else
    go ← common_checks mutex_lock size count (sgx_is_outside_enclave g ptr (u64 (size * count)))
           (sgx_status_code SGX_ERROR_INVALID_PARAMETER)
           (fun s => om_append (open_mode s) || om_update (open_mode s) || om_write (open_mode s));
    if negb (go : bool) then mret 0
    else
      mmod (fun s => if om_append (open_mode s) then set_offset (e_size (encrypted_part_plain s)) s else s) ;;
      data' ← write_md data;
      rest ← write_loop (write_fuel (zlen data)) data';
      mret ((zlen data - zlen rest) / size).

(** ** read *)
Definition read_md (left : Z) : FM (list Z) :=
  s ← mget;
  if offset s <? MD_USER_DATA_SIZE then
    let n := Z.min left (MD_USER_DATA_SIZE - offset s) in
    mmod (fun s : pfs => set_offset (i64 (offset s + n)) s) ;;
    mret (slice (offset s) n (e_data (encrypted_part_plain s)))
  else mret [].

Definition read_from_node (key left : Z) : FM (list Z) :=
  s ← mget;
  let offset_in_node := u64 (offset s - MD_USER_DATA_SIZE) mod NODE_SIZE in
  let n := Z.min left (NODE_SIZE - offset_in_node) in
  node ← node_at key;
  mmod (fun s : pfs => set_offset (i64 (offset s + n)) s) ;;
  mret (slice offset_in_node n (n_plain node)).

(** The bytes stored at the output, [left] of which are still to be read *)
Fixpoint read_loop (fuel : nat) (left : Z) (out : list Z) : FM (list Z) :=
  match fuel with
  | O => if left =? 0 then mret out else out_of_fuel
  | S k =>
      if left =? 0 then mret out
      else mcase get_data_node
             (fun key => chunk ← read_from_node key left; read_loop k (left - zlen chunk) (out ++ chunk))
             (fun _ => mret out)
  end.

(** What is returned, and the bytes stored from [ptr] *)
Definition read (mutex_lock ptr size count : Z) : FM (Z * list Z) :=
  if (ptr =? 0) || (size =? 0) || (count =? 0) then mret (0, [])
  else
    go ← common_checks mutex_lock size count (sgx_is_outside_enclave g ptr (u64 (size * count))) EINVAL
           (fun s => om_read (open_mode s) || om_update (open_mode s));
    if negb (go : bool) then mret (0, [])
    else
      s ← mget;
      if end_of_file s then mret (0, [])
      else if offset s =? e_size (encrypted_part_plain s) then mmod (set_end_of_file true) ;; mret (0, [])
      else
        let attempted := Z.min (u64 (size * count)) (u64 (e_size (encrypted_part_plain s) - offset s)) in
        out ← read_md attempted;
        out ← read_loop (write_fuel attempted) (attempted - zlen out) out;
        (if (zlen out =? attempted) && negb (attempted =? size * count) then
           s ← mget;
           assert_ (offset s =? e_size (encrypted_part_plain s)) ;;
           mmod (set_end_of_file true)
         else mret tt) ;;
        mret (zlen out / size, out).

(** ** flush *)
Definition flush (mutex_lock : Z) : FM unit :=
  s ← mget;
  if negb (mutex_lock =? 0) then
    mmod (set_last_error (u32 mutex_lock)) ;; mmod (set_file_status SGX_FILE_STATUS_MEMORY_CORRUPTED) ;; merr tt
  else if negb (bool_decide (file_status s = SGX_FILE_STATUS_OK))
  then fail (sgx_status_code SGX_ERROR_FILE_BAD_STATUS)
  else mcase (internal_flush true) mret (fun _ => flush_failed ;; merr tt).
End Io.
