(* ===== verification/PfsFile.v ===== *)
(** * Protected file system: opening, closing and positioning

    file_init.cpp, file_other.cpp and the C interface sgx_tprotected_fs.cpp.
    File names and modes are the characters of a C string without the NUL, a
    name stored in a file is a NUL-padded array.  The constructor leaves the
    object in the state SGX_FILE_STATUS_NOT_INITIALIZED when it fails. *)

From stdpp Require Import gmap.
From S2P Require Import Prelude Bytes Arch Trts Tcrypto Seal Thread Lru Pfs PfsIo.

#[local] Open Scope Z_scope.

Definition EOPNOTSUPP : Z := 95.
Definition EOF : Z := -1.
Definition SEEK_SET : Z := 0.
Definition SEEK_CUR : Z := 1.
Definition SEEK_END : Z := 2.

(** ** Names and modes *)
Definition is_separator (c : Z) : bool := (c =? 92) || (c =? 47).

(** What follows the last separator *)
Fixpoint base_name (name p : list Z) : list Z :=
  match p with
  | [] => name
  | c :: p' => base_name (if is_separator c then p' else name) p'
  end.

(** strncpy to an array of [n] characters *)
Definition strncpy (n : Z) (src : list Z) : list Z := ztake n src ++ zreplicate (n - zlen src) 0.

(** strncmp(a, b, n) == 0 *)
Fixpoint strncmp_eq (a b : list Z) : bool :=
  match a, b with
  | x :: a', y :: b' => (x =? y) && ((x =? 0) || strncmp_eq a' b')
  | _, _ => true
  end.

Definition mode_none : open_mode_t := MkMode false false false false false.

Definition mode_char (c : Z) (m : open_mode_t) : option open_mode_t :=
  let main := om_write m || om_read m || om_append m in
  if c =? 114 then if main then None else Some (MkMode true (om_write m) (om_append m) (om_binary m) (om_update m))
  else if c =? 119 then if main then None else Some (MkMode (om_read m) true (om_append m) (om_binary m) (om_update m))
  else if c =? 97 then if main then None else Some (MkMode (om_read m) (om_write m) true (om_binary m) (om_update m))
  else if c =? 98 then
    if om_binary m then None else Some (MkMode (om_read m) (om_write m) (om_append m) true (om_update m))
  else if c =? 43 then
    if om_update m then None else Some (MkMode (om_read m) (om_write m) (om_append m) (om_binary m) true)
  else None.

Fixpoint mode_chars (mode : list Z) (m : open_mode_t) : option open_mode_t :=
  match mode with
  | [] => Some m
  | c :: mode' => m' ← mode_char c m; mode_chars mode' m'
  end.

Definition parse_mode (mode : list Z) : option open_mode_t :=
  if zlen mode >? MAX_MODE_STRING_LEN then None
  else
    m ← mode_chars mode mode_none;
    if negb (om_write m) && negb (om_read m) && negb (om_append m) then None else Some m.

Section FileOps.
Context {W : Type} {PF : Platform W} {G : AesGcm} {OC : Ocalls W}.
Variable g : runtime.
Variables a_local a_cur_key a_report : Z.
Abbreviation pfs := (protected_fs_file W).
Abbreviation FM := (M pfs unit).
Abbreviation internal_flush := (internal_flush g a_local a_cur_key).
Abbreviation restore_current_meta_data_key := (restore_current_meta_data_key g a_local a_cur_key).

Definition cleanup_filename (src : list Z) : FM (list Z) :=
  let name := base_name src src in
  if zlen name >=? FILENAME_MAX_LEN - 1 then fail ENAMETOOLONG
  else if zlen name =? 0 then fail EINVAL
  else mret (strncpy FILENAME_MAX_LEN name).

(** sgx_create_report(NULL, NULL, &report): EREPORT gives [pf_report]. *)
Definition sgx_create_report : sgx_status_t :=
  if (a_report =? 0) || negb (sgx_is_within_enclave g a_report 432) then SGX_ERROR_INVALID_PARAMETER else SGX_SUCCESS.

(** ** The file object before anything is opened *)
Definition zero_meta : meta_data_node_t :=
  MkMeta (MkPlain 0 0 0 (zreplicate 32 0) (zreplicate 16 0) 0 0 (zreplicate 16 0) (zreplicate 16 0) 0)
    (zreplicate sizeof_meta_data_encrypted 0) (zreplicate 610 0).
Definition zero_enc : meta_data_encrypted_t :=
  MkEnc (zreplicate FILENAME_MAX_LEN 0) 0 (zreplicate 20 0) (zreplicate 16 0) (zreplicate 16 0) (zreplicate MD_USER_DATA_SIZE 0).
Definition init_root : file_node := MkNode FILE_MHT_NODE_TYPE 0 0 false true 1 zero_node zero_node.

(** init_fields; the keys are not initialised by it. *)
Definition init_fields (w : W) : pfs :=
  MkFile zero_meta zero_enc init_root 0 mode_none false 0 false 0 false 0 SGX_FILE_STATUS_NOT_INITIALIZED
    0 (zreplicate 16 0) (zreplicate 16 0) (zreplicate 16 0) 0 [] cache_empty w.

(** ** Existing files *)

(** u_sgxprotectedfs_fclose on the file, where it has to succeed *)
Definition fclose_or (e : Z) : FM unit :=
  s ← mget;
  r ← on_world (u_fclose (file s));
  let '(status, result32) := r in
  if io_ok status result32 then mret tt
  else fail (status_or status (if result32 =? -1 then e else u32 result32)).

Definition exclusive_open (filename : list Z) : FM Z :=
  s ← mget;
  r ← on_world (u_exclusive_file_open filename (read_only s));
  let '(status, (f, size, result32)) := r in
  mmod (set_file f) ;;
  if negb (ok_status status) || (f =? 0)
  then fail (status_or status (if result32 =? 0 then EACCES else u32 result32))
  else mret size.

Definition file_recovery (filename : list Z) : FM unit :=
  fclose_or EINVAL ;;
  mmod (set_file 0) ;;
  s ← mget;
  r ← on_world (u_do_file_recovery filename (recovery_filename s) NODE_SIZE);
  let '(status, result32) := r in
  if negb (io_ok status result32) then fail (status_or status (if result32 =? -1 then EINVAL else u32 result32))
  else
    new_file_size ← exclusive_open filename;
    s ← mget;
    if negb (new_file_size =? real_file_size s) then unexpected
    else
      b ← fread_node 0;
      mmod (set_file_meta_data (meta_of b)).

Definition update_flag_set (s : pfs) : bool := p_update_flag (plain_part (file_meta_data s)) =? 1.
Definition bad_version (s : pfs) : bool := negb (p_major_version (plain_part (file_meta_data s)) =? SGX_FILE_MAJOR_VERSION).

(** The recovery of a file that was in the middle of an update *)
Definition recover_if_needed (filename : list Z) : FM unit :=
  s ← mget;
  if update_flag_set s then
    mcase (file_recovery filename) mret (fun _ => fail (sgx_status_code SGX_ERROR_FILE_RECOVERY_NEEDED)) ;;
    s ← mget;
    if update_flag_set s then fail (sgx_status_code SGX_ERROR_FILE_RECOVERY_NEEDED)
    else if bad_version s then fail ENOTSUP
    else mret tt
  else mret tt.

(** sgx_rijndael128GCM_decrypt into the object with [put], which also sees what
    a failing call leaves *)
Definition decrypt_into (key gmac cipher : list Z) (put : list Z -> FM unit) : FM unit := fun s =>
  let '(w, (dst, r)) := sgx_rijndael128GCM_decrypt key (Some cipher) false empty_iv None gmac (world s) in
  ((match dst with Some p => put p | None => mret tt end) ;;
   match r with Ok _ => mret tt | Err e => fail (sgx_status_code e) | Stuck => mlift Stuck end) (set_world w s).

Definition read_root : FM unit :=
  c ← fread_node 1;
  mmod (fun s : pfs => set_root_mht (set_cipher c (root_mht s)) s) ;;
  s ← mget;
  decrypt_into (e_mht_key (encrypted_part_plain s)) (e_mht_gmac (encrypted_part_plain s)) c
    (fun p => mmod (fun s : pfs => set_root_mht (set_plain p (root_mht s)) s)) ;;
  mmod (fun s : pfs => set_root_mht (set_new false (root_mht s)) s).

Definition init_existing_file (filename clean_filename : list Z) (import_key : option (list Z)) : FM unit :=
  b ← fread_node 0;
  mmod (set_file_meta_data (meta_of b)) ;;
  s ← mget;
  if negb (p_file_id (plain_part (file_meta_data s)) =? SGX_FILE_ID) then fail (sgx_status_code SGX_ERROR_FILE_NOT_SGX_FILE)
  else if bad_version s then fail ENOTSUP
  else
    recover_if_needed filename ;;
    s ← mget;
    if negb (p_use_user_kdk_key (plain_part (file_meta_data s)) =? use_user_kdk_key s) then fail EINVAL
    else
      restore_current_meta_data_key import_key ;;
      s ← mget;
      decrypt_into (cur_key s) (p_meta_data_gmac (plain_part (file_meta_data s))) (encrypted_part (file_meta_data s))
        (fun p => mmod (set_encrypted_part_plain (enc_of p))) ;;
      s ← mget;
      if negb (strncmp_eq clean_filename (e_clean_filename (encrypted_part_plain s)))
      then fail (sgx_status_code SGX_ERROR_FILE_NAME_MISMATCH)
      else if e_size (encrypted_part_plain s) >? MD_USER_DATA_SIZE then read_root
      else mret tt.

Definition init_new_file (clean_filename : list Z) : FM unit :=
  mmod (fun s =>
    let p := plain_part (file_meta_data s) in
    let e := encrypted_part_plain s in
    set_need_writing true
      (set_encrypted_part_plain (MkEnc (strncpy FILENAME_MAX_LEN clean_filename) (e_size e) (e_mc e) (e_mht_key e)
                                   (e_mht_gmac e) (e_data e))
      (set_file_meta_data
        (MkMeta (MkPlain SGX_FILE_ID SGX_FILE_MAJOR_VERSION SGX_FILE_MINOR_VERSION (p_meta_data_key_id p) (p_cpu_svn p)
                   (p_isv_svn p) (use_user_kdk_key s) (p_attribute_mask p) (p_meta_data_gmac p) (p_update_flag p))
           (encrypted_part (file_meta_data s)) (padding (file_meta_data s))) s))).

(** ** remove: 0, or 1 with errno set *)
Definition remove (filename : list Z) (w : W) : W * option Z :=
  let '(w', (status, result32)) := u_remove filename w in
  (w', if negb (ok_status status) then Some (sgx_status_code status)
       else if negb (result32 =? 0) then Some (if result32 =? -1 then EPERM else result32) else None).

(** ** The constructor *)
Definition check_exists (filename : list Z) : FM (sgx_status_t * Z) := on_world (u_check_if_file_exists filename).

(** Delete the file if it is opened for writing; the result tells whether it
    exists. *)
Definition prepare_path (filename : list Z) : FM Z :=
  r ← check_exists filename;
  let '(status, result) := r in
  if negb (ok_status status) then fail (sgx_status_code status)
  else
    s ← mget;
    if om_write (open_mode s) && (result =? 1) then
      e ← on_world (remove filename);
      r ← check_exists filename;
      let '(status, result) := r in
      if negb (ok_status status) || (result =? 1)
      then fail (status_or status (if default 0 e =? 0 then EACCES else u32 (default 0 e)))
      else mret result
    else mret result.

(** Everything up to the opening of the file; the result is clean_filename. *)
Definition prepare (mutex_init : Z) (filename mode : list Z) (import_key kdk_key : option (list Z)) : FM (list Z) :=
  if (zlen filename =? 0) || (zlen mode =? 0) then fail EINVAL
  else if zlen filename >=? FULLNAME_MAX_LEN - 1 then fail ENAMETOOLONG
  else if negb (is_null import_key) && negb (is_null kdk_key) then fail EINVAL
  else if negb (ok_status sgx_create_report) then fail (sgx_status_code sgx_create_report)
  else if negb (mutex_init =? 0) then fail (u32 mutex_init)
  else
    init_session_master_key g a_local ;;
    (match kdk_key with
     | Some k => mmod (set_use_user_kdk_key 1) ;; mmod (set_user_kdk_key k)
     | None => mret tt
     end) ;;
    clean_filename ← cleanup_filename filename;
    if bool_decide (import_key = Some (zreplicate 16 0)) then fail EINVAL
    else match parse_mode mode with
    | None => fail EINVAL
    | Some m =>
        mmod (set_open_mode m) ;;
        result ← prepare_path filename;
        if om_read m && (result =? 0) then fail ENOENT
        else if negb (is_null import_key) && (result =? 0) then fail ENOENT
        else mret clean_filename
    end.

Definition open_file (filename clean_filename : list Z) (import_key : option (list Z)) : FM unit :=
  mmod (fun s : pfs => set_read_only (om_read (open_mode s) && negb (om_update (open_mode s))) s) ;;
  size ← exclusive_open filename;
  mmod (set_real_file_size size) ;;
  if size <? 0 then fail EINVAL
  else if negb (size mod NODE_SIZE =? 0) then fail (sgx_status_code SGX_ERROR_FILE_NOT_SGX_FILE)
  else
    mmod (set_recovery_filename (filename ++ chars "_recovery")) ;;
    s ← mget;
    (if size >? 0 then
       if om_write (open_mode s) then fail EACCES
       else
         init_existing_file filename clean_filename import_key ;;
         mmod (fun s => if om_append (open_mode s) && negb (om_update (open_mode s))
                        then set_offset (e_size (encrypted_part_plain s)) s else s)
     else init_new_file clean_filename) ;;
    mmod (set_file_status SGX_FILE_STATUS_OK).

(** if (file_status != SGX_FILE_STATUS_OK) close the file *)
Definition close_failed : FM unit :=
  s ← mget;
  if file s =? 0 then mret tt else on_world (u_fclose (file s)) ;; mmod (set_file 0).

(** protected_fs_file::protected_fs_file *)
Definition construct (mutex_init : Z) (filename mode : list Z) (import_key kdk_key : option (list Z)) : FM unit :=
  mcase (prepare mutex_init filename mode import_key kdk_key)
    (fun clean => mcase (open_file filename clean import_key) mret (fun _ => close_failed))
    mret.

(** ** Positions and errors (file_other.cpp) *)
Definition status_ok (s : pfs) : bool := bool_decide (file_status s = SGX_FILE_STATUS_OK).

Definition tell : FM Z :=
  s ← mget;
  if negb (status_ok s) then mmod (set_last_error (sgx_status_code SGX_ERROR_FILE_BAD_STATUS)) ;; mret (-1)
  else mret (offset s).

(** The addition of SEEK_CUR is on int64_t: an overflow is undefined. *)
Definition seek_target (s : pfs) (new_offset origin : Z) : res unit (option Z) :=
  let size := e_size (encrypted_part_plain s) in
  if origin =? SEEK_SET then Ok (if (new_offset >=? 0) && (new_offset <=? size) then Some new_offset else None)
  else if origin =? SEEK_CUR then
    let sum := offset s + new_offset in
    if negb (i64 sum =? sum) then Stuck
    else Ok (if (sum >=? 0) && (sum <=? size) then Some sum else None)
  else if origin =? SEEK_END then
    Ok (if (new_offset <=? 0) && (new_offset >=? 0 - size) then Some (size + new_offset) else None)
  else Ok None.

Definition seek (new_offset origin : Z) : FM Z :=
  s ← mget;
  if negb (status_ok s) then mmod (set_last_error (sgx_status_code SGX_ERROR_FILE_BAD_STATUS)) ;; mret (-1)
  else
    r ← mlift (seek_target s new_offset origin);
    match r with
    | Some o => mmod (set_offset o) ;; mmod (set_end_of_file false) ;; mret 0
    | None => mmod (set_last_error EINVAL) ;; mret (-1)
    end.

Definition get_error (s : pfs) : Z :=
  if negb (last_error s =? 0) then last_error s
  else if negb (status_ok s) then sgx_status_code SGX_ERROR_FILE_BAD_STATUS else 0.

Definition clear_error : FM unit :=
  s ← mget;
  match file_status s with
  | SGX_FILE_STATUS_NOT_INITIALIZED | SGX_FILE_STATUS_CLOSED | SGX_FILE_STATUS_CRYPTO_ERROR
  | SGX_FILE_STATUS_CORRUPTED | SGX_FILE_STATUS_MEMORY_CORRUPTED => mret tt
  | _ =>
      (if bool_decide (file_status s = SGX_FILE_STATUS_FLUSH_ERROR)
       then mcase (internal_flush true) (fun _ => mmod (set_file_status SGX_FILE_STATUS_OK)) (fun _ => mret tt)
       else mret tt) ;;
      s ← mget;
      (if bool_decide (file_status s = SGX_FILE_STATUS_WRITE_TO_DISK_FAILED)
       then mcase (write_all_changes_to_disk true)
              (fun _ => mmod (set_need_writing false) ;; mmod (set_file_status SGX_FILE_STATUS_OK)) (fun _ => mret tt)
       else mret tt) ;;
      s ← mget;
      if status_ok s then mmod (set_last_error 0) ;; mmod (set_end_of_file false) else mret tt
  end.

(** The attempt to bring the file to the disk that clear_cache and pre_close
    start with *)
Definition settle : FM unit :=
  s ← mget;
  if negb (status_ok s) then clear_error else mcase (internal_flush true) mret mret.

(** while (cache.size() > 0) *)
Fixpoint drop_cache (fuel : nat) : FM Z :=
  match fuel with
  | O => out_of_fuel
  | S k =>
      s ← mget;
      n ← mlift (size (cache s));
      if n <=? 0 then mret 0
      else
        data ← mlift (get_last (cache s));
        match data with
        | None => out_of_fuel
        | Some (_, node) =>
            assert_ (negb (n_need_writing node)) ;;
            c ← mlift (remove_last (cache s));
            mmod (set_cache c) ;; drop_cache k
        end
  end.

Definition clear_cache : FM Z :=
  settle ;;
  s ← mget;
  if negb (status_ok s) then mret 1 else drop_cache (S (length (c_list (cache s)))).

Definition erase_recovery_file : FM unit :=
  s ← mget;
  if zlen (recovery_filename s) =? 0 then mret tt else on_world (u_remove (recovery_filename s)) ;; mret tt.

(** A step of pre_close that may make its result false *)
Definition unless_false (m : FM unit) : FM bool := mcase m (fun _ => mret true) (fun _ => mret false).

(** [export]: whether the key is asked for; the key is the second result. *)
Definition pre_close (export import : bool) : FM (bool * option (list Z)) :=
  s ← mget;
  let retval := negb (import && (use_user_kdk_key s =? 1)) in
  (if import && negb (use_user_kdk_key s =? 1) then mmod (set_need_writing true) else mret tt) ;;
  settle ;;
  s ← mget;
  let retval := retval && status_ok s in
  closed ← (if file s =? 0 then mret true
            else b ← unless_false (fclose_or (sgx_status_code SGX_ERROR_FILE_CLOSE_FAILED)); mmod (set_file 0) ;; mret b);
  s ← mget;
  (if status_ok s && (last_error s =? 0) then erase_recovery_file else mret tt) ;;
  s ← mget;
  r ← (if negb export then mret (retval && closed, None)
       else if use_user_kdk_key s =? 1 then mret (false, None)
       else
         b ← unless_false (restore_current_meta_data_key None);
         s ← mget;
         mret (if (b : bool) then (retval && closed, Some (cur_key s)) else (false, None)));
  mmod (set_file_status SGX_FILE_STATUS_CLOSED) ;;
  mret r.

(** ** The C interface (sgx_tprotected_fs.cpp)

    The file object, or errno *)
Definition sgx_fopen_internal (mutex_init : Z) (filename mode : option (list Z)) (auto_key kdk_key : option (list Z))
    (w : W) : W * res Z pfs :=
  match filename, mode with
  | Some f, Some m =>
      match pf_malloc w with
      | (w, false) => (w, Err ENOMEM)
      | (w, true) =>
          match construct mutex_init f m auto_key kdk_key (init_fields w) with
          | (s, Stuck) => (world s, Stuck)
          | (s, _) => (world s, if negb (get_error s =? 0) then Err (get_error s) else Ok s)
          end
      end
  | _, _ => (w, Err EINVAL)
  end.

Definition sgx_fopen_auto_key (mutex_init : Z) (filename mode : option (list Z)) : W -> W * res Z pfs :=
  sgx_fopen_internal mutex_init filename mode None None.
Definition sgx_fopen (mutex_init : Z) (filename mode key : option (list Z)) : W -> W * res Z pfs :=
  sgx_fopen_internal mutex_init filename mode None key.

Definition sgx_fwrite (mutex_lock ptr : Z) (data : list Z) (size count : Z) : FM Z :=
  if (ptr =? 0) || (size =? 0) || (count =? 0) then mret 0 else write g a_local a_cur_key mutex_lock ptr data size count.
Definition sgx_fread (mutex_lock ptr size count : Z) : FM (Z * list Z) :=
  if (ptr =? 0) || (size =? 0) || (count =? 0) then mret (0, []) else read g a_local a_cur_key mutex_lock ptr size count.
Definition sgx_fflush (mutex_lock : Z) : FM Z :=
  mcase (flush g a_local a_cur_key mutex_lock) (fun _ => mret 0) (fun _ => mret EOF).

(** The result, the exported key and the world that is left when the object
    is deleted *)
Definition sgx_fclose_internal (export import : bool) (s : pfs) : W * res unit (Z * option (list Z)) :=
  match pre_close export import s with
  | (s', Ok (b, key)) => (world s', Ok (if b then 0 else 1, key))
  | (s', Err e) => (world s', Err e)
  | (s', Stuck) => (world s', Stuck)
  end.
Definition sgx_fclose (s : pfs) : W * res unit Z :=
  let '(w, r) := sgx_fclose_internal false false s in (w, fst <$> r).

(** Both open the file with its automatic key, or with the given one, and
    close it; the result is 1 when it cannot be opened. *)
Definition fopen_fclose (mutex_init : Z) (filename : option (list Z)) (mode : list Z) (auto_key : option (list Z))
    (export import : bool) (w : W) : W * res unit (Z * option (list Z)) :=
  match sgx_fopen_internal mutex_init filename (Some mode) auto_key None w with
  | (w', Ok s) => sgx_fclose_internal export import s
  | (w', Err _) => (w', Ok (1, None))
  | (w', Stuck) => (w', Stuck)
  end.
Definition sgx_fexport_auto_key (mutex_init : Z) (filename : option (list Z)) : W -> W * res unit (Z * option (list Z)) :=
  fopen_fclose mutex_init filename (chars "r") None true false.
Definition sgx_fimport_auto_key (mutex_init : Z) (filename : option (list Z)) (key : option (list Z)) (w : W) : W * res unit Z :=
  let '(w', r) := fopen_fclose mutex_init filename (chars "r+") key false true w in (w', fst <$> r).
End FileOps.
