(* ===== verification/PfsTree.v ===== *)
(** * Protected file system: the shape of the tree

    A weakest precondition for computations that may fail or be undefined,
    and the geometry of a file: which node a physical number is, its parent
    and its place in the parent, as functions of the number. *)

From stdpp Require Import gmap.
From S2P Require Import Prelude Bytes Arch Pfs.

#[local] Open Scope Z_scope.

(** ** Weakest preconditions: [m] is defined from [s], and its result and
    state satisfy [Q] if it returns and [R] if it fails. *)
Definition wp {S E A} (m : M S E A) (s : S) (Q : A -> S -> Prop) (R : E -> S -> Prop) : Prop :=
  match m s with (s', Ok a) => Q a s' | (s', Err e) => R e s' | (_, Stuck) => False end.

Section Wp.
Context {S E A B : Type}.
Implicit Types (s : S) (R : E -> S -> Prop).

Lemma wp_mono (m : M S E A) s (Q Q' : A -> S -> Prop) R R' :
  wp m s Q R -> (forall a s', Q a s' -> Q' a s') -> (forall e s', R e s' -> R' e s') -> wp m s Q' R'.
Proof. unfold wp. destruct (m s) as [s' [a|e|]]; auto. Qed.

Lemma wp_bind (m : M S E A) (f : A -> M S E B) s Q R :
  wp m s (fun a s' => wp (f a) s' Q R) R -> wp (m ≫= f) s Q R.
Proof. unfold wp, mbind, M_bind. by destruct (m s) as [s' [a|e|]]. Qed.

Lemma wp_case (m : M S E A) (f : A -> M S E B) (h : E -> M S E B) s Q R :
  wp m s (fun a s' => wp (f a) s' Q R) (fun e s' => wp (h e) s' Q R) -> wp (mcase m f h) s Q R.
Proof. unfold wp, mcase. by destruct (m s) as [s' [a|e|]]. Qed.

Lemma wp_ret (a : A) s (Q : A -> S -> Prop) R : Q a s -> wp (mret a) s Q R.
Proof. done. Qed.
Lemma wp_get s (Q : S -> S -> Prop) R : Q s s -> wp mget s Q R.
Proof. done. Qed.
Lemma wp_mod f s (Q : unit -> S -> Prop) R : Q tt (f s) -> wp (mmod f) s Q R.
Proof. done. Qed.
Lemma wp_err e s (Q : A -> S -> Prop) R : R e s -> wp (merr e) s Q R.
Proof. done. Qed.
Lemma wp_lift_Ok (a : A) r s (Q : A -> S -> Prop) R : r = Ok a -> Q a s -> wp (mlift r) s Q R.
Proof. by intros ->. Qed.

(** A run that is known to succeed *)
Lemma wp_Ok (m : M S E A) s s' a (Q : A -> S -> Prop) R : m s = (s', Ok a) -> Q a s' -> wp m s Q R.
Proof. unfold wp. by intros ->. Qed.
Lemma wp_run (m : M S E A) s (Q : A -> S -> Prop) R : wp m s Q R ->
  (exists s' a, m s = (s', Ok a) /\ Q a s') \/ (exists s' e, m s = (s', Err e) /\ R e s').
Proof. unfold wp. destruct (m s) as [s' [a|e|]]; [left; eauto|right; eauto|done]. Qed.
End Wp.

(** ** Geometry

    Node 1 + 97 k is the mht node k, the 96 nodes after it are its data nodes. *)
Definition is_mht (key : Z) : bool := (key - 1) mod 97 =? 0.
Definition k_type (key : Z) : Z := if is_mht key then FILE_MHT_NODE_TYPE else FILE_DATA_NODE_TYPE.
Definition k_number (key : Z) : Z :=
  if is_mht key then (key - 1) / 97 else 96 * ((key - 1) / 97) + (key - 1) mod 97 - 1.
Definition k_parent (key : Z) : Z :=
  if is_mht key then 1 + 97 * (((key - 1) / 97 - 1) / 32) else 1 + 97 * ((key - 1) / 97).
Definition k_slot (key : Z) : Z := slot_of (k_type key) (k_number key).

(** The offset of the first byte of the file below a node *)
Definition pos (key : Z) : Z :=
  3072 + 4096 * (if is_mht key then 96 * ((key - 1) / 97) else 96 * ((key - 1) / 97) + (key - 1) mod 97 - 1).

Definition mht_key (k : Z) : Z := 1 + 97 * k.
Definition data_key (d : Z) : Z := d + 2 + d / 96.

(** ** Facts *)
Lemma is_mht_mht k : is_mht (mht_key k) = true.
Proof. unfold is_mht, mht_key. apply Z.eqb_eq. zlia. Qed.

Lemma data_key_split d : (data_key d - 1) / 97 = d / 96 /\ (data_key d - 1) mod 97 = d mod 96 + 1.
Proof. unfold data_key. zlia. Qed.

Lemma is_mht_data d : is_mht (data_key d) = false.
Proof. unfold is_mht. rewrite (proj2 (data_key_split d)). apply Z.eqb_neq. zlia. Qed.

Lemma mht_key_facts k : k_type (mht_key k) = FILE_MHT_NODE_TYPE /\ k_number (mht_key k) = k /\
  k_parent (mht_key k) = mht_key ((k - 1) / 32) /\ pos (mht_key k) = 3072 + 4096 * (96 * k).
Proof.
  unfold k_type, k_number, k_parent, pos. rewrite is_mht_mht. unfold mht_key.
  replace ((1 + 97 * k - 1) / 97) with k by zlia. done.
Qed.

Lemma data_key_facts d : k_type (data_key d) = FILE_DATA_NODE_TYPE /\ k_number (data_key d) = d /\
  k_parent (data_key d) = mht_key (d / 96) /\ pos (data_key d) = 3072 + 4096 * d.
Proof.
  unfold k_type, k_number, k_parent, pos. rewrite is_mht_data. destruct (data_key_split d) as [-> ->].
  unfold mht_key. repeat split; zlia.
Qed.

(** Every number is that of one node. *)
Lemma key_cases key : 1 <= key -> (exists k, 0 <= k /\ key = mht_key k) \/ (exists d, 0 <= d /\ key = data_key d).
Proof.
  intros Hk. destruct (is_mht key) eqn:E; unfold is_mht in E; zbool.
  - left. exists ((key - 1) / 97). unfold mht_key. zlia.
  - right. exists (96 * ((key - 1) / 97) + (key - 1) mod 97 - 1). unfold data_key. zlia.
Qed.

Lemma data_key_inj d e : data_key d = data_key e -> d = e.
Proof. unfold data_key. zlia. Qed.

Lemma parent_range key : 2 <= key -> 1 <= k_parent key < key.
Proof.
  intros Hk. destruct (key_cases key) as [(k & H0 & ->)|(d & H0 & ->)]; [lia|..].
  - rewrite (proj1 (proj2 (proj2 (mht_key_facts k)))). unfold mht_key in *. zlia.
  - rewrite (proj1 (proj2 (proj2 (data_key_facts d)))). unfold mht_key, data_key in *. zlia.
Qed.

Lemma parent_mht key : is_mht (k_parent key) = true.
Proof. unfold k_parent. destruct (is_mht key); apply is_mht_mht. Qed.

Lemma pos_parent key : 2 <= key -> pos (k_parent key) <= pos key.
Proof.
  intros Hk. destruct (key_cases key) as [(k & H0 & ->)|(d & H0 & ->)]; [lia|..].
  - destruct (mht_key_facts k) as (_ & _ & -> & ->). rewrite (proj2 (proj2 (proj2 (mht_key_facts _)))).
    unfold mht_key in *. zlia.
  - destruct (data_key_facts d) as (_ & _ & -> & ->). rewrite (proj2 (proj2 (proj2 (mht_key_facts _)))). zlia.
Qed.

(** The nodes of a file below 2^62 bytes *)
Lemma key_bound key : 1 <= key -> pos key <= 2 ^ 62 -> key < 2 ^ 51.
Proof.
  intros Hk. destruct (key_cases key Hk) as [(k & H0 & ->)|(d & H0 & ->)].
  - rewrite (proj2 (proj2 (proj2 (mht_key_facts k)))). unfold mht_key. lia.
  - rewrite (proj2 (proj2 (proj2 (data_key_facts d)))). unfold data_key. zlia.
Qed.

Lemma slot_range key : 2 <= key -> 0 <= k_slot key < 128.
Proof.
  intros Hk. unfold k_slot, slot_of, k_type.
  destruct (is_mht key); unfold FILE_DATA_NODE_TYPE, FILE_MHT_NODE_TYPE, ATTACHED_DATA_NODES_COUNT, CHILD_MHT_NODES_COUNT; cbn [Z.eqb Pos.eqb]; zlia.
Qed.

(** Children of one node have different slots. *)
Lemma slot_inj a b : 2 <= a -> 2 <= b -> k_parent a = k_parent b -> k_slot a = k_slot b -> a = b.
Proof.
  intros Ha Hb. unfold k_slot.
  destruct (key_cases a) as [(k & H0 & ->)|(d & H0 & ->)]; [lia|..];
  (destruct (key_cases b) as [(k' & H0' & ->)|(d' & H0' & ->)]; [lia|..]);
    repeat match goal with
    | |- context [k_type (mht_key ?k)] => destruct (mht_key_facts k) as (-> & -> & -> & _)
    | |- context [k_type (data_key ?d)] => destruct (data_key_facts d) as (-> & -> & -> & _)
    end; unfold slot_of, FILE_DATA_NODE_TYPE, FILE_MHT_NODE_TYPE, ATTACHED_DATA_NODES_COUNT, CHILD_MHT_NODES_COUNT;
    cbn [Z.eqb Pos.eqb]; unfold mht_key, data_key in *; zlia.
Qed.

Lemma mht_physical_key k : 0 <= k < 2 ^ 56 -> mht_physical k = mht_key k.
Proof. intros. unfold mht_physical, mht_key, ATTACHED_DATA_NODES_COUNT. rewrite !u64_id; unfold is_u64; rewrite ?u64_id; unfold is_u64; lia. Qed.

Lemma node_numbers_eq o : 3072 <= o < 2 ^ 62 ->
  let d := (o - 3072) / 4096 in
  get_node_numbers o = MkNumbers (d / 96) d (mht_key (d / 96)) (data_key d).
Proof.
  intros Ho d. unfold get_node_numbers, MD_USER_DATA_SIZE, NODE_SIZE, ATTACHED_DATA_NODES_COUNT.
  rewrite (u64_id (o - 3072)) by (unfold is_u64; lia). fold d.
  assert (0 <= d < 2 ^ 50) by (subst d; zlia). unfold mht_key, data_key.
  rewrite (u64_id (d + 1 + 1 + _)) by (unfold is_u64; zlia). rewrite u64_id by (unfold is_u64; zlia).
  f_equal; zlia.
Qed.

(** ** Slots *)
Lemma set_slot_len i k gm p : 0 <= i < 128 -> zlen k = 16 -> zlen gm = 16 -> zlen p = 4096 -> zlen (set_slot i k gm p) = 4096.
Proof. intros. unfold set_slot. rewrite zlen_splice; rewrite ?zlen_splice; lia. Qed.

Lemma set_slot_same i k gm p : 0 <= i < 128 -> zlen k = 16 -> zlen gm = 16 -> zlen p = 4096 ->
  slot_key (set_slot i k gm p) i = k /\ slot_gmac (set_slot i k gm p) i = gm.
Proof.
  intros Hi Hk Hg Hp. unfold slot_key, slot_gmac, set_slot.
  assert (zlen (splice (32 * i + 16) gm p) = 4096) by (rewrite zlen_splice; lia). split.
  - pose proof (slice_splice_same (32 * i) k (splice (32 * i + 16) gm p)) as E. rewrite Hk in E. apply E; lia.
  - rewrite slice_splice_after by lia.
    pose proof (slice_splice_same (32 * i + 16) gm p) as E. rewrite Hg in E. apply E; lia.
Qed.

Lemma set_slot_other i j k gm p : 0 <= i < 128 -> 0 <= j < 128 -> i <> j -> zlen k = 16 -> zlen gm = 16 -> zlen p = 4096 ->
  slot_key (set_slot i k gm p) j = slot_key p j /\ slot_gmac (set_slot i k gm p) j = slot_gmac p j.
Proof.
  intros Hi Hj Hne Hk Hg Hp. unfold slot_key, slot_gmac, set_slot.
  assert (zlen (splice (32 * i + 16) gm p) = 4096) by (rewrite zlen_splice; lia).
  destruct (decide (j < i)).
  - by rewrite !slice_splice_before by lia.
  - by rewrite !slice_splice_after by lia.
Qed.

(** ** Chains of parents, from a node up to the root, without the root *)
Fixpoint chain (fuel : nat) (key : Z) : list Z :=
  match fuel with
  | O => []
  | S k => if key =? 1 then [] else key :: chain k (k_parent key)
  end.

(** Mht nodes at most [n] levels below the root *)
Definition level (n : nat) (key : Z) : Prop := exists k, 0 <= k < 32 ^ Z.of_nat n /\ key = mht_key k.

Lemma level_0 key : level 0 key -> key = 1.
Proof. intros (k & Hk & ->). unfold mht_key. lia. Qed.

Lemma level_parent n key : level (S n) key -> key <> 1 -> level n (k_parent key).
Proof.
  intros (k & Hk & ->) Hne. exists ((k - 1) / 32). destruct (mht_key_facts k) as (_ & _ & -> & _).
  split; [|done]. assert (0 < k) by (unfold mht_key in Hne; lia).
  rewrite Nat2Z.inj_succ, Z.pow_succ_r in Hk by lia. split; [zlia|]. apply Z.div_lt_upper_bound; lia.
Qed.

Lemma level_range n key : level n key -> 1 <= key.
Proof. intros (k & Hk & ->). unfold mht_key. lia. Qed.

Lemma level_of k : 0 <= k < 2 ^ 56 -> level 12 (mht_key k).
Proof. intros Hk. exists k. split; [|done]. change (32 ^ Z.of_nat 12) with (2 ^ 60). lia. Qed.

Lemma chain_length fuel key : (length (chain fuel key) <= fuel)%nat.
Proof. revert key. induction fuel as [|n IH]; intros key; cbn; [lia|]. destruct (key =? 1); cbn; [lia|]. specialize (IH (k_parent key)). lia. Qed.

Lemma chain_range fuel key k : 1 <= key -> k ∈ chain fuel key -> 2 <= k <= key.
Proof.
  revert key. induction fuel as [|n IH]; intros key Hk Hin; cbn in Hin; [by apply elem_of_nil in Hin|].
  destruct (Z.eqb_spec key 1); [by apply elem_of_nil in Hin|].
  apply elem_of_cons in Hin as [->|Hin]; [lia|]. pose proof (parent_range key). apply IH in Hin; lia.
Qed.

Lemma chain_nodup fuel key : 1 <= key -> NoDup (chain fuel key).
Proof.
  revert key. induction fuel as [|n IH]; intros key Hk; cbn; [constructor|].
  destruct (Z.eqb_spec key 1); [constructor|]. pose proof (parent_range key). constructor; [|apply IH; lia].
  intros Hin. apply chain_range in Hin; lia.
Qed.

(** With enough fuel the parent of every node of the chain is the root or in
    the chain. *)
Lemma chain_closed n key k : level n key -> k ∈ chain (S n) key -> k_parent k = 1 \/ k_parent k ∈ chain (S n) key.
Proof.
  revert key. induction n as [|n IH]; intros key Hl Hin.
  - apply level_0 in Hl as ->. by apply elem_of_nil in Hin.
  - cbn [chain] in Hin |- *. destruct (Z.eqb_spec key 1) as [|Hne]; [by apply elem_of_nil in Hin|].
    pose proof (level_parent _ _ Hl Hne) as Hp.
    apply elem_of_cons in Hin as [->|Hin].
    + destruct (decide (k_parent key = 1)) as [|Hp1]; [by left|right]. apply elem_of_cons. right.
      cbn [chain]. rewrite (proj2 (Z.eqb_neq _ _) Hp1). by left.
    + destruct (IH _ Hp Hin) as [|Hc]; [by left|right]. apply elem_of_cons. by right.
Qed.
