(* ===== verification/PfsInv.v ===== *)
(** * Protected file system: the invariant of an open file

    Two situations are covered together.  With [honest = false] the untrusted
    side returns whatever it likes when a node is read, and a tag is taken to
    determine the cipher text it belongs to ([sec_authentic]): the perfect
    authentication of symbolic models of cryptography.  With [honest = true] a
    node that is read is the one that was written last ([disk]) and nothing is
    asked of the tags.  Allocations, IPP calls and RDRAND do not fail. *)

From stdpp Require Import gmap.
From S2P Require Import Prelude Bytes Arch Trts Tcrypto Seal Thread Lru Pfs PfsIo PfsTree.

#[local] Open Scope Z_scope.

(** ** The untrusted side as the library sees it

    [disk w]: the nodes of the file [fname]; [live ro f w]: the handle [f] is
    open on that file, for reading only if [ro]; [rlive f w]: it is open on its
    recovery file; [idle w]: the file is not open. *)
Class View (W : Type) := {
  disk : W -> gmap Z (list Z);
  live : bool -> Z -> W -> Prop;
  rlive : Z -> W -> Prop;
  idle : W -> Prop;
  fname : list Z }.
Definition rname {W} {V : View W} : list Z := fname ++ chars "_recovery".

(** The file is as before, and as open as before. *)
Record kept {W : Type} {V : View W} (w w' : W) : Prop := MkKept {
  k_disk : disk w' = disk w;
  k_live ro f : live ro f w -> live ro f w';
  k_idle : idle w -> idle w' }.

(** Node [n] has been written; nodes may have appeared besides it, as when a file
    is written past its end. *)
Record placed {W : Type} {V : View W} (n : Z) (c : list Z) (w w' : W) : Prop := MkPlaced {
  pl_node : disk w' !! n = Some c;
  pl_rest k : k <> n -> is_Some (disk w !! k) -> disk w' !! k = disk w !! k;
  pl_live ro f : live ro f w -> live ro f w' }.

(** [a_local]: the buffers in enclave memory. *)
Class Setting {W : Type} (PF : Platform W) (G : AesGcm) (OC : Ocalls W) (g : runtime) (a_local a_cur_key : Z)
    (honest : bool) (V : View W) : Prop := {
  sec_healthy :: Healthy PF;
  sec_laws :: AesGcmLaws G;
  sec_locals off n : 0 <= off -> 0 < n -> off + n <= 512 ->
    a_local + off <> 0 /\ sgx_is_within_enclave g (a_local + off) n = true;
  sec_cur_key : a_cur_key <> 0 /\ sgx_is_within_enclave g a_cur_key 16 = true;
  sec_authentic : honest = false -> forall key iv aad c c', zlen c = zlen c' ->
    gcm_tag key iv aad c = gcm_tag key iv aad c' -> c = c';
  sec_egetkey req : exists key, pf_egetkey req = (EGETKEY_SUCCESS, key) /\ zlen key = 16;
  sec_report : zlen (r_cpu_svn pf_report) = 16 /\ is_u16 (r_isv_svn pf_report);
  (** What keeps the disk *)
  sec_malloc w : honest = true -> kept w (fst (pf_malloc w));
  sec_ipp w : honest = true -> kept w (fst (pf_ipp w));
  sec_rdrand w : honest = true -> kept w (fst (pf_rdrand w));
  sec_recovery_open f w : honest = true -> live false f w ->
    exists w' rf, u_recovery_file_open rname w = (w', (SGX_SUCCESS, rf)) /\ rf <> 0 /\ rlive rf w' /\ kept w w';
  sec_recovery_write rf data w : honest = true -> rlive rf w ->
    exists w', u_fwrite_recovery_node rf data w = (w', (SGX_SUCCESS, 0)) /\ rlive rf w' /\ kept w w';
  sec_recovery_close rf w : honest = true -> rlive rf w ->
    exists w', u_fclose rf w = (w', (SGX_SUCCESS, 0)) /\ kept w w';
  sec_fflush ro f w : honest = true -> live ro f w -> exists w', u_fflush f w = (w', (SGX_SUCCESS, 0)) /\ kept w w';
  (** Opening and closing *)
  sec_live ro f w : honest = true -> live ro f w -> f <> 0;
  sec_open ro w w' f n e : honest = true -> u_exclusive_file_open fname ro w = (w', (SGX_SUCCESS, (f, n, e))) ->
    f <> 0 -> n mod NODE_SIZE = 0 -> live ro f w';
  sec_fclose ro f w : honest = true -> live ro f w ->
    exists w', u_fclose f w = (w', (SGX_SUCCESS, 0)) /\ disk w' = disk w /\ idle w';
  (** Reading and writing nodes *)
  sec_fread f n w : if honest
    then forall ro c, live ro f w -> disk w !! n = Some c ->
      exists w', u_fread_node f n w = (w', (SGX_SUCCESS, (0, c))) /\ kept w w'
    else exists w' c, u_fread_node f n w = (w', (SGX_SUCCESS, (0, c))) /\ zlen c = NODE_SIZE;
  sec_fwrite f n c w : honest = true -> live false f w -> 0 <= n < 2 ^ 51 -> zlen c = NODE_SIZE ->
    exists w', u_fwrite_node f n c w = (w', (SGX_SUCCESS, 0)) /\ placed n c w w' }.

(** ** What the keys and the world do not touch *)
Definition user {W : Type} (s : protected_fs_file W) :=
  (file_meta_data s, encrypted_part_plain s, file s, open_mode s, read_only s, offset s, end_of_file s, real_file_size s,
   need_writing s, (last_error s, file_status s, use_user_kdk_key s, user_kdk_key s, recovery_filename s)).

Ltac user_eqs H :=
  unfold user in H; injection H as ?Hmd ?Hep ?Hfile ?Hmode ?Hro ?Hoff ?Heof ?Hreal ?Hneed ?Hlast ?Hst ?Hkdk ?Hukdk ?Hrec.

Section Inv.
Context {W : Type} {PF : Platform W} {G : AesGcm} {OC : Ocalls W} {g : runtime} {a_local a_cur_key : Z}.
Context {honest : bool} {V : View W}.
Context {SE : Setting PF G OC g a_local a_cur_key honest V}.
Abbreviation pfs := (protected_fs_file W).
Abbreviation FM := (M pfs unit).
Abbreviation derive_random_node_key := (derive_random_node_key g a_local).

Definition same_disk (w w' : W) : Prop := honest = true -> kept w w'.

Lemma kept_refl w : kept w w.
Proof. by split. Qed.
Lemma kept_trans w1 w2 w3 : kept w1 w2 -> kept w2 w3 -> kept w1 w3.
Proof. intros [] []. split; [congruence|auto..]. Qed.
Lemma same_disk_refl w : same_disk w w.
Proof. intros _. apply kept_refl. Qed.
Lemma same_disk_trans w1 w2 w3 : same_disk w1 w2 -> same_disk w2 w3 -> same_disk w1 w3.
Proof. intros H1 H2 Hh. eapply kept_trans; auto. Qed.
Lemma same_disk_eq w w' : same_disk w w' -> honest = true -> disk w' = disk w.
Proof. intros H Hh. apply (H Hh). Qed.
#[local] Hint Resolve kept_refl same_disk_refl : core.

Record quiet (s s' : pfs) : Prop := MkQuiet {
  q_user : user s' = user s;
  q_root : root_mht s' = root_mht s;
  q_cache : cache s' = cache s;
  q_disk : same_disk (world s) (world s') }.

Lemma quiet_refl s : quiet s s.
Proof. by split. Qed.
Lemma quiet_trans s1 s2 s3 : quiet s1 s2 -> quiet s2 s3 -> quiet s1 s3.
Proof. intros [] []. split; [congruence..|]. by eapply same_disk_trans. Qed.

(** [nofail]: postcondition of a call that does not fail. *)
Definition nofail (e : unit) (s : pfs) : Prop := False.

(** ** The platform *)
Lemma read_rand_loop_disk (w w' : W) fuel left acc r : honest = true ->
  read_rand_loop pf_rdrand fuel left acc w = (w', r) -> kept w w'.
Proof.
  intros Hh. revert left acc w. induction fuel as [|n IH]; intros left acc w; cbn [read_rand_loop]; [by intros [= <- <-]|].
  pose proof (sec_rdrand w Hh) as Hd. destruct (pf_rdrand w) as [w1 [x|]] eqn:E; cbn [fst] in Hd.
  - repeat case_match; intros Hr; try (apply IH in Hr; by eapply kept_trans); by simplify_eq.
  - repeat case_match; intros Hr; by simplify_eq.
Qed.

Lemma wp_read_rand off n s : 0 <= off -> 0 < n -> off + n <= 512 ->
  wp (try_status (sgx_read_rand g pf_rdrand (a_local + off) n)) s (fun l s' => quiet s s' /\ zlen l = n) nofail.
Proof.
  intros Ho Hn Hb. destruct (sec_locals off n Ho Hn Hb) as [Ha Hin].
  destruct (read_rand_total g pf_rdrand (a_local + off) n (world s) healthy_rand Hn Ha Hin) as (w' & l & E & Hl).
  unfold wp, try_status. rewrite E. split; [|done]. split; [done..|]. intros Hh. cbn.
  unfold sgx_read_rand in E. repeat (case_match; [done|]). by apply read_rand_loop_disk in E.
Qed.

Definition keeps {E A} (m : M W E A) : Prop := forall w, same_disk w (fst (m w)).

Lemma keeps_bind {E A B} (m : M W E A) (f : A -> M W E B) : keeps m -> (forall a, keeps (f a)) -> keeps (m ≫= f).
Proof.
  intros Hm Hf w Hh. unfold mbind, M_bind. specialize (Hm w Hh). destruct (m w) as [w' [a|e|]]; cbn in *; [|done..].
  eapply kept_trans; [exact Hm|by apply Hf].
Qed.
Lemma keeps_ret {E A} (a : A) : keeps (E := E) (mret a).
Proof. by intros w Hh. Qed.
Lemma keeps_ipp err : keeps (ipp_call err).
Proof. intros w Hh. unfold ipp_call. pose proof (sec_ipp w Hh). by destruct (pf_ipp w) as [w' []]. Qed.
Lemma keeps_malloc e : keeps (malloc_or e).
Proof. intros w Hh. unfold malloc_or. pose proof (sec_malloc w Hh). by destruct (pf_malloc w) as [w' []]. Qed.

Ltac keeps_tac :=
  repeat first [apply keeps_ret | apply keeps_ipp | apply keeps_malloc | apply keeps_bind; [|intros ?] | case_match].

Lemma wp_cmac key src s : wp (try_status (sgx_rijndael128_cmac_msg key src)) s
  (fun k s' => quiet s s' /\ k = cmac key src) nofail.
Proof.
  unfold wp, try_status. destruct (cmac_healthy key src (world s)) as [w' E]. rewrite E. split; [|done]. split; [done..|].
  assert (keeps (sgx_rijndael128_cmac_msg key src)) as Hk by (unfold sgx_rijndael128_cmac_msg; keeps_tac).
  intros Hh. cbn. specialize (Hk (world s) Hh). by rewrite E in Hk.
Qed.

Lemma quiet_set s k sk c : quiet s (set_cur_key k (set_session_master_key sk (set_master_key_count c s))).
Proof. by split. Qed.

Lemma wp_blob key label phys s : zlen label <= 64 ->
  wp (generate_secure_blob g a_local key label phys) s (fun k s' => quiet s s' /\ zlen k = 16) nofail.
Proof.
  intros Hl. unfold generate_secure_blob, MAX_LABEL_LEN.
  replace (zlen label >? 64) with false by (symmetry; rewrite Z.gtb_ltb; apply Z.ltb_ge; lia).
  apply wp_bind. eapply wp_mono; [apply wp_read_rand; lia| |done]. intros l s1 [Hq _].
  eapply wp_mono; [apply wp_cmac| |done]. intros k s2 [Hq2 ->]. split; [by eapply quiet_trans|apply cmac_length].
Qed.

Lemma wp_derive phys s : wp (derive_random_node_key phys) s (fun _ s' => quiet s s' /\ zlen (cur_key s') = 16) nofail.
Proof.
  unfold Pfs.derive_random_node_key. apply wp_bind, wp_get. apply wp_bind, wp_mod. apply wp_bind.
  apply (wp_mono _ _ (fun _ s' => quiet s s') _ nofail).
  - destruct (_ >? _); [|by apply wp_ret]. unfold init_session_master_key. apply wp_bind.
    eapply wp_mono; [apply wp_blob; vm_compute; done| |done]. intros k s1 [Hq _].
    apply wp_bind, wp_mod. apply wp_mod. apply (quiet_trans _ s1); [|by split]. eapply quiet_trans; [|exact Hq]. by split.
  - intros _ s1 Hq1. apply wp_bind, wp_get. apply wp_bind. eapply wp_mono; [apply wp_blob; vm_compute; done| |done].
    intros k s2 [Hq2 Hk]. apply wp_mod. split; [|done]. eapply quiet_trans; [by eapply quiet_trans|]. by split.
  - done.
Qed.

(** ** The cipher *)
Lemma iv_len : zlen empty_iv = 12.
Proof. reflexivity. Qed.

Lemma args_ok src : zlen src > 0 -> gcm_args_bad (Some src) false empty_iv None = false.
Proof. intros H. unfold gcm_args_bad. rewrite iv_len. cbn [is_null]. by rewrite andb_false_r. Qed.

Lemma keeps_encrypt key src dn iv aad w : same_disk w (fst (sgx_rijndael128GCM_encrypt key src dn iv aad w)).
Proof.
  intros Hh. unfold sgx_rijndael128GCM_encrypt. case_match; [done|].
  assert (keeps (gcm_run (plen src))) as Hk by (unfold gcm_run; keeps_tac).
  specialize (Hk w Hh). destruct (gcm_run _ w) as [w1 [[]|e|]]; cbn in *; [|done..].
  pose proof (keeps_ipp err_start w1 Hh). destruct (ipp_call _ w1) as [w2 [[]|e|]]; cbn in *; by eapply kept_trans.
Qed.

Lemma keeps_decrypt key src dn iv aad mac w : same_disk w (fst (sgx_rijndael128GCM_decrypt key src dn iv aad mac w)).
Proof.
  intros Hh. unfold sgx_rijndael128GCM_decrypt. case_match; [done|].
  assert (keeps (gcm_run (plen src))) as Hk by (unfold gcm_run; keeps_tac).
  specialize (Hk w Hh). destruct (gcm_run _ w) as [w1 [[]|e|]]; cbn in *; [|done..].
  pose proof (keeps_ipp err_start w1 Hh). destruct (ipp_call _ w1) as [w2 [[]|e|]]; cbn in *; [|by eapply kept_trans..].
  case_bool_decide; cbn; by eapply kept_trans.
Qed.

(** The cipher text is stored first, then the tag returned. *)
Lemma wp_encrypt_to src put s Q : zlen src > 0 ->
  (forall s', quiet s s' -> cur_key s' = cur_key s ->
     let ct := gcm_encrypt (cur_key s) empty_iv [] src in
     wp (put ct) s' (fun _ s2 => Q (gcm_tag (cur_key s) empty_iv [] ct) s2) nofail) ->
  wp (encrypt_to src put) s Q nofail.
Proof.
  intros Hs Hput. unfold wp, encrypt_to.
  destruct (encrypt_healthy (cur_key s) (Some src) false empty_iv None (world s) (args_ok src Hs)) as [w' E].
  pose proof (keeps_encrypt (cur_key s) (Some src) false empty_iv None (world s)) as Hd. rewrite E in Hd |- *. cbn [fst default] in *.
  specialize (Hput (set_world w' s)). cbv zeta in Hput.
  apply (wp_bind (put _) _ _ Q nofail). eapply wp_mono; [apply Hput; [by split|done]| |done]. done.
Qed.

(** Decryption succeeds with the plain text exactly when the tag matches. *)
Lemma wp_decrypt_from key gmac ct s Q (R : unit -> pfs -> Prop) : zlen ct > 0 ->
  (gcm_tag key empty_iv [] ct = gmac -> forall s', quiet s s' -> Q (gcm_decrypt key empty_iv [] ct) s') ->
  (gcm_tag key empty_iv [] ct <> gmac -> forall w e, same_disk (world s) w ->
     R tt (set_file_status SGX_FILE_STATUS_CORRUPTED (set_last_error e (set_world w s)))) ->
  wp (decrypt_from key gmac ct) s Q R.
Proof.
  intros Hs HQ HR. unfold wp, decrypt_from.
  pose proof (keeps_decrypt key (Some ct) false empty_iv None gmac (world s)) as Hd.
  destruct (decide (gcm_tag key empty_iv [] ct = gmac)) as [<-|Hne].
  - destruct (decrypt_healthy key (Some ct) false empty_iv None (world s) (args_ok ct Hs)) as [w' E].
    cbn [default id] in E. rewrite E in Hd |- *. cbn in Hd |- *. apply HQ; [done|]. by split.
  - unfold sgx_rijndael128GCM_decrypt in Hd |- *. rewrite args_ok in Hd |- * by done.
    destruct (gcm_run_healthy (plen (Some ct)) (world s)) as [w1 E1]. rewrite E1 in Hd |- *.
    destruct (ipp_healthy err_start w1) as [w2 E2]. rewrite E2 in Hd |- *.
    rewrite bool_decide_eq_false_2 in Hd |- * by (cbn; congruence). by apply HR.
Qed.

(** ** The tree

    [P key] is the plain text of node [key], whether it is in the cache or on
    the disk.  A node that has no unwritten changes is committed: its slot in
    the parent has the key and the tag of a cipher text of its plain text. *)
Abbreviation nodes := (gmap Z file_node).

Definition committed (dk : gmap Z (list Z)) (key : Z) (k gm p : list Z) : Prop :=
  exists ct, zlen ct = NODE_SIZE /\ gcm_tag k empty_iv [] ct = gm /\ gcm_decrypt k empty_iv [] ct = p /\
    (honest = true -> dk !! key = Some ct).

Definition slot_committed (dk : gmap Z (list Z)) (P : Z -> list Z) (key : Z) : Prop :=
  committed dk key (slot_key (P (k_parent key)) (k_slot key)) (slot_gmac (P (k_parent key)) (k_slot key)) (P key).

Definition dirty (m : nodes) (key : Z) : Prop := exists n, m !! key = Some n /\ n_need_writing n = true.

Definition node_ok (P : Z -> list Z) (key : Z) (n : file_node) : Prop :=
  2 <= key /\ exists nd nw ci, n = MkNode (k_type key) (k_number key) (k_parent key) nd nw key ci (P key).

(** [top] is the size of the file, or one more while a node is appended. *)
Record tree (P : Z -> list Z) (top size : Z) (dk : gmap Z (list Z)) (root : file_node) (m : nodes) : Prop := MkTree {
  t_size : 0 <= size < 2 ^ 62 /\ size <= top <= size + 1;
  t_len key : 1 <= key -> zlen (P key) = NODE_SIZE;
  t_root : exists nd nw ci, root = MkNode FILE_MHT_NODE_TYPE 0 0 nd nw 1 ci (P 1);
  t_node key n : m !! key = Some n -> node_ok P key n /\ pos key < top;
  t_dirty key : dirty m key -> n_need_writing root = true /\ (k_parent key = 1 \/ dirty m (k_parent key));
  t_commit key : 2 <= key -> pos key < size -> ~ dirty m key -> slot_committed dk P key }.

(** Parents are used more recently than their children, [Y] excepted. *)
Definition parents_first (Y l : list Z) : Prop :=
  forall l1 key l2, l = l1 ++ key :: l2 -> key ∉ Y -> k_parent key = 1 \/ k_parent key ∈ l1.

(** ** The meta-data *)
Definition plain_ok (s : pfs) : Prop :=
  let p := plain_part (file_meta_data s) in
  p_file_id p = SGX_FILE_ID /\ p_major_version p = SGX_FILE_MAJOR_VERSION /\ p_minor_version p = SGX_FILE_MINOR_VERSION /\
  zlen (p_meta_data_key_id p) = 32 /\ zlen (p_cpu_svn p) = 16 /\ is_u16 (p_isv_svn p) /\
  p_use_user_kdk_key p = use_user_kdk_key s /\ is_u8 (use_user_kdk_key s) /\ zlen (p_attribute_mask p) = 16 /\ zlen (p_meta_data_gmac p) = 16 /\
  p_update_flag p = 0 /\ zlen (encrypted_part (file_meta_data s)) = sizeof_meta_data_encrypted /\
  zlen (padding (file_meta_data s)) = 610.

Definition enc_ok (e : meta_data_encrypted_t) : Prop :=
  zlen (e_clean_filename e) = FILENAME_MAX_LEN /\ zlen (e_mc e) = 20 /\ zlen (e_mht_key e) = 16 /\ zlen (e_mht_gmac e) = 16 /\
  zlen (e_data e) = MD_USER_DATA_SIZE.

(** The key of the meta-data, as the plain part tells *)
Definition md_key (s : pfs) : list Z :=
  let p := plain_part (file_meta_data s) in
  if use_user_kdk_key s =? 1 then cmac (user_kdk_key s) (kdf_input METADATA_KEY_NAME 0 (p_meta_data_key_id p))
  else snd (pf_egetkey (key_request_bytes (md_key_request (p_isv_svn p) (p_cpu_svn p) (p_meta_data_key_id p)))).

(** The meta-data node has the current encrypted part. *)
Definition md_sealed (s : pfs) : Prop :=
  gcm_tag (md_key s) empty_iv [] (encrypted_part (file_meta_data s)) = p_meta_data_gmac (plain_part (file_meta_data s)) /\
  gcm_decrypt (md_key s) empty_iv [] (encrypted_part (file_meta_data s)) = enc_bytes (encrypted_part_plain s).

Definition root_committed (P : Z -> list Z) (s : pfs) : Prop :=
  let e := encrypted_part_plain s in committed (disk (world s)) 1 (e_mht_key e) (e_mht_gmac e) (P 1).

(** ** The invariant

    [winv] is what flushing and evicting nodes need, and holds in a file that
    can no longer be used; [inv] holds between the calls of an open file with
    [Y = []] and [top] the size of the file. *)
Record winv (P : Z -> list Z) (top : Z) (s : pfs) : Prop := MkWinv {
  w_tree : tree P top (e_size (encrypted_part_plain s)) (disk (world s)) (root_mht s) (c_map (cache s));
  w_wf : cache_wf (cache s);
  w_need : n_need_writing (root_mht s) = true -> need_writing s = true /\ 3072 < e_size (encrypted_part_plain s);
  w_file : honest = true -> live (read_only s) (file s) (world s) /\ recovery_filename s = rname;
  w_rw : need_writing s = true -> read_only s = false;
  w_plain : plain_ok s;
  w_enc : enc_ok (encrypted_part_plain s);
  w_root : 3072 < e_size (encrypted_part_plain s) -> n_need_writing (root_mht s) = false -> root_committed P s;
  w_saved : honest = true -> need_writing s = false ->
    md_sealed s /\ disk (world s) !! 0 = Some (meta_bytes (file_meta_data s)) }.

(** At most 48 nodes besides those of [B] are in the cache. *)
Definition few (B l : list Z) : Prop := (length B <= 15 /\ length (filter (.∉ B) l) <= 48)%nat.

Record inv (Y : list Z) (P : Z -> list Z) (top : Z) (s : pfs) : Prop := MkInv {
  i_w : winv P top s;
  i_up key : is_Some (c_map (cache s) !! key) -> k_parent key = 1 \/ is_Some (c_map (cache s) !! k_parent key);
  i_order : parents_first Y (c_list (cache s));
  i_few : exists B, (forall x, x ∈ Y -> x ∈ B) /\ few B (c_list (cache s));
  i_status : file_status s = SGX_FILE_STATUS_OK }.

Definition i_tree Y P top s (H : inv Y P top s) := w_tree _ _ _ (i_w _ _ _ _ H).
Definition i_wf Y P top s (H : inv Y P top s) := w_wf _ _ _ (i_w _ _ _ _ H).
Lemma i_file Y P top s : inv Y P top s -> honest = true -> live (read_only s) (file s) (world s).
Proof. intros [Hw _ _ _ _] Hh. apply (w_file _ _ _ Hw Hh). Qed.

Lemma committed_disk dk dk' key k gm p : (honest = true -> dk' !! key = dk !! key) ->
  committed dk key k gm p -> committed dk' key k gm p.
Proof. intros Hd (ct & H1 & H2 & H3 & H4). exists ct. repeat (split; [done|]). intros Hh. rewrite (Hd Hh). auto. Qed.

Lemma committed_mono dk dk' key k gm p : (honest = true -> forall ct, dk !! key = Some ct -> dk' !! key = Some ct) ->
  committed dk key k gm p -> committed dk' key k gm p.
Proof. intros Hd (ct & H1 & H2 & H3 & H4). exists ct. repeat (split; [done|]). auto. Qed.

Lemma placed_keep n c w w' k ct : placed n c w w' -> k <> n -> disk w !! k = Some ct -> disk w' !! k = Some ct.
Proof. intros [_ Hr _] Hk Hc. by rewrite Hr by (done || by exists ct). Qed.

Lemma tree_disk P top size dk dk' root m : (honest = true -> dk' = dk) -> tree P top size dk root m -> tree P top size dk' root m.
Proof.
  intros Hd []. split; try done. intros key H1 H2 H3. eapply committed_disk; [|by apply t_commit0].
  intros Hh. by rewrite (Hd Hh).
Qed.

(** The fields that do not matter for [winv] *)
Lemma winv_same P P' top top' s s' : winv P top s ->
  file_meta_data s' = file_meta_data s -> encrypted_part_plain s' = encrypted_part_plain s -> file s' = file s ->
  read_only s' = read_only s -> recovery_filename s' = recovery_filename s ->
  need_writing s' = need_writing s -> use_user_kdk_key s' = use_user_kdk_key s -> user_kdk_key s' = user_kdk_key s ->
  root_mht s' = root_mht s -> same_disk (world s) (world s') -> P' 1 = P 1 ->
  tree P' top' (e_size (encrypted_part_plain s)) (disk (world s)) (root_mht s) (c_map (cache s')) ->
  cache_wf (cache s') -> winv P' top' s'.
Proof.
  intros [] Hmd Hep Hfile Hro Hrec Hneed Hkdk Hukdk Hr Hd HP Ht Hw.
  assert (md_key s' = md_key s) as Hk by (unfold md_key; by rewrite Hmd, Hkdk, Hukdk).
  split; rewrite ?Hep, ?Hr, ?Hneed, ?Hfile, ?Hro, ?Hrec; try done.
  - eapply tree_disk; [|done]. by apply same_disk_eq.
  - intros Hh. destruct (w_file0 Hh) as [Hl ->]. split; [|done]. by apply (k_live _ _ (Hd Hh)).
  - unfold plain_ok. rewrite Hmd, Hkdk. done.
  - intros H1 H2. unfold root_committed. rewrite Hep, HP. eapply committed_disk; [|by apply w_root0].
    intros Hh. by rewrite (same_disk_eq _ _ Hd Hh).
  - intros Hh Hn. unfold md_sealed. rewrite Hk, Hmd, Hep, (same_disk_eq _ _ Hd Hh). by apply w_saved0.
Qed.

Lemma winv_quiet P top s s' : quiet s s' -> winv P top s -> winv P top s'.
Proof.
  intros [Hu Hr Hc Hd] Hw. pose proof Hw as []. user_eqs Hu.
  apply (winv_same P P top top s s' Hw); try done; by rewrite Hc.
Qed.

Lemma inv_quiet Y P top s s' : quiet s s' -> inv Y P top s -> inv Y P top s'.
Proof.
  intros Hq []. pose proof (winv_quiet _ _ _ _ Hq i_w0). destruct Hq as [Hu Hr Hc Hd]. user_eqs Hu.
  split; rewrite ?Hc, ?Hst; done.
Qed.
End Inv.
