(* ===== verification/PfsNode.v ===== *)
(** * Protected file system: nodes come into the cache

    Loading, appending, bumping and evicting nodes keeps the invariant. *)

From stdpp Require Import gmap.
From S2P Require Import Prelude Bytes Arch Trts Tcrypto Seal Thread Lru Pfs PfsIo PfsTree PfsInv.

#[local] Open Scope Z_scope.

Section Node.
Context {W : Type} {PF : Platform W} {G : AesGcm} {OC : Ocalls W} {g : runtime} {a_local a_cur_key : Z}.
Context {honest : bool} {V : View W}.
Context {SE : Setting PF G OC g a_local a_cur_key honest V}.
Abbreviation pfs := (protected_fs_file W).
Abbreviation FM := (M pfs unit).
Abbreviation inv := (inv (honest := honest) (V := V)).
Abbreviation tree := (tree (honest := honest)).
Abbreviation quiet := (quiet (honest := honest) (V := V)).
Abbreviation same_disk := (same_disk (honest := honest) (V := V)).
Abbreviation committed := (committed (honest := honest)).

(** What reading a node leaves when it fails: this does not happen with an
    honest disk, and the file can no longer be used. *)
Definition broken (e : unit) (s : pfs) : Prop :=
  honest = false /\ file_status s <> SGX_FILE_STATUS_OK /\
  exists P top B, winv (honest := honest) (V := V) P top s /\ few B (c_list (cache s)).

Lemma nofail_broken e s : nofail e s -> broken e s.
Proof. by intros []. Qed.

(** Only the cache has changed. *)
Lemma inv_cache Y Y' P P' top top' s s' : inv Y P top s -> user s' = user s -> root_mht s' = root_mht s ->
  same_disk (world s) (world s') -> P' 1 = P 1 ->
  tree P' top' (e_size (encrypted_part_plain s)) (disk (world s)) (root_mht s) (c_map (cache s')) ->
  cache_wf (cache s') -> parents_first Y' (c_list (cache s')) ->
  (forall key, is_Some (c_map (cache s') !! key) -> k_parent key = 1 \/ is_Some (c_map (cache s') !! k_parent key)) ->
  (exists B, (forall x, x ∈ Y' -> x ∈ B) /\ few B (c_list (cache s'))) -> inv Y' P' top' s'.
Proof.
  intros [] Hu Hr Hd HP Ht Hw Ho Hup Hf. user_eqs Hu. split; try done.
  - by apply (winv_same P P' top top' s s').
  - by rewrite Hst.
Qed.

Lemma wp_new (s : pfs) : wp new_or_fail s (fun _ s' => quiet s s') nofail.
Proof.
  unfold wp, new_or_fail, on_world, mbind, M_bind. pose proof (healthy_malloc (world s)) as Hm. pose proof (sec_malloc (world s)) as Hd.
  destruct (pf_malloc (world s)) as [w' b]. cbn in *. subst b. cbn. by split.
Qed.

(** What fread_node returns for a committed node *)
Lemma wp_fread key k gm p (s : pfs) : (honest = true -> live (read_only s) (file s) (world s)) -> committed (disk (world s)) key k gm p ->
  wp (fread_node key) s (fun c s' => quiet s s' /\ zlen c = NODE_SIZE /\
    (gcm_tag k empty_iv [] c = gm -> gcm_decrypt k empty_iv [] c = p) /\
    (honest = true -> gcm_tag k empty_iv [] c = gm)) nofail.
Proof.
  intros Hf (ct & Hl & Ht & Hp & Hd). unfold wp, fread_node, on_world, mget, mbind, M_bind.
  pose proof (sec_fread (file s) key (world s)) as Hr. pose proof sec_authentic as Ha. destruct honest eqn:Eh.
  - destruct (Hr _ ct (Hf eq_refl) (Hd eq_refl)) as (w' & E & Hk). rewrite E. cbn. split; [|done]. split; [done..|by intros ?].
  - destruct Hr as (w' & c & E & Hc). rewrite E. cbn. split; [by split; [done..|intros ?]|]. split; [done|]. split; [|done].
    intros Ht'. rewrite <- Ht in Ht'. by rewrite (Ha eq_refl _ _ _ c ct ltac:(congruence) Ht').
Qed.

Lemma wp_node_root (s : pfs) (Q : file_node -> pfs -> Prop) R : Q (root_mht s) s -> wp (node_at 1) s Q R.
Proof. done. Qed.

Lemma wp_node_cached key n (s : pfs) (Q : file_node -> pfs -> Prop) R : 2 <= key -> c_map (cache s) !! key = Some n ->
  Q n s -> wp (node_at key) s Q R.
Proof. intros Hk Hn HQ. unfold wp, node_at. rewrite (proj2 (Z.eqb_neq key 1)) by lia. by rewrite Hn. Qed.

(** A pointer to the root or to a node of the cache *)
Lemma wp_node_at Y P top key (s : pfs) (Q : file_node -> pfs -> Prop) R : inv Y P top s ->
  key = 1 \/ is_Some (c_map (cache s) !! key) ->
  (forall n, n_plain n = P key -> (key = 1 -> n = root_mht s) -> (key <> 1 -> c_map (cache s) !! key = Some n /\ node_ok P key n) -> Q n s) ->
  wp (node_at key) s Q R.
Proof.
  intros Hi Hk HQ. pose proof (i_tree _ _ _ _ Hi) as Ht. destruct (decide (key = 1)) as [->|Hne].
  - apply wp_node_root. apply HQ; [|done..]. by destruct (t_root _ _ _ _ _ _ Ht) as (? & ? & ? & ->).
  - destruct Hk as [|[n Hn]]; [done|]. destruct (t_node _ _ _ _ _ _ Ht _ _ Hn) as [[H2 Hok] _].
    eapply wp_node_cached; [lia|done|]. apply HQ; [|done|done]. by destruct Hok as (? & ? & ? & ->).
Qed.

Lemma wp_cache_add key n (s : pfs) Q : cache_wf (cache s) -> c_map (cache s) !! key = None ->
  (forall s', user s' = user s -> root_mht s' = root_mht s -> same_disk (world s) (world s') -> cache_wf (cache s') ->
     c_list (cache s') = key :: c_list (cache s) -> c_map (cache s') = <[key := n]> (c_map (cache s)) -> Q tt s') ->
  wp (cache_add key n) s Q nofail.
Proof.
  intros Hw Hn HQ. unfold cache_add. apply wp_bind. eapply wp_mono; [apply wp_new| |done]. intros [] s1 Hq1.
  apply wp_bind. eapply wp_mono; [apply wp_new| |done]. intros [] s2 Hq2. pose proof (quiet_trans _ _ _ Hq1 Hq2) as [Hu Hr Hc Hd].
  apply wp_bind, wp_get. apply wp_bind. destruct (add_wf (cache s) key n Hw Hn) as [E Hw'].
  eapply wp_lift_Ok; [by rewrite Hc|]. apply wp_mod. apply HQ; cbn; try done; by rewrite Hc.
Qed.

(** A clean node enters the tree. *)
Lemma tree_insert P top size dk root m key nw ci : tree P top size dk root m -> 2 <= key -> pos key < top ->
  m !! key = None ->
  tree P top size dk root (<[key := MkNode (k_type key) (k_number key) (k_parent key) false nw key ci (P key)]> m).
Proof.
  intros [] H2 Hpos Hn.
  assert (forall k, dirty (<[key := MkNode (k_type key) (k_number key) (k_parent key) false nw key ci (P key)]> m) k <-> dirty m k) as Hd.
  { intros k. unfold dirty. destruct (decide (k = key)) as [->|Hne].
    - rewrite lookup_insert_eq, Hn. split; [intros (n & [= <-] & ?); done|by intros (n & ? & _)].
    - by rewrite lookup_insert_ne by done. }
  split; try done.
  - intros k n. destruct (decide (k = key)) as [->|Hne].
    + rewrite lookup_insert_eq. intros [= <-]. split; [|done]. split; [done|]. by eexists _, _, _.
    + rewrite lookup_insert_ne by done. apply t_node.
  - intros k. rewrite !Hd. apply t_dirty.
  - intros k. rewrite Hd. apply t_commit.
Qed.

Lemma parents_first_cons Y key l : parents_first Y l -> key ∈ Y -> parents_first Y (key :: l).
Proof.
  intros Ho Hin l1 k l2 E Hk. destruct l1 as [|x l1]; cbn in E; injection E as -> E; [done|].
  destruct (Ho _ _ _ E Hk) as [|]; [by left|right; by right].
Qed.

Lemma up_insert key (n : file_node) (m : gmap Z file_node) :
  (forall k, is_Some (m !! k) -> k_parent k = 1 \/ is_Some (m !! k_parent k)) ->
  k_parent key = 1 \/ is_Some (m !! k_parent key) ->
  forall k, is_Some (<[key := n]> m !! k) -> k_parent k = 1 \/ is_Some (<[key := n]> m !! k_parent k).
Proof.
  intros Hup Hp k Hk. rewrite lookup_insert_is_Some'. destruct (decide (k = key)) as [->|Hne]; [tauto|].
  rewrite lookup_insert_ne in Hk by done. destruct (Hup k Hk); tauto.
Qed.

Lemma few_cons B key l : key ∈ B -> few B l -> few B (key :: l).
Proof. intros Hk [H1 H2]. split; [done|]. rewrite filter_cons_False; [done|]. tauto. Qed.

(** A clean node is added. *)
Lemma inv_added Y P top key nw ci (s s' : pfs) : inv Y P top s -> 2 <= key -> pos key < top -> c_map (cache s) !! key = None ->
  k_parent key = 1 \/ is_Some (c_map (cache s) !! k_parent key) -> key ∈ Y ->
  user s' = user s -> root_mht s' = root_mht s -> same_disk (world s) (world s') -> cache_wf (cache s') ->
  c_list (cache s') = key :: c_list (cache s) ->
  c_map (cache s') = <[key := MkNode (k_type key) (k_number key) (k_parent key) false nw key ci (P key)]> (c_map (cache s)) ->
  inv Y P top s'.
Proof.
  intros Hi H2 Hpos Hn Hp HY Hu Hr Hd Hw Hl Hm. destruct (i_few _ _ _ _ Hi) as (B & HB & Hf).
  apply (inv_cache _ _ _ _ _ _ _ _ Hi Hu Hr Hd); [done| |done|..]; rewrite ?Hm, ?Hl.
  - apply tree_insert; [apply (i_tree _ _ _ _ Hi)|done..].
  - apply parents_first_cons; [apply (i_order _ _ _ _ Hi)|done].
  - apply up_insert; [apply (i_up _ _ _ _ Hi)|done].
  - exists B. split; [done|]. apply few_cons; auto.
Qed.

(** ** load_node *)
Definition added (key : Z) (n : file_node) (s s' : pfs) : Prop :=
  user s' = user s /\ root_mht s' = root_mht s /\ same_disk (world s) (world s') /\
  c_list (cache s') = key :: c_list (cache s) /\ c_map (cache s') = <[key := n]> (c_map (cache s)).

Lemma wp_load Y P top key (s : pfs) : inv Y P top s -> 2 <= key -> pos key < e_size (encrypted_part_plain s) ->
  c_map (cache s) !! key = None -> k_parent key = 1 \/ is_Some (c_map (cache s) !! k_parent key) -> key ∈ Y ->
  wp (load_node (k_type key) (k_number key) key (k_parent key)) s
    (fun r s' => r = key /\ inv Y P top s' /\ exists n, added key n s s') broken.
Proof.
  intros Hi H2 Hpos Hn Hp HY. unfold load_node. pose proof (i_tree _ _ _ _ Hi) as Ht.
  assert (slot_committed (honest := honest) (disk (world s)) P key) as Hc.
  { apply (t_commit _ _ _ _ _ _ Ht); [done..|]. intros (n & E & _). congruence. }
  apply wp_bind. eapply wp_mono; [apply wp_new| |apply nofail_broken]. intros [] s1 Hq1.
  pose proof (inv_quiet _ _ _ _ _ Hq1 Hi) as Hi1.
  assert (slot_committed (honest := honest) (disk (world s1)) P key) as Hc1.
  { eapply committed_disk; [|exact Hc]. intros Hh. by rewrite (k_disk _ _ (q_disk _ _ Hq1 Hh)). }
  apply wp_bind. eapply wp_mono; [apply (wp_fread _ _ _ _ _ (i_file _ _ _ _ Hi1) Hc1)| |apply nofail_broken].
  intros c s2 (Hq2 & Hl & Hdec & Hhon). pose proof (quiet_trans _ _ _ Hq1 Hq2) as Hq. clear Hq1 Hq2 Hi1 Hc1.
  pose proof (inv_quiet _ _ _ _ _ Hq Hi) as Hi2.
  apply wp_bind. eapply wp_node_at; [exact Hi2|by rewrite (q_cache _ _ Hq)|]. intros pn Hpl _ _. rewrite Hpl.
  apply wp_bind. fold (k_slot key). apply wp_decrypt_from; [rewrite Hl; done|..].
  2: { intros Hne w e Hd. split; [|split; [done|]]; [destruct honest; [|done]; by destruct Hne, Hhon|].
       destruct (i_few _ _ _ _ Hi2) as (B & _ & Hf). exists P, top, B. split; [|done]. pose proof (i_w _ _ _ _ Hi2) as Hw2.
       by apply (winv_same P P top top s2 _ Hw2); try done; apply Hw2. }
  intros Htag s3 Hq3. rewrite (Hdec Htag). pose proof (quiet_trans _ _ _ Hq Hq3) as Hqs. clear Hq Hq3.
  pose proof (inv_quiet _ _ _ _ _ Hqs Hi) as Hi3. destruct Hqs as [Hu Hr Hca Hd].
  apply wp_bind. eapply wp_mono; [|intros a s' H; exact H|apply nofail_broken].
  apply wp_cache_add; [apply (i_wf _ _ _ _ Hi3)|by rewrite Hca|]. intros s4 Hu4 Hr4 Hd4 Hw4 Hl4 Hm4.
  apply wp_ret. split; [done|]. split.
  - apply (inv_added Y P top key false c s3 s4 Hi3); try done; rewrite ?Hca; try done.
    pose proof (t_size _ _ _ _ _ _ Ht). lia.
  - eexists. split; [congruence|]. split; [congruence|].
    split; [by eapply same_disk_trans|]. by rewrite Hl4, Hm4, Hca.
Qed.

(** ** read_mht_node *)

(** Nodes of [Z_] have been added to the cache. *)
Definition grows (Z_ : list Z) (s s' : pfs) : Prop :=
  user s' = user s /\ root_mht s' = root_mht s /\ same_disk (world s) (world s') /\
  (exists new, c_list (cache s') = new ++ c_list (cache s) /\ forall x, x ∈ new -> x ∈ Z_) /\
  forall x n, c_map (cache s) !! x = Some n -> c_map (cache s') !! x = Some n.

Lemma grows_refl Z_ s : grows Z_ s s.
Proof. do 2 (split; [done|]). split; [by intros ?|]. split; [|done]. exists []. split; [done|]. by intros x ?%elem_of_nil. Qed.

Lemma grows_trans Z_ Z1 Z2 s1 s2 s3 : (forall x, x ∈ Z1 -> x ∈ Z_) -> (forall x, x ∈ Z2 -> x ∈ Z_) ->
  grows Z1 s1 s2 -> grows Z2 s2 s3 -> grows Z_ s1 s3.
Proof.
  intros H1 H2 (Hu & Hr & Hd & (n1 & E1 & Hn1) & Hm) (Hu' & Hr' & Hd' & (n2 & E2 & Hn2) & Hm').
  split; [congruence|]. split; [congruence|]. split; [by eapply same_disk_trans|]. split; [|auto].
  exists (n2 ++ n1). rewrite E2, E1, app_assoc. split; [done|]. intros x [?|?]%elem_of_app; auto.
Qed.

Lemma added_grows key n s s' : added key n s s' -> c_map (cache s) !! key = None -> grows [key] s s'.
Proof.
  intros (Hu & Hr & Hd & Hl & Hm) Hn. do 3 (split; [done|]). split.
  - exists [key]. by rewrite Hl.
  - intros x nd Hx. rewrite Hm, lookup_insert_ne by congruence. done.
Qed.

Lemma quiet_grows Z_ s s' : quiet s s' -> grows Z_ s s'.
Proof.
  intros [Hu Hr Hc Hd]. do 3 (split; [done|]). rewrite Hc. split; [|done]. exists []. split; [done|]. by intros x ?%elem_of_nil.
Qed.

Lemma grows_size Z_ s s' : grows Z_ s s' -> encrypted_part_plain s' = encrypted_part_plain s /\ offset s' = offset s.
Proof. intros (Hu & _). by user_eqs Hu. Qed.

Lemma pos_mht_bound k size : pos (mht_key k) < size -> size < 2 ^ 62 -> k < 2 ^ 50.
Proof. destruct (mht_key_facts k) as (_ & _ & _ & ->). lia. Qed.

Lemma wp_read_mht n k Y P top (s : pfs) : inv Y P top s -> level n (mht_key k) -> 0 <= k ->
  k = 0 \/ pos (mht_key k) < e_size (encrypted_part_plain s) -> (forall x, x ∈ chain (S n) (mht_key k) -> x ∈ Y) ->
  wp (read_mht_node_loop (S n) k) s (fun r s' => r = mht_key k /\ inv Y P top s' /\
    (r = 1 \/ is_Some (c_map (cache s') !! r)) /\ grows (chain (S n) (mht_key k)) s s') broken.
Proof.
  revert k s. induction n as [|n IH]; intros k s Hi Hlv Hk Hv HY.
  { apply level_0 in Hlv. assert (k = 0) as -> by (unfold mht_key in Hlv; lia). cbn [read_mht_node_loop Z.eqb].
    apply wp_ret. split; [done|]. split; [done|]. split; [by left|apply grows_refl]. }
  cbn [read_mht_node_loop]. destruct (Z.eqb_spec k 0) as [->|Hk0].
  { apply wp_ret. split; [done|]. split; [done|]. split; [by left|apply grows_refl]. }
  destruct Hv as [|Hv]; [done|]. pose proof (t_size _ _ _ _ _ _ (i_tree _ _ _ _ Hi)) as [Hsz _].
  pose proof (pos_mht_bound _ _ Hv (proj2 Hsz)). rewrite mht_physical_key by lia.
  destruct (mht_key_facts k) as (Hty & Hnum & Hpar & Hpos). assert (2 <= mht_key k) by (unfold mht_key; lia).
  apply wp_bind, wp_get. unfold find. destruct (c_map (cache s) !! mht_key k) as [nd|] eqn:Hm.
  { apply wp_ret. split; [done|]. split; [done|]. split; [right; by rewrite Hm|apply grows_refl]. }
  set (k' := (k - 1) / CHILD_MHT_NODES_COUNT).
  assert (k_parent (mht_key k) = mht_key k') as Hp' by done.
  assert (forall x, x ∈ chain (S n) (mht_key k') -> x ∈ chain (S (S n)) (mht_key k)) as Hsub.
  { intros x Hx. cbn [chain]. rewrite (proj2 (Z.eqb_neq (mht_key k) 1)) by lia. right. by rewrite Hp'. }
  apply wp_bind. eapply wp_mono.
  - apply (IH k' s Hi).
    + rewrite <- Hp'. apply level_parent; [done|lia].
    + subst k'. unfold CHILD_MHT_NODES_COUNT. zlia.
    + destruct (decide (k' = 0)); [by left|right]. pose proof (pos_parent (mht_key k)). rewrite <- Hp'. lia.
    + intros x Hx. by apply HY, Hsub.
  - intros r s1 (-> & Hi1 & Hr & Hg). destruct (grows_size _ _ _ Hg) as [He _].
    destruct (decide (c_map (cache s1) !! mht_key k = None)) as [Hn1|Hs1].
    2: { exfalso. destruct Hg as (_ & _ & _ & (new & El & Hnew) & _).
         assert (mht_key k ∈ c_list (cache s1)) as Hin.
         { apply (i_wf _ _ _ _ Hi1). destruct (c_map (cache s1) !! mht_key k); [by eexists|done]. }
         rewrite El in Hin. apply elem_of_app in Hin as [Hin|Hin].
         - apply Hnew in Hin. apply chain_range in Hin; [|unfold mht_key; subst k'; unfold CHILD_MHT_NODES_COUNT; zlia].
           pose proof (parent_range (mht_key k)). rewrite Hp' in *. lia.
         - apply (i_wf _ _ _ _ Hi) in Hin. rewrite Hm in Hin. by destruct Hin. }
    assert (mht_key k ∈ chain (S (S n)) (mht_key k)) as Hself.
    { cbn [chain]. rewrite (proj2 (Z.eqb_neq (mht_key k) 1)) by lia. by left. }
    pose proof (wp_load Y P top (mht_key k) s1 Hi1 H0 ltac:(by rewrite He) Hn1 ltac:(by rewrite Hp') (HY _ Hself)) as HL.
    rewrite Hty, Hnum, Hp' in HL. eapply wp_mono; [exact HL| |done].
    intros r s2 (-> & Hi2 & nd & Ha). split; [done|]. split; [done|].
    pose proof Ha as (_ & _ & _ & _ & Hm2). split; [right; rewrite Hm2, lookup_insert_eq; done|].
    eapply grows_trans; [exact Hsub| |exact Hg|by eapply added_grows]. by intros x ->%list_elem_of_singleton.
  - done.
Qed.

(** ** Appending *)

(** Before nodes are appended at the end of the file, their plain texts are
    taken to be zero. *)
Definition fresh (size : Z) (P : Z -> list Z) (key : Z) : list Z :=
  if (key =? 1) || (pos key <? size) then P key else zero_node.

Lemma fresh_old size P key : key = 1 \/ pos key < size -> fresh size P key = P key.
Proof. unfold fresh. intros [->|H]; [done|]. rewrite (proj2 (Z.ltb_lt _ _) H), orb_true_r. done. Qed.
Lemma fresh_new size P key : key <> 1 -> size <= pos key -> fresh size P key = zero_node.
Proof. unfold fresh. intros H1 H2. rewrite (proj2 (Z.eqb_neq _ _) H1), (proj2 (Z.ltb_ge _ _) H2). done. Qed.

Lemma zero_node_len : zlen zero_node = NODE_SIZE.
Proof. unfold zero_node. rewrite zlen_zreplicate. done. Qed.

Lemma tree_fresh P size dk root m : tree P size size dk root m -> tree (fresh size P) (size + 1) size dk root m.
Proof.
  intros []. split; try done.
  - lia.
  - intros key Hk. unfold fresh. case_match; [by apply t_len|apply zero_node_len].
  - intros key n Hn. destruct (t_node _ _ Hn) as [[H2 (nd & nw & ci & ->)] Hp]. split; [|lia]. split; [done|].
    exists nd, nw, ci. by rewrite fresh_old by (by right).
  - intros key H2 Hp Hd. unfold slot_committed. pose proof (pos_parent key H2).
    rewrite !fresh_old by (right; lia). by apply t_commit.
Qed.

Lemma inv_fresh Y P (s : pfs) : let size := e_size (encrypted_part_plain s) in
  inv Y P size s -> inv Y (fresh size P) (size + 1) s.
Proof.
  intros size Hi. apply (inv_cache Y Y P (fresh size P) size (size + 1) s s Hi); try done.
  - apply tree_fresh, Hi.
  - apply (i_wf _ _ _ _ Hi).
  - apply Hi.
  - apply Hi.
  - apply Hi.
Qed.

(** A new node at the end of the file *)
Lemma wp_append_node Y P top key (s : pfs) : inv Y P top s -> 2 <= key -> pos key < top -> P key = zero_node ->
  c_map (cache s) !! key = None -> k_parent key = 1 \/ is_Some (c_map (cache s) !! k_parent key) -> key ∈ Y ->
  wp (cache_add key (new_node_ (k_type key) (k_number key) key (k_parent key))) s
    (fun _ s' => inv Y P top s' /\ exists n, added key n s s') nofail.
Proof.
  intros Hi H2 Hpos Hz Hn Hp HY. apply wp_cache_add; [apply (i_wf _ _ _ _ Hi)|done|]. intros s' Hu Hr Hd Hw Hl Hm. split.
  - apply (inv_added Y P top key true zero_node s s' Hi); try done. rewrite Hm. unfold new_node_. by rewrite Hz.
  - by eexists.
Qed.

(** A node that was neither in the cache nor added is not in it. *)
Lemma grows_absent Z_ Y P top s s' key : inv Y P top s -> inv Y P top s' -> grows Z_ s s' ->
  c_map (cache s) !! key = None -> key ∉ Z_ -> c_map (cache s') !! key = None.
Proof.
  intros Hi Hi' (_ & _ & _ & (new & El & Hnew) & _) Hn Hk. destruct (c_map (cache s') !! key) eqn:E; [|done]. exfalso.
  assert (key ∈ c_list (cache s')) as Hin by (apply (i_wf _ _ _ _ Hi'); by rewrite E).
  rewrite El in Hin. apply elem_of_app in Hin as [Hin|Hin]; [by apply Hk, Hnew|].
  apply (i_wf _ _ _ _ Hi) in Hin. rewrite Hn in Hin. by destruct Hin.
Qed.

Lemma chain_self n key : key <> 1 -> key ∈ chain (S n) key.
Proof. intros H. cbn [chain]. rewrite (proj2 (Z.eqb_neq _ _) H). by left. Qed.
Lemma chain_up n key x : key <> 1 -> x ∈ chain n (k_parent key) -> x ∈ chain (S n) key.
Proof. intros H Hx. cbn [chain]. rewrite (proj2 (Z.eqb_neq _ _) H). by right. Qed.

Lemma chain_mht n key x : is_mht key = true -> x ∈ chain n key -> is_mht x = true.
Proof.
  revert key. induction n as [|n IH]; intros key Hk Hx; cbn in Hx; [by apply elem_of_nil in Hx|].
  destruct (key =? 1); [by apply elem_of_nil in Hx|]. apply elem_of_cons in Hx as [->|Hx]; [done|].
  apply (IH (k_parent key)); [apply parent_mht|done].
Qed.

Lemma chain_more n key x : x ∈ chain n key -> x ∈ chain (S n) key.
Proof.
  revert key. induction n as [|n IH]; intros key Hx; [by apply elem_of_nil in Hx|].
  destruct (decide (key = 1)) as [->|Hne]; [by apply elem_of_nil in Hx|].
  cbn [chain] in Hx. rewrite (proj2 (Z.eqb_neq _ _) Hne) in Hx. apply elem_of_cons in Hx as [->|Hx]; [by apply chain_self|].
  by apply chain_up, IH.
Qed.

(** Chains of the mht nodes of a file fit the fuel. *)
Lemma level_S n key : level n key -> level (S n) key.
Proof. intros (k & Hk & ->). exists k. split; [|done]. rewrite Nat2Z.inj_succ, Z.pow_succ_r by lia. lia. Qed.

Lemma chain_enough n m key : level n key -> (n <= m)%nat -> chain (S m) key = chain (S n) key.
Proof.
  revert m key. induction n as [|n IH]; intros m key Hl Hm.
  - apply level_0 in Hl as ->. done.
  - destruct m as [|m]; [lia|]. destruct (decide (key = 1)) as [->|Hne]; [done|].
    change (chain (S (S m)) key) with (if key =? 1 then [] else key :: chain (S m) (k_parent key)).
    rewrite (IH m) by (first [by apply level_parent|lia]). done.
Qed.

Lemma level_mht k size : 0 <= k -> k = 0 \/ pos (mht_key k) <= size -> size < 2 ^ 62 -> level 12 (mht_key k) /\ k < 2 ^ 50.
Proof.
  intros Hk Hp Hs. assert (k < 2 ^ 50).
  { destruct Hp as [->|Hp]; [lia|]. destruct (mht_key_facts k) as (_ & _ & _ & E). rewrite E in Hp. lia. }
  split; [|done]. apply level_of. lia.
Qed.

Lemma wp_append_mht Y P (s : pfs) k : let size := e_size (encrypted_part_plain s) in
  inv Y P (size + 1) s -> 1 <= k -> pos (mht_key k) = size -> P (mht_key k) = zero_node ->
  c_map (cache s) !! mht_key k = None -> (forall x, x ∈ chain 14 (mht_key k) -> x ∈ Y) ->
  wp (append_mht_node k) s (fun r s' => r = mht_key k /\ inv Y P (size + 1) s' /\
    is_Some (c_map (cache s') !! r) /\ grows (chain 14 (mht_key k)) s s') broken.
Proof.
  intros size Hi Hk Hpos Hz Hn HY. unfold append_mht_node.
  pose proof (t_size _ _ _ _ _ _ (i_tree _ _ _ _ Hi)) as [Hsz _].
  destruct (level_mht k size) as [Hlv Hk50]; [lia|right; lia|lia|].
  destruct (mht_key_facts k) as (Hty & Hnum & Hpar & Hpos'). assert (2 <= mht_key k) by (unfold mht_key; lia).
  set (k' := (k - 1) / CHILD_MHT_NODES_COUNT). assert (k_parent (mht_key k) = mht_key k') as Hp' by done.
  assert (0 <= k' < k) as Hk' by (subst k'; unfold CHILD_MHT_NODES_COUNT; zlia).
  assert (forall x, x ∈ chain 13 (mht_key k') -> x ∈ chain 14 (mht_key k)) as Hsub.
  { intros x Hx. apply chain_up; [lia|]. by rewrite Hp'. }
  destruct (level_mht k' size) as [Hlv' _]; [lia| |lia|].
  { destruct (decide (k' = 0)); [by left|right]. destruct (mht_key_facts k') as (_ & _ & _ & ->). lia. }
  apply wp_bind. unfold read_mht_node, depth_fuel. eapply wp_mono; [|intros r s1 H1; exact H1|done].
  eapply wp_mono; [apply (wp_read_mht 13 k' Y P (size + 1) s Hi)| |done].
  - by apply level_S.
  - lia.
  - destruct (decide (k' = 0)); [by left|right]. destruct (mht_key_facts k') as (_ & _ & _ & ->). lia.
  - rewrite (chain_enough 12) by (done || lia). intros x Hx. by apply HY, Hsub.
  - intros r s1 (-> & Hi1 & Hr & Hg). rewrite (chain_enough 12) in Hg by (done || lia).
    destruct (grows_size _ _ _ Hg) as [He _]. apply wp_bind. eapply wp_mono; [apply wp_new| |apply nofail_broken].
    intros [] s2 Hq. pose proof (inv_quiet _ _ _ _ _ Hq Hi1) as Hi2. rewrite mht_physical_key by lia.
    assert (c_map (cache s1) !! mht_key k = None) as Hn1.
    { apply (grows_absent _ _ _ _ _ _ _ Hi Hi1 Hg Hn). intros Hin. apply chain_range in Hin; unfold mht_key in *; lia. }
    pose proof (wp_append_node Y P (size + 1) (mht_key k) s2 Hi2) as HL. rewrite Hty, Hnum, Hp', (q_cache _ _ Hq) in HL.
    apply wp_bind. eapply wp_mono; [apply HL; [done|lia|done|done|done|]| |apply nofail_broken].
    + apply HY, chain_self. lia.
    + intros [] s3 (Hi3 & nd & Ha). apply wp_ret. split; [done|]. split; [done|].
      pose proof Ha as (_ & _ & _ & _ & Hm3). split; [rewrite Hm3, lookup_insert_eq; done|].
      eapply (grows_trans _ _ [mht_key k]); [exact Hsub| |exact Hg|].
      * intros x ->%list_elem_of_singleton. apply chain_self. lia.
      * eapply (grows_trans _ [] [mht_key k]); [by intros x ?%elem_of_nil|done|by apply quiet_grows|].
        eapply added_grows; [exact Ha|]. by rewrite (q_cache _ _ Hq).
Qed.

(** ** get_mht_node *)

(** The end of the file is at the start of a node: a node is appended. *)
Definition at_end (s : pfs) : bool :=
  (u64 (offset s - MD_USER_DATA_SIZE) mod NODE_SIZE =? 0) && (offset s =? e_size (encrypted_part_plain s)).

Definition data_no (s : pfs) : Z := (offset s - 3072) / 4096.

Definition appending (P : Z -> list Z) (top : Z) (s : pfs) : Prop :=
  let size := e_size (encrypted_part_plain s) in
  top = size + 1 /\ (forall key, key <> 1 -> pos key = size -> P key = zero_node) /\
  (forall key, is_Some (c_map (cache s) !! key) -> pos key < size).

Lemma wp_get_mht Y P top (s : pfs) : let mk := mht_key (data_no s / 96) in
  inv Y P top s -> 3072 <= offset s <= e_size (encrypted_part_plain s) -> (forall x, x ∈ chain 14 mk -> x ∈ Y) ->
  (at_end s = true -> appending P top s) ->
  wp get_mht_node s (fun r s' => r = mk /\ inv Y P top s' /\ (r = 1 \/ is_Some (c_map (cache s') !! r)) /\
    grows (chain 14 mk) s s') broken.
Proof.
  intros mk Hi Ho HY Hap. unfold get_mht_node. pose proof (t_size _ _ _ _ _ _ (i_tree _ _ _ _ Hi)) as [Hsz _].
  unfold at_end, MD_USER_DATA_SIZE, NODE_SIZE in *. rewrite u64_id in Hap by (unfold is_u64; lia).
  apply wp_bind, wp_get. rewrite (proj2 (Z.ltb_ge _ _)) by lia. rewrite node_numbers_eq by lia. fold (data_no s). cbn [nn_mht].
  set (k := data_no s / 96) in *. assert (0 <= data_no s) by (unfold data_no; zlia).
  assert (0 <= k) by (subst k; zlia). destruct (mht_key_facts k) as (_ & _ & _ & Hpos).
  assert (4096 * (96 * k) <= offset s - 3072) by (subst k; unfold data_no; zlia).
  destruct (Z.eqb_spec k 0) as [E|Hk0].
  { apply wp_ret. subst mk. rewrite E. split; [done|]. split; [done|]. split; [by left|apply grows_refl]. }
  rewrite u64_id by (unfold is_u64; lia). unfold ATTACHED_DATA_NODES_COUNT.
  destruct ((offset s - 3072) mod (96 * 4096) =? 0) eqn:E1; cbn [andb].
  1: destruct (offset s =? e_size (encrypted_part_plain s)) eqn:E2; zbool.
  1: { destruct Hap as (-> & Hz & Hold).
       { rewrite andb_true_iff, !Z.eqb_eq. split; [zlia|done]. }
       assert (pos (mht_key k) = e_size (encrypted_part_plain s)) as Hp by (subst k; unfold data_no in *; zlia).
       eapply wp_mono; [apply (wp_append_mht Y P s k Hi)| |done]; [lia|done| | |done|].
       - apply Hz; [unfold mht_key; lia|done].
       - destruct (c_map (cache s) !! mht_key k) eqn:Em; [|done].
         assert (pos (mht_key k) < e_size (encrypted_part_plain s)) by (apply Hold; by rewrite Em). lia.
       - intros r s' (-> & Hi' & Hs & Hg). split; [done|]. split; [done|]. split; [by right|done]. }
  all: zbool; assert (pos (mht_key k) < e_size (encrypted_part_plain s)) by (subst k; unfold data_no in *; zlia).
  all: destruct (level_mht k (e_size (encrypted_part_plain s))) as [Hlv _]; [lia|right; lia|lia|].
  all: unfold read_mht_node, depth_fuel; apply (wp_read_mht 13); [done|by apply level_S|lia|by right|done].
Qed.

(** ** Data nodes *)
Lemma inv_start Y P top (s : pfs) : inv [] P top s -> (length (c_list (cache s)) <= 48)%nat -> (length Y <= 15)%nat -> inv Y P top s.
Proof.
  intros [] Hl HY. split; try done.
  - intros l1 k l2 E Hk. apply (i_order _ _ _ E). by intros ?%elem_of_nil.
  - exists Y. split; [done|]. split; [done|]. pose proof (length_filter (.∉ Y) (c_list (cache s))). lia.
Qed.

Lemma grows_length Z_ s s' : cache_wf (cache s') -> grows Z_ s s' ->
  (length (c_list (cache s')) <= length Z_ + length (c_list (cache s)))%nat.
Proof.
  intros [Hd _] (_ & _ & _ & (new & El & Hnew) & _). rewrite El in Hd |- *. rewrite length_app.
  apply NoDup_app in Hd as (Hd & _). assert (length new <= length Z_)%nat; [|lia].
  apply NoDup_incl_length; [by apply NoDup_ListNoDup|]. intros x Hx. apply list_elem_of_In, Hnew. by apply list_elem_of_In.
Qed.

(** What a data node is when it is returned: the most recent node of the
    cache; the order of the nodes above it is to be restored. *)
Definition got (P : Z -> list Z) (top : Z) (s : pfs) (key : Z) (s' : pfs) : Prop :=
  key = data_key (data_no s) /\ inv (key :: chain 14 (k_parent key)) P top s' /\
  (exists l, c_list (cache s') = key :: l) /\ is_Some (c_map (cache s') !! key) /\
  user s' = user s /\ root_mht s' = root_mht s /\ same_disk (world s) (world s') /\
  (length (c_list (cache s')) <= length (c_list (cache s)) + 15)%nat.

Lemma data_not_chain n d : data_key d ∉ chain n (k_parent (data_key d)).
Proof. intros Hin. apply chain_mht in Hin; [|apply parent_mht]. by rewrite is_mht_data in Hin. Qed.

Lemma added_got P top s s1 s2 n : let key := data_key (data_no s) in
  inv (key :: chain 14 (k_parent key)) P top s2 -> grows (chain 14 (k_parent key)) s s1 -> added key n s1 s2 ->
  cache_wf (cache s1) -> got P top s key s2.
Proof.
  intros key Hi Hg Ha Hw. pose proof (grows_length _ _ _ Hw Hg) as Hlen. pose proof (chain_length 14 (k_parent key)).
  destruct Hg as (Hu & Hr & Hd & _ & _), Ha as (Hu' & Hr' & Hd' & El & Em). split; [done|]. split; [done|].
  split; [by eexists|]. split; [rewrite Em, lookup_insert_eq; done|]. split; [congruence|]. split; [congruence|].
  split; [by eapply same_disk_trans|]. rewrite El. cbn [length]. lia.
Qed.

Lemma wp_append_data P (s : pfs) : let size := e_size (encrypted_part_plain s) in
  inv [] P size s -> (length (c_list (cache s)) <= 48)%nat -> 3072 <= offset s -> at_end s = true ->
  wp append_data_node s (got (fresh size P) (size + 1) s) broken.
Proof.
  intros size Hi H48 Ho Hend. unfold append_data_node. pose proof (t_size _ _ _ _ _ _ (i_tree _ _ _ _ Hi)) as [Hsz _].
  set (key := data_key (data_no s)). set (Y := key :: chain 14 (k_parent key)).
  pose proof Hend as He. unfold at_end, MD_USER_DATA_SIZE, NODE_SIZE in He. zbool. fold size in H0.
  rewrite u64_id in H by (unfold is_u64; lia).
  destruct (data_key_facts (data_no s)) as (Hty & Hnum & Hpar & Hpos). fold key in Hty, Hnum, Hpar, Hpos.
  assert (pos key = size) as Hps by (rewrite Hpos; unfold data_no; zlia). assert (0 <= data_no s) by (unfold data_no; zlia).
  assert (2 <= key) by (unfold key, data_key; zlia).
  assert (length Y <= 15)%nat as HY by (unfold Y; cbn [length]; pose proof (chain_length 14 (k_parent key)); lia).
  pose proof (inv_fresh Y P s (inv_start Y _ _ _ Hi H48 HY)) as Hi1. fold size in Hi1.
  assert (forall k, is_Some (c_map (cache s) !! k) -> pos k < size) as Hold.
  { intros k [n Hn]. apply (t_node _ _ _ _ _ _ (i_tree _ _ _ _ Hi) _ _ Hn). }
  apply wp_bind. eapply wp_mono; [apply (wp_get_mht Y (fresh size P) (size + 1) s Hi1); [lia| |]| |done].
  - rewrite <- Hpar. intros x Hx. by right.
  - intros _. split; [done|]. split; [|done]. intros k Hk Hp. apply fresh_new; [done|]. fold size in Hp. lia.
  - rewrite <- Hpar. intros r s1 (-> & Hi2 & Hr & Hg). apply wp_bind.
    eapply wp_mono; [apply wp_new| |apply nofail_broken]. intros [] s2 Hq. pose proof (inv_quiet _ _ _ _ _ Hq Hi2) as Hi3.
    apply wp_bind, wp_get. destruct (grows_size _ _ _ Hg) as [_ Hof]. pose proof (q_user _ _ Hq) as Hu. user_eqs Hu.
    rewrite Hoff, Hof, node_numbers_eq by lia. fold (data_no s). fold key. cbn [nn_physical_data nn_data].
    assert (c_map (cache s1) !! key = None) as Hn1.
    { apply (grows_absent _ _ _ _ _ _ _ Hi1 Hi2 Hg); [|apply data_not_chain].
      destruct (c_map (cache s) !! key) eqn:Em; [|done]. specialize (Hold key). rewrite Em in Hold.
      specialize (Hold ltac:(done)). lia. }
    pose proof (wp_append_node Y (fresh size P) (size + 1) key s2 Hi3) as HL.
    rewrite Hty, Hnum, (q_cache _ _ Hq) in HL.
    apply wp_bind. eapply wp_mono; [apply HL; [done|lia| |done|done|by left]| |apply nofail_broken].
    + apply fresh_new; lia.
    + intros [] s3 (Hi4 & n & Ha). apply wp_ret. apply (added_got _ _ s s2 s3 n Hi4); [|exact Ha|apply (i_wf _ _ _ _ Hi3)].
      eapply (grows_trans _ _ []); [done|by intros x ?%elem_of_nil|exact Hg|by apply quiet_grows].
Qed.
End Node.
