(* ===== verification/PfsData.v ===== *)
(** * Protected file system: data nodes and the order of the cache

    Reading a data node, and moving its parents before it. *)

From stdpp Require Import gmap.
From S2P Require Import Prelude Bytes Arch Trts Tcrypto Seal Thread Lru Pfs PfsIo PfsTree PfsInv PfsNode.

#[local] Open Scope Z_scope.

(** ** Orders *)
Lemma filter_split (Pr : Z -> Prop) `{!forall x, Decision (Pr x)} l l1 k l2 : filter Pr l = l1 ++ k :: l2 ->
  exists a b, l = a ++ k :: b /\ filter Pr a = l1.
Proof.
  revert l1. induction l as [|x l IH]; intros l1 E; [by destruct l1|]. rewrite filter_cons in E. destruct (decide (Pr x)) as [Hx|Hx].
  - destruct l1 as [|y l1]; cbn in E; injection E as -> E; [by exists [], l|].
    destruct (IH _ E) as (a & b & -> & Ha). exists (y :: a), b. split; [done|]. rewrite filter_cons_True by done. by rewrite Ha.
  - destruct (IH _ E) as (a & b & -> & Ha). exists (x :: a), b. split; [done|]. by rewrite filter_cons_False.
Qed.

(** The parent of [prev] moves to the front. *)
Lemma parents_first_bump Y prev key l : parents_first (prev :: Y) l -> key ∈ Y -> (prev ∈ Y \/ k_parent prev = key) ->
  parents_first Y (to_front key l).
Proof.
  intros Ho HY Hprev l1 k l2 E Hk. unfold to_front in E. destruct l1 as [|x l1]; cbn in E; injection E as -> E; [done|].
  destruct (filter_split _ _ _ _ _ E) as (a & b & -> & Ha).
  destruct (decide (k = prev)) as [->|Hne].
  - destruct Hprev as [|<-]; [done|]. right. by left.
  - destruct (Ho _ _ _ eq_refl) as [|Hin]; [by rewrite not_elem_of_cons| |]; [by left|right].
    destruct (decide (k_parent k = x)) as [->|Hx]; [by left|right]. rewrite <- Ha. by apply list_elem_of_filter.
Qed.

Lemma parents_first_prefix Y l1 l2 : parents_first Y (l1 ++ l2) -> parents_first Y l1.
Proof. intros Ho a k b ->. apply (Ho a k (b ++ l2)). by rewrite <- app_assoc. Qed.

Section Data.
Context {W : Type} {PF : Platform W} {G : AesGcm} {OC : Ocalls W} {g : runtime} {a_local a_cur_key : Z}.
Context {honest : bool} {V : View W}.
Context {SE : Setting PF G OC g a_local a_cur_key honest V}.
Abbreviation pfs := (protected_fs_file W).
Abbreviation FM := (M pfs unit).
Abbreviation inv := (inv (honest := honest) (V := V)).
Abbreviation got := (got (honest := honest) (V := V)).
Abbreviation broken := (broken (honest := honest) (V := V)).
Abbreviation same_disk := (same_disk (honest := honest) (V := V)).

(** A node of the cache is moved to the front. *)
Definition front (key : Z) (s : pfs) : pfs :=
  set_cache (MkCache (to_front key (c_list (cache s))) (c_map (cache s)) (c_it (cache s))) s.

Lemma wp_cache_get key n (s : pfs) (Q : option file_node -> pfs -> Prop) R : cache_wf (cache s) ->
  c_map (cache s) !! key = Some n -> Q (Some n) (front key s) -> wp (cache_get key) s Q R.
Proof. intros Hw Hn HQ. unfold wp, cache_get. by rewrite (proj1 (get_wf _ _ _ Hw Hn)). Qed.

Lemma inv_front Y prev P top key (s : pfs) : inv (prev :: Y) P top s -> is_Some (c_map (cache s) !! key) -> key ∈ Y ->
  (prev ∈ Y \/ k_parent prev = key) -> inv Y P top (front key s).
Proof.
  intros Hi [n Hn] HY Hp. apply (inv_cache _ Y _ _ _ top _ (front key s) Hi); try done.
  - apply (i_tree _ _ _ _ Hi).
  - apply (proj2 (get_wf _ _ _ (i_wf _ _ _ _ Hi) Hn)).
  - cbn. by apply (parents_first_bump Y prev); [apply (i_order _ _ _ _ Hi)|..].
  - apply (i_up _ _ _ _ Hi).
  - destruct (i_few _ _ _ _ Hi) as (B & HB & H1 & H2). exists B. split; [intros x Hx; apply HB; by right|]. split; [done|].
    change (c_list (cache (front key s))) with (key :: filter (.≠ key) (c_list (cache s))).
    rewrite filter_cons_False by (intros Hk; apply Hk, HB; by right).
    etrans; [|exact H2]. clear. induction (c_list (cache s)) as [|x l IH]; [done|].
    rewrite (filter_cons (.≠ key)). destruct (decide (x ≠ key)); rewrite !(filter_cons (.∉ B)); repeat case_decide; cbn; lia.
Qed.

Lemma inv_twice key Y P top (s : pfs) : inv (key :: Y) P top s -> inv (key :: key :: Y) P top s.
Proof.
  intros []. split; try done.
  - intros l1 k l2 E Hk. apply (i_order _ _ _ E). rewrite !not_elem_of_cons in *. tauto.
  - destruct i_few as (B & HB & Hf). exists B. split; [|done]. intros x. rewrite elem_of_cons. intros [->|?]; apply HB; [by left|done].
Qed.

Lemma to_front_length key l : NoDup l -> key ∈ l -> length (to_front key l) = length l.
Proof.
  intros Hd Hin. apply Permutation_length, NoDup_Permutation; [by apply to_front_nodup|done|].
  intros x. by apply elem_of_to_front.
Qed.

Lemma wp_read_data P (s : pfs) : let size := e_size (encrypted_part_plain s) in
  inv [] P size s -> (length (c_list (cache s)) <= 48)%nat -> 3072 <= offset s <= size -> at_end s = false -> wp read_data_node s (got P size s) broken.
Proof.
  intros size Hi H48 Ho Hend. unfold read_data_node. pose proof (t_size _ _ _ _ _ _ (i_tree _ _ _ _ Hi)) as [Hsz _].
  set (key := data_key (data_no s)). set (Y := key :: chain 14 (k_parent key)).
  apply wp_bind, wp_get. rewrite node_numbers_eq by lia. fold (data_no s). fold key. cbn [nn_physical_data nn_data].
  destruct (data_key_facts (data_no s)) as (Hty & Hnum & Hpar & Hpos). fold key in Hty, Hnum, Hpar, Hpos.
  assert (0 <= data_no s) by (unfold data_no; zlia). assert (2 <= key) by (unfold key, data_key; zlia).
  assert (inv Y P size s) as HiY by (apply inv_start; [done..|]; cbn; pose proof (chain_length 14 (k_parent key)); cbn in *; lia).
  destruct (c_map (cache s) !! key) as [n|] eqn:Hm.
  - apply wp_bind. eapply wp_cache_get; [apply (i_wf _ _ _ _ Hi)|exact Hm|]. apply wp_ret.
    assert (key ∈ c_list (cache s)) as Hin by (apply (i_wf _ _ _ _ Hi); by rewrite Hm).
    split; [done|]. split; [|split; [by eexists|]].
    + apply (inv_front _ key); [by apply inv_twice|by rewrite Hm|by left|left; by left].
    + split; [cbn; by rewrite Hm|]. do 2 (split; [done|]). split; [by intros ?|]. cbn [front cache set_cache c_list].
      rewrite to_front_length by (done || apply (i_wf _ _ _ _ Hi)). lia.
  - apply wp_bind. unfold wp at 1, cache_get, get. rewrite Hm.
    change (wp (parent ← get_mht_node; load_node FILE_DATA_NODE_TYPE (data_no s) key parent) (set_cache (cache s) s) (got P size s) broken).
    replace (set_cache (cache s) s) with s by (by destruct s).
    apply wp_bind. eapply wp_mono; [apply (wp_get_mht Y P size s HiY Ho)| |done].
    + rewrite <- Hpar. intros x Hx. by right.
    + rewrite Hend. done.
    + rewrite <- Hpar. intros r s1 (-> & Hi1 & Hr & Hg). destruct (grows_size _ _ _ Hg) as [He _].
      assert (c_map (cache s1) !! key = None) as Hn1.
      { apply (grows_absent _ _ _ _ _ _ _ HiY Hi1 Hg Hm). apply data_not_chain. }
      pose proof (wp_load Y P size key s1 Hi1) as HL. rewrite Hty, Hnum, He in HL.
      eapply wp_mono; [apply HL; [done| |done|done|by left]| |done].
      * unfold at_end, MD_USER_DATA_SIZE, NODE_SIZE in Hend. rewrite u64_id in Hend by (unfold is_u64; lia).
        apply andb_false_iff in Hend. rewrite Hpos. fold size in Hend |- *. destruct Hend as [Hend|Hend]; zbool; unfold data_no; zlia.
      * intros r s2 (-> & Hi2 & n & Ha). apply (added_got _ _ s s1 s2 n Hi2 Hg Ha). apply (i_wf _ _ _ _ Hi1).
Qed.

(** ** bump_parents *)
Lemma inv_done prev P top (s : pfs) : inv [prev] P top s -> k_parent prev = 1 -> inv [] P top s.
Proof.
  intros Hi Hp. apply (inv_cache [prev] [] _ _ _ top _ s Hi); try done; [apply (i_tree _ _ _ _ Hi)|apply (i_wf _ _ _ _ Hi)| |apply (i_up _ _ _ _ Hi)|].
  2: { destruct (i_few _ _ _ _ Hi) as (B & _ & Hf). exists B. split; [|done]. by intros x ?%elem_of_nil. }
  intros l1 x l2 E _. destruct (decide (x = prev)) as [->|Hne]; [by left|].
  apply (i_order _ _ _ _ Hi _ _ _ E). by rewrite list_elem_of_singleton.
Qed.

(** [key] and the nodes above it move before [dk], at the front. *)
Lemma wp_bump n prev key dk P top (s : pfs) pre rest : inv (prev :: chain (S n) key) P top s -> k_parent prev = key ->
  level n key -> key = 1 \/ is_Some (c_map (cache s) !! key) ->
  c_list (cache s) = pre ++ dk :: rest -> dk ∉ chain (S n) key ->
  wp (bump_parents (S n) key) s (fun _ s' => inv [] P top s' /\ user s' = user s /\ root_mht s' = root_mht s /\
    same_disk (world s) (world s') /\ c_map (cache s') = c_map (cache s) /\
    length (c_list (cache s')) = length (c_list (cache s)) /\
    exists pre' rest', c_list (cache s') = pre' ++ dk :: rest' /\ (length pre' <= length pre + n)%nat) nofail.
Proof.
  revert prev key s pre rest. induction n as [|n IH]; intros prev key s pre rest Hi Hp Hlv Hk El Hdk.
  1: apply level_0 in Hlv as E1. 2: destruct (decide (key = 1)) as [E1|Hk1].
  1,2: rewrite E1 in *; cbn [bump_parents]; apply wp_bind; apply wp_node_root;
    destruct (t_root _ _ _ _ _ _ (i_tree _ _ _ _ Hi)) as (nd & nw & ci & Er);
    replace (n_number (root_mht s)) with 0 by (by rewrite Er); apply wp_ret;
    split; [by apply (inv_done prev)|]; do 2 (split; [done|]); split; [by intros ?|]; do 2 (split; [done|]);
    exists pre, rest; split; [done|lia].
  destruct Hk as [|[nd Hn]]; [done|].
  destruct (t_node _ _ _ _ _ _ (i_tree _ _ _ _ Hi) _ _ Hn) as [[H2 (a & b & c & E)] _].
  pose proof (proj2 (Z.eqb_neq _ _) Hk1) as Ek. cbn [chain] in Hi, Hdk. rewrite Ek in Hi, Hdk.
  apply not_elem_of_cons in Hdk as [Hdk1 Hdk2].
  assert (key ∈ c_list (cache s)) as Hin by (apply (i_wf _ _ _ _ Hi); by rewrite Hn).
  cbn [bump_parents]. apply wp_bind. eapply wp_node_cached; [exact H2|exact Hn|]. rewrite E. cbn [n_number n_phys n_parent].
  destruct Hlv as (k & Hkr & ->). destruct (mht_key_facts k) as (_ & Hnum & _ & _). rewrite Hnum.
  rewrite (proj2 (Z.eqb_neq k 0)) by (intros ->; by apply Hk1).
  apply wp_bind. eapply wp_cache_get; [apply (i_wf _ _ _ _ Hi)|exact Hn|].
  pose proof (inv_front _ _ _ _ _ _ Hi ltac:(by rewrite Hn) ltac:(by left) ltac:(by right)) as Hi1.
  eapply wp_mono; [apply (IH (mht_key k) _ (front (mht_key k) s) (mht_key k :: filter (.≠ mht_key k) pre) (filter (.≠ mht_key k) rest) Hi1)| |done].
  - done.
  - apply level_parent; [by exists k|done].
  - cbn. apply (i_up _ _ _ _ Hi). by rewrite Hn.
  - cbn. rewrite El. unfold to_front. rewrite filter_app, filter_cons_True by done. done.
  - done.
  - intros [] s' (Hi' & Hu & Hr & Hd & Hm & Hl & pre' & rest' & El' & Hlen). split; [done|]. do 4 (split; [done|]). split.
    + rewrite Hl. cbn [front cache set_cache c_list]. apply to_front_length; [apply (i_wf _ _ _ _ Hi)|done].
    + exists pre', rest'. split; [done|]. cbn [length] in Hlen. pose proof (length_filter (.≠ mht_key k) pre). lia.
Qed.
End Data.
