(* ===== verification/PfsFlush.v ===== *)
(** * Protected file system: flushing keeps the invariant

    After internal_flush every node is committed, no node has unwritten
    changes, and the contents of the file are as before. *)

From stdpp Require Import gmap.
From S2P Require Import Prelude Bytes Arch Trts Tcrypto Seal Thread Lru Pfs PfsIo PfsTree PfsInv PfsNode.

#[local] Open Scope Z_scope.

Section Flush.
Context {W : Type} {PF : Platform W} {G : AesGcm} {OC : Ocalls W} {g : runtime} {a_local a_cur_key : Z}.
Context {honest : bool} {V : View W}.
Context {SE : Setting PF G OC g a_local a_cur_key honest V}.
Abbreviation pfs := (protected_fs_file W).
Abbreviation FM := (M pfs unit).
Abbreviation winv := (winv (honest := honest) (V := V)).
Abbreviation tree := (tree (honest := honest)).
Abbreviation quiet := (quiet (honest := honest) (V := V)).
Abbreviation same_disk := (same_disk (honest := honest) (V := V)).
Abbreviation committed := (committed (honest := honest)).
Abbreviation slot_committed := (slot_committed (honest := honest)).

(** Untrusted functions fail only on a dishonest system. *)
Definition unlucky (e : unit) (s : pfs) : Prop := honest = false.

Lemma nofail_unlucky e s : nofail e s -> unlucky e s.
Proof. by intros []. Qed.

(** ** Traversals *)
Definition set_it (i : nat) (s : pfs) : pfs := set_cache (MkCache (c_list (cache s)) (c_map (cache s)) i) s.

Lemma wp_each {A} (body : A -> Z -> FM A) (I : list Z -> A -> pfs -> Prop) l a (s : pfs) R :
  c_list (cache s) = l ->
  (forall d a s, I d a s -> c_list (cache s) = l /\ forall k, k ∈ l -> is_Some (c_map (cache s) !! k)) ->
  (forall d a s i, I d a s -> I d a (set_it i s)) ->
  (forall d key r a s, l = d ++ key :: r -> I d a s ->
     wp (body a key) s (fun a' s' => I (d ++ [key]) a' s' /\ c_it (cache s') = c_it (cache s)) R) ->
  I [] a s -> wp (cache_each body a) s (I l) R.
Proof.
  intros El HK Hit Hbody H0. unfold cache_each. apply wp_bind, wp_get. rewrite El.
  assert (forall r d a s, l = d ++ r -> I d a s -> c_it (cache s) = length d ->
    wp (data ← mlift (at_it (cache s)); each_loop (length r) body a data) s (I l) R) as Hloop.
  { intros r. induction r as [|key r IH]; intros d a' s' E Hs Hc; destruct (HK _ _ _ Hs) as [El' Hk].
    - apply wp_bind. eapply wp_lift_Ok.
      + unfold at_it. rewrite El', Hc, E, app_nil_r. by rewrite lookup_ge_None_2.
      + change (I l a' s'). by rewrite E, app_nil_r.
    - destruct (Hk key) as [n Hn]. { rewrite E. apply elem_of_app. right. by left. }
      apply wp_bind. eapply wp_lift_Ok.
      + unfold at_it. rewrite El', Hc, E, list_lookup_middle by done. by rewrite Hn.
      + cbn [each_loop length]. apply wp_bind. eapply wp_mono; [apply (Hbody d key r _ _ E Hs)| |done].
        intros a2 s2 [Hs2 Hc2]. specialize (IH (d ++ [key]) a2 (set_it (S (length d)) s2)).
        unfold wp in IH |- *. unfold mbind, M_bind in IH |- *. unfold cache_step, get_next.
        rewrite Hc2, Hc. cbn [mlift] in IH. apply IH; [by rewrite <- app_assoc|by apply Hit|]. cbn. rewrite length_app. cbn. lia. }
  specialize (Hloop l [] a (set_it 0 s) eq_refl (Hit _ _ _ _ H0) eq_refl).
  unfold wp in Hloop |- *. unfold mbind, M_bind in Hloop |- *. exact Hloop.
Qed.

(** ** What only reads the nodes *)
Record still (s s' : pfs) : Prop := MkStill {
  l_user : user s' = user s;
  l_root : root_mht s' = root_mht s;
  l_list : c_list (cache s') = c_list (cache s);
  l_map : c_map (cache s') = c_map (cache s);
  l_disk : same_disk (world s) (world s') }.

Lemma still_refl s : still s s.
Proof. by split. Qed.
Lemma still_trans s1 s2 s3 : still s1 s2 -> still s2 s3 -> still s1 s3.
Proof. intros [] []. split; [congruence..|]. by eapply same_disk_trans. Qed.
Lemma quiet_still s s' : quiet s s' -> still s s'.
Proof. intros [Hu Hr Hc Hd]. split; by rewrite ?Hc. Qed.
Lemma still_it s i : still s (set_it i s).
Proof. by split. Qed.

Lemma winv_still P top s s' : still s s' -> winv P top s -> winv P top s'.
Proof.
  intros [Hu Hr Hl Hm Hd] Hw. user_eqs Hu. apply (winv_same P P top top s s' Hw); try done.
  - rewrite Hm. apply Hw.
  - unfold cache_wf. rewrite Hl, Hm. apply Hw.
Qed.

(** An untrusted function *)
Lemma wp_ocall {A} (f : W -> W * A) (s : pfs) (Q : A -> pfs -> Prop) R :
  (honest = true -> kept (world s) (fst (f (world s)))) ->
  (forall a s', still s s' -> cache s' = cache s -> (honest = true -> f (world s) = (world s', a)) -> Q a s') ->
  wp (on_world f) s Q R.
Proof.
  intros Hd HQ. unfold wp, on_world. destruct (f (world s)) as [w a] eqn:E. cbn in *. apply HQ; [by split|done|done].
Qed.

(** The handle of the recovery file can be used. *)
Abbreviation ropen rf s := (honest = true -> rlive rf (world s)).

Lemma wp_write_recovery_node rf data (s : pfs) : ropen rf s ->
  wp (write_recovery_node rf data) s (fun _ s' => still s s' /\ cache s' = cache s /\ ropen rf s') unlucky.
Proof.
  intros Hrf. unfold write_recovery_node. apply wp_bind, wp_get. apply wp_bind.
  pose proof (fun Hh => sec_recovery_write rf data (world s) Hh (Hrf Hh)) as Hlaw. apply wp_ocall.
  { intros Hh. by destruct (Hlaw Hh) as (w & -> & _ & ?). }
  intros [status result] s1 Hs Hc Hh. destruct (io_ok status result) eqn:E.
  { apply wp_ret. split; [done|]. split; [done|]. intros Hh'. destruct (Hlaw Hh') as (w & E' & Hl & _).
    rewrite (Hh Hh') in E'. by injection E' as -> _ _. }
  assert (honest = false) as Hf.
  { destruct honest eqn:Eh; [|done]. destruct (Hlaw eq_refl) as (w & E' & _). rewrite (Hh eq_refl) in E'. by injection E' as _ -> ->. }
  apply wp_bind. apply wp_ocall; [by rewrite Hf|]. intros r2 s2 _ _ _. apply wp_bind.
  apply wp_ocall; [by rewrite Hf|]. intros r3 s3 _ _ _. done.
Qed.

Lemma wp_write_recovery_file P top (s : pfs) : winv P top s -> read_only s = false ->
  wp write_recovery_file s (fun _ s' => still s s') unlucky.
Proof.
  intros Hw Hro. unfold write_recovery_file. apply wp_bind, wp_get. apply wp_bind.
  assert (honest = true -> exists w' rf, u_recovery_file_open (recovery_filename s) (world s) = (w', (SGX_SUCCESS, rf)) /\
    rf <> 0 /\ rlive rf w' /\ kept (world s) w') as Hlaw.
  { intros Hh. destruct (w_file _ _ _ Hw Hh) as [Hl ->]. rewrite Hro in Hl. by apply (sec_recovery_open _ _ Hh Hl). }
  apply wp_ocall.
  { intros Hh. by destruct (Hlaw Hh) as (w & f & -> & _ & _ & ?). }
  intros [status rf] s1 Hs _ Hh. destruct (negb (ok_status status) || (rf =? 0)) eqn:E.
  { unfold fail. apply wp_bind, wp_mod, wp_err. unfold unlucky. destruct honest eqn:Eh; [|done].
    destruct (Hlaw eq_refl) as (w & f & E' & Hf & _). rewrite (Hh eq_refl) in E'. injection E' as _ -> ->. cbn in E. zbool. done. }
  assert (ropen rf s1) as Hr1.
  { intros Hh'. destruct (Hlaw Hh') as (w & f & E' & _ & Hl & _). rewrite (Hh Hh') in E'. by injection E' as -> _ ->. }
  clear E Hlaw Hh. apply wp_bind. eapply wp_mono.
  - apply (wp_each _ (fun _ _ s' => still s s' /\ ropen rf s') (c_list (cache s))).
    + by rewrite (l_list _ _ Hs).
    + intros d a s' [Hs' _]. rewrite (l_list _ _ Hs'). split; [done|]. intros k Hk. rewrite (l_map _ _ Hs'). by apply (w_wf _ _ _ Hw).
    + intros d a s' i [Hs' Hr']. split; [|done]. eapply still_trans; [exact Hs'|apply still_it].
    + intros d key r a s' El [Hs' Hr']. destruct (w_wf _ _ _ Hw) as [_ Hk]. destruct (proj1 (Hk key)) as [n Hn].
      { rewrite El. apply elem_of_app. right. by left. }
      destruct (t_node _ _ _ _ _ _ (w_tree _ _ _ Hw) _ _ Hn) as [[H2 _] _].
      apply wp_bind. eapply wp_node_cached; [exact H2|by rewrite (l_map _ _ Hs')|].
      case_match; [by apply wp_ret|]. eapply wp_mono; [by apply wp_write_recovery_node| |done].
      intros [] s2 (Hs2 & Hc2 & Hr2). split; [split; [by eapply still_trans|done]|by rewrite Hc2].
    + done.
  - intros [] s2 [Hs2 Hr2]. apply wp_bind, wp_get. apply wp_bind.
    apply (wp_mono _ _ (fun _ s' => still s s' /\ ropen rf s') _ unlucky); [|intros [] s3 [Hs3 Hr3]|done].
    + case_match; [|by apply wp_ret]. eapply wp_mono; [by apply wp_write_recovery_node| |done].
      intros [] s3 (Hs3 & _ & Hr3). split; [by eapply still_trans|done].
    + apply wp_bind. eapply wp_mono; [by apply wp_write_recovery_node| |done]. intros [] s4 (Hs4 & _ & Hr4).
      apply wp_bind. apply wp_ocall.
      * intros Hh. by destruct (sec_recovery_close rf (world s4) Hh (Hr4 Hh)) as (w & -> & ?).
      * intros r s5 Hs5 _ _. apply wp_ret. by eapply still_trans; [eapply still_trans|].
  - done.
Qed.

(** ** Writing nodes to the disk *)
Record wrote (key : Z) (c : list Z) (s s' : pfs) : Prop := MkWrote {
  d_user : user s' = user s;
  d_root : root_mht s' = root_mht s;
  d_cache : cache s' = cache s;
  d_disk : honest = true -> placed key c (world s) (world s') }.

(** The file can be written. *)
Definition wopen (s : pfs) : Prop := honest = true -> live false (file s) (world s).

Lemma wp_fwrite key c (s : pfs) : wopen s -> 0 <= key < 2 ^ 51 -> zlen c = NODE_SIZE ->
  wp (fwrite_node key c) s (fun _ s' => wrote key c s s') unlucky.
Proof.
  unfold wopen. intros Hf Hk Hc. unfold wp, fwrite_node, on_world, mget, mbind, M_bind. pose proof (sec_fwrite (file s) key c (world s)) as Hw.
  destruct (u_fwrite_node (file s) key c (world s)) as [w [status result]]. destruct (io_ok status result) eqn:E; cbn.
  - split; [done..|]. intros Hh. destruct (Hw Hh (Hf Hh) Hk Hc) as (w' & [= -> -> ->] & Hd). done.
  - unfold unlucky. destruct honest; [|done]. destruct (Hw eq_refl (Hf eq_refl) Hk Hc) as (w' & [= -> -> ->] & Hd). done.
Qed.

Lemma wp_fflush_or ro m (s : pfs) : (honest = true -> live ro (file s) (world s)) -> (forall s', honest = false -> wp m s' (fun _ _ => True) unlucky) ->
  wp (fflush_or m) s (fun _ s' => quiet s s') unlucky.
Proof.
  intros Hf Hm. unfold fflush_or. apply wp_bind, wp_get. apply wp_bind. unfold wp at 1, on_world.
  pose proof (sec_fflush ro (file s) (world s)) as Hw.
  destruct (u_fflush (file s) (world s)) as [w [status result]]. destruct (io_ok status result) eqn:E.
  - apply wp_ret. split; [done..|]. intros Hh. destruct (Hw Hh (Hf Hh)) as (w' & [= -> -> ->] & Hd). done.
  - assert (honest = false) as Hh.
    { destruct honest; [|done]. destruct (Hw eq_refl (Hf eq_refl)) as (w' & [= -> -> ->] & Hd). done. }
    apply wp_bind, wp_mod. apply wp_bind. eapply wp_mono; [by apply Hm|by intros [] s' _|done].
Qed.

Lemma flag_off (s : pfs) : plain_ok s -> with_update_flag 0 (file_meta_data s) = file_meta_data s.
Proof.
  intros (_ & _ & _ & _ & _ & _ & _ & _ & _ & _ & Hu & _). destruct (file_meta_data s) as [[] ? ?]. cbn in *. by rewrite Hu.
Qed.

Lemma meta_bytes_len v (s : pfs) : plain_ok s -> zlen (meta_bytes (with_update_flag v (file_meta_data s))) = NODE_SIZE.
Proof.
  intros (_ & _ & _ & Hkid & Hcpu & _ & _ & _ & Hmask & Hgmac & _ & Henc & Hpad). destruct (file_meta_data s) as [[id major minor kid cpu isv uk mask gmac flag] enc pad].
  cbn in Hkid, Hcpu, Hmask, Hgmac, Henc, Hpad. unfold meta_bytes, plain_bytes, with_update_flag, sizeof_meta_data_encrypted, NODE_SIZE in *.
  cbn [plain_part encrypted_part padding p_file_id p_major_version p_minor_version p_meta_data_key_id p_cpu_svn p_isv_svn
    p_use_user_kdk_key p_attribute_mask p_meta_data_gmac p_update_flag]. rewrite !zlen_app, !length_le_bytes. lia.
Qed.

Lemma wopen_winv P top (s : pfs) : winv P top s -> need_writing s = true -> wopen s.
Proof. intros Hw Hn Hh. rewrite <- (w_rw _ _ _ Hw Hn). apply (w_file _ _ _ Hw Hh). Qed.

(** The update flag on the disk; the file is then not as saved. *)
Lemma wp_set_update_flag b P top (s : pfs) : winv P top s -> need_writing s = true ->
  wp (set_update_flag b) s (fun _ s' => winv P top s' /\ user s' = user s /\ root_mht s' = root_mht s /\ cache s' = cache s) unlucky.
Proof.
  intros Hw Hn. unfold set_update_flag. apply wp_bind, wp_get. rewrite (flag_off _ (w_plain _ _ _ Hw)).
  apply wp_bind. unfold wp at 1, on_world. set (c := meta_bytes (with_update_flag 1 (file_meta_data s))).
  assert (honest = true -> exists w', u_fwrite_node (file s) 0 c (world s) = (w', (SGX_SUCCESS, 0)) /\ placed 0 c (world s) w') as Hf.
  { intros Hh. apply sec_fwrite; [done|by apply (wopen_winv _ _ _ Hw Hn)|lia|by apply meta_bytes_len, Hw]. }
  destruct (u_fwrite_node (file s) 0 c (world s)) as [w [status result]]. apply wp_bind, wp_mod.
  destruct (io_ok status result) eqn:E; cbn [negb].
  2: { unfold fail. apply wp_bind, wp_mod, wp_err. unfold unlucky. destruct honest; [|done].
       by destruct (Hf eq_refl) as (w' & [= -> -> ->] & Hd). }
  set (s1 := set_file_meta_data (file_meta_data s) (set_world w s)).
  assert (winv P top s1) as Hw1.
  { assert (honest = true -> placed 0 c (world s) w) as Hd.
    { intros Hh. by destruct (Hf Hh) as (w' & [= -> -> ->] & ?). }
    destruct Hw as [[] ? ? ? ? ? ? ? ?]. split; try done; cbn.
    - split; try done. intros key H1 H2 H3. eapply committed_mono; [|by apply t_commit]. intros Hh ct Hct. apply (placed_keep _ _ _ _ _ _ (Hd Hh)); [lia|done].
    - intros Hh. destruct (w_file Hh). split; [by apply (pl_live _ _ _ _ (Hd Hh))|done].
    - intros H1 H2. eapply committed_mono; [|by apply w_root]. intros Hh ct Hct. by apply (placed_keep _ _ _ _ _ _ (Hd Hh)).
    - intros _ Hn'. cbn in Hn'. congruence. }
  assert (user s1 = user s) as Hu by (destruct s; done).
  destruct b.
  - eapply wp_mono; [apply (wp_fflush_or (read_only s1)); [intros Hh; apply (w_file _ _ _ Hw1 Hh)|]| |done].
    + intros s' _. unfold wp, fwrite_node_, on_world, mget, mbind, M_bind. by destruct (u_fwrite_node _ _ _ _).
    + intros [] s2 Hq. split; [by eapply winv_quiet|]. destruct Hq as [Hu2 -> -> _]. split; [congruence|done].
  - by apply wp_ret.
Qed.

(** ** Updating nodes *)

(** The cipher text of a changed node is that of its plain text, and its slot
    in the parent says so. *)
Definition ready (P : Z -> list Z) (m : gmap Z file_node) (key : Z) : Prop :=
  exists n, m !! key = Some n /\ zlen (n_cipher n) = NODE_SIZE /\
    gcm_tag (slot_key (P (k_parent key)) (k_slot key)) empty_iv [] (n_cipher n) = slot_gmac (P (k_parent key)) (k_slot key) /\
    gcm_decrypt (slot_key (P (k_parent key)) (k_slot key)) empty_iv [] (n_cipher n) = P key.

(** New plain texts and cipher texts for the nodes *)
Lemma tree_retouch P P' top size dk root m m' (ci : Z -> file_node -> list Z) : tree P top size dk root m ->
  (forall key, m' !! key = (fun n => set_plain (P' key) (set_cipher (ci key n) n)) <$> m !! key) ->
  (forall key, 1 <= key -> zlen (P' key) = NODE_SIZE) ->
  (forall key, 2 <= key -> pos key < size -> ~ dirty m key -> slot_committed dk P' key) ->
  (forall key, dirty m' key <-> dirty m key) /\ tree P' top size dk (set_plain (P' 1) root) m'.
Proof.
  intros [] Hm Hl Hc. assert (forall key, dirty m' key <-> dirty m key) as Hd.
  { intros key. unfold dirty. rewrite Hm. destruct (m !! key) as [n|]; cbn; [|naive_solver].
    split; [intros (? & [= <-] & ?)|intros (? & [= <-] & ?)]; eauto. }
  split; [done|]. split; try done.
  - destruct t_root as (nd & nw & c & ->). by eexists _, _, _.
  - intros key n. rewrite Hm. destruct (m !! key) as [n0|] eqn:E; [|done]. intros [= <-].
    destruct (t_node _ _ E) as [[H2 (nd & nw & c & ->)] Hp]. split; [|done]. split; [done|]. by eexists _, _, _.
  - intros key. rewrite !Hd. apply t_dirty.
  - intros key H1 H2. rewrite Hd. by apply Hc.
Qed.

(** A new slot for a changed node *)
Definition store (P : Z -> list Z) (key : Z) (k gm : list Z) (j : Z) : list Z :=
  if j =? k_parent key then set_slot (k_slot key) k gm (P j) else P j.

Lemma store_slot P key k gm j : 2 <= key -> 2 <= j -> j <> key -> zlen k = 16 -> zlen gm = 16 -> (forall j, 1 <= j -> zlen (P j) = NODE_SIZE) ->
  slot_key (store P key k gm (k_parent j)) (k_slot j) = slot_key (P (k_parent j)) (k_slot j) /\
  slot_gmac (store P key k gm (k_parent j)) (k_slot j) = slot_gmac (P (k_parent j)) (k_slot j).
Proof.
  intros Hk Hj Hne Hlk Hlg Hl. unfold store. destruct (Z.eqb_spec (k_parent j) (k_parent key)) as [E|]; [|done].
  pose proof (parent_range j Hj). apply set_slot_other; try done; [by apply slot_range..| |apply Hl; lia].
  intros Hs. apply Hne. symmetry. by apply slot_inj.
Qed.

Lemma store_self P key k gm : 2 <= key -> zlen k = 16 -> zlen gm = 16 -> (forall j, 1 <= j -> zlen (P j) = NODE_SIZE) ->
  slot_key (store P key k gm (k_parent key)) (k_slot key) = k /\ slot_gmac (store P key k gm (k_parent key)) (k_slot key) = gm.
Proof.
  intros Hk Hlk Hlg Hl. unfold store. rewrite Z.eqb_refl. pose proof (parent_range key Hk).
  apply set_slot_same; try done; [by apply slot_range|apply Hl; lia].
Qed.

Lemma store_len P key k gm j : 2 <= key -> zlen k = 16 -> zlen gm = 16 -> (forall j, 1 <= j -> zlen (P j) = NODE_SIZE) ->
  1 <= j -> zlen (store P key k gm j) = NODE_SIZE.
Proof.
  intros Hk Hlk Hlg Hl Hj. unfold store. case_match; [|by apply Hl]. apply set_slot_len; try done; [by apply slot_range|apply Hl; lia].
Qed.

(** The tree and the nodes that are ready after a changed node got its slot *)
Lemma tree_store P top size dk root m m' key k ct : tree P top size dk root m -> dirty m key -> zlen k = 16 -> zlen ct = NODE_SIZE ->
  gcm_decrypt k empty_iv [] ct = P key ->
  let P' := store P key k (gcm_tag k empty_iv [] ct) in
  (forall j, m' !! j = (fun n => set_plain (P' j) (set_cipher (if j =? key then ct else n_cipher n) n)) <$> m !! j) ->
  tree P' top size dk (set_plain (P' 1) root) m' /\ (forall j, dirty m' j <-> dirty m j) /\ ready P' m' key /\
  (forall j, j <> key -> j <> k_parent key -> 2 <= j -> ready P m j -> ready P' m' j).
Proof.
  intros Ht Hdk Hk Hct Hdec P' Hm'. pose proof Ht as []. destruct Hdk as (n & Hn & Hneed).
  destruct (t_node _ _ Hn) as [[H2 _] _]. pose proof (gcm_tag_length k empty_iv [] ct) as Hg.
  assert (dirty m key) as Hdk by by exists n.
  pose proof (tree_retouch P P' top size dk root m m' _ Ht Hm') as Hrt.
  destruct Hrt as [Hd Ht'].
  { intros j Hj. by apply store_len. }
  { intros j Hj Hp Hnd. destruct (store_slot P key k (gcm_tag k empty_iv [] ct) j H2 Hj) as [E1 E2]; try done; [by intros ->|].
    unfold slot_committed. fold P' in E1, E2. rewrite E1, E2. replace (P' j) with (P j); [by apply t_commit|].
    unfold P', store. destruct (Z.eqb_spec j (k_parent key)) as [->|]; [|done]. exfalso.
    destruct (t_dirty _ Hdk) as [_ [E|?]]; [lia|done]. }
  destruct (store_self P key k (gcm_tag k empty_iv [] ct) H2 Hk Hg t_len) as [E1 E2]. fold P' in E1, E2.
  pose proof (parent_range key H2). split; [done|]. split; [done|]. split.
  - exists (set_plain (P' key) (set_cipher ct n)). rewrite Hm', Hn, Z.eqb_refl, E1, E2. do 3 (split; [done|]).
    unfold P', store. rewrite (proj2 (Z.eqb_neq key _)) by lia. done.
  - intros j Hj Hjp Hj2 (nj & Hnj & Hlj & Htj & Hdj). exists (set_plain (P' j) nj).
    destruct (store_slot P key k (gcm_tag k empty_iv [] ct) j H2 Hj2 Hj) as [E1' E2']; try done. fold P' in E1', E2'.
    rewrite Hm', Hnj, E1', E2', (proj2 (Z.eqb_neq j key)) by done. split; [by destruct nj|]. do 2 (split; [done|]).
    cbn. rewrite Hdj. unfold P', store. by rewrite (proj2 (Z.eqb_neq j _)).
Qed.

Record moved (P' : Z -> list Z) (top : Z) (s s' : pfs) : Prop := MkMoved {
  u_user : user s' = user s;
  u_list : c_list (cache s') = c_list (cache s);
  u_disk : same_disk (world s) (world s');
  u_tree : tree P' top (e_size (encrypted_part_plain s)) (disk (world s)) (root_mht s') (c_map (cache s'));
  u_dirty key : dirty (c_map (cache s')) key <-> dirty (c_map (cache s)) key;
  u_need : n_need_writing (root_mht s') = n_need_writing (root_mht s);
  u_dom key : is_Some (c_map (cache s') !! key) <-> is_Some (c_map (cache s) !! key) }.

Lemma wp_upd_cached key n f (s : pfs) (Q : unit -> pfs -> Prop) R : 2 <= key -> c_map (cache s) !! key = Some n ->
  Q tt (set_cache (cache_set key (f n) (cache s)) s) -> wp (upd_node key f) s Q R.
Proof. intros Hk Hn HQ. unfold wp, upd_node. rewrite (proj2 (Z.eqb_neq key 1)) by lia. by rewrite Hn. Qed.

Lemma set_plain_id n p : n_plain n = p -> set_plain p n = n.
Proof. intros <-. by destruct n. Qed.
Lemma set_cipher_id n : set_cipher (n_cipher n) n = n.
Proof. by destruct n. Qed.

(** The slot of a node in its parent, where the cipher text is in the node *)
Lemma wp_store_crypto P top (s : pfs) key n ct : let m := c_map (cache s) in
  tree P top (e_size (encrypted_part_plain s)) (disk (world s)) (root_mht s) m ->
  m !! key = Some n -> n_need_writing n = true -> zlen (cur_key s) = 16 -> zlen ct = NODE_SIZE ->
  gcm_decrypt (cur_key s) empty_iv [] ct = P key ->
  wp (store_crypto n (gcm_tag (cur_key s) empty_iv [] ct)) (set_cache (cache_set key (set_cipher ct n) (cache s)) s)
    (fun _ s' => exists P', moved P' top s s' /\ c_it (cache s') = c_it (cache s) /\ (forall j, j <> k_parent key -> P' j = P j) /\
       ready P' (c_map (cache s')) key /\
       (forall j, j <> key -> j <> k_parent key -> 2 <= j -> ready P m j -> ready P' (c_map (cache s')) j)) nofail.
Proof.
  intros m Ht Hn Hneed Hk Hct Hdec. pose proof Ht as []. destruct (t_node _ _ Hn) as [[H2 (nd & nw & ci & En)] _].
  assert (dirty m key) as Hdk by by exists n. pose proof (parent_range key H2) as Hpr.
  set (gm := gcm_tag (cur_key s) empty_iv [] ct). set (P' := store P key (cur_key s) gm).
  assert (forall j, j <> k_parent key -> P' j = P j) as HP' by (intros j Hj; unfold P', store; by rewrite (proj2 (Z.eqb_neq _ _) Hj)).
  assert (P' (k_parent key) = set_slot (k_slot key) (cur_key s) gm (P (k_parent key))) as HPp by (unfold P', store; by rewrite Z.eqb_refl).
  assert (forall j nj, m !! j = Some nj -> n_plain nj = P j) as Hpl.
  { intros j nj Hj. by destruct (t_node _ _ Hj) as [[_ (? & ? & ? & ->)] _]. }
  assert (n_parent n = k_parent key /\ slot_of (n_type n) (n_number n) = k_slot key) as [Epar Eslot] by (by rewrite En).
  unfold store_crypto. apply wp_bind, wp_get. cbn [cur_key set_cache]. rewrite Epar, Eslot.
  assert (forall s', user s' = user s -> c_list (cache s') = c_list (cache s) -> c_it (cache s') = c_it (cache s) ->
    world s' = world s -> root_mht s' = set_plain (P' 1) (root_mht s) ->
    (forall j, c_map (cache s') !! j = (fun n => set_plain (P' j) (set_cipher (if j =? key then ct else n_cipher n) n)) <$> m !! j) ->
    exists P', moved P' top s s' /\ c_it (cache s') = c_it (cache s) /\ (forall j, j <> k_parent key -> P' j = P j) /\ ready P' (c_map (cache s')) key /\
       (forall j, j <> key -> j <> k_parent key -> 2 <= j -> ready P m j -> ready P' (c_map (cache s')) j)) as Hdone.
  { intros s' Hu Hl Hi Hw Hr Hm. destruct (tree_store P top _ _ _ m _ key _ ct Ht Hdk Hk Hct Hdec Hm) as (Ht' & Hd & Hrd & Hrds).
    exists P'. split; [|done]. split; try done.
    - intros Hh. by rewrite Hw.
    - by rewrite Hr.
    - by rewrite Hr.
    - intros j. rewrite Hm, fmap_is_Some. done. }
  destruct (decide (k_parent key = 1)) as [E1|E1].
  - rewrite E1 in *. unfold wp, upd_node. cbn [Z.eqb Pos.eqb]. apply Hdone; try done; cbn.
    + rewrite HPp. destruct t_root as (a & b & c & ->). done.
    + intros j. destruct (Z.eqb_spec j key) as [->|Hne].
      * rewrite lookup_insert_eq, Hn. cbn. rewrite set_plain_id; [done|]. rewrite HP' by lia. cbn. by apply Hpl.
      * rewrite lookup_insert_ne by done. fold m. destruct (m !! j) as [nj|] eqn:Ej; [|done]. cbn.
        rewrite set_cipher_id, set_plain_id; [done|]. destruct (decide (j = 1)) as [->|]; [|rewrite HP' by done; by apply Hpl].
        exfalso. destruct (t_node _ _ Ej) as [[? _] _]. lia.
  - destruct (t_dirty _ Hdk) as [_ [|Hpd]]; [done|]. destruct Hpd as (pn & Hpn & Hpneed).
    eapply wp_upd_cached; [lia|cbn; rewrite lookup_insert_ne by lia; exact Hpn|]. apply Hdone; try done; cbn.
    + rewrite set_plain_id; [done|]. rewrite HP' by lia. by destruct t_root as (a & b & c & ->).
    + intros j. rewrite (Hpl _ _ Hpn), <- HPp. destruct (decide (j = k_parent key)) as [->|Hjp].
      * rewrite lookup_insert_eq, Hpn. cbn. rewrite (proj2 (Z.eqb_neq _ key)) by lia. by rewrite set_cipher_id.
      * rewrite lookup_insert_ne by done. destruct (Z.eqb_spec j key) as [->|Hne].
        -- rewrite lookup_insert_eq, Hn. cbn. rewrite set_plain_id; [done|]. rewrite HP' by done. cbn. by apply Hpl.
        -- rewrite lookup_insert_ne by done. fold m. destruct (m !! j) as [nj|] eqn:Ej; [|done]. cbn.
           rewrite set_cipher_id, set_plain_id; [done|]. rewrite HP' by done. by apply Hpl.
Qed.

Lemma wp_update_node P top (s : pfs) key n : let m := c_map (cache s) in
  tree P top (e_size (encrypted_part_plain s)) (disk (world s)) (root_mht s) m ->
  m !! key = Some n -> n_need_writing n = true ->
  wp (update_node g a_local key n) s
    (fun _ s' => exists P', moved P' top s s' /\ c_it (cache s') = c_it (cache s) /\ (forall j, j <> k_parent key -> P' j = P j) /\
       ready P' (c_map (cache s')) key /\
       (forall j, j <> key -> j <> k_parent key -> 2 <= j -> ready P m j -> ready P' (c_map (cache s')) j)) nofail.
Proof.
  intros m Ht Hn Hneed. destruct (t_node _ _ _ _ _ _ Ht _ _ Hn) as [[H2 (nd & nw & ci & En)] _].
  assert (zlen (n_plain n) = 4096) as Hlp by (rewrite En; cbn; apply (t_len _ _ _ _ _ _ Ht); lia).
  unfold update_node. apply wp_bind. eapply wp_mono; [apply wp_derive| |done]. intros [] s1 [Hq1 Hk1].
  apply wp_bind. apply wp_encrypt_to; [lia|]. intros s2 Hq2 Hk2. cbv zeta.
  pose proof (quiet_trans _ _ _ Hq1 Hq2) as [Hu Hr Hc Hd]. clear Hq1 Hq2.
  eapply wp_upd_cached; [exact H2|rewrite Hc; exact Hn|].
  pose proof Hu as Hu'. user_eqs Hu'. set (ct := gcm_encrypt (cur_key s1) empty_iv [] (n_plain n)). rewrite <- Hk2.
  pose proof (wp_store_crypto P top s2 key n ct) as Hsc. cbv zeta in Hsc. rewrite Hc, Hep, Hr in Hsc. rewrite Hc.
  eapply wp_mono; [apply Hsc| |done].
  - eapply tree_disk; [|exact Ht]. by apply same_disk_eq.
  - done.
  - done.
  - by rewrite Hk2.
  - unfold ct. by rewrite gcm_encrypt_length.
  - unfold ct. rewrite Hk2, gcm_decrypt_encrypt. by rewrite En.
  - intros [] s3 (P' & [] & Hit & HP' & Hrd & Hrds). exists P'. split; [|split; [congruence|done]].
    split; try done; rewrite ?Hc, ?Hr in *; try congruence.
    + by eapply same_disk_trans.
    + rewrite Hep in u_tree0. eapply tree_disk; [|exact u_tree0]. intros Hh. by rewrite (same_disk_eq _ _ Hd Hh).
    + intros j. by rewrite u_dirty0.
    + intros j. by rewrite u_dom0.
Qed.

Lemma moved_trans P1 P2 top s s1 s2 : moved P1 top s s1 -> moved P2 top s1 s2 -> moved P2 top s s2.
Proof.
  intros [] []. pose proof u_user0 as Hu. user_eqs Hu. split; try congruence.
  - by eapply same_disk_trans.
  - rewrite Hep in u_tree1. eapply tree_disk; [|exact u_tree1]. intros Hh. by rewrite (same_disk_eq _ _ u_disk0 Hh).
  - intros key. by rewrite u_dirty1.
  - intros key. by rewrite u_dom1.
Qed.

Lemma moved_refl P top s : tree P top (e_size (encrypted_part_plain s)) (disk (world s)) (root_mht s) (c_map (cache s)) -> moved P top s s.
Proof. intros Ht. by split. Qed.

Lemma moved_it P top s s' i : moved P top s s' -> moved P top s (set_it i s').
Proof. intros []. by split. Qed.

(** The tree of the new state *)
Lemma moved_tree P top s s' : moved P top s s' ->
  tree P top (e_size (encrypted_part_plain s')) (disk (world s')) (root_mht s') (c_map (cache s')).
Proof.
  intros []. pose proof u_user0 as Hu. user_eqs Hu. rewrite Hep. eapply tree_disk; [|exact u_tree0]. by apply same_disk_eq.
Qed.

(** The parents of a changed node are marked already. *)
Lemma wp_mark_check n key P top size dk (s : pfs) : tree P top size dk (root_mht s) (c_map (cache s)) -> level n key ->
  key = 1 \/ dirty (c_map (cache s)) key -> wp (mark_parents (S n) true key) s (fun _ s' => s' = s) nofail.
Proof.
  intros Ht. pose proof Ht as []. revert key. induction n as [|n IH]; intros key Hlv Hd.
  1: apply level_0 in Hlv as E1. 2: destruct (decide (key = 1)) as [E1|Hk1].
  1,2: rewrite E1; cbn [mark_parents]; apply wp_bind, wp_node_root; destruct t_root as (a & b & c & Er);
    replace (n_number (root_mht s)) with 0 by (by rewrite Er); by apply wp_ret.
  destruct Hd as [|Hd]; [done|]. pose proof Hd as (nd & Hn & Hneed). destruct (t_node _ _ Hn) as [[H2 (a & b & c & E)] _].
  cbn [mark_parents]. apply wp_bind. eapply wp_node_cached; [exact H2|exact Hn|].
  pose proof Hlv as (k & Hkr & ->). destruct (mht_key_facts k) as (_ & Hnum & _ & _).
  replace (n_number nd) with k by (by rewrite E). rewrite (proj2 (Z.eqb_neq k 0)) by (intros ->; by apply Hk1).
  apply wp_bind. rewrite Hneed. apply wp_lift_Ok with tt; [done|]. apply wp_bind. eapply wp_upd_cached; [exact H2|exact Hn|].
  replace (set_cache _ s) with s.
  - replace (n_parent nd) with (k_parent (mht_key k)) by (by rewrite E). apply IH.
    + by apply level_parent.
    + apply (t_dirty _ Hd).
  - replace (set_need true nd) with nd by (rewrite E in Hneed |- *; cbn in Hneed; by rewrite Hneed).
    unfold cache_set. rewrite insert_id by done. by destruct s as [? ? ? ? ? ? ? ? ? ? ? ? ? ? ? ? ? ? [] ?].
Qed.

Lemma wp_update_data_node P top (s : pfs) key n : let m := c_map (cache s) in
  tree P top (e_size (encrypted_part_plain s)) (disk (world s)) (root_mht s) m -> m !! key = Some n ->
  wp (update_data_node g a_local key) s
    (fun _ s' => exists P', moved P' top s s' /\ c_it (cache s') = c_it (cache s) /\
       (forall j, is_mht j = false -> P' j = P j) /\
       (is_mht key = false -> dirty m key -> ready P' (c_map (cache s')) key) /\
       (forall j, j <> key -> is_mht j = false -> 2 <= j -> ready P m j -> ready P' (c_map (cache s')) j)) nofail.
Proof.
  intros m Ht Hn. destruct (t_node _ _ _ _ _ _ Ht _ _ Hn) as [[H2 (nd & nw & ci & En)] Hp].
  unfold update_data_node. apply wp_bind. eapply wp_node_cached; [exact H2|exact Hn|].
  assert ((n_type n =? FILE_DATA_NODE_TYPE) = negb (is_mht key)) as -> by (rewrite En; cbn; unfold k_type; by destruct (is_mht key)).
  destruct (negb (is_mht key) && n_need_writing n) eqn:E; zbool.
  - apply wp_bind. eapply wp_mono; [by apply (wp_update_node P top s key n)| |done]. intros [] s1 (P' & Hmv & Hit & HP' & Hrd & Hrds).
    eapply wp_mono; [apply (wp_mark_check 13 (n_parent n) P' top _ _ s1 (moved_tree _ _ _ _ Hmv))| |done].
    + replace (n_parent n) with (k_parent key) by (by rewrite En). destruct (key_cases key) as [(k & ? & ->)|(d & ? & ->)]; [lia|by rewrite is_mht_mht in H|].
      destruct (data_key_facts d) as (_ & _ & -> & Hpd). apply level_S. rewrite Hpd in Hp.
      destruct (t_size _ _ _ _ _ _ Ht) as [? ?]. apply level_of. zlia.
    + replace (n_parent n) with (k_parent key) by (by rewrite En). rewrite (u_dirty _ _ _ _ Hmv).
      apply (t_dirty _ _ _ _ _ _ Ht key). by exists n.
    + intros [] s2 ->. exists P'. split; [done|]. split; [done|].
      assert (forall j, is_mht j = false -> j <> k_parent key) as Hne.
      { intros j Hj ->. by rewrite parent_mht in Hj. }
      split; [intros j Hj; by apply HP', Hne|]. split; [done|]. intros j Hj Hm Hj2. apply Hrds; auto.
  - apply wp_ret. exists P. split; [by apply moved_refl|]. do 2 (split; [done|]). split; [|done].
    intros Hm (n' & Hn' & Hneed). fold m in Hn'. rewrite Hn in Hn'. injection Hn' as <-. rewrite Hm, Hneed in E. done.
Qed.
End Flush.
