(* ===== verification/PfsUpdate.v ===== *)
(** * Protected file system: encrypting all the changes

    update_all_data_and_mht_nodes gives every changed node its cipher text and
    its slot, the children before their parents. *)

From stdpp Require Import gmap sorting.
From S2P Require Import Prelude Bytes Arch Trts Tcrypto Seal Thread Lru Pfs PfsIo PfsTree PfsInv PfsNode PfsFlush.

#[local] Open Scope Z_scope.

(** ** mht_list.sort *)
Lemma insert_mht_perm x l : insert_mht x l ≡ₚ x :: l.
Proof. induction l as [|y l IH]; cbn; [done|]. case_match; [done|]. rewrite IH. apply Permutation_swap. Qed.
Lemma sort_mht_perm l : sort_mht l ≡ₚ l.
Proof. induction l as [|x l IH]; cbn; [done|]. by rewrite insert_mht_perm, IH. Qed.

Definition descending (l : list (Z * Z)) : Prop := StronglySorted (fun x y => fst y <= fst x) l.

Lemma insert_mht_sorted x l : descending l -> descending (insert_mht x l).
Proof.
  induction 1 as [|y l Hs IH Hy]; cbn; [repeat constructor|]. case_match; zbool.
  - constructor; [by constructor|]. constructor; [done|]. eapply Forall_impl; [exact Hy|]. cbn. lia.
  - constructor; [done|]. rewrite insert_mht_perm. constructor; [lia|done].
Qed.
Lemma sort_mht_sorted l : descending (sort_mht l).
Proof. induction l as [|x l IH]; cbn; [constructor|by apply insert_mht_sorted]. Qed.

Section Update.
Context {W : Type} {PF : Platform W} {G : AesGcm} {OC : Ocalls W} {g : runtime} {a_local a_cur_key : Z}.
Context {honest : bool} {V : View W}.
Context {SE : Setting PF G OC g a_local a_cur_key honest V}.
Abbreviation pfs := (protected_fs_file W).
Abbreviation FM := (M pfs unit).
Abbreviation winv := (winv (honest := honest) (V := V)).
Abbreviation tree := (tree (honest := honest)).
Abbreviation quiet := (quiet (honest := honest) (V := V)).
Abbreviation still := (still (honest := honest) (V := V)).
Abbreviation moved := (moved (honest := honest) (V := V)).
Abbreviation state_tree P top s :=
  (tree P top (e_size (encrypted_part_plain s)) (disk (world s)) (root_mht s) (c_map (cache s))).

Lemma elem_mid (d r : list Z) key : key ∈ d ++ key :: r.
Proof. apply elem_of_app. right. by left. Qed.

Lemma nodup_mid (d r : list Z) key j : NoDup (d ++ key :: r) -> j ∈ d -> j <> key.
Proof. intros (_ & H & _)%NoDup_app Hj ->. apply (H _ Hj). by left. Qed.

(** ** The data nodes *)
Lemma wp_update_data P top (s : pfs) : state_tree P top s -> cache_wf (cache s) ->
  wp (cache_each (fun _ key => update_data_node g a_local key) tt) s
    (fun _ s' => exists P', moved P' top s s' /\ (forall j, is_mht j = false -> P' j = P j) /\
       (forall j, is_mht j = false -> dirty (c_map (cache s)) j -> ready P' (c_map (cache s')) j)) nofail.
Proof.
  intros Ht [Hnd Hk]. eapply wp_mono; [apply (wp_each _ (fun d _ s' => exists P', moved P' top s s' /\
    (forall j, is_mht j = false -> P' j = P j) /\
    (forall j, j ∈ d -> is_mht j = false -> dirty (c_map (cache s)) j -> ready P' (c_map (cache s')) j)) (c_list (cache s)))| |done].
  - done.
  - intros d a s' (P' & Hm & _). rewrite (u_list _ _ _ _ Hm). split; [done|]. intros k. rewrite (u_dom _ _ _ _ Hm). apply Hk.
  - intros d a s' i (P' & Hm & H). exists P'. split; [by apply moved_it|done].
  - intros d key r a s' El (P' & Hm & HP & Hr). destruct (proj2 (u_dom _ _ _ _ Hm key)) as [n Hn].
    { apply Hk. rewrite El. apply elem_mid. }
    eapply wp_mono; [apply (wp_update_data_node P' top s' key n (moved_tree _ _ _ _ Hm) Hn)| |done].
    intros [] s2 (P2 & Hm2 & Hi2 & HP2 & Hr2 & Hrs). split; [|done]. exists P2. split; [by eapply moved_trans|].
    split; [intros j Hj; by rewrite HP2, HP|]. intros j Hj Hmj Hd. apply elem_of_app in Hj as [Hj|Hj].
    + rewrite El in Hnd. apply Hrs; [by eapply nodup_mid|done| |by apply Hr].
      destruct Hd as (nj & Hnj & _). apply (t_node _ _ _ _ _ _ Ht _ _ Hnj).
    + apply list_elem_of_singleton in Hj as ->. apply Hr2; [done|]. by apply (u_dirty _ _ _ _ Hm).
  - exists P. split; [by apply moved_refl|]. split; [done|]. by intros j ?%elem_of_nil.
  - intros [] s' (P' & Hm & HP & Hr). exists P'. split; [done|]. split; [done|]. intros j Hj Hd. apply Hr; [|done..].
    destruct Hd as (n & Hn & _). apply Hk. by exists n.
Qed.

(** ** The list of the changed mht nodes *)
Definition changed_mht (m : gmap Z file_node) (key : Z) : Prop := dirty m key /\ is_mht key = true.

Lemma wp_collect P top (s : pfs) : state_tree P top s -> cache_wf (cache s) ->
  wp (cache_each collect_mht []) s (fun L s' => still s s' /\
    (forall x, x ∈ L <-> fst x = k_number (snd x) /\ changed_mht (c_map (cache s)) (snd x)) /\ NoDup (snd <$> L)) nofail.
Proof.
  intros Ht [Hnd Hk]. eapply wp_mono; [apply (wp_each _ (fun d L s' => still s s' /\
    (forall x, x ∈ L <-> snd x ∈ d /\ fst x = k_number (snd x) /\ changed_mht (c_map (cache s)) (snd x)) /\ NoDup (snd <$> L))
    (c_list (cache s)))| |done].
  - done.
  - intros d a s' (Hs & _). rewrite (l_list _ _ Hs). split; [done|]. intros k. rewrite (l_map _ _ Hs). apply Hk.
  - intros d a s' i (Hs & H). split; [|done]. eapply still_trans; [exact Hs|apply still_it].
  - intros d key r L s' El (Hs & HL & HN). destruct (proj1 (Hk key)) as [n Hn]. { rewrite El. apply elem_mid. }
    destruct (t_node _ _ _ _ _ _ Ht _ _ Hn) as [[H2 (nd & nw & ci & En)] _].
    unfold collect_mht. apply wp_bind. eapply wp_node_cached; [exact H2|by rewrite (l_map _ _ Hs)|]. apply wp_ret.
    split; [|done]. split; [done|].
    assert ((n_type n =? FILE_MHT_NODE_TYPE) = is_mht key) as -> by (rewrite En; cbn; unfold k_type; by destruct (is_mht key)).
    assert (n_number n = k_number key) as -> by (by rewrite En).
    destruct (is_mht key && n_need_writing n) eqn:E; zbool.
    + split.
      * intros x. rewrite elem_of_cons, HL, elem_of_app, list_elem_of_singleton. split.
        -- intros [->|?]; [|tauto]. split; [by right|]. split; [done|]. split; [by exists n|done].
        -- intros [[?|Hx] [Hf ?]]; [tauto|left]. destruct x as [a b]. cbn in *. congruence.
      * cbn. constructor; [|done]. intros ([a b] & E1 & Hin)%list_elem_of_fmap. cbn in E1. subst b.
        apply HL in Hin as [Hin _]. cbn in Hin. rewrite El in Hnd. by apply (nodup_mid d r key key Hnd Hin).
    + split; [|done]. intros x. rewrite HL, elem_of_app, list_elem_of_singleton. split; [tauto|].
      intros [[?| ->] [Hf Hc]]; [done|]. exfalso. destruct Hc as [(n' & Hn' & Hneed) Hm]. rewrite Hn in Hn'.
      injection Hn' as <-. by rewrite Hm, Hneed in E.
  - split; [apply still_refl|]. split; [|constructor]. intros x. rewrite !elem_of_nil. tauto.
  - intros L s' (Hs & HL & HN). split; [done|]. split; [|done]. intros x. rewrite HL. split; [tauto|].
    intros [Hf Hc]. split; [|done]. destruct Hc as [(n & Hn & _) _]. apply Hk. by exists n.
Qed.

(** ** The mht nodes, bottom layers first *)
Lemma wp_update_mht L P top (s : pfs) : state_tree P top s ->
  StronglySorted (fun x y => snd y < snd x) L -> (forall x, x ∈ L -> changed_mht (c_map (cache s)) (snd x)) ->
  wp (update_mht_nodes g a_local L) s (fun _ s' => exists P', moved P' top s s' /\ (forall j, is_mht j = false -> P' j = P j) /\
    (forall x, x ∈ L -> ready P' (c_map (cache s')) (snd x)) /\
    (forall j, 2 <= j -> (forall x, x ∈ L -> is_mht j = false \/ snd x < j) -> ready P (c_map (cache s)) j ->
       ready P' (c_map (cache s')) j)) nofail.
Proof.
  revert P s. induction L as [|[num key] L IH]; intros P s Ht Hs Hd; cbn [update_mht_nodes].
  { apply wp_ret. exists P. split; [by apply moved_refl|]. split; [done|]. split; [by intros x ?%elem_of_nil|]. auto. }
  apply StronglySorted_inv in Hs as [Hs Hlt]. rewrite Forall_forall in Hlt. cbn in Hlt.
  destruct (Hd (num, key)) as [Hdk Hmk]; [by left|]. cbn in Hdk, Hmk. pose proof Hdk as (n & Hn & Hneed).
  destruct (t_node _ _ _ _ _ _ Ht _ _ Hn) as [[H2 _] _]. pose proof (parent_range key H2).
  apply wp_bind. eapply wp_node_cached; [exact H2|exact Hn|]. apply wp_bind.
  eapply wp_mono; [by apply (wp_update_node P top s key n)| |done]. intros [] s1 (P1 & Hm1 & _ & HP1 & Hr1 & Hrs1).
  eapply wp_mono; [apply (IH P1 s1 (moved_tree _ _ _ _ Hm1) Hs)| |done].
  - intros x Hx. destruct (Hd x) as [Hdx ?]; [by right|]. split; [by apply (u_dirty _ _ _ _ Hm1)|done].
  - intros [] s2 (P2 & Hm2 & HP2 & Hr2 & Hrs2). exists P2. split; [by eapply moved_trans|].
    assert (forall j, is_mht j = false -> j <> key /\ j <> k_parent key) as Hne.
    { intros j Hj. split; intros ->; [congruence|by rewrite parent_mht in Hj]. }
    split; [intros j Hj; rewrite HP2 by done; apply HP1, Hne, Hj|]. split.
    + intros x Hx. apply elem_of_cons in Hx as [->|Hx]; [|by apply Hr2]. cbn. apply Hrs2; [done| |done]. intros x Hx. right. by apply Hlt.
    + intros j Hj2 Hj Hr. apply Hrs2; [done|intros x Hx; apply Hj; by right|].
      destruct (Hj (num, key)) as [Hjm|Hjk]; [by left|..]; [apply Hrs1; [apply Hne..|done|done]; done|].
      cbn in Hjk. apply Hrs1; [lia..|done].
Qed.

Lemma sorted_keys L : descending L -> NoDup (snd <$> L) ->
  (forall x, x ∈ L -> fst x = k_number (snd x) /\ is_mht (snd x) = true /\ 2 <= snd x) -> StronglySorted (fun x y : Z * Z => snd y < snd x) L.
Proof.
  induction 1 as [|x L Hs IH Hx]; intros HN HL; [constructor|]. cbn in HN. apply NoDup_cons in HN as [Hni HN].
  constructor; [apply IH; [done|]; intros y Hy; apply HL; by right|]. rewrite Forall_forall in *. intros y Hy.
  specialize (Hx y Hy). cbn in Hx. destruct (HL x) as (E1 & M1 & R1); [by left|]. destruct (HL y) as (E2 & M2 & R2); [by right|].
  assert (snd y <> snd x). { intros E. apply Hni. rewrite <- E. apply list_elem_of_fmap. by exists y. }
  rewrite E1, E2 in Hx. unfold k_number, is_mht in *. rewrite M1, M2 in Hx. zbool. zlia.
Qed.

(** ** All of them *)
Definition root_ready (P : Z -> list Z) (s : pfs) : Prop :=
  let e := encrypted_part_plain s in let c := n_cipher (root_mht s) in
  zlen c = NODE_SIZE /\ gcm_tag (e_mht_key e) empty_iv [] c = e_mht_gmac e /\ gcm_decrypt (e_mht_key e) empty_iv [] c = P 1.

(** What the user of the file sees *)
Definition view (s : pfs) :=
  let e := encrypted_part_plain s in
  (e_size e, e_data e, e_clean_filename e, (file s, open_mode s, read_only s, offset s, end_of_file s, real_file_size s),
   (last_error s, file_status s, use_user_kdk_key s, user_kdk_key s, recovery_filename s)).

Lemma user_view s s' : user s' = user s -> view s' = view s.
Proof. intros Hu. user_eqs Hu. unfold view. congruence. Qed.

Record encrypted (P' : Z -> list Z) (top : Z) (s s' : pfs) : Prop := MkEncrypted {
  z_view : view s' = view s;
  z_md : file_meta_data s' = file_meta_data s;
  z_need : need_writing s' = need_writing s;
  z_enc : enc_ok (encrypted_part_plain s');
  z_list : c_list (cache s') = c_list (cache s);
  z_dom key : is_Some (c_map (cache s') !! key) <-> is_Some (c_map (cache s) !! key);
  z_rootneed : n_need_writing (root_mht s') = n_need_writing (root_mht s);
  z_disk : same_disk (honest := honest) (V := V) (world s) (world s');
  z_tree : tree P' top (e_size (encrypted_part_plain s)) (disk (world s)) (root_mht s') (c_map (cache s'));
  z_ready j : dirty (c_map (cache s')) j -> ready P' (c_map (cache s')) j;
  z_root : root_ready P' s' }.

Lemma wp_update_root P top (s : pfs) : state_tree P top s -> enc_ok (encrypted_part_plain s) ->
  wp (update_root g a_local) s (fun _ s' => view s' = view s /\ file_meta_data s' = file_meta_data s /\
    need_writing s' = need_writing s /\ enc_ok (encrypted_part_plain s') /\ cache s' = cache s /\
    n_need_writing (root_mht s') = n_need_writing (root_mht s) /\
    same_disk (honest := honest) (V := V) (world s) (world s') /\
    tree P top (e_size (encrypted_part_plain s)) (disk (world s)) (root_mht s') (c_map (cache s)) /\ root_ready P s') nofail.
Proof.
  intros Ht He. unfold update_root. apply wp_bind, wp_get. apply wp_bind.
  eapply wp_mono; [apply wp_derive| |done]. intros [] s1 [Hq1 Hk1].
  destruct (t_root _ _ _ _ _ _ Ht) as (nd & nw & ci & Er).
  assert (zlen (n_plain (root_mht s)) = 4096) as Hl by (rewrite Er; cbn; by apply (t_len _ _ _ _ _ _ Ht)).
  apply wp_bind. apply wp_encrypt_to; [lia|]. intros s2 Hq2 Hk2. cbv zeta. apply wp_mod.
  pose proof (quiet_trans _ _ _ Hq1 Hq2) as [Hu Hr Hc Hd]. clear Hq1 Hq2.
  apply wp_mod. pose proof Hu as Hu'. user_eqs Hu'.
  set (ct := gcm_encrypt (cur_key s1) empty_iv [] (n_plain (root_mht s))). cbn.
  split; [unfold view; cbn; congruence|]. do 2 (split; [done|]). split.
  { destruct He as (? & ? & ? & ? & ?). rewrite Hep. repeat split; try done; cbn; [congruence|]. unfold FILENAME_MAX_LEN. apply gcm_tag_length. }
  split; [done|]. rewrite Hr. do 2 (split; [done|]). split; [|split].
  - destruct Ht. split; try done. rewrite Er. by eexists _, _, _.
  - cbn. unfold ct. by rewrite gcm_encrypt_length.
  - cbn. unfold ct. rewrite Hk2, gcm_decrypt_encrypt. split; [done|]. by rewrite Er.
Qed.

Lemma wp_update_all P top (s : pfs) : winv P top s ->
  wp (update_all_data_and_mht_nodes g a_local) s
    (fun _ s' => exists P', encrypted P' top s s' /\ forall j, is_mht j = false -> P' j = P j) nofail.
Proof.
  intros Hw. unfold update_all_data_and_mht_nodes. pose proof (w_tree _ _ _ Hw) as Ht. pose proof (w_wf _ _ _ Hw) as Hwf.
  apply wp_bind. eapply wp_mono; [by apply (wp_update_data P top)| |done]. intros [] s1 (P1 & Hm1 & HP1 & Hr1).
  pose proof (moved_tree _ _ _ _ Hm1) as Ht1.
  assert (cache_wf (cache s1)) as Hwf1.
  { destruct Hwf as [Hnd Hk]. split; [by rewrite (u_list _ _ _ _ Hm1)|]. intros k. by rewrite (u_list _ _ _ _ Hm1), Hk, (u_dom _ _ _ _ Hm1). }
  apply wp_bind. eapply wp_mono; [by apply (wp_collect P1 top)| |done]. intros L s2 (Hs2 & HL & HN).
  pose proof Hs2 as [Hu2 Hro2 Hl2 Hmp2 Hd2]. pose proof Hu2 as Hu2'. user_eqs Hu2'.
  assert (state_tree P1 top s2) as Ht2.
  { rewrite Hep, Hro2, Hmp2. eapply tree_disk; [|exact Ht1]. by apply same_disk_eq. }
  apply wp_bind. eapply wp_mono; [apply (wp_update_mht (sort_mht L) P1 top s2 Ht2)| |done].
  - apply sorted_keys; [apply sort_mht_sorted|by rewrite sort_mht_perm|]. intros x Hx. rewrite sort_mht_perm in Hx.
    apply HL in Hx as (Hf & (n & Hn & _) & Hmx). do 2 (split; [done|]). apply (t_node _ _ _ _ _ _ Ht1 _ _ Hn).
  - intros x Hx. rewrite sort_mht_perm in Hx. rewrite Hmp2. by apply HL.
  - intros [] s3 (P3 & Hm3 & HP3 & Hr3 & Hrs3).
    assert (enc_ok (encrypted_part_plain s3)) as He3.
    { pose proof (u_user _ _ _ _ Hm3) as Hu3. pose proof (u_user _ _ _ _ Hm1) as Hu1. clear - Hu3 Hu1 Hu2 Hw.
      unfold user in *. replace (encrypted_part_plain s3) with (encrypted_part_plain s) by congruence. apply (w_enc _ _ _ Hw). }
    eapply wp_mono; [apply (wp_update_root P3 top s3 (moved_tree _ _ _ _ Hm3) He3)| |done].
    intros [] s4 (Hv & Hmd' & Hn' & He & Hc & Hrn & Hd & Ht4 & Hrr). exists P3.
    split; [|intros j Hj; by rewrite HP3, HP1].
    destruct Hm1 as [Hu1 Hl1 Hdd1 _ Hdy1 Hn1 Hdm1]. destruct Hm3 as [Hu3 Hl3 Hdd3 _ Hdy3 Hn3 Hdm3].
    assert (user s3 = user s) as Hu by congruence. pose proof Hu as Hu'. user_eqs Hu'.
    split; try congruence; rewrite ?Hc.
    + rewrite Hv. by apply user_view.
    + intros key. by rewrite Hdm3, Hmp2, Hdm1.
    + eapply same_disk_trans; [|exact Hd]. eapply same_disk_trans; [|exact Hdd3]. by eapply same_disk_trans.
    + rewrite <- Hep0. eapply tree_disk; [|exact Ht4]. intros Hh. symmetry. revert Hh. apply same_disk_eq.
      eapply same_disk_trans; [|exact Hdd3]. by eapply same_disk_trans.
    + intros j Hj. rewrite Hdy3, Hmp2 in Hj. destruct (is_mht j) eqn:Ej.
      * apply (Hr3 (k_number j, j)). rewrite sort_mht_perm. apply HL. split; [done|]. split; done.
      * apply Hrs3.
        -- destruct Hj as (n & Hn & _). apply (t_node _ _ _ _ _ _ Ht1 _ _ Hn).
        -- intros x _. by left.
        -- rewrite Hmp2. apply Hr1; [done|]. by apply Hdy1.
Qed.
End Update.
