(* ===== verification/PfsWrite.v ===== *)
(** * Protected file system: the meta-data node and the disk

    The meta-data are sealed, the changed nodes written, and internal_flush as
    a whole keeps the invariant. *)

From stdpp Require Import gmap.
From S2P Require Import Prelude Bytes Arch Trts Tcrypto Seal Thread Lru Pfs PfsIo PfsTree PfsInv PfsNode PfsFlush PfsUpdate.

#[local] Open Scope Z_scope.

Section Write.
Context {W : Type} {PF : Platform W} {G : AesGcm} {OC : Ocalls W} {g : runtime} {a_local a_cur_key : Z}.
Context {honest : bool} {V : View W}.
Context {SE : Setting PF G OC g a_local a_cur_key honest V}.
Abbreviation pfs := (protected_fs_file W).
Abbreviation FM := (M pfs unit).
Abbreviation inv := (inv (honest := honest) (V := V)).
Abbreviation winv := (winv (honest := honest) (V := V)).
Abbreviation tree := (tree (honest := honest)).
Abbreviation quiet := (quiet (honest := honest) (V := V)).
Abbreviation same_disk := (same_disk (honest := honest) (V := V)).
Abbreviation unlucky := (unlucky (honest := honest)).
Abbreviation wopen := (wopen (honest := honest) (V := V)).

(** ** The key of the meta-data *)
Lemma md_request_ok isv cpu id : zlen cpu = 16 -> is_u16 isv -> zlen id = 32 ->
  key_request_ok (md_key_request isv cpu id) /\ request_ok (key_request_of (key_request_bytes (md_key_request isv cpu id))) = true.
Proof.
  intros Hc Hi Hd. assert (key_request_ok (md_key_request isv cpu id)) as Hok.
  { unfold key_request_ok, md_key_request. cbn. repeat split; try done; try (apply Hi). }
  split; [done|]. rewrite key_request_roundtrip by done. unfold request_ok, md_key_request.
  cbn [kr_reserved1 kr_reserved2 kr_policy kr_config_svn].
  replace (hasflag SGX_KEYPOLICY_MRSIGNER KEY_POLICY_KSS) with false by (vm_compute; done). cbn. by rewrite orb_true_r.
Qed.

Lemma keeps_get_key_body kr req ka : keeps (honest := honest) (V := V) (get_key_body g kr req ka).
Proof.
  unfold get_key_body. repeat (case_match; [by intros w Hh|]). apply keeps_bind; [apply keeps_malloc|]. intros [].
  destruct (pf_egetkey req) as [[] key]; by intros w Hh.
Qed.

Lemma wp_get_key isv cpu id (s : pfs) : zlen cpu = 16 -> is_u16 isv -> zlen id = 32 ->
  let req := key_request_bytes (md_key_request isv cpu id) in
  wp (try_status (sgx_get_key g a_local req a_cur_key)) s
    (fun k s' => quiet s s' /\ k = snd (pf_egetkey req) /\ zlen k = 16) nofail.
Proof.
  intros Hc Hi Hd req. destruct (md_request_ok isv cpu id Hc Hi Hd) as [_ Hok]. fold req in Hok.
  destruct (sec_egetkey req) as (key & Hk & Hl). destruct (sec_locals 0 512) as [Ha Hin]; [lia..|]. rewrite Z.add_0_r in Ha, Hin.
  destruct sec_cur_key as [Hb Hbin].
  destruct (get_key_healthy g a_local req a_cur_key (world s) key Ha Hin Hb Hbin Hok Hk) as [w' E].
  unfold wp, try_status. rewrite E. split; [|by rewrite Hk]. split; [done..|]. intros Hh. cbn.
  unfold sgx_get_key in E. pose proof (keeps_get_key_body a_local req a_cur_key (world s) Hh) as Hkeep.
  destruct (get_key_body g a_local req a_cur_key (world s)) as [w1 [k|e|]]; cbn in *; by simplify_eq.
Qed.

(** The fields of the meta-data node that sealing changes *)
Definition md_only (s s' : pfs) : Prop :=
  view s' = view s /\ encrypted_part_plain s' = encrypted_part_plain s /\ need_writing s' = need_writing s /\
  root_mht s' = root_mht s /\ cache s' = cache s /\ same_disk (world s) (world s').

Lemma quiet_md_only s s' : quiet s s' -> md_only s s' /\ file_meta_data s' = file_meta_data s.
Proof.
  intros [Hu Hr Hc Hd]. pose proof (user_view _ _ Hu). user_eqs Hu. done.
Qed.

Lemma md_only_trans s1 s2 s3 : md_only s1 s2 -> md_only s2 s3 -> md_only s1 s3.
Proof.
  intros (? & ? & ? & ? & ? & Hd) (? & ? & ? & ? & ? & Hd'). repeat (split; [congruence|]).
  by eapply same_disk_trans.
Qed.


Lemma wp_generate_md_key (s : pfs) : plain_ok s ->
  wp (generate_random_meta_data_key g a_local a_cur_key) s (fun _ s' => md_only s s' /\ plain_ok s' /\ cur_key s' = md_key s' /\
    zlen (cur_key s') = 16) nofail.
Proof.
  intros Hp. unfold generate_random_meta_data_key. apply wp_bind, wp_get. destruct (use_user_kdk_key s =? 1) eqn:E.
  - unfold generate_secure_blob_from_user_kdk. apply wp_bind, wp_get. apply wp_bind.
    eapply wp_mono; [apply wp_read_rand; lia| |done]. intros nonce s1 [Hq1 Hl].
    apply wp_bind. eapply wp_mono; [apply wp_cmac| |done]. intros k s2 [Hq2 ->].
    apply wp_bind, wp_mod. apply wp_mod. destruct (quiet_md_only _ _ (quiet_trans _ _ _ Hq1 Hq2)) as [Hmo Hmd].
    pose proof (q_user _ _ (quiet_trans _ _ _ Hq1 Hq2)) as Hu. user_eqs Hu. split; [|split].
    + eapply md_only_trans; [exact Hmo|]. done.
    + unfold plain_ok in *. cbn. rewrite Hmd, Hkdk. intuition.
    + unfold md_key. cbn. rewrite Hkdk, E, Hukdk. split; [done|]. apply cmac_length.
  - destruct sec_report as [Hcpu Hisv]. apply wp_bind. eapply wp_mono; [apply wp_read_rand; lia| |done]. intros id s1 [Hq1 Hl].
    apply wp_bind. eapply wp_mono; [by apply wp_get_key| |done]. intros k s2 (Hq2 & Hk & Hkl).
    apply wp_bind, wp_mod. apply wp_mod. destruct (quiet_md_only _ _ (quiet_trans _ _ _ Hq1 Hq2)) as [Hmo Hmd].
    pose proof (q_user _ _ (quiet_trans _ _ _ Hq1 Hq2)) as Hu. user_eqs Hu. split; [|split].
    + eapply md_only_trans; [exact Hmo|]. done.
    + unfold plain_ok in *. cbn. rewrite Hmd, Hkdk. intuition.
    + unfold md_key. cbn. rewrite Hkdk, E. done.
Qed.

Lemma enc_bytes_len e : enc_ok e -> zlen (enc_bytes e) = sizeof_meta_data_encrypted.
Proof.
  intros (H1 & H2 & H3 & H4 & H5). unfold enc_bytes, FILENAME_MAX_LEN, MD_USER_DATA_SIZE in *.
  rewrite !zlen_app, length_le_bytes, H1, H2, H3, H4, H5. done.
Qed.

Lemma wp_update_meta (s : pfs) : plain_ok s -> enc_ok (encrypted_part_plain s) ->
  wp (update_meta_data_node g a_local a_cur_key) s (fun _ s' => md_only s s' /\ plain_ok s' /\ md_sealed s') nofail.
Proof.
  intros Hp He. unfold update_meta_data_node. apply wp_bind. eapply wp_mono; [by apply wp_generate_md_key| |done].
  intros [] s1 (Hm1 & Hp1 & Hk1 & Hl1). apply wp_bind, wp_get. apply wp_bind.
  pose proof Hm1 as (_ & Hep1 & _). rewrite Hep1.
  pose proof (enc_bytes_len _ He) as Hlen. apply wp_encrypt_to; [rewrite Hlen; done|]. intros s2 Hq2 Hk2. cbv zeta. apply wp_mod. apply wp_mod.
  destruct (quiet_md_only _ _ Hq2) as [Hmo Hmd]. pose proof (q_user _ _ Hq2) as Hu. user_eqs Hu. split; [|split].
  - eapply md_only_trans; [exact Hm1|]. eapply md_only_trans; [exact Hmo|]. done.
  - unfold plain_ok in *. cbn. rewrite Hmd, Hkdk. rewrite gcm_tag_length, gcm_encrypt_length, Hlen. intuition.
  - assert (forall s3, use_user_kdk_key s3 = use_user_kdk_key s1 -> user_kdk_key s3 = user_kdk_key s1 ->
      p_meta_data_key_id (plain_part (file_meta_data s3)) = p_meta_data_key_id (plain_part (file_meta_data s1)) ->
      p_isv_svn (plain_part (file_meta_data s3)) = p_isv_svn (plain_part (file_meta_data s1)) ->
      p_cpu_svn (plain_part (file_meta_data s3)) = p_cpu_svn (plain_part (file_meta_data s1)) -> md_key s3 = cur_key s1) as Hkey.
    { intros s3 H1 H2 H3 H4 H5. rewrite Hk1. unfold md_key. by rewrite H1, H2, H3, H4, H5. }
    unfold md_sealed. rewrite Hkey by (cbn; by rewrite ?Hmd). cbn. split; [done|]. rewrite gcm_decrypt_encrypt. by rewrite Hep, Hep1.
Qed.

(** ** Writing the changed nodes *)
Abbreviation state_tree P top s :=
  (tree P top (e_size (encrypted_part_plain s)) (disk (world s)) (root_mht s) (c_map (cache s))).

Definition dirtyb (m : gmap Z file_node) (key : Z) : bool := match m !! key with Some n => n_need_writing n | None => false end.
Definition clean (n : file_node) : file_node := if n_need_writing n then set_new false (set_need false n) else n.

Lemma dirtyb_spec m key : dirtyb m key = true <-> dirty m key.
Proof. unfold dirtyb, dirty. destruct (m !! key) as [n|]; [|naive_solver]. split; [eauto|]. by intros (? & [= <-] & ?). Qed.

(** The nodes [d] have been written. *)
Record written (d : list Z) (s s' : pfs) : Prop := MkWritten {
  v_user : user s' = user s;
  v_root : root_mht s' = root_mht s;
  v_list : c_list (cache s') = c_list (cache s);
  v_map k : c_map (cache s') !! k = (fun n => if bool_decide (k ∈ d) then clean n else n) <$> c_map (cache s) !! k;
  v_live : wopen s';
  v_disk : honest = true -> forall k c, k <> 0 -> k <> 1 ->
    (if bool_decide (k ∈ d) && dirtyb (c_map (cache s)) k then n_cipher <$> c_map (cache s) !! k else disk (world s) !! k) = Some c ->
    disk (world s') !! k = Some c }.

Lemma written_clean d key s s' n : written d s s' -> key ∉ d -> c_map (cache s) !! key = Some n -> n_need_writing n = false ->
  written (d ++ [key]) s s'.
Proof.
  intros [] Hk Hn Hneed. split; try done.
  - intros k. rewrite v_map0. destruct (decide (k = key)) as [->|Hne].
    + rewrite Hn. cbn. rewrite (bool_decide_eq_false_2 (key ∈ d)) by done.
      rewrite bool_decide_eq_true_2 by (apply elem_of_app; right; by left). unfold clean. by rewrite Hneed.
    + f_equal. rewrite (bool_decide_ext (k ∈ d ++ [key]) (k ∈ d)); [done|]. rewrite elem_of_app, list_elem_of_singleton. tauto.
  - intros Hh k c H0 H1 Hk'. apply (v_disk0 Hh _ _ H0 H1). revert Hk'. destruct (decide (k = key)) as [->|Hne].
    + unfold dirtyb. rewrite Hn, Hneed, !andb_false_r. done.
    + rewrite (bool_decide_ext (k ∈ d ++ [key]) (k ∈ d)); [done|]. rewrite elem_of_app, list_elem_of_singleton. tauto.
Qed.

Lemma written_dirty d key s s' s2 n : written d s s' -> key ∉ d -> c_map (cache s) !! key = Some n -> n_need_writing n = true ->
  wrote (honest := honest) (V := V) key (n_cipher n) s' s2 ->
  written (d ++ [key]) s (set_cache (cache_set key (set_new false (set_need false n)) (cache s2)) s2).
Proof.
  intros [] Hk Hn Hneed [Hu Hr Hc Hd]. split; cbn; try congruence.
  - change (user s2 = user s). congruence.
  - intros k. destruct (decide (k = key)) as [->|Hne].
    + rewrite lookup_insert_eq, Hn. cbn. rewrite bool_decide_eq_true_2 by (apply elem_of_app; right; by left). unfold clean. by rewrite Hneed.
    + rewrite lookup_insert_ne by done. rewrite Hc, v_map0. f_equal.
      rewrite (bool_decide_ext (k ∈ d ++ [key]) (k ∈ d)); [done|]. rewrite elem_of_app, list_elem_of_singleton. tauto.
  - intros Hh. user_eqs Hu. change (live false (file s2) (world s2)). rewrite Hfile. by apply (pl_live _ _ _ _ (Hd Hh)), v_live0.
  - intros Hh k c H0 H1. destruct (decide (k = key)) as [->|Hne].
    + rewrite bool_decide_eq_true_2 by (apply elem_of_app; right; by left). unfold dirtyb. rewrite Hn, Hneed. cbn. intros [= <-]. apply (Hd Hh).
    + rewrite (bool_decide_ext (k ∈ d ++ [key]) (k ∈ d)) by (rewrite elem_of_app, list_elem_of_singleton; tauto). intros Hk'.
      eapply placed_keep; [by apply Hd|done|by apply (v_disk0 Hh)].
Qed.

Lemma wp_write_nodes P top (s : pfs) : state_tree P top s -> cache_wf (cache s) -> wopen s ->
  (forall j, dirty (c_map (cache s)) j -> ready P (c_map (cache s)) j) ->
  wp (cache_each (fun _ key => write_node key) tt) s (fun _ s' => written (c_list (cache s)) s s') unlucky.
Proof.
  intros Ht [Hnd Hk] Hf Hrd. apply (wp_each _ (fun d _ s' => written d s s')).
  - done.
  - intros d a s' []. split; [done|]. intros k Hin. rewrite v_map0, fmap_is_Some. by apply Hk.
  - intros d a s' i []. by split.
  - intros d key r a s' El Hwr. pose proof Hwr as []. destruct (proj1 (Hk key)) as [n Hn]. { rewrite El. apply elem_mid. }
    assert (key ∉ d) as Hnin. { intros Hin. rewrite El in Hnd. by apply (nodup_mid _ _ _ _ Hnd Hin). }
    destruct (t_node _ _ _ _ _ _ Ht _ _ Hn) as [[H2 (nd & nw & ci & En)] Hpos]. destruct (t_size _ _ _ _ _ _ Ht) as [Hsz Htop].
    assert (c_map (cache s') !! key = Some n) as Hn'.
    { rewrite v_map0, Hn. cbn. by rewrite bool_decide_eq_false_2. }
    unfold write_node. apply wp_bind. eapply wp_node_cached; [exact H2|exact Hn'|].
    destruct (n_need_writing n) eqn:Hneed; cbn [negb]; [|by apply wp_ret; split; [eapply written_clean|]].
    assert (n_phys n = key) as Hph by (by rewrite En). destruct (Hrd key) as (n' & En' & Hlen & _); [by exists n|].
    rewrite Hn in En'. injection En' as <-. apply wp_bind.
    eapply wp_mono; [apply wp_fwrite; [done|rewrite Hph; pose proof (key_bound key); lia|done]| |done]. intros [] s2 Hwo.
    pose proof Hwo as [_ _ Hc2 _]. eapply wp_upd_cached; [exact H2|rewrite Hc2; exact Hn'|].
    split; [|cbn; by rewrite Hc2]. rewrite Hph in Hwo. by eapply written_dirty.
  - split; try done.
    + intros k. destruct (c_map (cache s) !! k); [|done]. cbn. by rewrite bool_decide_eq_false_2 by (by intros ?%elem_of_nil).
Qed.

Lemma clean_need n : n_need_writing (clean n) = false.
Proof. unfold clean. by destruct (n_need_writing n) eqn:E. Qed.

(** No node has unwritten changes. *)
Definition all_clean (s : pfs) : Prop :=
  n_need_writing (root_mht s) = false /\ forall k n, c_map (cache s) !! k = Some n -> n_need_writing n = false.

Lemma all_clean_dirty s key : all_clean s -> ~ dirty (c_map (cache s)) key.
Proof. intros [_ H] (n & Hn & Hd). rewrite (H _ _ Hn) in Hd. done. Qed.

(** The tree once all changed nodes and the root are on the disk *)
Lemma tree_written P top size dk dk' root m m' : tree P top size dk root m ->
  (forall j, dirty m j -> ready P m j) ->
  (forall k, m' !! k = clean <$> m !! k) ->
  (honest = true -> forall k c, 2 <= k -> (if dirtyb m k then n_cipher <$> m !! k else dk !! k) = Some c -> dk' !! k = Some c) ->
  tree P top size dk' (set_new false (set_need false root)) m'.
Proof.
  intros [] Hr Hm Hd. assert (forall key, ~ dirty m' key) as Hnd.
  { intros key (n & Hn & Hneed). rewrite Hm in Hn. destruct (m !! key) as [n0|]; [|done]. injection Hn as <-. by rewrite clean_need in Hneed. }
  split; try done.
  - destruct t_root as (nd & nw & c & ->). by eexists _, _, _.
  - intros key n. rewrite Hm. destruct (m !! key) as [n0|] eqn:E; [|done]. intros [= <-].
    destruct (t_node _ _ E) as [[H2 (nd & nw & c & ->)] Hp]. split; [|done]. split; [done|]. unfold clean. cbn.
    destruct nd; by eexists _, _, _.
  - intros key Hdk. by destruct (Hnd key).
  - intros key H2 Hp _. destruct (dirtyb m key) eqn:E.
    + apply dirtyb_spec in E as E'. destruct (Hr _ E') as (n & Hn & Hl & Ht & Hdec).
      exists (n_cipher n). do 3 (split; [done|]). intros Hh. apply (Hd Hh); [done|]. by rewrite E, Hn.
    + eapply committed_mono; [|apply t_commit; [done..|]].
      * intros Hh ct Hct. apply (Hd Hh); [done|]. by rewrite E.
      * rewrite <- dirtyb_spec. by rewrite E.
Qed.

(** What write_all_changes_to_disk starts from: either the tree has changed and
    every change is encrypted, or there are no changes in it. *)
Definition to_write (P : Z -> list Z) (s : pfs) : Prop :=
  if tree_changed s then (forall j, dirty (c_map (cache s)) j -> ready P (c_map (cache s)) j) /\ root_ready P s
  else all_clean s /\ (3072 < e_size (encrypted_part_plain s) -> root_committed (honest := honest) (V := V) P s).

Record on_disk (P : Z -> list Z) (top : Z) (s s' : pfs) : Prop := MkOnDisk {
  o_user : user s' = user s;
  o_list : c_list (cache s') = c_list (cache s);
  o_dom key : is_Some (c_map (cache s') !! key) <-> is_Some (c_map (cache s) !! key);
  o_clean : all_clean s';
  o_tree : state_tree P top s';
  o_root : 3072 < e_size (encrypted_part_plain s') -> root_committed (honest := honest) (V := V) P s';
  o_live : wopen s' }.

Lemma wp_write_tree P top (s : pfs) : state_tree P top s -> cache_wf (cache s) -> wopen s -> to_write P s ->
  wp (if tree_changed s then
        cache_each (fun _ key => write_node key) tt ;;
        s ← mget;
        fwrite_node 1 (n_cipher (root_mht s)) ;;
        mmod (fun s => set_root_mht (set_new false (set_need false (root_mht s))) s)
      else mret tt) s (fun _ s' => on_disk P top s s') unlucky.
Proof.
  intros Ht Hw Hf Htw. unfold to_write in Htw. destruct (tree_changed s).
  2: { apply wp_ret. by destruct Htw as [Hc Hr]. }
  destruct Htw as [Hrd (Hrl & Hrt & Hrp)]. apply wp_bind. eapply wp_mono; [by apply (wp_write_nodes P top)| |done].
  intros [] s1 [Hu1 Hr1 Hl1 Hm1 Hf1 Hd1]. apply wp_bind, wp_get. pose proof Hu1 as Hu1'. user_eqs Hu1'. apply wp_bind.
  eapply wp_mono; [apply wp_fwrite; [done|lia|by rewrite Hr1]| |done]. intros [] s2 [Hu2 Hr2 Hc2 Hd2]. apply wp_mod.
  pose proof Hu2 as Hu2'. user_eqs Hu2'.
  assert (forall k, c_map (cache s2) !! k = clean <$> c_map (cache s) !! k) as Hm2.
  { intros k. rewrite Hc2, Hm1. destruct (c_map (cache s) !! k) eqn:E; [|done]. cbn.
    rewrite bool_decide_eq_true_2; [done|]. apply Hw. by rewrite E. }
  split; cbn.
  - change (user s2 = user s). congruence.
  - congruence.
  - intros key. by rewrite Hm2, fmap_is_Some.
  - split; [done|]. intros k n Hn. cbn in Hn. rewrite Hm2 in Hn. destruct (c_map (cache s) !! k); [|done]. injection Hn as <-. apply clean_need.
  - rewrite Hep0, Hep, Hr2, Hr1. eapply tree_written; [exact Ht|exact Hrd|exact Hm2|].
    intros Hh k c Hk Hc. eapply placed_keep; [by apply Hd2|clear - Hk; lia|]. apply (Hd1 Hh); [clear - Hk; lia..|]. revert Hc. unfold dirtyb.
    destruct (c_map (cache s) !! k) as [n|] eqn:E; cbn; [|by rewrite andb_false_r].
    rewrite bool_decide_eq_true_2; [done|]. apply Hw. by rewrite E.
  - intros _. unfold root_committed. cbn. rewrite Hep0, Hep. exists (n_cipher (root_mht s)). do 3 (split; [done|]).
    intros Hh. rewrite <- Hr1. apply (Hd2 Hh).
  - intros Hh. change (live false (file s2) (world s2)). rewrite Hfile0. by apply (pl_live _ _ _ _ (Hd2 Hh)), Hf1.
Qed.

Lemma on_disk_quiet P top s s' s2 : on_disk P top s s' -> quiet s' s2 -> on_disk P top s s2.
Proof.
  intros [] [Hu Hr Hc Hd]. pose proof Hu as Hu'. user_eqs Hu'. split; unfold all_clean in *; rewrite ?Hc, ?Hr, ?Hep; try done; try congruence.
  - eapply tree_disk; [|exact o_tree0]. by apply same_disk_eq.
  - intros Hs. unfold root_committed. rewrite Hep. eapply committed_disk; [|by apply o_root0]. intros Hh. by rewrite (same_disk_eq _ _ Hd Hh).
  - intros Hh. rewrite Hfile. by apply (k_live _ _ (Hd Hh)), o_live0.
Qed.

Lemma wp_write_all b P top (s : pfs) : state_tree P top s -> cache_wf (cache s) -> wopen s -> plain_ok s -> to_write P s ->
  wp (write_all_changes_to_disk b) s (fun _ s' => on_disk P top s s' /\
    (honest = true -> disk (world s') !! 0 = Some (meta_bytes (file_meta_data s')))) unlucky.
Proof.
  intros Ht Hw Hf Hp Htw. unfold write_all_changes_to_disk. apply wp_bind, wp_get. apply wp_bind.
  eapply wp_mono; [by apply (wp_write_tree P top)| |done]. intros [] s1 Ho1. apply wp_bind, wp_get.
  pose proof (o_user _ _ _ _ Ho1) as Hu1. user_eqs Hu1. apply wp_bind. eapply wp_mono; [apply wp_fwrite; [apply Ho1|lia|rewrite Hmd, <- (flag_off s Hp); by apply meta_bytes_len]| |done].
  intros [] s2 [Hu2 Hr2 Hc2 Hd2]. pose proof Hu2 as Hu2'. user_eqs Hu2'.
  assert (on_disk P top s s2 /\ (honest = true -> disk (world s2) !! 0 = Some (meta_bytes (file_meta_data s2)))) as [Ho2 H0].
  { split.
    - destruct Ho1 as [? ? ? Hcl Htr Hroot Hlv]. split; unfold all_clean in *; rewrite ?Hc2, ?Hr2, ?Hep0; try done; try congruence.
      + destruct Htr. split; try done. intros key H1 H2 H3. eapply committed_mono; [|by apply t_commit].
        intros Hh ct. apply (placed_keep _ _ _ _ _ _ (Hd2 Hh)). clear - H1; lia.
      + intros Hs. unfold root_committed. rewrite Hep0. eapply committed_mono; [|by apply Hroot].
        intros Hh ct. by apply (placed_keep _ _ _ _ _ _ (Hd2 Hh)).
      + intros Hh. rewrite Hfile0. by apply (pl_live _ _ _ _ (Hd2 Hh)), Hlv.
    - intros Hh. rewrite (pl_node _ _ _ _ (Hd2 Hh)). congruence. }
  destruct b; [|by apply wp_ret]. eapply wp_mono; [apply (wp_fflush_or false); [apply Ho2|done]| |done]. intros [] s3 Hq.
  split; [by eapply on_disk_quiet|]. pose proof (q_user _ _ Hq) as Hu3. user_eqs Hu3. intros Hh. rewrite (k_disk _ _ (q_disk _ _ Hq Hh)), Hmd1. auto.
Qed.

(** ** internal_flush *)

(** The file cannot be used after a failure. *)
Definition failed (e : unit) (s : pfs) : Prop := honest = false /\ file_status s <> SGX_FILE_STATUS_OK.

Lemma wp_or_nofail m on_error st (s : pfs) Q : wp m s Q nofail -> wp (or_status m on_error st) s Q failed.
Proof. intros Hm. unfold or_status. apply wp_case. eapply wp_mono; [exact Hm| |]; [by intros [] s' H; apply wp_ret|by intros e s' []]. Qed.

Lemma wp_or_unlucky m st (s : pfs) Q : st <> SGX_FILE_STATUS_OK -> wp m s Q unlucky -> wp (or_status m (mret tt) st) s Q failed.
Proof.
  intros Hst Hm. unfold or_status. apply wp_case. eapply wp_mono; [exact Hm| |]; [by intros [] s' H; apply wp_ret|].
  intros e s' Hu. by apply wp_bind, wp_ret, wp_bind, wp_mod, wp_err.
Qed.

Lemma view_status (s s' : pfs) : view s' = view s ->
  file_status s' = file_status s /\ file s' = file s /\ e_size (encrypted_part_plain s') = e_size (encrypted_part_plain s).
Proof. unfold view. intros [=]. done. Qed.

(** What sealing the meta-data and writing start from *)
Record staged (P P' : Z -> list Z) (top : Z) (s s' : pfs) : Prop := MkStaged {
  g_view : view s' = view s;
  g_list : c_list (cache s') = c_list (cache s);
  g_dom key : is_Some (c_map (cache s') !! key) <-> is_Some (c_map (cache s) !! key);
  g_data j : is_mht j = false -> P' j = P j;
  g_tree : state_tree P' top s';
  g_plain : plain_ok s';
  g_enc : enc_ok (encrypted_part_plain s');
  g_write : to_write P' s';
  g_live : wopen s' }.

Lemma staged_md P P' top (s s1 s2 : pfs) : staged P P' top s s1 -> md_only s1 s2 -> plain_ok s2 -> staged P P' top s s2.
Proof.
  intros [] (Hv & He & Hn & Hr & Hc & Hd) Hp. split; rewrite ?Hc, ?He; try done; try congruence.
  - rewrite Hr. eapply tree_disk; [|exact g_tree0]. by apply same_disk_eq.
  - unfold to_write, tree_changed, all_clean, root_ready in *. rewrite Hr, Hc, He. case_match; [done|].
    destruct g_write0 as [H1 H2]. split; [done|]. intros Hs. unfold root_committed. rewrite He.
    eapply committed_disk; [|by apply H2]. intros Hh. by rewrite (same_disk_eq _ _ Hd Hh).
  - destruct (view_status _ _ Hv) as (_ & Hf & _). intros Hh. rewrite Hf. by apply (k_live _ _ (Hd Hh)), g_live0.
Qed.

Lemma winv_clean P top (s : pfs) : winv P top s -> n_need_writing (root_mht s) = false -> all_clean s.
Proof.
  intros Hw Hr. split; [done|]. intros k n Hn. destruct (n_need_writing n) eqn:E; [|done].
  destruct (t_dirty _ _ _ _ _ _ (w_tree _ _ _ Hw) k) as [Hr' _]; [by exists n|]. congruence.
Qed.

Lemma wp_stage b P top (s : pfs) : winv P top s -> need_writing s = true ->
  wp (if tree_changed s then
        or_status write_recovery_file (mret tt) SGX_FILE_STATUS_FLUSH_ERROR ;;
        or_status (set_update_flag b) (mret tt) SGX_FILE_STATUS_FLUSH_ERROR ;;
        or_status (update_all_data_and_mht_nodes g a_local) clear_update_flag SGX_FILE_STATUS_CRYPTO_ERROR
      else mret tt) s (fun _ s' => exists P', staged P P' top s s') failed.
Proof.
  intros Hw Hn. destruct (tree_changed s) eqn:Etc.
  2: { apply wp_ret. exists P. split; try done; try apply Hw; [|by eapply wopen_winv]. unfold to_write. rewrite Etc. unfold tree_changed, MD_USER_DATA_SIZE in Etc.
       assert (n_need_writing (root_mht s) = false) as Hr.
       { destruct (n_need_writing (root_mht s)) eqn:E; [|done]. destruct (w_need _ _ _ Hw E). rewrite andb_true_r in Etc. zbool. lia. }
       split; [by eapply winv_clean|]. intros Hs. by apply (w_root _ _ _ Hw). }
  apply wp_bind. eapply wp_mono; [by apply wp_or_unlucky, (wp_write_recovery_file P top); [..|apply (w_rw _ _ _ Hw)]| |done]. intros [] s1 Hs1.
  pose proof (winv_still _ _ _ _ Hs1 Hw) as Hw1. pose proof (l_user _ _ Hs1) as Hu1. pose proof Hu1 as Hu1'. user_eqs Hu1'.
  apply wp_bind. eapply wp_mono; [apply wp_or_unlucky, (wp_set_update_flag b P top s1 Hw1); [done|congruence]| |done].
  intros [] s2 (Hw2 & Hu2 & Hr2 & Hc2).
  eapply wp_mono; [by apply wp_or_nofail, (wp_update_all P top s2)| |done]. intros [] s3 (P3 & [] & HP). exists P3.
  assert (user s2 = user s) as Hu by congruence. pose proof Hu as Hu'. user_eqs Hu'. destruct (view_status _ _ z_view) as (_ & _ & Hsz).
  split; try done.
  - rewrite z_view. by apply user_view.
  - rewrite z_list, Hc2. apply (l_list _ _ Hs1).
  - intros key. by rewrite z_dom, Hc2, (l_map _ _ Hs1).
  - rewrite Hsz. eapply tree_disk; [|exact z_tree]. by apply same_disk_eq.
  - pose proof (w_plain _ _ _ Hw2) as Hp. unfold plain_ok in *. rewrite z_md. unfold view in z_view. injection z_view. congruence.
  - unfold to_write, tree_changed. rewrite Hsz, z_rootneed, Hr2, (l_root _ _ Hs1), Hep0. unfold tree_changed in Etc. by rewrite Etc.
  - destruct (view_status _ _ z_view) as (_ & Hf & _). intros Hh. rewrite Hf. apply (k_live _ _ (z_disk Hh)).
    eapply wopen_winv; [exact Hw2|congruence|done].
Qed.

Record flushed (P P' : Z -> list Z) (top : Z) (s s' : pfs) : Prop := MkFlushed {
  x_winv : winv P' top s';
  x_view : view s' = view s;
  x_list : c_list (cache s') = c_list (cache s);
  x_dom key : is_Some (c_map (cache s') !! key) <-> is_Some (c_map (cache s) !! key);
  x_clean : all_clean s';
  x_need : need_writing s' = false;
  x_data j : is_mht j = false -> P' j = P j }.

Lemma wp_internal_flush b P top (s : pfs) : winv P top s ->
  wp (internal_flush g a_local a_cur_key b) s (fun _ s' => exists P', flushed P P' top s s') failed.
Proof.
  intros Hw. unfold internal_flush. apply wp_bind, wp_get. destruct (need_writing s) eqn:Hn; cbn [negb].
  2: { apply wp_ret. exists P. split; try done. eapply winv_clean; [exact Hw|].
       destruct (n_need_writing (root_mht s)) eqn:E; [|done]. destruct (w_need _ _ _ Hw E). congruence. }
  apply wp_bind. eapply wp_mono; [by apply (wp_stage b P top)| |done]. intros [] s1 (P1 & Hg1).
  apply wp_bind. eapply wp_mono; [apply wp_or_nofail, wp_update_meta; apply Hg1| |done]. intros [] s2 (Hm2 & Hp2 & Hs2).
  pose proof (staged_md _ _ _ _ _ _ Hg1 Hm2 Hp2) as []. destruct (view_status _ _ g_view0) as (_ & Hf & _).
  assert (cache_wf (cache s2)) as Hwf.
  { destruct (w_wf _ _ _ Hw) as [H1 H2]. split; [by rewrite g_list0|]. intros k. by rewrite g_list0, H2, g_dom0. }
  apply wp_bind. eapply wp_mono; [apply wp_or_unlucky, (wp_write_all b P1 top); try done; rewrite Hf; apply (w_file _ _ _ Hw)| |done].
  intros [] s3 (Ho & Hd0). pose proof Ho as []. apply wp_mod. pose proof o_user0 as Hu. user_eqs Hu. exists P1. split; cbn; try done; try congruence.
  - split; cbn; try done.
    + unfold cache_wf. rewrite o_list0. split; [apply Hwf|]. intros k. rewrite o_dom0. apply Hwf.
    + intros Hr. by rewrite (proj1 o_clean0) in Hr.
    + intros Hh. assert (read_only s2 = read_only s /\ recovery_filename s2 = recovery_filename s) as [Hro2 Hrec2].
      { unfold view in g_view0. by injection g_view0. }
      rewrite Hro, Hro2, (w_rw _ _ _ Hw Hn), Hrec, Hrec2. split; [by apply o_live0|apply (w_file _ _ _ Hw Hh)].
    + unfold plain_ok in *. cbn. by rewrite Hmd, Hkdk.
    + by rewrite Hep.
    + intros Hs _. by apply o_root0.
    + intros Hh _. split; [|by apply Hd0]. unfold md_sealed, md_key in *. cbn. by rewrite Hmd, Hkdk, Hukdk, Hep.
  - rewrite <- g_view0. change (view s3 = view s2). by apply user_view.
  - intros k. by rewrite o_dom0, g_dom0.
Qed.
End Write.
