(* ===== verification/PfsGet.v ===== *)
(** * Protected file system: evicting nodes and getting a data node

    The cache is brought back to 48 nodes, flushing the file when the least
    recently used node has changes; get_data_node as a whole. *)

From stdpp Require Import gmap.
From S2P Require Import Prelude Bytes Arch Trts Tcrypto Seal Thread Lru Pfs PfsIo PfsTree PfsInv PfsNode PfsData PfsFlush PfsUpdate PfsWrite.

#[local] Open Scope Z_scope.

Section Get.
Context {W : Type} {PF : Platform W} {G : AesGcm} {OC : Ocalls W} {g : runtime} {a_local a_cur_key : Z}.
Context {honest : bool} {V : View W}.
Context {SE : Setting PF G OC g a_local a_cur_key honest V}.
Abbreviation pfs := (protected_fs_file W).
Abbreviation FM := (M pfs unit).
Abbreviation inv := (inv (honest := honest) (V := V)).
Abbreviation winv := (winv (honest := honest) (V := V)).
Abbreviation tree := (tree (honest := honest)).
Abbreviation failed := (failed (honest := honest)).
Abbreviation got := (got (honest := honest) (V := V)).
Abbreviation broken := (broken (honest := honest) (V := V)).

(** ** shrink_cache *)

(** A node without changes leaves the cache. *)
Lemma tree_delete P top size dk root m key : tree P top size dk root m -> ~ dirty m key -> tree P top size dk root (delete key m).
Proof.
  intros [] Hc. assert (forall k, dirty (delete key m) k <-> dirty m k) as Hd.
  { intros k. unfold dirty. destruct (decide (k = key)) as [->|Hne]; [|by rewrite lookup_delete_ne by done].
    rewrite lookup_delete_eq. split; [by intros (? & ? & _)|by intros H]. }
  split; try done.
  - intros k n [_ Hn]%lookup_delete_Some. by apply t_node.
  - intros k. rewrite !Hd. apply t_dirty.
  - intros k. rewrite Hd. apply t_commit.
Qed.

Lemma winv_evict P top (s : pfs) key n : winv P top s -> last (c_list (cache s)) = Some key ->
  c_map (cache s) !! key = Some n -> n_need_writing n = false ->
  winv P top (set_cache (MkCache (removelast (c_list (cache s))) (delete key (c_map (cache s))) (c_it (cache s))) s).
Proof.
  intros Hw Hl Hn Hc. apply (winv_same P P top top s _ Hw); try done.
  - cbn. apply tree_delete; [apply Hw|]. intros (n' & Hn' & Hd). congruence.
  - apply (remove_last_wf (cache s) key n); [apply Hw|done..].
Qed.

(** What is left in the cache is a prefix of it. *)
Record shrunk (P : Z -> list Z) (top : Z) (s s' : pfs) : Prop := MkShrunk {
  h_winv : exists P', winv P' top s' /\ forall j, is_mht j = false -> P' j = P j;
  h_view : view s' = view s;
  h_len : (length (c_list (cache s')) <= 48)%nat;
  h_list : exists l, c_list (cache s) = c_list (cache s') ++ l /\ (l = [] \/ length (c_list (cache s')) = 48%nat) }.

Lemma shrunk_pre P P1 top s s1 s' : view s1 = view s -> (forall j, is_mht j = false -> P1 j = P j) ->
  (exists l, c_list (cache s) = c_list (cache s1) ++ l /\ (l = [] \/ (48 <= length (c_list (cache s1)))%nat)) ->
  shrunk P1 top s1 s' -> shrunk P top s s'.
Proof.
  intros Hv HP (l1 & E1 & H1) [(P' & Hw & HP') Hv' Hlen (l & E & Hl)]. split; [|congruence|done|].
  - exists P'. split; [done|]. intros j Hj. by rewrite HP', HP.
  - exists (l ++ l1). rewrite E1, E, <- app_assoc. split; [done|].
    destruct H1 as [->|H1]; [by rewrite app_nil_r|]. right. destruct Hl as [->|]; [|done].
    rewrite app_nil_r in E. rewrite E in H1. lia.
Qed.

Lemma wp_shrink fuel P top (s : pfs) : winv P top s -> (length (c_list (cache s)) <= 63)%nat ->
  ((length (c_list (cache s)) <= 48 /\ 0 < fuel) \/ (all_clean s /\ length (c_list (cache s)) < fuel) \/
   S (length (c_list (cache s))) < fuel)%nat ->
  wp (shrink_cache g a_local a_cur_key fuel) s (fun _ s' => shrunk P top s s') failed.
Proof.
  revert P s. induction fuel as [|fuel IH]; intros P s Hw H63 Hf; [exfalso; lia|].
  cbn [shrink_cache]. apply wp_bind, wp_get. apply wp_bind. eapply wp_lift_Ok; [apply size_wf; [apply Hw|clear - H63; lia]|].
  unfold MAX_PAGES_IN_CACHE. destruct (zlen (c_list (cache s)) <=? 48) eqn:E48; zbool.
  { apply wp_ret. split; [by exists P|done|lia|]. exists []. rewrite app_nil_r. by split; [|left]. }
  destruct (last (c_list (cache s))) as [key|] eqn:El.
  2: { apply last_None in El. rewrite El in E48. cbn in E48. lia. }
  pose proof (last_split _ _ El) as Esp. assert (length (c_list (cache s)) = S (length (removelast (c_list (cache s)))))%nat as Hlen.
  { rewrite Esp at 1. rewrite length_app. cbn. lia. }
  destruct (proj1 (proj2 (w_wf _ _ _ Hw) key)) as [n Hn]; [rewrite Esp, elem_of_app; right; by left|].
  destruct (remove_last_wf _ _ _ (w_wf _ _ _ Hw) El Hn) as (Egl & Erl & _).
  apply wp_bind. eapply wp_lift_Ok; [exact Egl|]. cbn beta iota. destruct (n_need_writing n) eqn:End; cbn [negb].
  - apply wp_case. eapply wp_mono; [by apply (wp_internal_flush false P top)| |].
    + intros [] s1 (P1 & [? ? Hl ? ? ? ?]).
      eapply wp_mono; [apply (IH P1 s1 x_winv)| |done].
      * by rewrite Hl.
      * rewrite Hl. right. left. split; [done|]. destruct Hf as [?|[[[_ Hc] _]|?]]; [lia| |lia]. by rewrite (Hc _ _ Hn) in End.
      * intros [] s'. apply (shrunk_pre _ P1); try done. exists []. rewrite Hl, app_nil_r. by split; [|left].
    + intros [] s1 [Hh Hst]. apply wp_bind. unfold flush_failed. apply wp_bind, wp_get. rewrite bool_decide_eq_false_2 by done.
      eapply wp_lift_Ok; [done|]. by apply wp_err.
  - apply wp_bind. eapply wp_lift_Ok; [exact Erl|]. apply wp_bind, wp_mod.
    eapply wp_mono; [apply (IH P _ (winv_evict _ _ _ _ _ Hw El Hn End))| |done]; cbn [cache set_cache c_list].
    + lia.
    + right. destruct Hf as [?|[[[Hr Hc] ?]|?]]; [lia| |right; lia]. left. split; [|lia]. split; [done|].
      cbn. intros k n' [_ Hk]%lookup_delete_Some. by eapply Hc.
    + intros [] s'. apply (shrunk_pre _ P); try done. cbn. exists [key]. split; [done|]. right. lia.
Qed.

(** ** get_data_node *)
Lemma few_length B l : NoDup l -> few B l -> (length l <= 63)%nat.
Proof.
  intros Hd [H1 H2]. assert (length l <= length (B ++ filter (.∉ B) l))%nat; [|rewrite length_app in *; lia].
  apply NoDup_incl_length; [by apply NoDup_ListNoDup|]. intros x Hx%list_elem_of_In. apply list_elem_of_In.
  rewrite elem_of_app, list_elem_of_filter. destruct (decide (x ∈ B)); auto.
Qed.

(** Between the calls, with the cache at its size *)
Definition at_rest (P : Z -> list Z) (top : Z) (s : pfs) : Prop := inv [] P top s /\ (length (c_list (cache s)) <= 48)%nat.

Lemma inv_shrunk P top (s s' : pfs) : inv [] P top s -> shrunk P top s s' ->
  exists P', at_rest P' top s' /\ forall j, is_mht j = false -> P' j = P j.
Proof.
  intros [] [(P' & Hw & HP) Hv Hlen (l & El & _)]. exists P'. split; [|done]. split; [|done].
  pose proof (parents_first_prefix [] _ l ltac:(by rewrite <- El)) as Ho. split; try done.
  - intros key Hk. pose proof (proj2 (w_wf _ _ _ Hw)) as Hin. apply Hin in Hk.
    apply list_elem_of_split in Hk as (l1 & l2 & E). destruct (Ho _ _ _ E) as [|Hp]; [by intros ?%elem_of_nil|by left|right].
    apply Hin. rewrite E, elem_of_app. by left.
  - exists []. split; [done|]. split; [cbn; lia|]. pose proof (length_filter (.∉ []) (c_list (cache s'))). lia.
  - destruct (view_status _ _ Hv) as (-> & _). done.
Qed.

(** The plain texts and the bound that a data node is returned with *)
Definition next_P (P : Z -> list Z) (s : pfs) : Z -> list Z :=
  if at_end s then fresh (e_size (encrypted_part_plain s)) P else P.
Definition next_top (s : pfs) : Z := let size := e_size (encrypted_part_plain s) in if at_end s then size + 1 else size.

Lemma wp_data P (s : pfs) : at_rest P (e_size (encrypted_part_plain s)) s -> 3072 <= offset s <= e_size (encrypted_part_plain s) ->
  wp (if at_end s then append_data_node else read_data_node) s (got (next_P P s) (next_top s) s) broken.
Proof.
  intros [Hi H48] Ho. unfold next_P, next_top. destruct (at_end s) eqn:E; [by apply wp_append_data; [..|lia|]|by apply wp_read_data].
Qed.

Lemma wp_get_data P (s : pfs) : at_rest P (e_size (encrypted_part_plain s)) s -> 3072 <= offset s <= e_size (encrypted_part_plain s) ->
  wp (get_data_node g a_local a_cur_key) s (fun key s' => key = data_key (data_no s) /\ view s' = view s /\
    is_Some (c_map (cache s') !! key) /\
    exists P', at_rest P' (next_top s) s' /\ forall j, is_mht j = false -> P' j = next_P P s j) failed.
Proof.
  intros Hr Ho. unfold get_data_node. apply wp_bind, wp_get. unfold MD_USER_DATA_SIZE at 1. rewrite (proj2 (Z.ltb_ge _ _)) by lia.
  fold (at_end s). apply wp_bind, wp_case. pose proof (t_size _ _ _ _ _ _ (i_tree _ _ _ _ (proj1 Hr))) as [Hsz _].
  eapply wp_mono; [by apply (wp_data P)| |].
  - intros key s1 (-> & Hi & (l & El) & [n Hn] & Hu & Hrt & _ & Hlen). set (key := data_key (data_no s)) in *.
    destruct (t_node _ _ _ _ _ _ (i_tree _ _ _ _ Hi) _ _ Hn) as [[H2 (nd & nw & ci & E)] _].
    apply wp_bind. eapply wp_node_cached; [exact H2|exact Hn|]. rewrite E. cbn [n_parent].
    destruct (data_key_facts (data_no s)) as (_ & _ & Hpar & _). fold key in Hpar.
    assert (0 <= data_no s / 96) as Hk by (unfold data_no; zlia).
    destruct (level_mht (data_no s / 96) (e_size (encrypted_part_plain s))) as [Hlv _]; [done| |clear - Hsz; lia|].
    { right. destruct (mht_key_facts (data_no s / 96)) as (_ & _ & _ & ->). unfold data_no. zlia. }
    apply wp_bind. unfold depth_fuel. rewrite Hpar in Hi |- *.
    eapply wp_mono; [apply (wp_bump 13 key _ key _ _ s1 [] l Hi Hpar)| |by intros e s' []].
    + by apply level_S.
    + rewrite <- Hpar. apply (i_up _ _ _ _ Hi). by rewrite Hn.
    + done.
    + rewrite <- Hpar. apply data_not_chain.
    + intros [] s2 (Hi2 & Hu2 & Hr2 & Hd2 & Hm2 & Hl2 & pre & rest & El2 & Hpre). apply wp_ret. apply wp_bind, wp_get. apply wp_bind.
      destruct (i_few _ _ _ _ Hi2) as (B & _ & HB). pose proof (few_length _ _ (proj1 (i_wf _ _ _ _ Hi2)) HB) as H63.
      eapply wp_mono; [apply (wp_shrink _ _ (next_top s) s2 (i_w _ _ _ _ Hi2) H63)| |done].
      { unfold shrink_fuel. destruct (le_lt_dec (length (c_list (cache s2))) 48); [left|right; right]; lia. }
      intros [] s3 Hs. apply wp_ret. split; [done|]. split; [rewrite (h_view _ _ _ _ Hs); apply user_view; congruence|].
      split; [|by apply (inv_shrunk _ _ s2)]. destruct (h_winv _ _ _ _ Hs) as (P' & Hw' & _). apply (w_wf _ _ _ Hw').
      destruct (h_list _ _ _ _ Hs) as (l3 & E3 & H3). destruct H3 as [->|H3].
      * rewrite app_nil_r in E3. rewrite <- E3, El2, elem_of_app. right. by left.
      * assert (key ∈ take 48 (c_list (cache s2))) as Hin.
        { rewrite El2. rewrite take_app_ge by (cbn in Hpre; lia). rewrite elem_of_app. right. cbn in Hpre.
          destruct (48 - length pre)%nat eqn:Ed; [lia|]. cbn. by left. }
        rewrite E3, take_app_le, <- H3, firstn_all in Hin by lia. done.
  - intros [] s1 (Hh & Hst & P1 & top1 & B & Hw1 & HB). apply wp_ret. apply wp_bind, wp_get. apply wp_bind.
    pose proof (few_length _ _ (proj1 (w_wf _ _ _ Hw1)) HB) as H63.
    eapply wp_mono; [apply (wp_shrink _ P1 top1 s1 Hw1 H63)| |done].
    { unfold shrink_fuel. destruct (le_lt_dec (length (c_list (cache s1))) 48); [left|right; right]; lia. }
    intros [] s2 Hs. apply wp_err. split; [done|]. destruct (view_status _ _ (h_view _ _ _ _ Hs)) as (-> & _). done.
Qed.
End Get.
