(* ===== verification/PfsStore.v ===== *)
(** * Protected file system: what the nodes hold

    The contents of a file are the user data of the meta-data node followed by
    the data nodes.  Writing to a data node that is in the cache changes these
    contents in place and keeps the invariant. *)

From stdpp Require Import gmap.
From S2P Require Import Prelude Bytes Arch Trts Tcrypto Seal Thread Lru Pfs PfsIo PfsTree PfsInv PfsNode PfsData PfsFlush PfsUpdate PfsWrite PfsGet.

#[local] Open Scope Z_scope.

(** ** Contents *)
Definition byte_at (P : Z -> list Z) (e : meta_data_encrypted_t) (i : Z) : option Z :=
  if i <? 3072 then znth (e_data e) i else znth (P (data_key ((i - 3072) / 4096))) ((i - 3072) mod 4096).

Definition contents (C : list Z) (P : Z -> list Z) (e : meta_data_encrypted_t) : Prop :=
  zlen C = e_size e /\ forall i, 0 <= i < zlen C -> znth C i = byte_at P e i.

(** [e] with [n] bytes written at [o] *)
Definition grown (o n : Z) (d : list Z) (e : meta_data_encrypted_t) : meta_data_encrypted_t :=
  MkEnc (e_clean_filename e) (Z.max (e_size e) (o + n)) (e_mc e) (e_mht_key e) (e_mht_gmac e) d.

Lemma contents_data C P P' e : (forall j, is_mht j = false -> P' j = P j) -> contents C P e -> contents C P' e.
Proof. intros HP [Hl Hc]. split; [done|]. intros i Hi. rewrite Hc by done. unfold byte_at. by rewrite HP by apply is_mht_data. Qed.

Lemma contents_fresh C P e : contents C P e -> contents C (fresh (e_size e) P) e.
Proof.
  intros [Hl Hc]. split; [done|]. intros i Hi. rewrite Hc by done. unfold byte_at. case_match; [done|]. zbool.
  rewrite fresh_old; [done|]. right. destruct (data_key_facts ((i - 3072) / 4096)) as (_ & _ & _ & ->). rewrite <- Hl. zlia.
Qed.

Lemma contents_md C P e o d : contents C P e -> zlen (e_data e) = 3072 -> 0 <= o <= zlen C -> o + zlen d <= 3072 ->
  contents (splice o d C) P (grown o (zlen d) (splice o d (e_data e)) e).
Proof.
  intros [Hl Hc] He Ho Hd. assert (zlen (splice o d C) = Z.max (e_size e) (o + zlen d)) as E.
  { unfold splice. rewrite !zlen_app, zlen_ztake, zlen_zdrop. lia. }
  split; [done|]. intros i Hi. unfold byte_at. cbn. rewrite !znth_splice by lia. case_match; zbool.
  - by rewrite (proj2 (Z.ltb_lt i 3072)) by lia.
  - apply andb_false_iff in H. rewrite Hc by (destruct H; zbool; lia). done.
Qed.

Definition with_node (key : Z) (p : list Z) (P : Z -> list Z) (k : Z) : list Z := if k =? key then p else P k.

Lemma contents_node C P e o d : let key := data_key ((o - 3072) / 4096) in let oin := (o - 3072) mod 4096 in
  contents C P e -> zlen (P key) = 4096 -> 3072 <= o <= zlen C -> oin + zlen d <= 4096 ->
  contents (splice o d C) (with_node key (splice oin d (P key)) P) (grown o (zlen d) (e_data e) e).
Proof.
  intros key oin [Hl Hc] Hk Ho Hd. assert (zlen (splice o d C) = Z.max (e_size e) (o + zlen d)) as E.
  { unfold splice. rewrite !zlen_app, zlen_ztake, zlen_zdrop. lia. }
  split; [done|]. intros i Hi. unfold byte_at. cbn. rewrite znth_splice by lia.
  assert (0 <= oin) by (subst oin; zlia).
  destruct (i <? 3072) eqn:E3; zbool.
  { rewrite (proj2 (Z.leb_gt o i)) by lia. cbn [andb]. rewrite Hc by lia. unfold byte_at. by rewrite (proj2 (Z.ltb_lt i 3072)) by lia. }
  unfold with_node. destruct (Z.eqb_spec (data_key ((i - 3072) / 4096)) key) as [Ek|Ek].
  - apply data_key_inj in Ek. rewrite znth_splice by (subst oin; zlia).
    assert (i - o = (i - 3072) mod 4096 - oin) as Eo by (subst oin; zlia). rewrite <- Eo.
    replace (oin <=? _) with (o <=? i) by (apply eq_true_iff_eq; rewrite !Z.leb_le; lia).
    replace (_ <? oin + zlen d) with (i <? o + zlen d) by (apply eq_true_iff_eq; rewrite !Z.ltb_lt; lia).
    case_match; zbool; [done|]. apply andb_false_iff in H0. rewrite Hc by (destruct H0; zbool; lia).
    unfold byte_at. rewrite (proj2 (Z.ltb_ge i 3072)) by lia. unfold key. by rewrite Ek.
  - assert ((o <=? i) && (i <? o + zlen d) = false) as ->.
    { apply andb_false_iff. rewrite Z.leb_gt, Z.ltb_ge. destruct (decide (o <= i)); [right|left; lia].
      assert ((i - 3072) / 4096 <> (o - 3072) / 4096) as Hn by (intros Eq; apply Ek; unfold key; by rewrite Eq).
      subst oin. clear - Hn Hd l Ho. zlia. }
    rewrite Hc. { unfold byte_at. by rewrite (proj2 (Z.ltb_ge i 3072)) by lia. }
    assert ((i - 3072) / 4096 <> (o - 3072) / 4096) as Hn by (intros Eq; apply Ek; unfold key; by rewrite Eq).
    subst oin. clear - Hn Hd Hi E E3 Hl Ho. zlia.
Qed.

Lemma i64_id x : - 2 ^ 63 <= x < 2 ^ 63 -> i64 x = x.
Proof. intros H. unfold i64. rewrite u64_id by (unfold is_u64; lia). lia. Qed.

Section Store.
Context {W : Type} {PF : Platform W} {G : AesGcm} {OC : Ocalls W} {g : runtime} {a_local a_cur_key : Z}.
Context {honest : bool} {V : View W}.
Context {SE : Setting PF G OC g a_local a_cur_key honest V}.
Abbreviation pfs := (protected_fs_file W).
Abbreviation FM := (M pfs unit).
Abbreviation inv := (inv (honest := honest) (V := V)).
Abbreviation tree := (tree (honest := honest)).

(** ** Marking the parents *)
Definition mark (Z_ : list Z) (k : Z) (n : file_node) : file_node := if decide (k ∈ Z_) then set_need true n else n.

Lemma mark_out Z_ k (o : option file_node) : k ∉ Z_ -> mark Z_ k <$> o = o.
Proof. intros Hk. destruct o as [n|]; [|done]. cbn. unfold mark. by rewrite decide_False. Qed.
Lemma mark_in Z_ k n : k ∈ Z_ -> mark Z_ k n = set_need true n.
Proof. intros Hk. unfold mark. by rewrite decide_True. Qed.

Record marked (Z_ : list Z) (s s' : pfs) : Prop := MkMarked {
  k_user : user s' = user s;
  k_root : root_mht s' = root_mht s;
  k_world : world s' = world s;
  k_list : c_list (cache s') = c_list (cache s);
  k_map k : c_map (cache s') !! k = mark Z_ k <$> c_map (cache s) !! k }.

(** What the links of the nodes have to be for this *)
Record linked (s : pfs) : Prop := MkLinked {
  n_up k : is_Some (c_map (cache s) !! k) -> k_parent k = 1 \/ is_Some (c_map (cache s) !! k_parent k);
  n_at k n : c_map (cache s) !! k = Some n -> 2 <= k /\ n_number n = k_number k /\ n_parent n = k_parent k;
  n_top : n_number (root_mht s) = 0 }.

Lemma inv_linked Y P top s : inv Y P top s -> linked s.
Proof.
  intros Hi. pose proof (i_tree _ _ _ _ Hi) as []. split.
  - apply (i_up _ _ _ _ Hi).
  - intros k n Hn. destruct (t_node _ _ Hn) as [[H2 (a & b & c & ->)] _]. done.
  - by destruct t_root as (a & b & c & ->).
Qed.

(** The links do not change with the contents. *)
Lemma linked_map s s' (f : Z -> file_node -> file_node) :
  (forall k n, n_number (f k n) = n_number n /\ n_parent (f k n) = n_parent n) ->
  (forall k, c_map (cache s') !! k = f k <$> c_map (cache s) !! k) -> n_number (root_mht s') = n_number (root_mht s) ->
  linked s -> linked s'.
Proof.
  intros Hf Hm Hr []. split; [| |congruence].
  - intros k. rewrite !Hm, !fmap_is_Some. apply n_up0.
  - intros k n. rewrite Hm. intros Hk. apply fmap_Some in Hk as (n0 & Hk & ->). destruct (Hf k n0) as [-> ->]. by apply n_at0.
Qed.

Lemma wp_mark n key (s : pfs) : linked s -> level n key -> key = 1 \/ is_Some (c_map (cache s) !! key) ->
  wp (mark_parents (S n) false key) s (fun _ s' => marked (chain (S n) key) s s') nofail.
Proof.
  revert key s. induction n as [|n IH]; intros key s Hlk Hlv Hk; pose proof Hlk as [Hup Hnode Hroot].
  1: apply level_0 in Hlv as E1. 2: destruct (decide (key = 1)) as [E1|Hk1].
  1,2: rewrite E1; cbn [mark_parents]; apply wp_bind, wp_node_root; rewrite Hroot; apply wp_ret; split; try done;
    intros k; by rewrite mark_out by (by intros ?%elem_of_nil).
  destruct Hk as [|[nd Hn]]; [done|]. destruct (Hnode _ _ Hn) as (H2 & En & Ep).
  cbn [mark_parents]. apply wp_bind. eapply wp_node_cached; [exact H2|exact Hn|].
  pose proof Hlv as (k & Hkr & ->). destruct (mht_key_facts k) as (_ & Hnum & _ & _).
  rewrite En, Hnum, (proj2 (Z.eqb_neq k 0)) by (intros ->; by apply Hk1).
  apply wp_bind. apply wp_lift_Ok with tt; [done|]. apply wp_bind. eapply wp_upd_cached; [exact H2|exact Hn|]. rewrite Ep.
  set (s1 := set_cache _ s).
  assert (forall j, c_map (cache s1) !! j = mark [mht_key k] j <$> c_map (cache s) !! j) as Hm1.
  { intros j. cbn. destruct (decide (j = mht_key k)) as [->|Hne].
    - rewrite lookup_insert_eq, Hn. cbn. by rewrite mark_in by (by left).
    - rewrite lookup_insert_ne by done. by rewrite mark_out by (by rewrite list_elem_of_singleton). }
  eapply wp_mono; [apply (IH _ s1)| |done].
  - eapply (linked_map s s1 (mark [mht_key k])); [|exact Hm1|done|exact Hlk]. intros j nd0. unfold mark. by case_decide.
  - by apply level_parent.
  - rewrite Hm1, fmap_is_Some. apply Hup. by rewrite Hn.
  - intros [] s2 []. split; try done. intros j. rewrite k_map0, Hm1, <- option_fmap_compose. apply option_fmap_ext. intros x. cbn.
    change (chain (S (S n)) (mht_key k)) with (if mht_key k =? 1 then [] else mht_key k :: chain (S n) (k_parent (mht_key k))).
    rewrite (proj2 (Z.eqb_neq _ _) Hk1). unfold mark.
    repeat case_decide; rewrite ?list_elem_of_singleton, ?elem_of_cons in *; try done; naive_solver.
Qed.

(** ** One node is written *)

(** [p] is the new plain text of [key], [chain 14] the nodes above it. *)
Definition restore (key : Z) (p : list Z) (k : Z) (n : file_node) : file_node :=
  if k =? key then set_need true (set_plain p n) else mark (chain 14 (k_parent key)) k n.

Record stored (key : Z) (p : list Z) (e : meta_data_encrypted_t) (o : Z) (s s' : pfs) : Prop := MkStored {
  y_md : file_meta_data s' = file_meta_data s;
  y_enc : encrypted_part_plain s' = e;
  y_offset : offset s' = o;
  y_need : need_writing s' = true;
  y_rest : (file s', open_mode s', read_only s', end_of_file s', real_file_size s', last_error s', file_status s',
            use_user_kdk_key s', user_kdk_key s', recovery_filename s') =
           (file s, open_mode s, read_only s, end_of_file s, real_file_size s, last_error s, file_status s,
            use_user_kdk_key s, user_kdk_key s, recovery_filename s);
  y_root : root_mht s' = set_need true (root_mht s);
  y_world : world s' = world s;
  y_list : c_list (cache s') = c_list (cache s);
  y_map k : c_map (cache s') !! k = restore key p k <$> c_map (cache s) !! k }.

Lemma chain_dirty n key P top size dk root m k : tree P top size dk root m -> key = 1 \/ dirty m key ->
  k ∈ chain n key -> dirty m k.
Proof.
  intros Ht. revert key. induction n as [|n IH]; intros key Hk Hin; [by apply elem_of_nil in Hin|]. cbn [chain] in Hin.
  destruct (Z.eqb_spec key 1); [by apply elem_of_nil in Hin|]. destruct Hk as [|Hk]; [done|].
  apply elem_of_cons in Hin as [->|Hin]; [done|]. apply (IH (k_parent key)); [apply (t_dirty _ _ _ _ _ _ Ht _ Hk)|done].
Qed.

Lemma set_need_id n : n_need_writing n = true -> set_need true n = n.
Proof. destruct n. cbn. by intros ->. Qed.

(** advance, as [grown] *)
Lemma wp_advance n (s : pfs) (Q : unit -> pfs -> Prop) R : 0 <= offset s -> 0 <= n -> offset s + n < 2 ^ 62 ->
  Q tt (set_encrypted_part_plain (grown (offset s) n (e_data (encrypted_part_plain s)) (encrypted_part_plain s)) (set_offset (offset s + n) s)) ->
  wp (advance n) s Q R.
Proof.
  intros Ho Hn Hb HQ. unfold advance. apply wp_bind, wp_mod, wp_mod. cbn [offset set_offset encrypted_part_plain].
  rewrite i64_id by (clear - Ho Hn Hb; lia). destruct (_ >? _) eqn:E; zbool.
  - unfold grown in HQ. rewrite Z.max_r in HQ by lia. exact HQ.
  - unfold grown in HQ. rewrite Z.max_l in HQ by lia. by destruct s as [? [] ? ? ? ? ? ? ? ? ? ? ? ? ? ? ? ? ? ?].
Qed.

Definition oin (s : pfs) : Z := (offset s - 3072) mod 4096.

Lemma in_node (s : pfs) : 3072 <= offset s < 2 ^ 62 -> u64 (offset s - MD_USER_DATA_SIZE) mod NODE_SIZE = oin s /\ 0 <= oin s < 4096.
Proof. intros H. unfold MD_USER_DATA_SIZE, NODE_SIZE, oin. rewrite u64_id by (unfold is_u64; lia). split; [done|]. zlia. Qed.

Lemma data_level (s : pfs) size : 3072 <= offset s <= size -> size < 2 ^ 62 ->
  k_parent (data_key (data_no s)) = mht_key (data_no s / 96) /\ level 13 (k_parent (data_key (data_no s))).
Proof.
  intros Ho Hs. destruct (data_key_facts (data_no s)) as (_ & _ & -> & _). split; [done|].
  apply level_S. apply (level_mht _ size); [unfold data_no; zlia| |done].
  right. destruct (mht_key_facts (data_no s / 96)) as (_ & _ & _ & ->). unfold data_no. zlia.
Qed.

Lemma wp_store P top (s : pfs) data : let key := data_key (data_no s) in let now := ztake (4096 - oin s) data in
  inv [] P top s -> is_Some (c_map (cache s) !! key) -> 3072 <= offset s <= e_size (encrypted_part_plain s) ->
  offset s + zlen now < 2 ^ 62 ->
  wp (write_to_node key data) s (fun rest s' => rest = zdrop (4096 - oin s) data /\
    stored key (splice (oin s) now (P key))
      (grown (offset s) (zlen now) (e_data (encrypted_part_plain s)) (encrypted_part_plain s)) (offset s + zlen now) s s') nofail.
Proof.
  intros key now Hi [n Hn] Ho Hb. pose proof (i_tree _ _ _ _ Hi) as Ht. pose proof (t_size _ _ _ _ _ _ Ht) as [Hsz _].
  destruct (t_node _ _ _ _ _ _ Ht _ _ Hn) as [[H2 (nd & nw & ci & En)] _].
  destruct (in_node s) as [Eo Hoin]; [lia|]. destruct (data_level s (e_size (encrypted_part_plain s))) as [Hpar Hlv]; [done|lia|].
  unfold write_to_node. apply wp_bind, wp_get. rewrite Eo. unfold NODE_SIZE. fold now.
  apply wp_bind. eapply wp_upd_cached; [exact H2|exact Hn|]. set (p := splice (oin s) now (P key)).
  assert (set_plain (splice (oin s) now (n_plain n)) n = set_plain p n) as -> by (by rewrite En).
  apply wp_bind. apply wp_advance; [cbn; lia|lia|cbn; lia|].
  apply wp_bind. eapply wp_node_cached; [exact H2|cbn; by rewrite lookup_insert_eq|].
  cbn [set_cache encrypted_part_plain offset]. apply wp_bind. set (s2 := set_encrypted_part_plain _ _).
  assert (forall k, c_map (cache s2) !! k = (if k =? key then set_plain p else id) <$> c_map (cache s) !! k) as Hm2.
  { intros k. cbn. destruct (Z.eqb_spec k key) as [->|Hne]; [by rewrite lookup_insert_eq, Hn|]. rewrite lookup_insert_ne by done. by rewrite option_fmap_id. }
  cbn [set_plain n_need_writing n_parent]. destruct (n_need_writing n) eqn:Hneed; cbn [negb].
  - apply wp_ret, wp_ret. split; [done|].
    assert (dirty (c_map (cache s)) key) as Hd by (by exists n). destruct (t_dirty _ _ _ _ _ _ Ht _ Hd) as [Hr Hup].
    split; try done.
    + apply (w_need _ _ _ (i_w _ _ _ _ Hi) Hr).
    + by rewrite set_need_id.
    + intros k. rewrite Hm2. unfold restore. destruct (Z.eqb_spec k key) as [->|Hne].
      * rewrite Hn. cbn. by rewrite set_need_id.
      * destruct (c_map (cache s) !! k) as [nk|] eqn:Ek; [|done]. cbn [fmap option_fmap option_map]. unfold mark, id. case_decide as Hin; [|done].
        destruct (chain_dirty _ _ _ _ _ _ _ _ _ Ht Hup Hin) as (n' & Hn' & Hd'). rewrite set_need_id; congruence.
  - apply wp_bind. eapply wp_upd_cached; [exact H2|rewrite Hm2, Z.eqb_refl, Hn; done|]. apply wp_bind.
    set (s3 := set_cache _ s2). replace (n_parent n) with (k_parent key) by (by rewrite En).
    assert (forall k, c_map (cache s3) !! k = (if k =? key then fun n => set_need true (set_plain p n) else id) <$> c_map (cache s) !! k) as Hm3.
    { intros k. cbn. destruct (Z.eqb_spec k key) as [->|Hne]; [by rewrite lookup_insert_eq, Hn|].
      rewrite !lookup_insert_ne by done. by rewrite option_fmap_id. }
    eapply wp_mono; [apply (wp_mark 13 (k_parent key) s3)| |done].
    + eapply (linked_map s s3 _); [|exact Hm3|done|by eapply inv_linked]. intros k n'. cbn. by destruct (k =? key).
    + done.
    + rewrite Hm3, fmap_is_Some. apply (i_up _ _ _ _ Hi). by rewrite Hn.
    + intros [] s4 [Hu Hr Hw Hl Hm]. user_eqs Hu. apply wp_bind, wp_mod, wp_mod, wp_ret. split; [done|].
      split; cbn; try done.
      * cbn in *. congruence.
      * by rewrite Hr.
      * intros k. rewrite Hm, Hm3, <- option_fmap_compose. apply option_fmap_ext. intros x. unfold compose, restore.
        destruct (Z.eqb_spec k key) as [->|Hne]; [|done]. unfold mark. rewrite decide_False by apply data_not_chain. done.
Qed.

(** ** The invariant after a node is written *)
Lemma restored_dirty key p (m m' : gmap Z file_node) k : (forall k, m' !! k = restore key p k <$> m !! k) ->
  dirty m' k <-> is_Some (m !! k) /\ (k = key \/ k ∈ chain 14 (k_parent key) \/ dirty m k).
Proof.
  intros Hm. unfold dirty. rewrite Hm. destruct (m !! k) as [n|]; cbn [fmap option_fmap option_map].
  2: { split; [by intros (n' & ? & _)|by intros [[] _]]. }
  unfold restore, mark. destruct (Z.eqb_spec k key) as [->|Hne].
  { split; [intros _; split; [done|by left]|]. intros _. by eexists. }
  case_decide as Hin.
  - split; [intros _; split; [done|auto]|]. intros _. by eexists.
  - split; [|by intros [_ [?|[?|?]]]]. intros (n' & [= <-] & Hd). split; [done|]. right. right. by exists n.
Qed.

(** The nodes that begin where the file grows: the data node that is written
    and, when it is its first one, its parent *)
Lemma grown_node (s : pfs) size size' k : 3072 <= offset s <= size -> size' <= offset s - oin s + 4096 ->
  2 <= k -> size <= pos k < size' -> k = data_key (data_no s) \/ k = k_parent (data_key (data_no s)).
Proof.
  intros Ho Hs Hk Hp. destruct (data_key_facts (data_no s)) as (_ & _ & -> & _). unfold oin, data_no in *.
  destruct (key_cases k) as [(m & Hm & ->)|(d & Hd & ->)]; [lia|right|left].
  - destruct (mht_key_facts m) as (_ & _ & _ & E). rewrite E in Hp. f_equal. zlia.
  - destruct (data_key_facts d) as (_ & _ & _ & E). rewrite E in Hp. f_equal. zlia.
Qed.

Lemma tree_stored P top (s : pfs) (m' : gmap Z file_node) p size' : let key := data_key (data_no s) in let size := e_size (encrypted_part_plain s) in
  inv [] P top s -> is_Some (c_map (cache s) !! key) -> 3072 <= offset s <= size -> size <= size' < 2 ^ 62 ->
  size' <= offset s - oin s + 4096 \/ size' = size -> top <= size' -> zlen p = 4096 ->
  (forall k, m' !! k = restore key p k <$> c_map (cache s) !! k) ->
  tree (with_node key p P) size' size' (disk (world s)) (set_need true (root_mht s)) m'.
Proof.
  intros key size Hi Hkey Ho Hs Hend Htop Hp Hm. pose proof (i_tree _ _ _ _ Hi) as []. fold size in t_size, t_commit.
  set (m := c_map (cache s)) in *.
  assert (2 <= key) as H2 by (unfold key, data_key, data_no; zlia).
  assert (forall k, is_mht k = true -> with_node key p P k = P k) as HP.
  { intros k Hk. unfold with_node. destruct (Z.eqb_spec k key) as [->|]; [|done]. unfold key in Hk. by rewrite is_mht_data in Hk. }
  destruct (data_level s size) as [_ Hlv]; [done|lia|]. fold key in Hlv.
  assert (forall k, dirty m' k <-> _) as Hd by (intros k; by apply (restored_dirty key p m m' k)).
  pose proof (i_up _ _ _ _ Hi) as Hup. fold m in Hup.
  split.
  - lia.
  - intros k Hk. unfold with_node. case_match; [done|by apply t_len].
  - destruct t_root as (nd & nw & ci & ->). rewrite HP by done. by eexists _, _, _.
  - intros k n. rewrite Hm. intros Hn. apply fmap_Some in Hn as (n0 & Hn & ->). destruct (t_node _ _ Hn) as [[Hk (nd & nw & ci & ->)] Hpos].
    split; [|lia]. split; [done|]. unfold restore, with_node, mark. repeat case_match; by eexists _, _, _.
  - intros k. rewrite Hd. intros [Hsome Hk]. split; [done|]. destruct (Hup k Hsome) as [|Hpar]; [by left|]. rewrite Hd.
    destruct Hk as [->|[Hk|Hk]].
    + destruct (decide (k_parent key = 1)); [by left|right]. split; [done|]. right. left. by apply chain_self.
    + destruct (chain_closed 13 (k_parent key) k Hlv Hk); [by left|right]. split; [done|]. auto.
    + destruct (t_dirty _ Hk) as [_ [|]]; [by left|right]. split; [done|]. auto.
  - intros k Hk Hpos. rewrite Hd. intros Hnd. destruct (decide (pos k < size)) as [Hold|Hnew].
    + assert (slot_committed (honest := honest) (disk (world s)) P k) as Hc.
      { apply t_commit; [done..|]. intros Hdk. apply Hnd. split; [|auto]. destruct Hdk as (n & -> & _). done. }
      unfold slot_committed in *. rewrite (HP (k_parent k)) by apply parent_mht.
      unfold with_node. destruct (Z.eqb_spec k key) as [->|]; [|done]. destruct Hnd. auto.
    + exfalso. apply Hnd. destruct (grown_node s size size' k) as [E|E]; [done|destruct Hend; [done|lia]|done|lia|rewrite E; auto|].
      fold key in E. rewrite E in Hk |- *. destruct (Hup key Hkey) as [|Hpar]; [lia|]. split; [done|]. right. left.
      apply chain_self. lia.
Qed.

Lemma inv_stored P top (s s' : pfs) now : let key := data_key (data_no s) in let size := e_size (encrypted_part_plain s) in
  at_rest (honest := honest) (V := V) P top s -> is_Some (c_map (cache s) !! key) -> 3072 <= offset s <= size ->
  0 < zlen now <= 4096 - oin s -> offset s + zlen now < 2 ^ 62 -> top = size \/ offset s = size -> read_only s = false ->
  stored key (splice (oin s) now (P key)) (grown (offset s) (zlen now) (e_data (encrypted_part_plain s)) (encrypted_part_plain s))
    (offset s + zlen now) s s' ->
  at_rest (honest := honest) (V := V) (with_node key (splice (oin s) now (P key)) P) (Z.max size (offset s + zlen now)) s'.
Proof.
  intros key size [Hi H48] Hkey Ho Hn Hb Htop Hfalse Hst. pose proof (i_w _ _ _ _ Hi) as Hw.
  pose proof (t_size _ _ _ _ _ _ (w_tree _ _ _ Hw)) as [Hsz Hts]. fold size in Hsz, Hts.
  destruct (in_node s) as [_ Hoin]; [lia|]. assert (2 <= key) by (unfold key, data_key, data_no; zlia).
  assert (zlen (P key) = 4096) as Hlen by (apply (t_len _ _ _ _ _ _ (w_tree _ _ _ Hw)); lia).
  pose proof (tree_stored P top s (c_map (cache s')) (splice (oin s) now (P key)) (Z.max size (offset s + zlen now)) Hi Hkey Ho) as Ht.
  destruct Hst as [Hmd Henc Hoff Hneed Hrest Hroot Hworld Hlist Hmap]. fold key in Hmap.
  assert (tree (with_node key (splice (oin s) now (P key)) P) (Z.max size (offset s + zlen now)) (Z.max size (offset s + zlen now))
            (disk (world s)) (set_need true (root_mht s)) (c_map (cache s'))) as Ht'.
  { apply Ht; [fold size; lia|lia|lia| |exact Hmap]. rewrite zlen_splice by lia. done. }
  clear Ht. injection Hrest as Hfile _ Hro _ _ _ Hstat Hkdk Hukdk Hrec.
  assert (forall k, is_Some (c_map (cache s') !! k) <-> is_Some (c_map (cache s) !! k)) as Hdom by (intros k; by rewrite Hmap, fmap_is_Some).
  split; [|by rewrite Hlist]. split; rewrite ?Hlist, ?Hstat; try apply Hi.
  - split; rewrite ?Henc, ?Hroot, ?Hneed, ?Hworld, ?Hfile, ?Hro, ?Hrec; try done.
    + unfold cache_wf. rewrite Hlist. split; [apply Hw|]. intros k. rewrite Hdom. apply Hw.
    + intros _. split; [done|]. cbn. fold size. lia.
    + apply Hw.
    + unfold plain_ok. rewrite Hmd, Hkdk. apply (w_plain _ _ _ Hw).
    + apply (w_enc _ _ _ Hw).
  - intros k. rewrite !Hdom. apply (i_up _ _ _ _ Hi).
Qed.
End Store.
