(* ===== verification/PfsRw.v ===== *)
(** * Protected file system: an open file is an array of bytes

    write, read, seek, tell and flush refine operations on the bytes of the
    file and a position. *)

From stdpp Require Import gmap.
From S2P Require Import Prelude Bytes Arch Trts Tcrypto Seal Thread Lru Pfs PfsIo PfsFile PfsTree PfsInv PfsNode PfsData PfsFlush PfsUpdate PfsWrite PfsGet PfsStore.

#[local] Open Scope Z_scope.

Lemma splice_twice {A} o (a b l : list A) : 0 <= o <= zlen l -> splice (o + zlen a) b (splice o a l) = splice o (a ++ b) l.
Proof.
  intros Ho. unfold splice at 1. rewrite <- app_assoc || idtac.
  assert (ztake (o + zlen a) (splice o a l) = ztake o l ++ a) as ->.
  { unfold splice. rewrite ztake_app_ge by (rewrite zlen_ztake; lia). f_equal. rewrite zlen_ztake.
    rewrite ztake_app_ge by lia. rewrite ztake_le0 by lia. apply app_nil_r. }
  assert (zdrop (o + zlen a + zlen b) (splice o a l) = zdrop (o + zlen (a ++ b)) l) as ->.
  { unfold splice. rewrite !zdrop_app_ge by (rewrite ?zlen_ztake; lia). rewrite zdrop_zdrop by (rewrite ?zlen_ztake; lia).
    rewrite zlen_ztake, zlen_app. f_equal. lia. }
  unfold splice. by rewrite <- !app_assoc.
Qed.

Lemma zlen_splice_max {A} o (a l : list A) : 0 <= o <= zlen l -> zlen (splice o a l) = Z.max (zlen l) (o + zlen a).
Proof. intros Ho. unfold splice. rewrite !zlen_app, zlen_ztake, zlen_zdrop. lia. Qed.

Section Rw.
Context {W : Type} {PF : Platform W} {G : AesGcm} {OC : Ocalls W} {g : runtime} {a_local a_cur_key : Z}.
Context {honest : bool} {V : View W}.
Context {SE : Setting PF G OC g a_local a_cur_key honest V}.
Abbreviation pfs := (protected_fs_file W).
Abbreviation FM := (M pfs unit).
Abbreviation inv := (inv (honest := honest) (V := V)).
Abbreviation tree := (tree (honest := honest)).
Abbreviation at_rest := (at_rest (honest := honest) (V := V)).
Abbreviation failed := (failed (honest := honest)).

(** What reading and writing keep *)
Definition ident (s : pfs) :=
  (e_clean_filename (encrypted_part_plain s), file s, open_mode s, read_only s, use_user_kdk_key s, user_kdk_key s, recovery_filename s).
Definition frame (s : pfs) := (ident s, end_of_file s).

Lemma view_frame (s s' : pfs) : view s' = view s ->
  frame s' = frame s /\ offset s' = offset s /\ e_size (encrypted_part_plain s') = e_size (encrypted_part_plain s) /\
  e_data (encrypted_part_plain s') = e_data (encrypted_part_plain s).
Proof. unfold view, frame, ident. intros [=]. repeat split; congruence. Qed.

Lemma stored_frame key p e o (s s' : pfs) : e_clean_filename e = e_clean_filename (encrypted_part_plain s) ->
  stored key p e o s s' -> frame s' = frame s.
Proof. intros He []. unfold frame, ident. rewrite y_enc, He. injection y_rest. congruence. Qed.

(** The file is at rest with contents [C], at position [o]. *)
Record holds (C : list Z) (o : Z) (s : pfs) : Prop := MkHolds {
  o_rest : exists P, at_rest P (zlen C) s /\ contents C P (encrypted_part_plain s);
  o_offset : offset s = o;
  o_range : 0 <= o <= zlen C }.

Lemma holds_size C o s : holds C o s -> e_size (encrypted_part_plain s) = zlen C /\ zlen C < 2 ^ 62 /\ file_status s = SGX_FILE_STATUS_OK.
Proof.
  intros [(P & [Hi _] & [Hc _]) _ _]. pose proof (t_size _ _ _ _ _ _ (i_tree _ _ _ _ Hi)). split; [done|]. split; [lia|apply Hi].
Qed.

(** ** The meta-data node *)
Lemma inv_md P (s : pfs) o d n : at_rest P (e_size (encrypted_part_plain s)) s -> zlen d = 3072 -> o + n <= 3072 ->
  0 <= o -> 0 <= n -> read_only s = false ->
  at_rest P (Z.max (e_size (encrypted_part_plain s)) (o + n))
    (set_need_writing true (set_encrypted_part_plain (grown o n d (encrypted_part_plain s)) (set_offset (o + n) s))).
Proof.
  intros [Hi H48] Hd Hn Ho H0 Hro. split; [|done]. pose proof Hi as []. pose proof i_w as [].
  assert (forall k, 1 <= k -> 3072 <= pos k) as Hpos.
  { intros k Hk. destruct (key_cases k Hk) as [(m & Hm & ->)|(m & Hm & ->)].
    - destruct (mht_key_facts m) as (_ & _ & _ & ->). lia.
    - destruct (data_key_facts m) as (_ & _ & _ & ->). lia. }
  split; try done. split; try done; cbn [cache set_need_writing set_encrypted_part_plain set_offset encrypted_part_plain world root_mht need_writing e_size grown].
  - destruct w_tree as []. split; try done.
    + lia.
    + intros k nd Hk. destruct (t_node _ _ Hk). split; [done|lia].
    + intros k Hk Hp. apply t_commit; [done|]. specialize (Hpos k). lia.
  - intros Hr. destruct (w_need Hr). split; [done|lia].
  - destruct w_enc as (? & ? & ? & ? & ?). by repeat split.
  - intros Hs Hr. apply w_root; [lia|done].
Qed.

Lemma wp_write_md C (s : pfs) data o : holds C o s -> read_only s = false -> o + zlen data < 2 ^ 62 ->
  wp (write_md data) s (fun rest s' => exists now, data = now ++ rest /\ holds (splice o now C) (o + zlen now) s' /\
    frame s' = frame s /\ (rest = [] \/ 3072 <= o + zlen now)) nofail.
Proof.
  intros Hh Hro Hb. destruct (holds_size _ _ _ Hh) as (Hsz & H62 & _). destruct Hh as [(P & Hr & Hc) Ho Hrg].
  unfold write_md. apply wp_bind, wp_get. unfold MD_USER_DATA_SIZE. rewrite Ho. destruct (o <? 3072) eqn:E; zbool.
  - apply wp_bind, wp_mod. apply wp_bind.
    pose proof (w_enc _ _ _ (i_w _ _ _ _ (proj1 Hr))) as (_ & _ & _ & _ & He). unfold MD_USER_DATA_SIZE in He.
    set (now := ztake (3072 - o) data). assert (zlen now = Z.max 0 (Z.min (3072 - o) (zlen data))) as Hn by apply zlen_ztake.
    apply wp_advance; cbn; [lia|lia|rewrite Ho; lia|]. apply wp_bind, wp_mod, wp_ret. exists now.
    split; [by rewrite <- (ztake_zdrop (3072 - o) data) at 1|].
    assert (zlen (splice o now (e_data (encrypted_part_plain s))) = 3072) as Hd.
    { rewrite zlen_splice by (rewrite ?He; lia). done. }
    rewrite Ho. split; [split|split]; cbn.
    + exists P. rewrite zlen_splice_max, <- Hsz by lia. split.
      * rewrite <- Hsz in Hr. pose proof (inv_md P s o _ (zlen now) Hr Hd ltac:(lia) ltac:(lia) ltac:(lia) Hro) as Hi'. exact Hi'.
      * apply (contents_md C P _ o now Hc He); lia.
    + done.
    + rewrite zlen_splice_max by lia. lia.
    + done.
    + destruct (decide (zlen data <= 3072 - o)); [left|right; lia]. by apply zdrop_ge.
  - apply wp_ret. exists []. split; [done|]. change (zlen []) with 0. rewrite Z.add_0_r. split; [|split; [done|right; lia]].
    replace (splice o [] C) with C; [by split; [exists P|..]|]. unfold splice. cbn. rewrite Z.add_0_r. symmetry. apply ztake_zdrop.
Qed.

(** ** The loop of write *)
Lemma wp_write_loop fuel data C (s : pfs) o : holds C o s -> read_only s = false -> 3072 <= o \/ data = [] -> o + zlen data < 2 ^ 62 ->
  data = [] \/ oin s + zlen data <= 4096 * Z.of_nat fuel ->
  wp (write_loop g a_local a_cur_key fuel data) s (fun rest s' =>
    (rest = [] /\ holds (splice o data C) (o + zlen data) s' /\ frame s' = frame s) \/ failed tt s') nofail.
Proof.
  revert data C s o. induction fuel as [|fuel IH]; intros data C s o Hh Hro Ho Hb Hf.
  all: pose proof Hh as [(P & Hr & Hc) Hof Hrg].
  all: assert (data = [] -> splice o data C = C /\ o + zlen data = o) as Hnil.
  1,3: intros ->; split; [|cbn; lia]; unfold splice; cbn; rewrite Z.add_0_r; apply ztake_zdrop.
  { assert (data = []) as ->. { destruct Hf as [|Hf]; [done|]. destruct data; [done|]. cbn [length] in Hf. unfold oin in Hf. clear - Hf. zlia. }
    cbn [write_loop]. apply wp_ret. left. destruct (Hnil eq_refl) as [-> ->]. done. }
  destruct (decide (data = [])) as [->|Hne].
  { cbn [write_loop]. apply wp_ret. left. destruct (Hnil eq_refl) as [-> ->]. done. }
  destruct Ho as [Ho|?]; [|done]. destruct Hf as [|Hf]; [done|]. clear Hnil. destruct (holds_size _ _ _ Hh) as (Hsz & H62 & _).
  assert (0 < zlen data) as Hlen by (destruct data; [done|cbn; lia]).
  replace (write_loop g a_local a_cur_key (S fuel) data) with
    (mcase (get_data_node g a_local a_cur_key) (fun key => rest ← write_to_node key data; write_loop g a_local a_cur_key fuel rest) (fun _ => mret data))
    by (by destruct data).
  rewrite <- Hsz in Hr. apply wp_case. eapply wp_mono; [apply (wp_get_data P s Hr); lia| |].
  2: { intros [] s1 Hfail. apply wp_ret. by right. }
  intros key s1 (-> & Hv & Hkey & P1 & Hr1 & HP1). destruct (view_frame _ _ Hv) as (Hfr & Hof1 & Hsz1 & Hda1).
  assert (data_no s1 = data_no s) as Hdn by (unfold data_no; by rewrite Hof1).
  assert (contents C P1 (encrypted_part_plain s1)) as Hc1.
  { apply (contents_data C (next_P P s)); [done|]. unfold contents, byte_at in *. rewrite Hda1, Hsz1. unfold next_P. destruct (at_end s); [|done].
    by apply contents_fresh. }
  rewrite <- Hdn in Hkey |- *. destruct (in_node s1) as [_ Hoin]; [rewrite Hof1, Hof; lia|].
  set (now := ztake (4096 - oin s1) data). assert (zlen now = Z.max 0 (Z.min (4096 - oin s1) (zlen data))) as Hn by apply zlen_ztake.
  apply wp_bind. eapply wp_mono; [apply (wp_store P1 (next_top s) s1 data (proj1 Hr1) Hkey)| |done].
  { rewrite Hof1, Hof, Hsz1. lia. }
  { fold now. rewrite Hof1, Hof. lia. }
  intros rest s2 [-> Hst]. fold now in Hst.
  assert (frame s2 = frame s1) as Hfr2 by (eapply stored_frame; [|exact Hst]; done).
  assert (read_only s1 = false) as Hro1 by (unfold frame, ident in Hfr; injection Hfr; congruence).
  assert (read_only s2 = false) as Hro2 by (unfold frame, ident in Hfr2; injection Hfr2; congruence).
  pose proof (inv_stored P1 (next_top s) s1 s2 now Hr1 Hkey) as Hr2.
  assert (holds (splice o now C) (o + zlen now) s2) as Hh2.
  { split.
    - eexists. split.
      + rewrite zlen_splice_max by lia. rewrite <- Hsz, <- Hsz1. rewrite Hof1, Hof in Hr2. apply Hr2; [rewrite Hsz1; lia|lia|lia| |done|].
        * rewrite Hsz1. unfold next_top. destruct (at_end s) eqn:E; [right|by left]. unfold at_end in E. zbool. lia.
        * rewrite Hof1, Hof in Hst. exact Hst.
      + rewrite (y_enc _ _ _ _ _ _ Hst), Hof1, Hof. unfold oin. rewrite Hof1, Hof.
        pose proof (contents_node C P1 (encrypted_part_plain s1) o now Hc1) as Hcn. unfold data_no. rewrite Hof1, Hof.
        apply Hcn; [|lia|unfold oin in *; rewrite Hof1, Hof in *; lia].
        apply (t_len _ _ _ _ _ _ (i_tree _ _ _ _ (proj1 Hr1))). unfold data_key. clear - Ho. zlia.
    - rewrite (y_offset _ _ _ _ _ _ Hst). lia.
    - rewrite zlen_splice_max by lia. lia. }
  assert (zlen (zdrop (4096 - oin s1) data) = zlen data - zlen now) as Hrest by (rewrite zlen_zdrop; lia).
  eapply wp_mono; [apply (IH _ _ s2 _ Hh2 Hro2)| |done].
  - left. lia.
  - rewrite Hrest. lia.
  - assert (oin s1 = oin s) as Ho1 by (unfold oin; by rewrite Hof1). rewrite Ho1 in *.
    destruct (decide (4096 - oin s <= zlen data)) as [Hge|Hlt]; [right|left; apply zdrop_ge; lia].
    rewrite Hrest. unfold oin at 1. rewrite (o_offset _ _ _ Hh2). assert (zlen now = 4096 - oin s) as -> by lia.
    assert ((o + (4096 - oin s) - 3072) mod 4096 = 0) as ->; [|lia]. unfold oin. rewrite Hof. clear. zlia.
  - intros rest s3 [(-> & Hh3 & Hfr3)|Hfail]; [|by right]. left. split; [done|]. split; [|congruence].
    rewrite splice_twice in Hh3 by lia. unfold now in Hh3 at 1. rewrite (ztake_zdrop (4096 - oin s1) data) in Hh3.
    rewrite Hrest in Hh3. by replace (o + zlen data) with (o + zlen now + (zlen data - zlen now)) by lia.
Qed.

(** ** Fields that do not matter *)
Lemma at_rest_set P top (s : pfs) o e b : at_rest P top s -> at_rest P top (set_end_of_file b (set_offset o (set_last_error e s))).
Proof. intros [[[] ? ? ? ?] ?]. by split; [split; [split|..]|]. Qed.

Lemma holds_set C o o' (s : pfs) e b : holds C o s -> 0 <= o' <= zlen C -> holds C o' (set_end_of_file b (set_offset o' (set_last_error e s))).
Proof. intros [(P & Hr & Hc) Ho Hrg] Ho'. split; [|done..]. exists P. split; [by apply at_rest_set|done]. Qed.

Lemma set_offset_id (s : pfs) : set_end_of_file (end_of_file s) (set_offset (offset s) (set_last_error (last_error s) s)) = s.
Proof. by destruct s. Qed.

Lemma holds_error C o (s : pfs) e : holds C o s -> holds C o (set_last_error e s).
Proof. intros Hh. pose proof Hh as [_ Ho Hr]. pose proof (holds_set C o o s e (end_of_file s) Hh Hr) as H. by rewrite <- Ho in H at 2. Qed.

Lemma holds_move C o o' (s : pfs) : holds C o s -> 0 <= o' <= zlen C -> holds C o' (set_offset o' s).
Proof. intros Hh Hr. pose proof (holds_set C o o' s (last_error s) (end_of_file s) Hh Hr) as H. by destruct s. Qed.

Lemma holds_eof C o (s : pfs) b : holds C o s -> holds C o (set_end_of_file b s).
Proof.
  intros Hh. pose proof Hh as [_ Ho Hr]. pose proof (holds_set C o o s (last_error s) b Hh Hr) as H. rewrite <- Ho in H at 2. by destruct s.
Qed.

(** ** The loop of read *)
Lemma contents_slice C P e o n : contents C P e -> 3072 <= o -> 0 <= n -> (o - 3072) mod 4096 + n <= 4096 -> o + n <= zlen C ->
  zlen (P (data_key ((o - 3072) / 4096))) = 4096 ->
  slice ((o - 3072) mod 4096) n (P (data_key ((o - 3072) / 4096))) = slice o n C.
Proof.
  intros [_ Hc] Ho Hn Hin Hb Hl. assert (0 <= (o - 3072) mod 4096) by zlia.
  assert (zlen (slice ((o - 3072) mod 4096) n (P (data_key ((o - 3072) / 4096)))) = n) as E by (rewrite zlen_slice; lia).
  apply znth_ext; [rewrite E, zlen_slice; lia|]. rewrite E. intros i Hi. rewrite !znth_slice by lia.
  rewrite Hc by lia. unfold byte_at. rewrite (proj2 (Z.ltb_ge _ _)) by lia.
  replace ((o + i - 3072) / 4096) with ((o - 3072) / 4096) by zlia. f_equal. zlia.
Qed.

(** Without reaching the end of the file, nothing is appended. *)
Lemma wp_get_inside C (s : pfs) o : holds C o s -> 3072 <= o < zlen C ->
  wp (get_data_node g a_local a_cur_key) s (fun key s' => key = data_key (data_no s) /\ holds C o s' /\ frame s' = frame s /\
    exists P n, c_map (cache s') !! key = Some n /\ n_plain n = P key /\ zlen (P key) = 4096 /\ contents C P (encrypted_part_plain s')) failed.
Proof.
  intros Hh Ho. destruct (holds_size _ _ _ Hh) as (Hsz & H62 & _). destruct Hh as [(P & Hr & Hc) Hof Hrg].
  assert (at_end s = false) as Hae.
  { unfold at_end. rewrite Hof, Hsz, (proj2 (Z.eqb_neq o (zlen C))) by lia. apply andb_false_r. }
  rewrite <- Hsz in Hr. eapply wp_mono; [apply (wp_get_data P s Hr); lia| |done].
  unfold next_top, next_P. rewrite Hae. intros key s1 (-> & Hv & [n Hn] & P1 & Hr1 & HP1). split; [done|].
  destruct (view_frame _ _ Hv) as (Hfr & Hof1 & Hsz1 & Hda1).
  assert (contents C P1 (encrypted_part_plain s1)) as Hc1.
  { apply (contents_data C P); [done|]. unfold contents, byte_at in *. by rewrite Hda1, Hsz1. }
  split; [split; [exists P1; rewrite <- Hsz; done|congruence|lia]|]. split; [done|]. exists P1, n. split; [done|].
  destruct (t_node _ _ _ _ _ _ (i_tree _ _ _ _ (proj1 Hr1)) _ _ Hn) as [[H2 (nd & nw & ci & ->)] _]. split; [done|]. split; [|done].
  apply (t_len _ _ _ _ _ _ (i_tree _ _ _ _ (proj1 Hr1))). lia.
Qed.

Lemma wp_read_loop fuel left out C (s : pfs) o : holds C o s -> 3072 <= o \/ left = 0 -> 0 <= left -> o + left <= zlen C ->
  left = 0 \/ oin s + left <= 4096 * Z.of_nat fuel ->
  wp (read_loop g a_local a_cur_key fuel left out) s (fun r s' =>
    (r = out ++ slice o left C /\ holds C (o + left) s' /\ frame s' = frame s) \/
    (failed tt s' /\ exists k, 0 <= k < left /\ r = out ++ slice o k C)) nofail.
Proof.
  revert left out s o. induction fuel as [|fuel IH]; intros left out s o Hh Ho Hl Hb Hf.
  all: destruct (Z.eqb_spec left 0) as [->|Hne].
  1,3: cbn [read_loop Z.eqb]; apply wp_ret; left; rewrite Z.add_0_r; split; [|done]; unfold slice; rewrite ztake_le0 by lia; by rewrite app_nil_r.
  { destruct Hf as [|Hf]; [done|]. unfold oin in Hf. exfalso. clear - Hf Hl Hne. zlia. }
  destruct Ho as [Ho|?]; [|done]. destruct Hf as [|Hf]; [done|]. cbn [read_loop]. rewrite (proj2 (Z.eqb_neq _ _) Hne).
  destruct (holds_size _ _ _ Hh) as (_ & H62 & _). pose proof (o_offset _ _ _ Hh) as Hof.
  apply wp_case. eapply wp_mono; [apply (wp_get_inside C s o Hh); lia| |].
  2: { intros [] s1 Hfail. apply wp_ret. right. split; [done|]. exists 0. split; [lia|]. unfold slice. rewrite ztake_le0 by lia. by rewrite app_nil_r. }
  intros key s1 (-> & Hh1 & Hfr & P & n & Hn & Hpl & Hlen & Hc). pose proof (o_offset _ _ _ Hh1) as Hof1.
  destruct (in_node s1) as [Eo Hoin]; [rewrite Hof1; lia|].
  unfold read_from_node. apply wp_bind, wp_bind, wp_get. rewrite Eo. unfold NODE_SIZE. apply wp_bind.
  eapply wp_node_cached; [unfold data_key, data_no; rewrite Hof; clear - Ho; zlia|exact Hn|]. apply wp_bind, wp_mod, wp_ret.
  remember (Z.min left (4096 - oin s1)) as c eqn:Ec. rewrite Hof1, i64_id, Hpl by lia.
  assert (slice (oin s1) c (P (data_key (data_no s))) = slice o c C) as ->.
  { unfold oin, data_no. rewrite Hof1, Hof. apply (contents_slice C P _ o c Hc); [lia|lia|unfold oin in Ec, Hoin; rewrite Hof1 in Ec, Hoin; lia|lia|].
    by rewrite <- Hof. }
  rewrite zlen_slice by lia.
  eapply wp_mono; [apply (IH (left - c) _ _ (o + c) (holds_move C o (o + c) s1 Hh1 ltac:(lia)))| |done].
  - left. lia.
  - lia.
  - lia.
  - assert (oin s1 = oin s) as Ho1 by (unfold oin; by rewrite Hof1, Hof). rewrite Ho1 in *.
    destruct (decide (4096 - oin s <= left)) as [Hge|Hlt]; [right|left; lia]. unfold oin at 1. cbn [offset set_offset].
    assert (c = 4096 - oin s) as -> by lia. assert ((o + (4096 - oin s) - 3072) mod 4096 = 0) as ->; [|lia]. unfold oin. rewrite Hof. clear. zlia.
  - intros r s2 [(-> & Hh2 & Hfr2)|(Hfail & k & Hk & ->)].
    + left. rewrite <- app_assoc, <- slice_add by lia. replace (c + (left - c)) with left by lia. split; [done|].
      split; [by replace (o + left) with (o + c + (left - c)) by lia|]. by rewrite Hfr2, <- Hfr.
    + right. split; [done|]. exists (c + k). split; [lia|]. by rewrite <- app_assoc, <- slice_add by lia.
Qed.
End Rw.
