(* ===== verification/PfsSpec.v ===== *)
(** * Protected file system: the contract of an open file

    [afile] is what a user of sgx_fread, sgx_fwrite, sgx_fseek, sgx_ftell and
    sgx_fflush sees; [spec_op] is each call on it.  The calls of the library
    refine it, whatever the untrusted side answers. *)

From stdpp Require Import gmap.
From S2P Require Import Prelude Bytes Arch Trts Tcrypto Seal Thread Lru Pfs PfsIo PfsFile PfsTree PfsInv PfsNode PfsFlush PfsUpdate PfsWrite PfsGet PfsStore PfsRw.

#[local] Open Scope Z_scope.

(** ** The abstract file *)
Record afile := MkAfile { a_data : list Z; a_off : Z; a_eof : bool; a_mode : open_mode_t }.

Inductive fop : Type :=
| FWrite (ptr : Z) (data : list Z) (size count : Z)
| FRead (ptr size count : Z)
| FSeek (new_offset origin : Z)
| FTell
| FFlush.

Inductive fres : Type :=
| RWrite (n : Z)
| RRead (n : Z) (out : list Z)
| RSeek (r : Z)
| RTell (o : Z)
| RFlush (r : Z).

Definition readable (m : open_mode_t) : bool := om_read m || om_update m.
Definition writable (m : open_mode_t) : bool := om_append m || om_update m || om_write m.

Section Spec.
Variable g : runtime.

(** The buffer and the sizes are accepted. *)
Definition args_good (ptr size count : Z) : bool :=
  negb ((ptr =? 0) || (size =? 0) || (count =? 0)) && negb ((size >? 2 ^ 32 - 1) || (count >? 2 ^ 32 - 1)) &&
  negb (sgx_is_outside_enclave g ptr (u64 (size * count))).

Definition spec_write (A : afile) (data : list Z) : afile :=
  let o := if om_append (a_mode A) then zlen (a_data A) else a_off A in
  MkAfile (splice o data (a_data A)) (o + zlen data) (a_eof A) (a_mode A).

Definition spec_read (A : afile) (size count : Z) : afile * (Z * list Z) :=
  if a_eof A then (A, (0, []))
  else if a_off A =? zlen (a_data A) then (MkAfile (a_data A) (a_off A) true (a_mode A), (0, []))
  else
    let n := Z.min (size * count) (zlen (a_data A) - a_off A) in
    (MkAfile (a_data A) (a_off A + n) (negb (n =? size * count)) (a_mode A), (n / size, slice (a_off A) n (a_data A))).

(** The position a seek asks for, when it is one of the file *)
Definition spec_seek (A : afile) (new_offset origin : Z) : option Z :=
  let base := if origin =? SEEK_SET then Some 0 else if origin =? SEEK_CUR then Some (a_off A)
              else if origin =? SEEK_END then Some (zlen (a_data A)) else None in
  o ← base; if (0 <=? o + new_offset) && (o + new_offset <=? zlen (a_data A)) then Some (o + new_offset) else None.

Definition spec_op (op : fop) (A : afile) : afile * fres :=
  match op with
  | FWrite ptr data size count =>
      if args_good ptr size count && writable (a_mode A) then (spec_write A data, RWrite count) else (A, RWrite 0)
  | FRead ptr size count =>
      if args_good ptr size count && readable (a_mode A)
      then let '(A', (n, out)) := spec_read A size count in (A', RRead n out) else (A, RRead 0 [])
  | FSeek new_offset origin =>
      match spec_seek A new_offset origin with
      | Some o => (MkAfile (a_data A) o false (a_mode A), RSeek 0)
      | None => (A, RSeek (-1))
      end
  | FTell => (A, RTell (a_off A))
  | FFlush => (A, RFlush 0)
  end.

Fixpoint spec_ops (ops : list fop) (A : afile) : afile * list fres :=
  match ops with
  | [] => (A, [])
  | op :: ops' => let '(A1, r) := spec_op op A in let '(A2, rs) := spec_ops ops' A1 in (A2, r :: rs)
  end.

(** Arguments that the caller of the C functions can have passed: the data
    are the bytes of the buffer, and a relative position is not so large that
    the addition of two int64_t overflows. *)
Definition op_ok (op : fop) : Prop :=
  match op with
  | FWrite _ data size count => 0 <= size /\ 0 <= count /\ zlen data = size * count
  | FRead _ size count => 0 <= size /\ 0 <= count
  | FSeek new_offset _ => - 2 ^ 62 <= new_offset <= 2 ^ 62
  | _ => True
  end.

Definition op_bytes (op : fop) : Z := match op with FWrite _ data _ _ => zlen data | _ => 0 end.
Fixpoint bytes_of (ops : list fop) : Z := match ops with [] => 0 | op :: ops' => op_bytes op + bytes_of ops' end.

(** A read that is cut short by a failure has returned right bytes. *)
Definition sound (r r' : fres) : Prop :=
  match r, r' with RRead _ out, RRead _ out' => out `prefix_of` out' | _, _ => True end.
End Spec.

(** ** The calls *)
Section Calls.
Context {W : Type} {PF : Platform W} {G : AesGcm} {OC : Ocalls W}.
Variables (g : runtime) (a_local a_cur_key : Z).
Abbreviation FM := (M (protected_fs_file W) unit).

Definition run_op (op : fop) : FM fres :=
  match op with
  | FWrite ptr data size count => n ← sgx_fwrite g a_local a_cur_key 0 ptr data size count; mret (RWrite n)
  | FRead ptr size count => r ← sgx_fread g a_local a_cur_key 0 ptr size count; mret (RRead (fst r) (snd r))
  | FSeek new_offset origin => r ← seek new_offset origin; mret (RSeek r)
  | FTell => o ← tell; mret (RTell o)
  | FFlush => r ← sgx_fflush g a_local a_cur_key 0; mret (RFlush r)
  end.

Fixpoint run_ops (ops : list fop) : FM (list fres) :=
  match ops with
  | [] => mret []
  | op :: ops' => r ← run_op op; rs ← run_ops ops'; mret (r :: rs)
  end.
End Calls.

Section Refine.
Context {W : Type} {PF : Platform W} {G : AesGcm} {OC : Ocalls W} {g : runtime} {a_local a_cur_key : Z}.
Context {honest : bool} {V : View W}.
Context {SE : Setting PF G OC g a_local a_cur_key honest V}.
Abbreviation pfs := (protected_fs_file W).
Abbreviation FM := (M pfs unit).
Abbreviation holds := (holds (honest := honest) (V := V)).
Abbreviation failed := (failed (honest := honest)).

Record rep (A : afile) (s : pfs) : Prop := MkRep {
  r_holds : holds (a_data A) (a_off A) s;
  r_eof : end_of_file s = a_eof A;
  r_mode : open_mode s = a_mode A;
  r_ro : writable (a_mode A) = true -> read_only s = false }.

Lemma rep_status A s : rep A s -> file_status s = SGX_FILE_STATUS_OK.
Proof. intros [Hh _ _ _]. apply (holds_size _ _ _ Hh). Qed.

Lemma rep_error A s e : rep A s -> rep A (set_last_error e s).
Proof. intros [Hh ? ? ?]. split; [by apply holds_error|done..]. Qed.

(** What common_checks decides in a usable file *)
Lemma wp_checks A (s : pfs) size count ptr e allowed : rep A s -> (ptr =? 0) || (size =? 0) || (count =? 0) = false ->
  wp (common_checks 0 size count (sgx_is_outside_enclave g ptr (u64 (size * count))) e allowed) s
    (fun go s' => go = args_good g ptr size count && allowed s /\ rep A s' /\ ident s' = ident s /\ (go = true -> s' = s)) nofail.
Proof.
  intros Hr Hz. unfold common_checks, args_good. rewrite Hz. cbn [negb andb]. apply wp_bind, wp_get. cbn [Z.eqb negb].
  rewrite bool_decide_eq_true_2 by (by eapply rep_status).
  destruct ((size >? 2 ^ 32 - 1) || (count >? 2 ^ 32 - 1)); cbn [negb andb]; [apply wp_bind, wp_mod, wp_ret; split; [done|by split; [apply rep_error|]]|].
  destruct (sgx_is_outside_enclave _ _ _); cbn [negb andb]; [apply wp_bind, wp_mod, wp_ret; split; [done|by split; [apply rep_error|]]|].
  destruct (allowed s); cbn [negb]; [by apply wp_ret|]. apply wp_bind, wp_mod, wp_ret. split; [done|by split; [apply rep_error|]].
Qed.

(** What a call leaves: the state of the specification, or a file that can no
    longer be used.  With an honest disk it is the former. *)
Definition meets {X} (A : afile) (x : X) (ok : X -> Prop) (s : pfs) (r : X) (s' : pfs) : Prop :=
  (r = x /\ rep A s' /\ ident s' = ident s) \/ (failed tt s' /\ ok r).

Lemma frame_parts (s s' : pfs) : frame s' = frame s ->
  ident s' = ident s /\ end_of_file s' = end_of_file s /\ open_mode s' = open_mode s /\ read_only s' = read_only s.
Proof. unfold frame, ident. intros [=]. repeat split; congruence. Qed.

Lemma write_fuel_enough n k (s : pfs) : 0 <= n <= k -> oin s + n <= 4096 * Z.of_nat (write_fuel k).
Proof. intros Hn. unfold write_fuel, oin, NODE_SIZE. rewrite !Nat2Z.inj_succ, Z2Nat.id by zlia. zlia. Qed.

Lemma wp_fwrite_op ptr data size count A (s : pfs) : rep A s -> op_ok (FWrite ptr data size count) ->
  zlen (a_data A) + zlen data < 2 ^ 62 ->
  wp (sgx_fwrite g a_local a_cur_key 0 ptr data size count) s
    (meets (fst (spec_op g (FWrite ptr data size count) A))
       (if args_good g ptr size count && writable (a_mode A) then count else 0) (fun _ => True) s) nofail.
Proof.
  intros Hr (Hs & Hc & Hd) Hb. unfold sgx_fwrite, write. cbn [spec_op].
  destruct ((ptr =? 0) || (size =? 0) || (count =? 0)) eqn:Ez.
  { unfold args_good. rewrite Ez. apply wp_ret. by left. }
  apply wp_bind. eapply wp_mono; [by apply (wp_checks A)| |done]. intros go s1 (-> & Hr1 & Hid1 & Hs1).
  replace (om_append (open_mode s) || om_update (open_mode s) || om_write (open_mode s)) with (writable (a_mode A)) in * by (by rewrite <- (r_mode _ _ Hr)).
  destruct (args_good g ptr size count && writable (a_mode A)) eqn:Ego; cbn [negb]; [|apply wp_ret; by left].
  rewrite (Hs1 eq_refl) in *. clear s1 Hs1. apply wp_bind, wp_mod. rewrite (r_mode _ _ Hr).
  destruct (holds_size _ _ _ (r_holds _ _ Hr)) as (Hsz & H62 & _). pose proof (o_range _ _ _ (r_holds _ _ Hr)) as Hrg.
  pose proof (o_offset _ _ _ (r_holds _ _ Hr)) as Hof. unfold spec_write.
  set (o := if om_append (a_mode A) then zlen (a_data A) else a_off A).
  assert (0 <= o <= zlen (a_data A)) as Ho by (unfold o; case_match; lia).
  assert (holds (a_data A) o (if om_append (a_mode A) then set_offset (e_size (encrypted_part_plain s)) s else s)) as Hh.
  { unfold o. destruct (om_append (a_mode A)); [|apply Hr]. rewrite Hsz. eapply holds_move; [apply Hr|lia]. }
  assert (forall b : bool, frame (if b then set_offset (e_size (encrypted_part_plain s)) s else s) = frame s) as Hfr by (by intros []).
  specialize (Hfr (om_append (a_mode A))). set (s1 := if om_append (a_mode A) then _ else s) in *.
  destruct (frame_parts _ _ Hfr) as (_ & _ & _ & Hro1). assert (read_only s = false) as Hro by (by apply (r_ro _ _ Hr), (andb_prop _ _ Ego)).
  apply wp_bind. eapply wp_mono; [apply (wp_write_md (a_data A) s1 data o Hh); [congruence|lia]| |done].
  intros rest s2 (now & -> & Hh2 & Hfr2 & Hcase). rewrite zlen_app in *. apply wp_bind.
  eapply wp_mono; [apply (wp_write_loop _ rest _ s2 _ Hh2)| |done].
  - destruct (frame_parts _ _ Hfr2) as (_ & _ & _ & Hro2). congruence.
  - tauto.
  - lia.
  - right. apply write_fuel_enough. lia.
  - intros rest' s3 [(-> & Hh3 & Hfr3)|Hfail]; [|apply wp_ret; by right]. apply wp_ret. left. split.
    + cbn [length]. rewrite Hd, Z.sub_0_r, Z.mul_comm. apply Z.div_mul. zbool. lia.
    + rewrite splice_twice in Hh3 by lia. assert (frame s3 = frame s) as Hfr' by congruence.
      destruct (frame_parts _ _ Hfr') as (Hid & Heof & Hmode & Hro3). split; [|done]. split; cbn [fst a_data a_off a_eof a_mode].
      * by rewrite Z.add_assoc.
      * by rewrite Heof, (r_eof _ _ Hr).
      * by rewrite Hmode, (r_mode _ _ Hr).
      * intros _. congruence.
Qed.

Lemma wp_read_md C (s : pfs) o n : holds C o s -> 0 <= n -> o + n <= zlen C ->
  wp (read_md n) s (fun out s' => exists k, out = slice o k C /\ 0 <= k <= n /\ zlen out = k /\ holds C (o + k) s' /\
    frame s' = frame s /\ (k = n \/ 3072 <= o + k)) nofail.
Proof.
  intros Hh Hn Hb. destruct (holds_size _ _ _ Hh) as (_ & H62 & _). pose proof Hh as [(P & Hr & Hc) Hof Hrg].
  unfold read_md. apply wp_bind, wp_get. unfold MD_USER_DATA_SIZE. rewrite Hof. destruct (o <? 3072) eqn:E; zbool.
  - apply wp_bind, wp_mod, wp_ret. rewrite Hof. set (k := Z.min n (3072 - o)). assert (0 <= k <= n /\ k <= 3072 - o) as Hk by (unfold k; lia).
    pose proof (w_enc _ _ _ (i_w _ _ _ _ (proj1 Hr))) as (_ & _ & _ & _ & He). unfold MD_USER_DATA_SIZE in He.
    assert (slice o k (e_data (encrypted_part_plain s)) = slice o k C) as ->.
    { apply znth_ext; [rewrite !zlen_slice; lia|]. rewrite zlen_slice by lia. intros i Hi. rewrite !znth_slice by lia.
      rewrite (proj2 Hc) by lia. unfold byte_at. by rewrite (proj2 (Z.ltb_lt _ _)) by lia. }
    exists k. split; [done|]. split; [lia|]. split; [apply zlen_slice; lia|]. rewrite i64_id by lia.
    split; [apply (holds_move C o); [done|lia]|]. split; [done|]. unfold k. lia.
  - apply wp_ret. exists 0. rewrite Z.add_0_r. split; [unfold slice; by rewrite ztake_le0 by lia|]. split; [lia|]. split; [done|]. split; [done|].
    split; [done|right; lia].
Qed.

(** The last step of read: the end of the file is reached. *)
Lemma wp_read_end C (s : pfs) o (out : list Z) n total : holds C o s -> zlen out = n -> (n <> total -> o = zlen C) ->
  wp (if (zlen out =? n) && negb (n =? total)
      then s1 ← mget; assert_ (offset s1 =? e_size (encrypted_part_plain s1)) ;; mmod (set_end_of_file true) else mret tt) s
    (fun _ s' => holds C o s' /\ ident s' = ident s /\ end_of_file s' = (if n =? total then end_of_file s else true)) nofail.
Proof.
  intros Hh Hn Hend. destruct (holds_size _ _ _ Hh) as (Hsz & _). rewrite Hn, Z.eqb_refl. cbn [andb].
  destruct (Z.eqb_spec n total) as [->|Hne]; cbn [negb]; [by apply wp_ret|].
  apply wp_bind, wp_get. apply wp_bind. rewrite (o_offset _ _ _ Hh), Hsz, (Hend Hne), Z.eqb_refl. apply wp_lift_Ok with tt; [done|].
  apply wp_mod. split; [|done]. rewrite <- (Hend Hne). by apply holds_eof.
Qed.

Lemma prefix_slice {X} o k n (l : list X) : 0 <= o -> 0 <= k <= n -> slice o k l `prefix_of` slice o n l.
Proof. intros Ho Hk. exists (slice (o + k) (n - k) l). rewrite <- slice_add by lia. f_equal. lia. Qed.

Lemma wp_fread_op ptr size count A (s : pfs) : rep A s -> op_ok (FRead ptr size count) ->
  wp (sgx_fread g a_local a_cur_key 0 ptr size count) s
    (let good := args_good g ptr size count && readable (a_mode A) in
     meets (fst (spec_op g (FRead ptr size count) A)) (if good then snd (spec_read A size count) else (0, []))
       (fun r => snd r `prefix_of` if good then snd (snd (spec_read A size count)) else []) s) nofail.
Proof.
  intros Hr (Hs & Hc). cbv zeta. unfold sgx_fread, read. cbn [spec_op].
  destruct ((ptr =? 0) || (size =? 0) || (count =? 0)) eqn:Ez.
  { unfold args_good. rewrite Ez. apply wp_ret. by left. }
  apply wp_bind. eapply wp_mono; [by apply (wp_checks A)| |done]. intros go s1 (-> & Hr1 & Hid1 & Hs1).
  replace (om_read (open_mode s) || om_update (open_mode s)) with (readable (a_mode A)) in * by (by rewrite <- (r_mode _ _ Hr)).
  destruct (args_good g ptr size count && readable (a_mode A)) eqn:Ego; cbn [negb]; [|apply wp_ret; by left].
  rewrite (Hs1 eq_refl) in *. clear s1 Hs1. apply wp_bind, wp_get.
  pose proof Hr as [Hh Heof Hmode Hro]. destruct (holds_size _ _ _ Hh) as (Hsz & H62 & _). pose proof Hh as [_ Hof Hrg].
  unfold spec_read. rewrite Heof. destruct (a_eof A) eqn:Ee; [apply wp_ret; by left|].
  rewrite Hof, Hsz. destruct (Z.eqb_spec (a_off A) (zlen (a_data A))) as [Eend|Hne].
  { apply wp_bind, wp_mod, wp_ret. left. split; [done|]. split; [|done]. split; [by apply holds_eof|done..]. }
  assert (size * count < 2 ^ 64) as H64.
  { unfold args_good in Ego. rewrite !andb_true_iff, !negb_true_iff, !orb_false_iff in Ego. destruct Ego as [[[_ [E1 E2]] _] _]. zbool. nia. }
  rewrite !u64_id by (unfold is_u64; nia). set (n := Z.min (size * count) (zlen (a_data A) - a_off A)).
  assert (0 < n <= zlen (a_data A) - a_off A /\ (n <> size * count -> n = zlen (a_data A) - a_off A)) as [Hn Hend].
  { rewrite !orb_false_iff in Ez. destruct Ez as [[_ E1] E2]. assert (0 < size * count) by (zbool; nia). unfold n. lia. }
  clearbody n. apply wp_bind. eapply wp_mono; [apply (wp_read_md (a_data A) s (a_off A) n Hh); lia| |done].
  intros out s1 (k & -> & Hk & Hlen & Hh1 & Hfr1 & Hcase). rewrite Hlen. apply wp_bind.
  eapply wp_mono; [apply (wp_read_loop _ (n - k) _ _ s1 _ Hh1)| |done].
  - destruct Hcase; [right; lia|by left].
  - lia.
  - lia.
  - right. apply write_fuel_enough. lia.
  - rewrite <- slice_add by lia. replace (k + (n - k)) with n by lia. replace (a_off A + k + (n - k)) with (a_off A + n) by lia.
    intros out s2 [(-> & Hh2 & Hfr2)|(Hfail & j & Hj & ->)].
    + apply wp_bind. eapply wp_mono; [apply (wp_read_end _ _ _ _ n (size * count) Hh2); [apply zlen_slice; lia|lia]| |done].
      intros [] s3 (Hh3 & Hid3 & Heof3). apply wp_ret. left. rewrite zlen_slice by lia. split; [done|].
      destruct (frame_parts _ _ Hfr1) as (Hid & Hef & Hmo & Hr_1). destruct (frame_parts _ _ Hfr2) as (Hid2 & Hef2 & Hmo2 & Hr_2).
      split; [|congruence]. split; cbn [fst a_data a_off a_eof a_mode]; [done| | |].
      * rewrite Heof3, Hef2, Hef, Heof. by destruct (n =? size * count).
      * assert (open_mode s3 = open_mode s2) by (unfold ident in Hid3; congruence). congruence.
      * assert (read_only s3 = read_only s2) by (unfold ident in Hid3; congruence). intros Hwr. rewrite <- (Hro Hwr). congruence.
    + rewrite zlen_app, <- slice_add by lia. rewrite zlen_slice by lia. rewrite zlen_slice by lia.
      rewrite (proj2 (Z.eqb_neq (k + j) n)) by lia. cbn [andb]. apply wp_bind, wp_ret, wp_ret. right. split; [done|].
      cbn [snd]. apply prefix_slice; lia.
Qed.

Lemma wp_seek_op new_offset origin A (s : pfs) : rep A s -> op_ok (FSeek new_offset origin) ->
  wp (seek new_offset origin) s (meets (fst (spec_op g (FSeek new_offset origin) A))
    (match spec_seek A new_offset origin with Some _ => 0 | None => -1 end) (fun _ => True) s) nofail.
Proof.
  intros Hr Hok. cbn in Hok. pose proof Hr as [Hh Heof Hmode Hro]. destruct (holds_size _ _ _ Hh) as (Hsz & H62 & Hst). pose proof Hh as [_ Hof Hrg].
  unfold seek. apply wp_bind, wp_get. unfold status_ok. rewrite bool_decide_eq_true_2 by done. cbn [negb spec_op].
  assert (seek_target s new_offset origin = Ok (spec_seek A new_offset origin)) as ->.
  { unfold seek_target, spec_seek. rewrite Hsz, Hof.
    destruct (origin =? SEEK_SET); [cbn; f_equal; by rewrite Z.geb_leb|]. destruct (origin =? SEEK_CUR).
    - cbn. rewrite i64_id by lia. rewrite Z.eqb_refl. cbn. f_equal. by rewrite Z.geb_leb.
    - destruct (origin =? SEEK_END); [|done]. cbn. f_equal. rewrite andb_comm, Z.geb_leb.
      replace (0 - zlen (a_data A) <=? new_offset) with (0 <=? zlen (a_data A) + new_offset) by (apply eq_true_iff_eq; rewrite !Z.leb_le; lia).
      by replace (new_offset <=? 0) with (zlen (a_data A) + new_offset <=? zlen (a_data A)) by (apply eq_true_iff_eq; rewrite !Z.leb_le; lia). }
  apply wp_bind, wp_lift_Ok with (spec_seek A new_offset origin); [done|].
  destruct (spec_seek A new_offset origin) as [o|] eqn:Eo.
  - apply wp_bind, wp_mod, wp_bind, wp_mod, wp_ret. left. split; [done|]. split; [|done]. split; cbn [fst a_data a_off a_eof a_mode]; [|done..].
    apply holds_eof. apply (holds_move _ (a_off A)); [done|]. unfold spec_seek in Eo.
    destruct (origin =? SEEK_SET), (origin =? SEEK_CUR), (origin =? SEEK_END); cbn in Eo; try done; case_match; try done; zbool; injection Eo as <-; lia.
  - apply wp_bind, wp_mod, wp_ret. left. split; [done|]. split; [by apply rep_error|done].
Qed.

Lemma flushed_rep P P' A (s s' : pfs) : rep A s -> at_rest (honest := honest) (V := V) P (zlen (a_data A)) s -> contents (a_data A) P (encrypted_part_plain s) ->
  flushed (honest := honest) (V := V) P P' (zlen (a_data A)) s s' -> rep A s' /\ ident s' = ident s.
Proof.
  intros Hr [[Hw Hup Hor Hfew Hst] H48] Hc []. destruct (view_frame _ _ x_view) as (Hfr & Hof & Hsz & Hda). destruct (frame_parts _ _ Hfr) as (Hid & Heof & Hmode & Hro).
  pose proof Hr as [[_ Ho Hrg] ? ? Hwr]. split; [|done]. split; [|congruence..|intros E; rewrite Hro; auto]. split; [|congruence|done]. exists P'. split.
  - split; [|by rewrite x_list]. split; rewrite ?x_list; try done.
    + intros k. rewrite !x_dom. apply Hup.
    + by destruct (view_status _ _ x_view) as (-> & _).
  - apply (contents_data _ P); [done|]. unfold contents, byte_at in *. by rewrite Hsz, Hda.
Qed.

Lemma wp_fflush_op A (s : pfs) : rep A s -> wp (sgx_fflush g a_local a_cur_key 0) s (meets A 0 (fun _ => True) s) nofail.
Proof.
  intros Hr. pose proof (r_holds _ _ Hr) as [(P & Hre & Hc) _ _]. unfold sgx_fflush, flush. apply wp_case, wp_bind, wp_get. cbn [Z.eqb negb].
  rewrite bool_decide_eq_true_2 by (by eapply rep_status). cbn [negb]. apply wp_case.
  eapply wp_mono; [apply (wp_internal_flush true P (zlen (a_data A)) s); apply Hre| |].
  - intros [] s1 (P1 & Hf). apply wp_ret, wp_ret. left. split; [done|]. by eapply flushed_rep.
  - intros [] s1 [Hh Hst]. apply wp_bind. unfold flush_failed. apply wp_bind, wp_get. rewrite bool_decide_eq_false_2 by done.
    eapply wp_lift_Ok; [done|]. apply wp_err, wp_ret. by right.
Qed.

Lemma wp_tell_op A (s : pfs) : rep A s -> wp tell s (meets A (a_off A) (fun _ => True) s) nofail.
Proof.
  intros Hr. unfold tell. apply wp_bind, wp_get. unfold status_ok. rewrite bool_decide_eq_true_2 by (by eapply rep_status). cbn [negb].
  apply wp_ret. left. split; [apply (o_offset _ _ _ (r_holds _ _ Hr))|done].
Qed.

(** One call, whichever *)
Lemma wp_run_op op A (s : pfs) : rep A s -> op_ok op -> zlen (a_data A) + op_bytes op < 2 ^ 62 ->
  wp (run_op g a_local a_cur_key op) s
    (meets (fst (spec_op g op A)) (snd (spec_op g op A)) (fun r => sound r (snd (spec_op g op A))) s) nofail.
Proof.
  intros Hr Hok Hb. assert (forall X (A' : afile) (x : X) (y : fres) okx (f : X -> fres) r s', f x = y -> (forall z, okx z -> sound (f z) y) ->
    meets A' x okx s r s' -> meets A' y (fun r => sound r y) s (f r) s') as Hm.
  { intros X A' x y okx f r s' <- Hz [(-> & H)|[Hf Hx]]; [by left|right; auto]. }
  destruct op; cbn [run_op]; apply wp_bind.
  - eapply wp_mono; [by apply (wp_fwrite_op ptr data size count A s)| |done]. intros n s1 H1. apply wp_ret. revert H1. apply (Hm _ _ _ _ _ RWrite).
    + cbn. by case_match.
    + done.
  - eapply wp_mono; [by apply (wp_fread_op ptr size count A s)| |done]. intros n s1 H1. apply wp_ret. revert H1.
    apply (Hm _ _ _ _ _ (fun r => RRead (fst r) (snd r))); cbn [spec_op].
    + destruct (_ && _); [|done]. by destruct (spec_read A size count) as [? []].
    + intros z. destruct (_ && _); [|done]. by destruct (spec_read A size count) as [? []].
  - eapply wp_mono; [by apply (wp_seek_op new_offset origin A s)| |done]. intros n s1 H1. apply wp_ret. revert H1.
    apply (Hm _ _ _ _ _ RSeek); cbn [spec_op]; [by destruct (spec_seek _ _ _)|done].
  - eapply wp_mono; [by apply (wp_tell_op A s)| |done]. intros n s1 H1. apply wp_ret. revert H1. by apply (Hm _ _ _ _ _ RTell).
  - eapply wp_mono; [by apply (wp_fflush_op A s)| |done]. intros n s1 H1. apply wp_ret. revert H1. by apply (Hm _ _ _ _ _ RFlush).
Qed.

(** Once the file has failed, every call fails and no data are returned. *)
Lemma wp_dead_checks size count b e allowed (s : pfs) : failed tt s ->
  wp (common_checks 0 size count b e allowed) s (fun go s' => go = false /\ failed tt s') nofail.
Proof.
  intros Hf. pose proof Hf as [Hh Hst]. unfold common_checks. apply wp_bind, wp_get. cbn [Z.eqb negb].
  rewrite bool_decide_eq_false_2 by done. cbn [negb]. repeat (case_match; [apply wp_bind, wp_mod, wp_ret; done|]). by apply wp_bind, wp_mod, wp_ret.
Qed.

Lemma wp_dead_op op (s : pfs) : failed tt s ->
  wp (run_op g a_local a_cur_key op) s (fun r s' => failed tt s' /\ forall r', sound r r') nofail.
Proof.
  intros Hf. pose proof Hf as [Hh Hst]. destruct op; cbn [run_op]; apply wp_bind.
  - unfold sgx_fwrite, write. case_match; [by apply wp_ret, wp_ret|]. apply wp_bind.
    eapply wp_mono; [by apply wp_dead_checks| |done]. intros go s1 [-> H1]. by apply wp_ret, wp_ret.
  - assert (forall n r', sound (RRead n []) r') as Hnil by (intros n []; try done; apply prefix_nil).
    unfold sgx_fread, read. case_match; [by apply wp_ret, wp_ret|]. apply wp_bind.
    eapply wp_mono; [by apply wp_dead_checks| |done]. intros go s1 [-> H1]. by apply wp_ret, wp_ret.
  - unfold seek. apply wp_bind, wp_get. unfold status_ok. rewrite bool_decide_eq_false_2 by done. by apply wp_bind, wp_mod, wp_ret, wp_ret.
  - unfold tell. apply wp_bind, wp_get. unfold status_ok. rewrite bool_decide_eq_false_2 by done. by apply wp_bind, wp_mod, wp_ret, wp_ret.
  - unfold sgx_fflush, flush. apply wp_case, wp_bind, wp_get. cbn [Z.eqb negb]. rewrite bool_decide_eq_false_2 by done. cbn [negb].
    by apply wp_bind, wp_mod, wp_err, wp_ret, wp_ret.
Qed.

Lemma wp_dead_ops ops (s : pfs) : failed tt s -> forall rs', length rs' = length ops ->
  wp (run_ops g a_local a_cur_key ops) s (fun rs s' => failed tt s' /\ Forall2 sound rs rs') nofail.
Proof.
  revert s. induction ops as [|op ops IH]; intros s Hf [|r' rs'] Hlen; try done. cbn [run_ops]. apply wp_bind.
  eapply wp_mono; [by apply wp_dead_op| |done]. intros r s1 [Hf1 Hr]. apply wp_bind.
  eapply wp_mono; [apply (IH s1 Hf1 rs'); by injection Hlen| |done]. intros rs s2 [Hf2 Hrs]. apply wp_ret. split; [done|]. by constructor.
Qed.

Lemma spec_ops_length ops A : length (snd (spec_ops g ops A)) = length ops.
Proof. revert A. induction ops as [|op ops IH]; intros A; [done|]. cbn. destruct (spec_op g op A) as [A1 r]. specialize (IH A1). destruct (spec_ops g ops A1). cbn in *. by rewrite IH. Qed.

Lemma sound_refl r : sound r r.
Proof. destruct r; cbn; [done|reflexivity|done..]. Qed.

Lemma spec_op_size op A : 0 <= a_off A <= zlen (a_data A) -> zlen (a_data (fst (spec_op g op A))) <= zlen (a_data A) + op_bytes op.
Proof.
  intros Ho. destruct op; cbn [spec_op op_bytes]; try (cbn [fst]; lia).
  - case_match; cbn [fst]; [|lia]. unfold spec_write. cbn [a_data]. rewrite zlen_splice_max; case_match; lia.
  - case_match; [|cbn [fst]; lia]. unfold spec_read. repeat case_match; simplify_eq; cbn [fst a_data]; lia.
  - case_match; cbn [fst a_data]; lia.
Qed.

Lemma bytes_of_nonneg ops : 0 <= bytes_of ops.
Proof. induction ops as [|op ops IH]; cbn; [lia|]. destruct op; cbn; lia. Qed.

Lemma wp_run_ops ops A (s : pfs) : rep A s -> Forall op_ok ops -> zlen (a_data A) + bytes_of ops < 2 ^ 62 ->
  wp (run_ops g a_local a_cur_key ops) s
    (meets (fst (spec_ops g ops A)) (snd (spec_ops g ops A)) (fun rs => Forall2 sound rs (snd (spec_ops g ops A))) s) nofail.
Proof.
  revert A s. induction ops as [|op ops IH]; intros A s Hr Hok Hb; [apply wp_ret; by left|]. inversion Hok as [|? ? Hop Hops]; subst.
  cbn [run_ops spec_ops bytes_of] in *. pose proof (bytes_of_nonneg ops). pose proof (spec_op_size op A (o_range _ _ _ (r_holds _ _ Hr))) as Hsz.
  apply wp_bind. eapply wp_mono; [apply (wp_run_op op A s Hr Hop); lia| |done]. intros r s1 H1.
  pose proof (spec_ops_length ops (fst (spec_op g op A))) as Hlen. specialize (IH (fst (spec_op g op A))).
  destruct (spec_op g op A) as [A1 r1]. cbn [fst snd] in *. destruct (spec_ops g ops A1) as [A2 rs2]. cbn [fst snd] in *. apply wp_bind.
  destruct H1 as [(-> & Hr1 & Hid1)|(Hf & Hsd)].
  - eapply wp_mono; [apply (IH s1 Hr1 Hops); lia| |done]. intros rs s2 [(-> & Hr2 & Hid2)|(Hf & Hrs)]; apply wp_ret; [left|right].
    + split; [done|]. split; [done|congruence].
    + split; [done|]. constructor; [apply sound_refl|done].
  - eapply wp_mono; [apply (wp_dead_ops ops s1 Hf rs2 Hlen)| |done]. intros rs s2 [Hf2 Hrs]. apply wp_ret. right. split; [done|]. by constructor.
Qed.
End Refine.
