(* ===== verification/PfsOpen.v ===== *)
(** * Protected file system: opening and closing

    A file opened for writing is empty; closing it brings everything to the
    disk; opening it again gives the same contents back. *)

From stdpp Require Import gmap.
From S2P Require Import Prelude Bytes Arch Trts Tcrypto Seal Thread Lru Pfs PfsIo PfsFile PfsTree PfsInv PfsNode PfsFlush PfsUpdate PfsWrite PfsGet PfsStore PfsRw PfsSpec.

#[local] Open Scope Z_scope.

(** A path the constructor accepts *)
Definition name_ok (filename : list Z) : Prop :=
  (0 < zlen filename < FULLNAME_MAX_LEN - 1) /\ 0 < zlen (base_name filename filename) < FILENAME_MAX_LEN - 1.

Lemma strncpy_len n l : 0 <= n -> zlen (strncpy n l) = n.
Proof. intros Hn. unfold strncpy. rewrite zlen_app, zlen_ztake, zlen_zreplicate. lia. Qed.
Lemma strncpy_id n l : zlen l = n -> strncpy n l = l.
Proof. intros <-. unfold strncpy. rewrite ztake_ge, Z.sub_diag by lia. apply app_nil_r. Qed.
Lemma strncmp_refl l : strncmp_eq l l = true.
Proof. induction l as [|x l IH]; [done|]. cbn. by rewrite Z.eqb_refl, IH, orb_true_r. Qed.

(** A mode for reading does not allow to write or append. *)
Definition one_way (m : open_mode_t) : Prop := om_read m = true -> om_write m = false /\ om_append m = false.

Lemma mode_char_one_way c m m' : one_way m -> mode_char c m = Some m' -> one_way m'.
Proof.
  unfold one_way, mode_char. destruct m as [r w a b u]. cbn. intros H. repeat (case_match; [|]); intros [= <-] Hr; cbn in *;
    destruct r, w, a; cbn in *; try done; by destruct H.
Qed.

Lemma parse_mode_one_way mode m : parse_mode mode = Some m -> one_way m.
Proof.
  unfold parse_mode. destruct (_ >? _); [done|].
  assert (forall l m0, one_way m0 -> mode_chars l m0 = Some m -> one_way m) as Hl.
  { induction l as [|c l IH]; intros m0 H0; cbn [mode_chars]; [by intros [= <-]|]. destruct (mode_char c m0) as [m1|] eqn:E; [|done].
    apply IH. by eapply mode_char_one_way. }
  destruct (mode_chars mode mode_none) as [m1|] eqn:E; [|done]. cbn. case_match; [done|]. intros [= ->].
  by apply (Hl mode mode_none).
Qed.

Lemma one_way_ro m : one_way m -> writable m = true -> om_read m && negb (om_update m) = false.
Proof. unfold one_way, writable. destruct m as [r w a b u]. cbn. intros H. destruct r, w, a, u; cbn; try done; by destruct H. Qed.

Section Open.
Context {W : Type} {PF : Platform W} {G : AesGcm} {OC : Ocalls W} {g : runtime} {a_local a_cur_key a_report : Z}.
Context {honest : bool} {V : View W}.
Context {SE : Setting PF G OC g a_local a_cur_key honest V}.
Abbreviation pfs := (protected_fs_file W).
Abbreviation FM := (M pfs unit).
Abbreviation quiet := (quiet (honest := honest) (V := V)).
Abbreviation same_disk := (same_disk (honest := honest) (V := V)).
Abbreviation rep := (rep (honest := honest) (V := V)).
Abbreviation holds := (holds (honest := honest) (V := V)).
Abbreviation winv := (winv (honest := honest) (V := V)).

Lemma wp_world {A} (f : W -> W * A) (s : pfs) (Q : A -> pfs -> Prop) R :
  (forall w a, f (world s) = (w, a) -> Q a (set_world w s)) -> wp (on_world f) s Q R.
Proof. intros HQ. unfold wp, on_world. destruct (f (world s)) as [w a] eqn:E. by apply HQ. Qed.

(** ** Before the file is opened *)

(** The object is as init_fields left it, but for the keys, the mode and
    last_error. *)
Record unopened (kdk : option (list Z)) (m : open_mode_t) (s : pfs) : Prop := MkUnopened {
  b_md : file_meta_data s = zero_meta;
  b_enc : encrypted_part_plain s = zero_enc;
  b_root : root_mht s = init_root;
  b_mode : open_mode s = m;
  b_offset : offset s = 0;
  b_eof : end_of_file s = false;
  b_need : need_writing s = false;
  b_status : file_status s = SGX_FILE_STATUS_NOT_INITIALIZED;
  b_kdk : match kdk with None => use_user_kdk_key s = 0 | Some k => use_user_kdk_key s = 1 /\ user_kdk_key s = k end;
  b_cache : cache s = cache_empty }.

Lemma unopened_quiet kdk m s s' : quiet s s' -> unopened kdk m s -> unopened kdk m s'.
Proof. intros [Hu Hr Hc _] []. user_eqs Hu. split; try congruence. destruct kdk; rewrite Hkdk; [by rewrite Hukdk|done]. Qed.

Lemma unopened_world kdk m s w : unopened kdk m s -> unopened kdk m (set_world w s).
Proof. by intros []. Qed.

Definition unusable (e : unit) (s : pfs) : Prop := file_status s <> SGX_FILE_STATUS_OK.

Lemma wp_fail {A} e (s : pfs) (Q : A -> pfs -> Prop) : file_status s <> SGX_FILE_STATUS_OK -> wp (fail e) s Q unusable.
Proof. intros Hs. by apply wp_bind, wp_mod, wp_err. Qed.

Lemma unopened_fail {A} kdk m e (s : pfs) (Q : A -> pfs -> Prop) : unopened kdk m s -> wp (fail e) s Q unusable.
Proof. intros Hu. apply wp_fail. by rewrite (b_status _ _ _ Hu). Qed.

Lemma wp_master_key (s : pfs) : wp (init_session_master_key g a_local) s (fun _ s' => quiet s s') nofail.
Proof.
  unfold init_session_master_key. apply wp_bind. eapply wp_mono; [apply wp_blob; vm_compute; done| |done]. intros k s1 [Hq _].
  apply wp_bind, wp_mod, wp_mod. apply (quiet_trans _ s1); [done|]. by split.
Qed.

Lemma wp_prepare_path kdk m name (s : pfs) : unopened kdk m s -> wp (prepare_path name) s (fun _ s' => unopened kdk m s') unusable.
Proof.
  intros Hs. unfold prepare_path, check_exists. apply wp_bind, wp_world. intros w [st r] _. pose proof (unopened_world _ _ _ w Hs) as H1.
  destruct (negb (ok_status st)); [by eapply unopened_fail|]. apply wp_bind, wp_get. destruct (_ && _); [|by apply wp_ret].
  apply wp_bind, wp_world. intros w2 e _. apply wp_bind, wp_world. intros w3 [st3 r3] _.
  destruct (_ || _); [|by apply wp_ret, unopened_world, unopened_world]. by eapply unopened_fail, unopened_world, unopened_world.
Qed.

(** What a successful start of the constructor has checked *)
Lemma wp_prepare mi name mode kdk (s : pfs) : unopened None mode_none s ->
  wp (prepare g a_local a_report mi name mode None kdk) s (fun clean s' => exists m, parse_mode mode = Some m /\ unopened kdk m s' /\
    clean = strncpy FILENAME_MAX_LEN (base_name name name) /\ name_ok name /\ sgx_create_report g a_report = SGX_SUCCESS) unusable.
Proof.
  intros Hs. unfold prepare. destruct (_ || _) eqn:E1; [by eapply unopened_fail|]. destruct (zlen name >=? _) eqn:E2; [by eapply unopened_fail|].
  cbn [is_null negb andb]. destruct (ok_status _) eqn:E3; cbn [negb]; [|by eapply unopened_fail].
  destruct (mi =? 0); cbn [negb]; [|by eapply unopened_fail]. apply wp_bind. eapply wp_mono; [apply wp_master_key| |by intros ? ? []].
  intros [] s1 Hq1. pose proof (unopened_quiet _ _ _ _ Hq1 Hs) as Hs1. apply wp_bind.
  apply (wp_mono _ _ (fun _ s' => unopened kdk mode_none s') _ nofail); [|..|by intros ? ? []].
  { destruct kdk as [k|]; [|by apply wp_ret]. apply wp_bind, wp_mod, wp_mod. by destruct Hs1. }
  intros [] s2 Hs2. apply wp_bind. unfold cleanup_filename. destruct (zlen (base_name name name) >=? FILENAME_MAX_LEN - 1) eqn:E4; [by eapply unopened_fail|].
  destruct (zlen (base_name name name) =? 0) eqn:E5; [by eapply unopened_fail|]. apply wp_ret.
  rewrite bool_decide_eq_false_2 by done. destruct (parse_mode mode) as [m|]; [|by eapply unopened_fail].
  apply wp_bind, wp_mod. apply wp_bind. eapply wp_mono; [apply (wp_prepare_path kdk m); by destruct Hs2| |done].
  intros r s3 Hs3. cbv beta in Hs3. destruct (_ && _); [by eapply unopened_fail|]. cbn [is_null negb andb]. apply wp_ret. exists m. do 3 (split; [done|]).
  split; [|by destruct (sgx_create_report g a_report)]. apply orb_false_iff in E1 as [E1 _]. zbool. unfold name_ok, FULLNAME_MAX_LEN, PATHNAME_MAX_LEN, FILENAME_MAX_LEN in *. lia.
Qed.

(** ** New files *)
Definition new_file (name : list Z) (kdk : option (list Z)) (m : open_mode_t) (s : pfs) : Prop :=
  rep (MkAfile [] 0 false m) s /\ name_ok name /\ sgx_create_report g a_report = SGX_SUCCESS /\
  ident s = (strncpy FILENAME_MAX_LEN (base_name name name), file s, m, read_only s,
             match kdk with None => 0 | Some _ => 1 end, match kdk with None => user_kdk_key s | Some k => k end, name ++ chars "_recovery").

Lemma tree_empty dk : tree (honest := honest) (fun _ => zero_node) 0 0 dk init_root ∅.
Proof.
  split.
  - lia.
  - intros key _. apply zero_node_len.
  - by eexists _, _, _.
  - intros key n Hn. by rewrite lookup_empty in Hn.
  - intros key (n & Hn & _). by rewrite lookup_empty in Hn.
  - intros key Hk Hp. exfalso. destruct (key_cases key) as [(x & ? & ->)|(x & ? & ->)]; [lia| |].
    + destruct (mht_key_facts x) as (_ & _ & _ & E). lia.
    + destruct (data_key_facts x) as (_ & _ & _ & E). lia.
Qed.

Lemma rep_new m (s' : pfs) : (honest = true -> live false (file s') (world s') /\ recovery_filename s' = rname) -> read_only s' = false -> file_status s' = SGX_FILE_STATUS_OK ->
  (exists clean, encrypted_part_plain s' = MkEnc (strncpy FILENAME_MAX_LEN clean) 0 (zreplicate 20 0) (zreplicate 16 0) (zreplicate 16 0) (zreplicate MD_USER_DATA_SIZE 0)) ->
  file_meta_data s' = MkMeta (MkPlain SGX_FILE_ID SGX_FILE_MAJOR_VERSION SGX_FILE_MINOR_VERSION (zreplicate 32 0) (zreplicate 16 0) 0
    (use_user_kdk_key s') (zreplicate 16 0) (zreplicate 16 0) 0) (zreplicate sizeof_meta_data_encrypted 0) (zreplicate 610 0) ->
  0 <= use_user_kdk_key s' <= 1 -> root_mht s' = init_root -> cache s' = cache_empty -> need_writing s' = true -> offset s' = 0 -> open_mode s' = m ->
  end_of_file s' = false -> rep (MkAfile [] 0 false m) s'.
Proof.
  intros Hf Hro Hst (clean & He) Hmd Hk Hr Hc Hn Ho Hm Heof. split; [|done..]. split; cbn [a_data a_off length]; [|done|cbn; lia].
  exists (fun _ => zero_node). split; [|split; [by rewrite He|cbn; lia]]. split; [|rewrite Hc; cbn; lia]. split.
  - split; rewrite ?He, ?Hc, ?Hr, ?Hn, ?Hro; try done.
    + apply tree_empty.
    + apply cache_wf_empty.
    + unfold plain_ok. rewrite Hmd. cbn [plain_part p_file_id p_major_version p_minor_version p_meta_data_key_id p_cpu_svn p_isv_svn
        p_use_user_kdk_key p_attribute_mask p_meta_data_gmac p_update_flag encrypted_part padding].
      rewrite !zlen_zreplicate. unfold is_u16, is_u8, sizeof_meta_data_encrypted. lia.
    + unfold enc_ok. cbn. rewrite !strncpy_len by (unfold FILENAME_MAX_LEN; lia). done.
  - intros key [n Hx]. by rewrite Hc in Hx.
  - rewrite Hc. intros l1 k l2 E. by destruct l1.
  - exists []. split; [done|]. rewrite Hc. split; cbn; lia.
  - done.
Qed.

Lemma wp_exclusive_open kdk m name (s : pfs) : unopened kdk m s ->
  wp (exclusive_open name) s (fun size s' => (exists w f, s' = set_file f (set_world w s)) /\
    (honest = true -> name = fname -> size mod NODE_SIZE = 0 -> live (read_only s) (file s') (world s'))) unusable.
Proof.
  intros Hs. unfold exclusive_open. apply wp_bind, wp_get. apply wp_bind, wp_world. intros w [st [[f size] r]] Eo.
  apply wp_bind, wp_mod. destruct (_ || _) eqn:E.
  - apply wp_fail. cbn. by rewrite (b_status _ _ _ Hs).
  - apply wp_ret. apply orb_false_iff in E as [E1 E]. split; [by eexists _, _|]. intros Hh -> Hsz.
    assert (st = SGX_SUCCESS) as -> by (by destruct st). by apply (sec_open _ _ _ _ _ _ Hh Eo), Hsz; apply Z.eqb_neq.
Qed.

(** Opened for writing, the file has to be empty. *)
Lemma wp_open_new kdk m name (s : pfs) : unopened kdk m s -> om_write m = true -> one_way m -> (honest = true -> name = fname) -> name_ok name -> sgx_create_report g a_report = SGX_SUCCESS ->
  wp (open_file g a_local a_cur_key name (strncpy FILENAME_MAX_LEN (base_name name name)) None) s
    (fun _ s' => new_file name kdk m s') unusable.
Proof.
  intros Hs Hm H1w Hfn Hname Hrep. unfold open_file. apply wp_bind, wp_mod. apply wp_bind.
  eapply wp_mono; [apply (wp_exclusive_open kdk m); by destruct Hs| |done]. intros size s1 ((w & f & ->) & Hf). apply wp_bind, wp_mod.
  assert (file_status s <> SGX_FILE_STATUS_OK) as Hst by (by rewrite (b_status _ _ _ Hs)).
  destruct (size <? 0); [by apply wp_fail|]. destruct (Z.eqb_spec (size mod NODE_SIZE) 0) as [Hmod|]; cbn [negb]; [|by apply wp_fail].
  apply wp_bind, wp_mod, wp_bind, wp_get. apply wp_bind.
  replace (om_write (open_mode _)) with true by (cbn; by rewrite (b_mode _ _ _ Hs)).
  destruct (size >? 0); [by apply wp_fail|]. unfold init_new_file. apply wp_mod, wp_mod.
  destruct Hs. assert (om_read (open_mode s) && negb (om_update (open_mode s)) = false) as Hro.
  { rewrite b_mode0. apply one_way_ro; [done|]. unfold writable. rewrite Hm. by rewrite orb_true_r. }
  cbn in Hf. rewrite Hro in Hf. split; [|split; [done|split; [done|]]].
  - apply rep_new; cbn -[chars]; rewrite ?b_md0, ?b_enc0, ?Hro; try done.
    + intros Hh. unfold rname. rewrite <- (Hfn Hh). split; [|done]. by apply Hf; auto.
    + by eexists.
    + destruct kdk as [k|]; [destruct b_kdk0 as [-> _]|rewrite b_kdk0]; lia.
  - unfold ident. cbn -[chars]. rewrite b_mode0. rewrite (strncpy_id FILENAME_MAX_LEN (strncpy _ _)) by (by apply strncpy_len).
    destruct kdk as [k|]; [by destruct b_kdk0 as [-> ->]|by rewrite b_kdk0].
Qed.

Lemma wp_construct_new mi name mode kdk m (s : pfs) : unopened None mode_none s -> parse_mode mode = Some m -> om_write m = true ->
  (honest = true -> name = fname) ->
  wp (construct g a_local a_cur_key a_report mi name mode None kdk) s
    (fun _ s' => file_status s' = SGX_FILE_STATUS_OK -> new_file name kdk m s') nofail.
Proof.
  intros Hs Hp Hm Hfn. unfold construct. apply wp_case. eapply wp_mono; [by apply (wp_prepare mi name mode kdk s Hs)| |].
  - intros clean s1 (m' & Hp' & Hs1 & -> & Hname & Hrep). assert (m' = m) as -> by congruence. apply wp_case.
    eapply wp_mono; [apply (wp_open_new kdk m); try done; by eapply parse_mode_one_way| |]; [by intros [] s2 Hn; apply wp_ret|].
    intros [] s2 Hu. unfold close_failed. apply wp_bind, wp_get. destruct (file s2 =? 0); [by apply wp_ret|].
    apply wp_bind, wp_world. intros w a _. by apply wp_mod.
  - intros [] s1 Hu. by apply wp_ret.
Qed.

Lemma unopened_init w : unopened None mode_none (init_fields w).
Proof. by split. Qed.

(** A file that sgx_fopen has opened for writing is empty. *)
Lemma fopen_new mi name mode kdk m w w' s : parse_mode mode = Some m -> om_write m = true -> (honest = true -> name = fname) ->
  sgx_fopen g a_local a_cur_key a_report mi (Some name) (Some mode) kdk w = (w', Ok s) -> new_file name kdk m s.
Proof.
  intros Hp Hm Hfn. unfold sgx_fopen, sgx_fopen_internal. destruct (pf_malloc w) as [w1 []]; [|done].
  pose proof (wp_construct_new mi name mode kdk m (init_fields w1) (unopened_init w1) Hp Hm Hfn) as Hc. unfold wp in Hc.
  destruct (construct _ _ _ _ _ _ _ _ _ _) as [s1 [[]|e|]]; [|done..]. destruct (negb (get_error s1 =? 0)) eqn:E; [done|].
  intros [= _ <-]. apply Hc. unfold get_error, status_ok in E. destruct (Z.eqb_spec (last_error s1) 0) as [|Hne]; cbn [negb] in E; [|by rewrite (proj2 (Z.eqb_neq _ _) Hne) in E].
  case_bool_decide; [done|]. by vm_compute in E.
Qed.
End Open.
