(* ===== verification/PfsReopen.v ===== *)
(** * Protected file system: what is on the disk after a file is closed

    The layout of the meta-data node can be read back; pre_close leaves the
    whole file on the disk; opening an existing file restores it. *)

From stdpp Require Import gmap.
From S2P Require Import Prelude Bytes Arch Trts Tcrypto Seal Thread Lru Pfs PfsIo PfsFile PfsTree PfsInv PfsNode PfsFlush PfsUpdate PfsWrite PfsGet PfsStore PfsRw PfsSpec PfsOpen.

#[local] Open Scope Z_scope.

(** ** The meta-data node *)
Lemma enc_roundtrip e : enc_ok e -> 0 <= e_size e < 2 ^ 62 -> enc_of (enc_bytes e) = e.
Proof.
  intros (Hn & Hm & Hk & Hg & Hd) Hs. destruct e as [name size mc key gmac data].
  cbn [e_clean_filename e_size e_mc e_mht_key e_mht_gmac e_data] in *. unfold FILENAME_MAX_LEN, MD_USER_DATA_SIZE in *.
  unfold enc_of, enc_bytes. cbn [e_clean_filename e_size e_mc e_mht_key e_mht_gmac e_data]. rewrite (u64_id size) by (unfold is_u64; lia).
  f_equal; [by blob_read| |by blob_read..|].
  - rewrite fget_skip, Hn, fget_here by (done || lia). apply i64_id. lia.
  - rewrite <- (app_nil_r data) at 1. by blob_read.
Qed.

Lemma meta_roundtrip p enc pad : p_file_id p = SGX_FILE_ID -> p_major_version p = SGX_FILE_MAJOR_VERSION ->
  p_minor_version p = SGX_FILE_MINOR_VERSION -> zlen (p_meta_data_key_id p) = 32 -> zlen (p_cpu_svn p) = 16 -> is_u16 (p_isv_svn p) ->
  is_u8 (p_use_user_kdk_key p) -> zlen (p_attribute_mask p) = 16 -> zlen (p_meta_data_gmac p) = 16 -> p_update_flag p = 0 ->
  zlen enc = sizeof_meta_data_encrypted -> zlen pad = 610 -> meta_of (meta_bytes (MkMeta p enc pad)) = MkMeta p enc pad.
Proof.
  destruct p as [id major minor kid cpu isv uk mask gmac flag].
  cbn [p_file_id p_major_version p_minor_version p_meta_data_key_id p_cpu_svn p_isv_svn p_use_user_kdk_key p_attribute_mask p_meta_data_gmac p_update_flag].
  intros -> -> -> Hkid Hcpu Hisv Huk Hmask Hgmac -> Henc Hpad. unfold sizeof_meta_data_encrypted, is_u16, is_u8 in *.
  unfold meta_of, meta_bytes, plain_bytes. cbn [plain_part encrypted_part padding p_file_id p_major_version p_minor_version p_meta_data_key_id
    p_cpu_svn p_isv_svn p_use_user_kdk_key p_attribute_mask p_meta_data_gmac p_update_flag].
  rewrite <- !app_assoc. f_equal; [f_equal; by blob_read|by blob_read|]. rewrite <- (app_nil_r pad) at 1. by blob_read.
Qed.

(** ** An honest file system

    When it is not open, the file exists once its first node is there, can be
    opened and has a whole number of nodes; removing the recovery file is not
    removing it. *)
Class KeepsFile {W : Type} (OC : Ocalls W) (V : View W) : Prop := {
  keeps_exists w : idle w -> is_Some (disk w !! 0) ->
    exists w', u_check_if_file_exists fname w = (w', (SGX_SUCCESS, 1)) /\ kept w w';
  keeps_open ro w : idle w -> is_Some (disk w !! 0) ->
    exists w' f n e, u_exclusive_file_open fname ro w = (w', (SGX_SUCCESS, (f, n, e))) /\ live ro f w' /\ 0 < n /\
      n mod NODE_SIZE = 0 /\ disk w' = disk w;
  keeps_removed w : idle w -> kept w (fst (u_remove rname w)) }.

(** The nodes that a file of [size] bytes has *)
Definition in_file (size key : Z) : Prop := key = 0 \/ (1 <= key /\ pos key < size).

Definition covers (size : Z) (dk dk' : gmap Z (list Z)) : Prop :=
  forall key c, in_file size key -> dk !! key = Some c -> dk' !! key = Some c.

Section Reopen.
Context {W : Type} {PF : Platform W} {G : AesGcm} {OC : Ocalls W} {g : runtime} {a_local a_cur_key a_report : Z}.
Context {V : View W} {SE : Setting PF G OC g a_local a_cur_key true V} {KF : KeepsFile OC V}.
Abbreviation pfs := (protected_fs_file W).
Abbreviation FM := (M pfs unit).
Abbreviation quiet := (quiet (honest := true) (V := V)).
Abbreviation rep := (rep (honest := true) (V := V)).
Abbreviation winv := (winv (honest := true) (V := V)).
Abbreviation unopened := (unopened (W := W)).

(** A state that has just been flushed, with contents [C] *)
Record settled (C clean kdk : list Z) (P : Z -> list Z) (s : pfs) : Prop := MkSettled {
  s_winv : winv P (zlen C) s;
  s_clean : all_clean s;
  s_need : need_writing s = false;
  s_contents : contents C P (encrypted_part_plain s);
  s_name : e_clean_filename (encrypted_part_plain s) = clean;
  s_use_kdk : use_user_kdk_key s = 1;
  s_kdk : user_kdk_key s = kdk }.

(** The nodes [dk] are those of such a file. *)
Definition image (C clean kdk : list Z) (dk : gmap Z (list Z)) : Prop :=
  exists P (s : pfs), settled C clean kdk P s /\ covers (zlen C) (disk (world s)) dk.

Definition saved (C clean kdk : list Z) (w : W) : Prop := idle w /\ image C clean kdk (disk w).

Lemma settled_node C clean kdk P s dk : settled C clean kdk P s -> covers (zlen C) (disk (world s)) dk ->
  dk !! 0 = Some (meta_bytes (file_meta_data s)).
Proof. intros [] Hd. destruct (w_saved _ _ _ s_winv0 eq_refl s_need0) as [_ E]. apply Hd; [by left|done]. Qed.

Lemma image_node C clean kdk dk : image C clean kdk dk -> is_Some (dk !! 0).
Proof. intros (P & s & Hs & Hd). rewrite (settled_node _ _ _ _ _ _ Hs Hd). done. Qed.

(** ** pre_close *)
Lemma wp_close A (s : pfs) : rep A s -> use_user_kdk_key s = 1 ->
  wp (pre_close g a_local a_cur_key false false) s
    (fun r s' => r = (true, None) /\ saved (a_data A) (e_clean_filename (encrypted_part_plain s)) (user_kdk_key s) (world s')) nofail.
Proof.
  intros Hr Hk. pose proof (r_holds _ _ Hr) as [(P & Hre & Hc) _ _]. unfold pre_close. apply wp_bind, wp_get. cbn [andb negb].
  apply wp_bind, wp_ret. apply wp_bind. unfold settle. apply wp_bind, wp_get. unfold status_ok at 1. rewrite bool_decide_eq_true_2 by (by eapply rep_status).
  cbn [negb]. apply wp_case. eapply wp_mono; [apply (wp_internal_flush true P (zlen (a_data A)) s); apply Hre| |by intros [] s' [? _]].
  intros [] s1 (P1 & Hf). apply wp_ret. destruct (flushed_rep P P1 A s s1 Hr Hre Hc Hf) as [Hr1 Hid]. destruct Hf as [Hw1 Hv Hl Hdom Hcl Hn1 HP].
  destruct (view_frame _ _ Hv) as (_ & _ & Hsz & Hda).
  assert (settled (a_data A) (e_clean_filename (encrypted_part_plain s)) (user_kdk_key s) P1 s1) as Hset.
  { unfold ident in Hid. split; try done; try congruence.
    apply (contents_data _ P); [done|]. unfold contents, byte_at in *. by rewrite Hsz, Hda. }
  apply wp_bind, wp_get. assert (status_ok s1 = true) as Hok by (unfold status_ok; rewrite bool_decide_eq_true_2; [done|by eapply rep_status]).
  destruct (w_file _ _ _ Hw1 eq_refl) as [Hlive Hrec1].
  rewrite Hok, (proj2 (Z.eqb_neq _ _) (sec_live _ _ _ eq_refl Hlive)).
  apply wp_bind, wp_bind. unfold unless_false, fclose_or. apply wp_case, wp_bind, wp_get. apply wp_bind, wp_world.
  destruct (sec_fclose _ (file s1) (world s1) eq_refl Hlive) as (w2 & E & Hd2 & Hidle). intros w a Ea. rewrite E in Ea. injection Ea as <- <-.
  apply wp_ret, wp_ret. apply wp_bind, wp_mod, wp_ret. apply wp_bind, wp_get. set (s2 := set_file 0 (set_world w2 s1)). apply wp_bind.
  apply (wp_mono _ _ (fun _ s3 => disk (world s3) = disk (world s1) /\ idle (world s3)) _ nofail); [| |done].
  { destruct (_ && _); [|by apply wp_ret]. unfold erase_recovery_file. apply wp_bind, wp_get. case_match; [by apply wp_ret|].
    apply wp_bind, wp_world. intros w b Eb. apply wp_ret. pose proof (keeps_removed (world s2) Hidle) as Hkr. rewrite <- Hrec1 in Hkr.
    change (recovery_filename s1) with (recovery_filename s2) in Hkr. rewrite Eb in Hkr. destruct Hkr as [E2 _ E3]. cbn in *. split; [congruence|auto]. }
  intros [] s3 [Hd3 Hid3]. apply wp_bind, wp_get. cbn [negb andb]. apply wp_bind, wp_ret, wp_bind, wp_mod, wp_ret. split; [done|].
  split; [done|]. exists P1, s1. split; [done|]. cbn. rewrite Hd3. by intros k c _.
Qed.

(** ** Opening the file again *)
Definition calm (s s' : pfs) : Prop := last_error s' = last_error s /\ kept (world s) (world s').

Lemma quiet_calm s s' : quiet s s' -> calm s s'.
Proof. intros [Hu _ _ Hd]. user_eqs Hu. by split; [|apply Hd]. Qed.

Lemma wp_prepare_again mode m kdk (s : pfs) : unopened None mode_none s -> parse_mode mode = Some m -> om_write m = false ->
  name_ok fname -> sgx_create_report g a_report = SGX_SUCCESS -> idle (world s) -> is_Some (disk (world s) !! 0) ->
  wp (prepare g a_local a_report 0 fname mode None (Some kdk)) s (fun clean s' => unopened (Some kdk) m s' /\ calm s s' /\
    clean = strncpy FILENAME_MAX_LEN (base_name fname fname)) nofail.
Proof.
  intros Hs Hp Hm [Hn1 Hn2] Hrep Hidle H0. unfold prepare. destruct mode as [|c mode]; [done|].
  rewrite (proj2 (Z.eqb_neq (zlen fname) 0)) by lia. cbn [orb]. change (zlen (c :: mode) =? 0) with false.
  rewrite Z.geb_leb, (proj2 (Z.leb_gt _ _)) by lia. rewrite Hrep. cbn [is_null negb andb ok_status Z.eqb].
  apply wp_bind. eapply wp_mono; [apply wp_master_key| |done]. intros [] s1 Hq1. pose proof (unopened_quiet _ _ _ _ Hq1 Hs) as Hs1.
  destruct (quiet_calm _ _ Hq1) as [Hl1 Hd1]. apply wp_bind, wp_bind, wp_mod, wp_mod. apply wp_bind. unfold cleanup_filename.
  rewrite Z.geb_leb, (proj2 (Z.leb_gt _ _)) by lia. rewrite (proj2 (Z.eqb_neq _ 0)) by lia. apply wp_ret.
  rewrite bool_decide_eq_false_2, Hp by done. apply wp_bind, wp_mod. apply wp_bind. unfold prepare_path, check_exists.
  apply wp_bind, wp_world. set (s2 := set_open_mode m _). destruct (keeps_exists (world s2)) as (w' & E & Hd); [by apply (k_idle _ _ Hd1)|by rewrite <- (k_disk _ _ Hd1) in H0|].
  intros w a Ea. rewrite E in Ea. injection Ea as <- <-. cbn [ok_status negb]. apply wp_bind, wp_get. cbn [open_mode set_world set_open_mode s2]. rewrite Hm. cbn [andb].
  apply wp_ret. cbn [Z.eqb]. rewrite andb_false_r. apply wp_ret. split; [by destruct Hs1|]. split; [|done]. split; cbn; [done|]. by eapply kept_trans.
Qed.

Lemma wp_decrypt_into key ct (s : pfs) (put : list Z -> FM unit) Q : zlen ct > 0 ->
  (forall s', quiet s s' -> wp (put (gcm_decrypt key empty_iv [] ct)) s' Q nofail) ->
  wp (decrypt_into key (gcm_tag key empty_iv [] ct) ct put) s Q nofail.
Proof.
  intros Hs Hput. unfold wp, decrypt_into. destruct (decrypt_healthy key (Some ct) false empty_iv None (world s) (args_ok ct Hs)) as [w' E].
  pose proof (keeps_decrypt (honest := true) (V := V) key (Some ct) false empty_iv None (gcm_tag key empty_iv [] ct) (world s)) as Hd.
  cbn [default id] in E. rewrite E in Hd |- *. cbn [fst] in Hd.
  assert (quiet s (set_world w' s)) as Hq by (split; [done..|exact Hd]).
  specialize (Hput _ Hq). apply (wp_bind (put _) _ _ Q nofail). eapply wp_mono; [exact Hput| |done]. intros [] s2 H2. by apply wp_ret.
Qed.

Lemma wp_restore_key (s : pfs) : use_user_kdk_key s = 1 ->
  wp (restore_current_meta_data_key g a_local a_cur_key None) s (fun _ s' => quiet s s' /\ cur_key s' = md_key s) nofail.
Proof.
  intros Hk. unfold restore_current_meta_data_key. apply wp_bind, wp_get. rewrite Hk. cbn [Z.eqb Pos.eqb].
  unfold generate_secure_blob_from_user_kdk. apply wp_bind, wp_get, wp_bind, wp_ret, wp_bind.
  eapply wp_mono; [apply wp_cmac| |done]. intros k s1 [Hq ->]. apply wp_bind, wp_mod, wp_ret. split.
  - apply (quiet_trans _ s1); [done|]. by split.
  - cbn. unfold md_key. by rewrite Hk.
Qed.

(** fread_node of a node that is on the disk *)
Lemma wp_fread_disk n c (s : pfs) : live (read_only s) (file s) (world s) -> disk (world s) !! n = Some c ->
  wp (fread_node n) s (fun b s' => b = c /\ quiet s s') nofail.
Proof.
  intros Hf Hd. unfold fread_node. apply wp_bind, wp_get. apply wp_bind, wp_world. destruct (sec_fread (honest := true) (file s) n (world s) _ c Hf Hd) as (w' & E & Hw).
  intros w a Ea. rewrite E in Ea. injection Ea as <- <-. apply wp_ret. split; [done|]. split; [done..|by intros _].
Qed.

(** The object after an existing file is opened, before it is usable: [P] are
    the plain texts, [e] the decrypted part of the meta-data *)
Record loaded (P : Z -> list Z) (kdk : list Z) (m : open_mode_t) (s0 s s' : pfs) : Prop := MkLoaded {
  d_md : file_meta_data s' = file_meta_data s0;
  d_enc : encrypted_part_plain s' = encrypted_part_plain s0;
  d_root : if 3072 <? e_size (encrypted_part_plain s0) then exists ci, root_mht s' = MkNode FILE_MHT_NODE_TYPE 0 0 false false 1 ci (P 1)
           else root_mht s' = init_root;
  d_mode : open_mode s' = m;
  d_pos : offset s' = 0 /\ end_of_file s' = false;
  d_need : need_writing s' = false;
  d_kdk : use_user_kdk_key s' = 1 /\ user_kdk_key s' = kdk;
  d_cache : cache s' = cache_empty;
  d_file : file s' = file s /\ read_only s' = read_only s /\ recovery_filename s' = recovery_filename s;
  d_calm : calm s s' }.

Lemma wp_read_root P (s : pfs) : live (read_only s) (file s) (world s) -> root_committed (honest := true) (V := V) P s -> root_mht s = init_root ->
  wp read_root s (fun _ s' => exists ci s1, quiet s s1 /\ s' = set_root_mht (MkNode FILE_MHT_NODE_TYPE 0 0 false false 1 ci (P 1)) s1) nofail.
Proof.
  intros Hf (ct & Hl & Ht & Hp & Hd) Hr. unfold read_root. apply wp_bind. eapply wp_mono; [apply (wp_fread_disk 1 ct s Hf); auto| |done].
  intros b s1 [-> Hq1]. pose proof (q_user _ _ Hq1) as Hu. user_eqs Hu. apply wp_bind, wp_mod. apply wp_bind, wp_get. apply wp_bind. cbn [encrypted_part_plain set_root_mht].
  rewrite Hep, <- Ht. apply wp_decrypt_into; [by rewrite Hl|]. intros s2 [Hu2 Hr2 Hc2 Hd2]. apply wp_mod, wp_mod. rewrite Hp.
  exists ct, (set_root_mht (root_mht s) s2). split.
  - split; cbn; [|done|by rewrite Hc2; apply (q_cache _ _ Hq1)|].
    + etrans; [|exact (q_user _ _ Hq1)]. etrans; [|exact Hu2]. done.
    + eapply same_disk_trans; [apply (q_disk _ _ Hq1)|exact Hd2].
  - cbn. rewrite Hr2. cbn. rewrite (q_root _ _ Hq1), Hr. cbn. by destruct s2.
Qed.

Lemma wp_existing C kdk m (s s0 : pfs) P clean : unopened (Some kdk) m s -> live (read_only s) (file s) (world s) ->
  settled C clean kdk P s0 -> covers (zlen C) (disk (world s0)) (disk (world s)) ->
  wp (init_existing_file g a_local a_cur_key fname clean None) s (fun _ s' => loaded P kdk m s0 s s') nofail.
Proof.
  intros Hs Hf Hset Hd. pose proof (settled_node _ _ _ _ _ _ Hset Hd) as H0. destruct Hset as [Hw Hcl Hn [Hlen _] Hname Hk Huk].
  destruct (w_saved _ _ _ Hw eq_refl Hn) as [[Htag Hdec] _].
  pose proof (w_plain _ _ _ Hw) as Hp. unfold plain_ok in Hp.
  destruct (file_meta_data s0) as [pl en pad] eqn:Emd. cbn [plain_part encrypted_part padding] in *.
  destruct Hp as (Hid & Hma & Hmi & Hkid & Hcpu & Hisv & Hpu & Hu8 & Hmask & Hgm & Hup & Hen & Hpad).
  pose proof (t_size _ _ _ _ _ _ (w_tree _ _ _ Hw)) as [Hsz _].
  unfold init_existing_file. apply wp_bind. eapply wp_mono; [by apply (wp_fread_disk 0 (meta_bytes (MkMeta pl en pad)) s Hf)| |done].
  intros b s1 [-> Hq1]. pose proof (unopened_quiet _ _ _ _ Hq1 Hs) as Hs1. rewrite meta_roundtrip by (try done; by rewrite Hpu). apply wp_bind, wp_mod, wp_bind, wp_get.
  cbn [file_meta_data set_file_meta_data plain_part]. rewrite Hid, Z.eqb_refl. cbn [negb]. unfold bad_version. cbn [file_meta_data set_file_meta_data plain_part].
  rewrite Hma. cbn [Z.eqb Pos.eqb SGX_FILE_MAJOR_VERSION negb]. apply wp_bind. unfold recover_if_needed, update_flag_set. apply wp_bind, wp_get.
  cbn [file_meta_data set_file_meta_data plain_part]. rewrite Hup. cbn [Z.eqb]. apply wp_ret, wp_bind, wp_get.
  cbn [file_meta_data set_file_meta_data plain_part use_user_kdk_key]. destruct (b_kdk _ _ _ Hs1) as [Hk1 Huk1]. rewrite Hpu, Hk, Hk1. cbn [Z.eqb Pos.eqb negb].
  set (s2 := set_file_meta_data (MkMeta pl en pad) s1).
  assert (md_key s2 = md_key s0) as Hkey by (unfold md_key; cbn; by rewrite Emd, Hk1, Hk, Huk1, Huk).
  apply wp_bind. eapply wp_mono; [by apply wp_restore_key| |done]. intros [] s3 [Hq3 Hck]. apply wp_bind, wp_get. apply wp_bind.
  pose proof (q_user _ _ Hq3) as Hu3. user_eqs Hu3. rewrite Hck, Hmd, Hkey. cbn [file_meta_data set_file_meta_data plain_part encrypted_part s2]. rewrite <- Htag.
  apply wp_decrypt_into; [by rewrite Hen|]. intros s4 Hq4. apply wp_mod. rewrite Hdec, enc_roundtrip by (apply Hw || done). apply wp_bind, wp_get.
  cbn [encrypted_part_plain set_encrypted_part_plain]. rewrite Hname, strncmp_refl. cbn [negb].
  pose proof (quiet_trans _ _ _ Hq3 Hq4) as [Hu5 Hr5 Hc5 Hd5]. user_eqs Hu5. pose proof (q_user _ _ Hq1) as Hu1. user_eqs Hu1.
  assert (kept (world s) (world s4)) as Hd4 by (eapply kept_trans; [apply (q_disk _ _ Hq1 eq_refl)|apply (Hd5 eq_refl)]).
  unfold MD_USER_DATA_SIZE. destruct Hs1. rewrite Z.gtb_ltb. destruct (3072 <? e_size (encrypted_part_plain s0)) eqn:E3.
  - zbool. eapply wp_mono; [apply (wp_read_root P)| |done].
    + cbn in *. replace (read_only s4) with (read_only s) by congruence. replace (file s4) with (file s) by congruence. by apply (k_live _ _ Hd4).
    + unfold root_committed. cbn [encrypted_part_plain set_encrypted_part_plain world]. rewrite (k_disk _ _ Hd4).
      eapply committed_mono; [|apply (w_root _ _ _ Hw); [done|apply Hcl]]. intros _ ct. apply Hd. right. split; [done|]. rewrite Hlen. exact E3.
    + cbn in *. congruence.
    + intros [] s6 (ci & s5 & [Hu6 Hr6 Hc6 Hd6] & ->). user_eqs Hu6. split; cbn in *; rewrite ?(proj2 (Z.ltb_lt _ _) E3); try congruence; try (split; congruence).
      * by exists ci.
      * split_and!; congruence.
      * split; cbn; [congruence|]. eapply kept_trans; [exact Hd4|apply (Hd6 eq_refl)].
  - apply wp_ret. split; cbn in *; rewrite ?E3; try congruence; try (split_and!; congruence). split; [cbn; congruence|exact Hd4].
Qed.

Lemma rep_loaded C P kdk clean m (s s0 s1 s2 : pfs) o : loaded P kdk m s0 s s1 -> live (read_only s) (file s) (world s) ->
  recovery_filename s = rname -> (writable m = true -> read_only s = false) ->
  settled C clean kdk P s0 -> covers (zlen C) (disk (world s0)) (disk (world s)) -> 0 <= o <= zlen C ->
  s2 = set_file_status SGX_FILE_STATUS_OK (set_offset o s1) -> rep (MkAfile C o false m) s2.
Proof.
  intros [] Hf Hrec Hwr Hset Hd Ho ->. pose proof (settled_node _ _ _ _ _ _ Hset Hd) as H0. destruct Hset as [Hw Hcl Hn [Hlen Hc] _ Hk Huk].
  destruct d_pos0 as [_ Heof]. destruct d_kdk0 as [Hk1 Huk1]. destruct d_calm0 as [_ Hd1]. destruct d_file0 as (Hfi & Hro & Hre).
  set (size := e_size (encrypted_part_plain s0)) in *. set (P' := if 3072 <? size then P else fun _ => zero_node).
  pose proof (w_tree _ _ _ Hw) as Ht. fold size in Ht. pose proof (t_size _ _ _ _ _ _ Ht) as [Hsz _].
  assert (forall k, 1 <= k -> pos k < size -> P' = P) as HP.
  { intros k Hk' Hp. unfold P'. rewrite (proj2 (Z.ltb_lt 3072 size)); [done|]. destruct (key_cases k Hk') as [(x & ? & ->)|(x & ? & ->)].
    - destruct (mht_key_facts x) as (_ & _ & _ & E). lia.
    - destruct (data_key_facts x) as (_ & _ & _ & E). lia. }
  assert (n_need_writing (root_mht s1) = false) as Hneed.
  { destruct (3072 <? size); [destruct d_root0 as [ci ->]|rewrite d_root0]; done. }
  split; [|cbn; congruence..|cbn; rewrite Hro; done]. split; cbn [a_data a_off]; [|done..]. exists P'. split.
  - split; [|cbn; rewrite d_cache0; cbn; lia]. split; cbn.
    + split; cbn; rewrite ?d_enc0, ?d_cache0, ?d_need0, ?Hfi, ?Hro, ?Hre; fold size; try done; try apply Hw; try congruence.
      * rewrite (k_disk _ _ Hd1), Hlen. split.
        -- lia.
        -- intros key Hk'. unfold P'. case_match; [by apply (t_len _ _ _ _ _ _ Ht)|apply zero_node_len].
        -- unfold P'. destruct (3072 <? size); [destruct d_root0 as [ci ->]|rewrite d_root0]; by eexists _, _, _.
        -- intros key n Hx. cbn in Hx. by rewrite lookup_empty in Hx.
        -- intros key (n & Hx & _). cbn in Hx. by rewrite lookup_empty in Hx.
        -- intros key Hk' Hp _. rewrite (HP key) by lia. eapply committed_mono; [|apply (t_commit _ _ _ _ _ _ Ht); [done..|by apply all_clean_dirty]].
           intros _ ct. apply Hd. right. split; [lia|]. by rewrite Hlen.
      * apply cache_wf_empty.
      * intros _. split; [|done]. by apply (k_live _ _ Hd1).
      * pose proof (w_plain _ _ _ Hw) as Hp. unfold plain_ok in *. cbn. rewrite d_md0, Hk1. by rewrite Hk in Hp.
      * intros H3 _. unfold root_committed. cbn. rewrite d_enc0, (k_disk _ _ Hd1). replace P' with P by (unfold P'; by rewrite (proj2 (Z.ltb_lt 3072 size))).
        eapply committed_mono; [|apply (w_root _ _ _ Hw); [done|apply Hcl]]. intros _ ct. apply Hd. right. split; [done|]. by rewrite Hlen.
      * intros _ _. destruct (w_saved _ _ _ Hw eq_refl Hn) as [Hsl _]. rewrite (k_disk _ _ Hd1), d_md0. split; [|done].
        unfold md_sealed, md_key in *. cbn [file_meta_data use_user_kdk_key user_kdk_key set_file_status set_offset encrypted_part_plain].
        rewrite d_md0, d_enc0, Hk1, Huk1. by rewrite Hk, Huk in Hsl.
    + intros key [n Hx]. rewrite d_cache0 in Hx. cbn in Hx. by rewrite lookup_empty in Hx.
    + rewrite d_cache0. intros l1 k l2 E. by destruct l1.
    + exists []. split; [done|]. rewrite d_cache0. split; cbn; lia.
    + done.
  - cbn. rewrite d_enc0. split; [done|]. intros i Hi. rewrite Hc by done. unfold byte_at.
    destruct (i <? 3072) eqn:E3; [done|]. zbool. unfold P'. by rewrite (proj2 (Z.ltb_lt 3072 size)) by lia.
Qed.

Definition first_offset (m : open_mode_t) (C : list Z) : Z := if om_append m && negb (om_update m) then zlen C else 0.

Lemma wp_construct_again C mode m kdk (s : pfs) : unopened None mode_none s -> parse_mode mode = Some m -> om_write m = false ->
  name_ok fname -> sgx_create_report g a_report = SGX_SUCCESS -> saved C (strncpy FILENAME_MAX_LEN (base_name fname fname)) kdk (world s) ->
  wp (construct g a_local a_cur_key a_report 0 fname mode None (Some kdk)) s
    (fun _ s' => rep (MkAfile C (first_offset m C) false m) s' /\ last_error s' = last_error s) nofail.
Proof.
  intros Hs Hp Hm Hname Hrep [Hidle Him]. pose proof (image_node _ _ _ _ Him) as H0. destruct Him as (P & s0 & Hset & Hd).
  unfold construct. apply wp_case. eapply wp_mono; [by apply (wp_prepare_again mode m kdk s)| |done].
  intros clean s1 (Hs1 & [Hl1 Hd1] & ->). apply wp_case. unfold open_file. apply wp_bind, wp_mod. apply wp_bind.
  set (s2 := set_read_only _ s1). unfold exclusive_open. apply wp_bind, wp_get. apply wp_bind, wp_world.
  destruct (keeps_open (read_only s2) (world s2)) as (w' & f & n & e & E & Hf & Hn0 & Hmod & Hd2);
    [by apply (k_idle _ _ Hd1)|cbn; by rewrite (k_disk _ _ Hd1)|]. pose proof (sec_live _ _ _ eq_refl Hf) as Hf0.
  intros w a Ea. rewrite E in Ea. injection Ea as <- <-. apply wp_bind, wp_mod. cbn [ok_status negb orb]. rewrite (proj2 (Z.eqb_neq f 0)) by done.
  apply wp_ret. apply wp_bind, wp_mod. rewrite (proj2 (Z.ltb_ge n 0)) by lia. rewrite Hmod. cbn [Z.eqb negb].
  apply wp_bind, wp_mod, wp_bind, wp_get. apply wp_bind. rewrite Z.gtb_ltb, (proj2 (Z.ltb_lt 0 n)) by lia.
  set (s3 := set_recovery_filename _ _). replace (om_write (open_mode s3)) with false by (cbn; by rewrite (b_mode _ _ _ Hs1)).
  assert (unopened (Some kdk) m s3) as Hs3 by (by destruct Hs1).
  assert (covers (zlen C) (disk (world s0)) (disk (world s3))) as Hd3 by (cbn; rewrite Hd2; cbn; by rewrite (k_disk _ _ Hd1)).
  apply wp_bind. eapply wp_mono; [by apply (wp_existing C kdk m s3 s0 P)| |done].
  intros [] s4 Hl4. apply wp_mod. pose proof Hl4 as []. apply wp_mod, wp_ret. split.
  - eapply (rep_loaded C P kdk _ m s3 s0 s4 _ (first_offset m C) Hl4); try done.
    + intros Hwr. cbn. rewrite (b_mode _ _ _ Hs1). apply one_way_ro; [by eapply parse_mode_one_way|done].
    + unfold first_offset. destruct (om_append m && negb (om_update m)); lia.
    + rewrite d_mode0, d_enc0. unfold first_offset. destruct (s_contents _ _ _ _ _ Hset) as [<- _]. destruct d_pos0 as [Ho _].
      destruct (om_append m && negb (om_update m)); [done|]. by destruct s4; cbn in *; subst.
  - rewrite <- Hl1. etrans; [|apply d_calm0]. cbn. by destruct (om_append (open_mode s4) && negb (om_update (open_mode s4))).
Qed.

(** The file is opened again. *)
Lemma fopen_again C mode m kdk w : parse_mode mode = Some m -> om_write m = false -> name_ok fname ->
  sgx_create_report g a_report = SGX_SUCCESS -> saved C (strncpy FILENAME_MAX_LEN (base_name fname fname)) kdk w ->
  exists w' s, sgx_fopen g a_local a_cur_key a_report 0 (Some fname) (Some mode) (Some kdk) w = (w', Ok s) /\
    rep (MkAfile C (first_offset m C) false m) s.
Proof.
  intros Hp Hm Hname Hrep Hsv. unfold sgx_fopen, sgx_fopen_internal. pose proof (healthy_malloc w) as Hm1. pose proof (sec_malloc (honest := true) w eq_refl) as Hd1.
  destruct (pf_malloc w) as [w1 b]. cbn [fst snd] in Hm1, Hd1. subst b.
  assert (saved C (strncpy FILENAME_MAX_LEN (base_name fname fname)) kdk w1) as Hsv1.
  { destruct Hsv as [Hi Him]. split; [by apply (k_idle _ _ Hd1)|]. by rewrite (k_disk _ _ Hd1). }
  pose proof (wp_construct_again C mode m kdk (init_fields w1) (unopened_init w1) Hp Hm Hname Hrep Hsv1) as Hc. unfold wp in Hc.
  destruct (construct _ _ _ _ _ _ _ _ _ _) as [s1 [[]|e|]]; [|done..]. destruct Hc as [Hr Hl]. cbn in Hl.
  exists (world s1), s1. split; [|done]. unfold get_error, status_ok. rewrite Hl, bool_decide_eq_true_2 by (by eapply rep_status). done.
Qed.
End Reopen.
