(* ===== verification/PfsProps.v ===== *)
(** * Protected file system: what a user can rely on

    The layout of a file, its integrity against the untrusted side, its
    persistence over an honest one, and what a failed read of the untrusted
    side can lead to. *)

From stdpp Require Import gmap.
From S2P Require Import Prelude Bytes Arch Trts Tcrypto Seal Thread Lru Pfs PfsIo PfsFile PfsTree PfsInv PfsNode PfsFlush PfsUpdate PfsWrite PfsGet PfsStore PfsRw PfsSpec PfsOpen PfsReopen.

#[local] Open Scope Z_scope.

(** ** Concrete platforms *)
Module Toy.
(** The tag is the cipher text, as a number. *)
Definition tag (c : list Z) : list Z := Zpos (encode c) :: zreplicate 15 0.

#[export] Instance gcm : AesGcm := {|
  gcm_encrypt _ _ _ pt := pt; gcm_decrypt _ _ _ ct := ct; gcm_tag _ _ _ ct := tag ct; cmac _ _ := zreplicate 16 7 |}.
#[export] Instance laws : AesGcmLaws gcm.
Proof. by split. Qed.

(** A world without state, and one that is the nodes of a single file *)
Definition platform (W : Type) : Platform W := {|
  pf_malloc w := (w, true); pf_ipp w := (w, ippStsNoErr); pf_rdrand w := (w, Some 5);
  pf_egetkey _ := (EGETKEY_SUCCESS, zreplicate 16 9); pf_report := MkReport (zreplicate 16 3) 1 0 0 |}.

#[export] Instance healthy W : Healthy (platform W).
Proof. split; try done. intros w. by exists 5. Qed.

Definition local : Z := 0x10010000.
Definition key_at : Z := 0x10020000.
Definition report_at : Z := 0x10030000.

(** Nodes that are read are whatever [answer] says. *)
Definition adversary (answer : Z -> list Z) : Ocalls unit := {|
  u_exclusive_file_open _ _ w := (w, (SGX_SUCCESS, (1, 0, 0))); u_check_if_file_exists _ w := (w, (SGX_SUCCESS, 0));
  u_fread_node _ n w := (w, (SGX_SUCCESS, (0, answer n))); u_fwrite_node _ _ _ w := (w, (SGX_SUCCESS, 0));
  u_fclose _ w := (w, (SGX_SUCCESS, 0)); u_fflush _ w := (w, (SGX_SUCCESS, 0)); u_remove _ w := (w, (SGX_SUCCESS, 0));
  u_recovery_file_open _ w := (w, (SGX_SUCCESS, 2)); u_fwrite_recovery_node _ _ w := (w, (SGX_SUCCESS, 0));
  u_do_file_recovery _ _ _ w := (w, (SGX_SUCCESS, 0)) |}.

Definition file_name : list Z := chars "f".

Abbreviation disk_world := (gmap Z (list Z)).
Definition disk_ocalls : Ocalls disk_world := {|
  u_exclusive_file_open _ _ w := (w, (SGX_SUCCESS, (1, NODE_SIZE * Z.of_nat (base.size w), 0)));
  u_check_if_file_exists _ w := (w, (SGX_SUCCESS, match w !! 0 with Some _ => 1 | None => 0 end));
  u_fread_node _ n w := (w, match w !! n with Some c => (SGX_SUCCESS, (0, c)) | None => (SGX_SUCCESS, (EIO, [])) end);
  u_fwrite_node _ n c w := (<[n := c]> w, (SGX_SUCCESS, 0));
  u_fclose _ w := (w, (SGX_SUCCESS, 0)); u_fflush _ w := (w, (SGX_SUCCESS, 0));
  u_remove name w := (if bool_decide (name = file_name) then ∅ else w, (SGX_SUCCESS, 0));
  u_recovery_file_open _ w := (w, (SGX_SUCCESS, 2)); u_fwrite_recovery_node _ _ w := (w, (SGX_SUCCESS, 0));
  u_do_file_recovery _ _ _ w := (w, (SGX_SUCCESS, 0)) |}.

Lemma locals_in off n : 0 <= off -> 0 < n -> off + n <= 512 ->
  local + off <> 0 /\ sgx_is_within_enclave sample_runtime (local + off) n = true.
Proof.
  intros Ho Hn Hb. unfold local. split; [lia|]. unfold sgx_is_within_enclave, range_end, sample_runtime. cbn [image_base enclave_size_].
  rewrite Z.gtb_ltb, (proj2 (Z.ltb_lt 0 n)) by lia. rewrite !u64_id by (unfold is_u64; lia). rewrite !andb_true_iff, !Z.leb_le, ?Z.ltb_lt. lia.
Qed.

Lemma encode_inj c c' : tag c = tag c' -> c = c'.
Proof. intros [= H]. by apply (inj encode). Qed.

Definition no_view : View unit := {|
  disk _ := ∅; live _ _ _ := False; rlive _ _ := False; idle _ := False; fname := [] |}.

#[export] Instance hostile answer (H : forall n, zlen (answer n) = NODE_SIZE) :
  Setting (platform unit) gcm (adversary answer) sample_runtime local key_at false no_view.
Proof.
  split; try done; try apply _.
  - apply locals_in.
  - intros _ key iv aad c c' _. apply encode_inj.
  - intros req. by exists (zreplicate 16 9).
  - intros f n w. by exists w, (answer n).
Qed.

Definition disk_view : View disk_world := {|
  disk w := w; live _ f _ := f <> 0; rlive rf _ := rf <> 0; idle _ := True; fname := file_name |}.
#[local] Existing Instance disk_view.

#[export] Instance sound_disk : Setting (platform disk_world) gcm disk_ocalls sample_runtime local key_at true disk_view.
Proof.
  split; try done; try apply _.
  - apply locals_in.
  - intros req. by exists (zreplicate 16 9).
  - intros f w _ _. by exists w, 2.
  - intros rf d w _ Hrf. by exists w.
  - intros rf w _ _. by exists w.
  - intros ro f w _ _. by exists w.
  - intros ro f w _ _. by exists w.
  - intros f n w ro c _ Hc. exists w. cbn in Hc. cbn [u_fread_node disk_ocalls]. by rewrite Hc.
  - intros f n c w _ _ _ _. exists (<[n := c]> w). split; [done|]. split; [apply lookup_insert_eq|intros k Hk _; by apply lookup_insert_ne|done].
Qed.

#[export] Instance one_file : KeepsFile disk_ocalls disk_view.
Proof.
  split.
  - intros w _ [c Hc]. exists w. cbn in Hc. cbn [u_check_if_file_exists disk_ocalls]. by rewrite Hc.
  - intros ro w _ [c Hc]. exists w, 1, (NODE_SIZE * Z.of_nat (base.size w)), 0. split; [done|]. split; [done|].
    assert (base.size w <> 0%nat) as Hs by (intros E; apply map_size_empty_inv in E; cbn in Hc; by rewrite E, lookup_empty in Hc).
    split; [unfold NODE_SIZE; lia|]. split; [|done]. rewrite Z.mul_comm. by apply Z.mod_mul.
  - done.
Qed.
End Toy.

(** ** The layout of a file *)

(** C34. The physical number of the data node of an offset, and of an mht node,
    are never the same; the nodes of two offsets are the same exactly when the
    offsets are in the same block of 4096 bytes; the mht node of an offset is
    one of the 96 numbers before its data node. *)
Theorem node_layout o o' k : MD_USER_DATA_SIZE <= o < 2 ^ 62 -> MD_USER_DATA_SIZE <= o' < 2 ^ 62 -> 0 <= k < 2 ^ 56 ->
  let nn := get_node_numbers o in let nn' := get_node_numbers o' in
  nn_physical_mht nn = mht_physical (nn_mht nn) /\ nn_physical_mht nn < nn_physical_data nn <= nn_physical_mht nn + ATTACHED_DATA_NODES_COUNT /\
  nn_physical_data nn <> mht_physical k /\
  (nn_physical_data nn = nn_physical_data nn' <-> (o - MD_USER_DATA_SIZE) / NODE_SIZE = (o' - MD_USER_DATA_SIZE) / NODE_SIZE) /\
  (o <= o' -> nn_physical_data nn <= nn_physical_data nn').
Proof.
  unfold MD_USER_DATA_SIZE, NODE_SIZE, ATTACHED_DATA_NODES_COUNT. intros Ho Ho' Hk. rewrite !node_numbers_eq by lia.
  cbn [nn_physical_mht nn_physical_data nn_mht]. rewrite !mht_physical_key by zlia.
  split; [done|]. split; [unfold mht_key, data_key; zlia|]. split; [|split; [split; [apply data_key_inj|by intros ->]|unfold data_key; zlia]].
  intros E. pose proof (is_mht_data ((o - 3072) / 4096)) as H. by rewrite E, is_mht_mht in H.
Qed.

Section Claims.
Context {W : Type} {PF : Platform W} {G : AesGcm} {OC : Ocalls W} {g : runtime} {a_local a_cur_key a_report : Z}.

(** C2. A file that sgx_fopen has created behaves like an array of bytes with a
    position: any sequence of sgx_fwrite, sgx_fread, sgx_fseek, sgx_ftell and
    sgx_fflush, with a cache of 48 nodes and nodes of any depth of the tree read,
    written, evicted and flushed on the way, ends (no assertion fails, no loop is
    cut short), and every byte that a read returns is the byte written there last,
    whatever nodes the untrusted side gives back for the ones it was asked for and
    whatever it does with writes.  As long as the file has not failed, all results
    are those of the array; over an honest file system it does not fail. *)
Theorem pfs_integrity {honest : bool} {V : View W} {SE : Setting PF G OC g a_local a_cur_key honest V}
    mutex_init name mode key m w w' s ops :
  parse_mode mode = Some m -> om_write m = true -> (honest = true -> name = fname) ->
  sgx_fopen g a_local a_cur_key a_report mutex_init (Some name) (Some mode) key w = (w', Ok s) ->
  Forall op_ok ops -> bytes_of ops < 2 ^ 62 ->
  let spec := spec_ops g ops (MkAfile [] 0 false m) in
  exists s' rs, run_ops g a_local a_cur_key ops s = (s', Ok rs) /\ Forall2 sound rs (snd spec) /\
    (file_status s' = SGX_FILE_STATUS_OK -> rs = snd spec) /\ (honest = true -> file_status s' = SGX_FILE_STATUS_OK).
Proof.
  intros Hp Hm Hfn Ho Hok Hb spec. destruct (fopen_new (V := V) _ _ _ _ _ _ _ _ Hp Hm Hfn Ho) as (Hr & _).
  pose proof (wp_run_ops ops _ s Hr Hok ltac:(cbn; lia)) as Hw. unfold wp in Hw. fold spec in Hw.
  destruct (run_ops _ _ _ ops s) as [s' [rs|e|]]; [|done..]. exists s', rs. split; [done|]. destruct Hw as [(-> & Hr' & _)|([Hh Hst] & Hs)].
  - split; [|split; [done|intros _; by eapply rep_status]]. clear. induction (snd spec) as [|r l IH]; constructor; [apply sound_refl|done].
  - split; [done|]. split; [done|]. intros Ht. congruence.
Qed.

(** C4. Over an honest file system, what any sequence of calls has left in a new
    file is there when it has been closed and is opened again with the same key:
    sgx_fclose succeeds, sgx_fopen in every mode that does not truncate succeeds,
    and every further sequence of calls gives the results of the array of bytes
    with those contents, at the offset 0, or at the end of the file in append
    mode. *)
Theorem pfs_persistence {V : View W} {SE : Setting PF G OC g a_local a_cur_key true V} {KF : KeepsFile OC V}
    mutex_init mode key m w w' s ops :
  parse_mode mode = Some m -> om_write m = true ->
  sgx_fopen g a_local a_cur_key a_report mutex_init (Some fname) (Some mode) (Some key) w = (w', Ok s) ->
  Forall op_ok ops -> bytes_of ops < 2 ^ 62 ->
  let C := a_data (fst (spec_ops g ops (MkAfile [] 0 false m))) in
  exists s' rs w2, run_ops g a_local a_cur_key ops s = (s', Ok rs) /\ sgx_fclose g a_local a_cur_key s' = (w2, Ok 0) /\
    forall mode2 m2 ops2, parse_mode mode2 = Some m2 -> om_write m2 = false -> Forall op_ok ops2 -> zlen C + bytes_of ops2 < 2 ^ 62 ->
    exists w3 s3 s4, sgx_fopen g a_local a_cur_key a_report 0 (Some fname) (Some mode2) (Some key) w2 = (w3, Ok s3) /\
      run_ops g a_local a_cur_key ops2 s3 = (s4, Ok (snd (spec_ops g ops2 (MkAfile C (first_offset m2 C) false m2)))).
Proof.
  intros Hp Hm Ho Hok Hb C. destruct (fopen_new (V := V) _ _ _ _ _ _ _ _ Hp Hm (fun _ => eq_refl) Ho) as (Hr & Hname & Hrep & Hid).
  pose proof (wp_run_ops ops _ s Hr Hok ltac:(cbn; lia)) as Hw. unfold wp in Hw.
  destruct (run_ops _ _ _ ops s) as [s' [rs|e|]]; [|done..]. destruct Hw as [(-> & Hr' & Hid')|([Hh _] & _)]; [|done].
  rewrite Hid in Hid'. unfold ident in Hid'. injection Hid' as Hcn _ _ _ Hk Huk _.
  pose proof (wp_close _ s' Hr' Hk) as Hcl. unfold wp in Hcl.
  destruct (pre_close _ _ _ _ _ s') as [s2 [[b ex]|e|]] eqn:Ecl; [|done..]. destruct Hcl as ([= -> ->] & Hsv). rewrite Hcn, Huk in Hsv.
  exists s', (snd (spec_ops g ops (MkAfile [] 0 false m))), (world s2). split; [done|]. split; [unfold sgx_fclose, sgx_fclose_internal; by rewrite Ecl|].
  intros mode2 m2 ops2 Hp2 Hm2 Hok2 Hb2. destruct (fopen_again _ mode2 m2 key (world s2) Hp2 Hm2 Hname Hrep Hsv) as (w3 & s3 & E3 & Hr3).
  pose proof (wp_run_ops ops2 _ s3 Hr3 Hok2 ltac:(cbn; exact Hb2)) as Hw2. unfold wp in Hw2.
  destruct (run_ops _ _ _ ops2 s3) as [s4 [rs2|e|]] eqn:E4; [|done..]. destruct Hw2 as [(-> & _)|([Hh _] & _)]; [|done]. by exists w3, s3, s4.
Qed.
End Claims.

Module Example_.
Definition buffer : Z := 0x10040000.
Definition hello : list Z := [104; 101; 108; 108; 111].
Definition kdk : list Z := zreplicate 16 42.
Definition ops : list fop := [FWrite buffer hello 1 5; FSeek (-3) SEEK_END; FRead buffer 1 9; FFlush; FTell].

Lemma ops_ok : Forall op_ok ops /\ bytes_of ops < 2 ^ 62.
Proof. split; [|done]. repeat constructor; cbn; lia. Qed.

Abbreviation hostile_ocalls := (Toy.adversary (fun _ => zero_node)).
Abbreviation fopen PF OC := (sgx_fopen (PF := PF) (G := Toy.gcm) (OC := OC) sample_runtime Toy.local Toy.key_at Toy.report_at).

Definition opened {W} (r : W * res Z (protected_fs_file W)) : protected_fs_file W :=
  match snd r with Ok s => s | _ => init_fields (fst r) end.

(** The objects that opening a new file gives *)
Definition hostile_file : protected_fs_file unit :=
  opened (fopen (Toy.platform unit) hostile_ocalls 0 (Some Toy.file_name) (Some (chars "w+")) (Some kdk) tt).
Definition disk_file : protected_fs_file Toy.disk_world :=
  opened (fopen (Toy.platform _) Toy.disk_ocalls 0 (Some Toy.file_name) (Some (chars "w")) (Some kdk) ∅).

Lemma hostile_opened :
  fopen (Toy.platform unit) hostile_ocalls 0 (Some Toy.file_name) (Some (chars "w+")) (Some kdk) tt = (tt, Ok hostile_file).
Proof. vm_compute. reflexivity. Qed.
Lemma disk_opened :
  fopen (Toy.platform _) Toy.disk_ocalls 0 (Some Toy.file_name) (Some (chars "w")) (Some kdk) ∅ = (∅, Ok disk_file).
Proof. vm_compute. reflexivity. Qed.
End Example_.

Lemma node_layout_witness :
  nn_physical_data (get_node_numbers 3072) = 2 /\ nn_physical_data (get_node_numbers (3072 + 96 * 4096)) = 99 /\
  nn_physical_data (get_node_numbers 3072) <> mht_physical 1.
Proof.
  split; [reflexivity|]. split; [reflexivity|].
  apply (node_layout 3072 (3072 + 96 * 4096) 1); unfold MD_USER_DATA_SIZE; lia.
Defined.

Lemma pfs_integrity_witness : exists s' rs,
  run_ops (PF := Toy.platform unit) (G := Toy.gcm) (OC := Example_.hostile_ocalls) sample_runtime Toy.local Toy.key_at
    Example_.ops Example_.hostile_file = (s', Ok rs) /\
  Forall2 sound rs [RWrite 5; RSeek 0; RRead 3 [108; 108; 111]; RFlush 0; RTell 5] /\
  (file_status s' = SGX_FILE_STATUS_OK -> rs = [RWrite 5; RSeek 0; RRead 3 [108; 108; 111]; RFlush 0; RTell 5]).
Proof.
  destruct (pfs_integrity (SE := Toy.hostile (fun _ => zero_node) (fun _ => zero_node_len)) 0 Toy.file_name (chars "w+") (Some Example_.kdk)
    (MkMode false true false false true) tt tt Example_.hostile_file Example_.ops eq_refl eq_refl ltac:(done) Example_.hostile_opened
    (proj1 Example_.ops_ok) (proj2 Example_.ops_ok)) as (s' & rs & E & Hs & Hok & _).
  exists s', rs. split; [exact E|]. split; [exact Hs|exact Hok].
Defined.

Lemma pfs_persistence_witness : exists s' rs w2 w3 s3 s4,
  run_ops (PF := Toy.platform _) (G := Toy.gcm) (OC := Toy.disk_ocalls) sample_runtime Toy.local Toy.key_at
    [FWrite Example_.buffer Example_.hello 1 5] Example_.disk_file = (s', Ok rs) /\
  sgx_fclose (PF := Toy.platform _) (G := Toy.gcm) (OC := Toy.disk_ocalls) sample_runtime Toy.local Toy.key_at s' = (w2, Ok 0) /\
  Example_.fopen (Toy.platform _) Toy.disk_ocalls 0 (Some Toy.file_name) (Some (chars "r")) (Some Example_.kdk) w2 = (w3, Ok s3) /\
  run_ops (PF := Toy.platform _) (G := Toy.gcm) (OC := Toy.disk_ocalls) sample_runtime Toy.local Toy.key_at
    [FRead Example_.buffer 1 9] s3 = (s4, Ok [RRead 5 [104; 101; 108; 108; 111]]).
Proof.
  destruct (pfs_persistence (SE := Toy.sound_disk) (KF := Toy.one_file) 0 (chars "w") Example_.kdk
    (MkMode false true false false false) ∅ ∅ Example_.disk_file [FWrite Example_.buffer Example_.hello 1 5] eq_refl eq_refl Example_.disk_opened)
    as (s' & rs & w2 & E & Ec & H).
  { repeat constructor; cbn; lia. }
  { done. }
  destruct (H (chars "r") (MkMode true false false false false) [FRead Example_.buffer 1 9] eq_refl eq_refl) as (w3 & s3 & s4 & E3 & E4).
  { repeat constructor; cbn; lia. }
  { done. }
  exists s', rs, w2, w3, s3, s4. split; [exact E|]. split; [exact Ec|]. split; [exact E3|exact E4].
Defined.

(** ** A failed read and the order of the cache *)
Module Stale.
(** A file of 14 million bytes, all zero, under a cipher that is the identity
    and tags that are zero. *)
#[export] Instance plain_gcm : AesGcm := {|
  gcm_encrypt _ _ _ pt := pt; gcm_decrypt _ _ _ ct := ct; gcm_tag _ _ _ _ := zreplicate 16 0; cmac _ _ := zreplicate 16 7 |}.
#[export] Instance plain_laws : AesGcmLaws plain_gcm.
Proof. by split. Qed.

Definition size : Z := 14000000.
Definition meta : meta_data_node_t :=
  MkMeta (MkPlain SGX_FILE_ID SGX_FILE_MAJOR_VERSION SGX_FILE_MINOR_VERSION (zreplicate 32 1) (zreplicate 16 0) 0 1
            (zreplicate 16 0) (zreplicate 16 0) 0)
    (enc_bytes (MkEnc (strncpy FILENAME_MAX_LEN Toy.file_name) size (zreplicate 20 0) (zreplicate 16 0) (zreplicate 16 0)
                  (zreplicate MD_USER_DATA_SIZE 0))) (zreplicate 610 0).

(** The data node 3203 cannot be read the first time; [w] tells whether this
    has happened. *)
Definition ocalls : Ocalls bool := {|
  u_exclusive_file_open _ _ w := (w, (SGX_SUCCESS, (1, 3500 * NODE_SIZE, 0))); u_check_if_file_exists _ w := (w, (SGX_SUCCESS, 1));
  u_fread_node _ n w :=
    if (n =? 3203) && negb w then (true, (SGX_SUCCESS, (EIO, []))) else (w, (SGX_SUCCESS, (0, if n =? 0 then meta_bytes meta else zero_node)));
  u_fwrite_node _ _ _ w := (w, (SGX_SUCCESS, 0));
  u_fclose _ w := (w, (SGX_SUCCESS, 0)); u_fflush _ w := (w, (SGX_SUCCESS, 0)); u_remove _ w := (w, (SGX_SUCCESS, 0));
  u_recovery_file_open _ w := (w, (SGX_SUCCESS, 2)); u_fwrite_recovery_node _ _ w := (w, (SGX_SUCCESS, 0));
  u_do_file_recovery _ _ _ w := (w, (SGX_SUCCESS, 0)) |}.

(** A byte of the data node [d] *)
Definition read_at (d : Z) : list fop := [FSeek (3072 + 4096 * d) SEEK_SET; FRead Example_.buffer 1 1].
Definition spoil : list fop := read_at (33 * 96) ++ flat_map read_at (seqZ 0 47).

Definition run (ops : list fop) (w : bool) : bool * res Z (protected_fs_file bool * res unit (list fres)) :=
  match sgx_fopen (PF := Toy.platform bool) (G := plain_gcm) (OC := ocalls) sample_runtime Toy.local Toy.key_at Toy.report_at
          0 (Some Toy.file_name) (Some (chars "r")) (Some Example_.kdk) w with
  | (w', Ok s) => (w', Ok (run_ops (PF := Toy.platform bool) (G := plain_gcm) (OC := ocalls) sample_runtime Toy.local Toy.key_at ops s))
  | (w', Err e) => (w', Err e)
  | (w', Stuck) => (w', Stuck)
  end.
End Stale.

